(** * crypto-backtester: the USD futures engine and the BTC rotation engine

    A shallow embedding of [src/backtester.ts] and [src/btc-backtester.ts]
    (with the helpers of [src/altbtc.ts] the engines call), followed by the
    properties of the simulation and accounting core.

    Numbers.  TypeScript [number]s that carry prices, sizes and P&L are
    modelled as rationals [Q] (exact arithmetic, compared with [==]);
    timestamps, counters and array indices as [Z] / [nat].  An indicator
    value may be [NaN]; it is an [option Q] with [None] for [NaN].  The one
    place where the engines can produce [Infinity] (a profit factor with no
    losses) has its own type.  [Math.sqrt], [Date.now], the UTC calendar and
    [localeCompare] are left to the runtime: they are section variables or
    fields of the [World] a run starts in.

    Rounding.  The engines compute in IEEE doubles.  A value they report is
    the exact one up to rounding, but a comparison against a rounded product
    can go either way within a rounding error of the threshold.  The
    statements below are phrased for the code: a threshold is approached no
    closer than [roundingBand], a zero distance is one between the numbers
    the engine holds, and where rounding itself decides the outcome (the
    Sharpe ratio of equal daily returns) the computation is also given over
    binary64 ([Numbers]).

    Division.  [x / 0] is [0] in [Q] and [Infinity] or [NaN] in TypeScript.
    The position sizing of the USD engine rejects the entry on either
    reading (a size of 0 is not opened); every other statement below is
    about quotients whose divisor is not zero. *)

From Stdlib Require Import List String Ascii ZArith QArith Qabs Qminmax.
From Stdlib Require Import Bool Lia Lqa DecimalString Sorted.
From Stdlib Require PrimFloat Uint63.
Import ListNotations.

Local Open Scope string_scope.
Local Open Scope Z_scope.
Local Open Scope Q_scope.
Local Open Scope list_scope.

(** ** JavaScript numbers and comparisons *)

Definition Qltb (x y : Q) : bool := negb (Qle_bool y x).
Definition Qgtb (x y : Q) : bool := Qltb y x.
Definition Qgeb (x y : Q) : bool := Qle_bool y x.
Definition Qneqb (x y : Q) : bool := negb (Qeq_bool x y).

(** [arr.reduce((s, x) => s + f(x), 0)] *)
Definition sumOf {A : Type} (f : A -> Q) (l : list A) : Q :=
  fold_left (fun s x => s + f x) l 0.

(** A [number] that is either finite or [Infinity]. *)
Inductive ExtNumber : Type :=
| Finite (q : Q)
| Infinity.

(** [`${n}`] for a non-negative integer. *)
Definition showNat (n : nat) : string := NilZero.string_of_uint (Nat.to_uint n).

(** ** JavaScript [Map] and [Set]: insertion ordered *)

Module JsMap.
Section WithKey.
Context {K V : Type} (keq : K -> K -> bool).

Fixpoint get (m : list (K * V)) (k : K) : option V :=
  match m with
  | [] => None
  | (k', v) :: rest => if keq k' k then Some v else get rest k
  end.

(** [set] keeps the position of a key that is already present. *)
Fixpoint set (m : list (K * V)) (k : K) (v : V) : list (K * V) :=
  match m with
  | [] => [(k, v)]
  | (k', v') :: rest =>
      if keq k' k then (k', v) :: rest else (k', v') :: set rest k v
  end.

Definition keys (m : list (K * V)) : list K := map fst m.
End WithKey.
End JsMap.

Module JsSet.
Fixpoint has (s : list Z) (x : Z) : bool :=
  match s with
  | [] => false
  | y :: rest => if Z.eqb y x then true else has rest x
  end.

Definition add (s : list Z) (x : Z) : list Z :=
  if has s x then s else s ++ [x].
End JsSet.

(** [Array.prototype.sort] with a comparator: a stable insertion sort. *)
Section Sort.
Context {A : Type} (cmp : A -> A -> comparison).

Fixpoint sortInsert (x : A) (l : list A) : list A :=
  match l with
  | [] => [x]
  | y :: rest =>
      match cmp x y with
      | Gt => y :: sortInsert x rest
      | _ => x :: y :: rest
      end
  end.

Definition jsSort (l : list A) : list A := fold_right sortInsert [] l.
End Sort.

(** [arr.sort((a, b) => a - b)] on timestamps. *)
Definition sortNumeric (l : list Z) : list Z := jsSort Z.compare l.

(** ** Data model ([src/types.ts]) *)

Record Candle : Type := mkCandle {
  raw_timestamp : Z;
  raw_open : Q;
  raw_high : Q;
  raw_low : Q;
  raw_close : Q;
  raw_volume : Q;
  raw_turnover : Q
}.

(** Of the indicator snapshot the engines read [atr] only; the strategies
    read the rest (the nested MACD, Bollinger, StochRSI and Fibonacci groups
    are left out of the record).  [None] is [NaN]. *)
Record Indicators : Type := mkIndicators {
  ema9 : option Q;
  ema21 : option Q;
  ema50 : option Q;
  ema200 : option Q;
  sma20 : option Q;
  sma50 : option Q;
  rsi : option Q;
  atr : option Q;
  adx : option Q;
  volumeSma : option Q;
  vwap : option Q
}.

Record CandleWithIndicators : Type := mkCandleWithIndicators {
  timestamp : Z;
  open : Q;
  high : Q;
  low : Q;
  close : Q;
  volume : Q;
  turnover : Q;
  indicators : Indicators
}.

(** The snapshot of an enriched candle, under a name the ALT/BTC candle's
    own [indicators] field does not hide. *)
Definition snapshotOf (c : CandleWithIndicators) : Indicators := indicators c.

Inductive Side : Type := long | short.

Definition isLong (s : Side) : bool := match s with long => true | short => false end.
Definition isShort (s : Side) : bool := negb (isLong s).

Record EntrySignal : Type := mkEntrySignal {
  enter : bool;
  sig_stopLoss : Q;
  sig_takeProfit : Q;
  sig_takeProfit2 : option Q;
  sig_reason : string
}.

Record ExitSignal : Type := mkExitSignal {
  exit : bool;
  exit_reason : string
}.

(** [{ [timeframe: string]: CandleWithIndicators[] }] *)
Definition MultiTimeframeData : Type := list (string * list CandleWithIndicators).

Record PartialClose : Type := mkPartialClose {
  pc_price : Q;
  pc_size : Q;
  pc_pnl : Q;
  pc_timestamp : Z;
  pc_reason : string
}.

Inductive Status : Type := open_ | closed.

(** An open position.  The optional [exitTime], [exitPrice], [pnl] and
    [exitReason] of the interface are never set while a position is open;
    they are the mandatory fields of [Trade] below. *)
Record Position : Type := mkPosition {
  id : string;
  symbol : string;
  side : Side;
  entryPrice : Q;
  size : Q;
  leverage : Q;
  stopLoss : Q;
  takeProfit : Q;
  takeProfit2 : option Q;
  entryTime : Z;
  commission : Q;
  status : Status;
  reason : string;
  partialCloses : list PartialClose;
  trailingStop : option Q;
  breakeven : bool;
  tp1Hit : bool
}.

(** [{ ...position, exitTime, exitPrice, pnl, status, exitReason, duration,
    commission }]: [trade_base] is the spread copy, with [commission] and
    [status] overwritten. *)
Record Trade : Type := mkTrade {
  trade_base : Position;
  exitTime : Z;
  exitPrice : Q;
  pnl : Q;
  exitReason : string;
  duration : Z
}.

(** A strategy as one run sees it: what its callbacks answer on their
    arguments.  A callback of the repository can also read a module-level
    variable of its file that no run changes (see [Funding] and
    [sameAnswers] below). *)
Record Strategy : Type := mkStrategy {
  name : string;
  requiredTimeframes : option (list string);
  shouldEnterLong :
    list CandleWithIndicators -> nat -> option MultiTimeframeData -> EntrySignal;
  shouldEnterShort :
    list CandleWithIndicators -> nat -> option MultiTimeframeData -> EntrySignal;
  shouldExit :
    Position -> list CandleWithIndicators -> nat -> option MultiTimeframeData ->
    ExitSignal
}.

Record BacktestConfig : Type := mkBacktestConfig {
  startingCapital : Q;
  cfg_leverage : Q;
  commissionRate : Q;
  slippageRate : Q;
  riskPerTrade : Q;
  maxConcurrentPositions : Z;
  symbols : list string;
  timeframe : string;
  strategy : Strategy
}.

Record MonthlyReturn : Type := mkMonthlyReturn {
  month : string;
  mr_pnl : Q;
  mr_pnlPercent : Q;
  mr_trades : nat;
  mr_winRate : Q
}.

Record SymbolBreakdown : Type := mkSymbolBreakdown {
  sb_symbol : string;
  sb_trades : nat;
  sb_pnl : Q;
  sb_winRate : Q;
  sb_profitFactor : ExtNumber
}.

Record EquityPoint : Type := mkEquityPoint {
  ep_timestamp : Z;
  equity : Q
}.

Record BacktestResult : Type := mkBacktestResult {
  strategyName : string;
  res_leverage : Q;
  trades : list Trade;
  totalTrades : nat;
  wins : nat;
  losses : nat;
  winRate : Q;
  totalPnl : Q;
  totalPnlPercent : Q;
  profitFactor : ExtNumber;
  maxDrawdown : Q;
  maxDrawdownPercent : Q;
  avgWin : Q;
  avgLoss : Q;
  bestTrade : option Trade;
  worstTrade : option Trade;
  avgTradeDuration : Q;
  sharpeRatio : Q;
  monthlyReturns : list MonthlyReturn;
  symbolBreakdown : list SymbolBreakdown;
  equityCurve : list EquityPoint;
  finalEquity : Q;
  res_startingCapital : Q
}.

(** What a run inherits from the process it runs in: the wall clock read by
    [Date.now()] and the module-level [positionCounter] left by earlier
    runs. *)
Record World : Type := mkWorld {
  Date_now : Z;
  positionCounter : nat
}.

(** ** The USD engine ([src/backtester.ts]) *)

Module Usd.

(** In-place updates of a position. *)
Definition withPartialClose (p : Position) (pc : PartialClose) (fee : Q) : Position :=
  mkPosition (id p) (symbol p) (side p) (entryPrice p) (size p) (leverage p)
    (stopLoss p) (takeProfit p) (takeProfit2 p) (entryTime p)
    (commission p + fee) (status p) (reason p) (partialCloses p ++ [pc])
    (trailingStop p) (breakeven p) (tp1Hit p).

Definition withTp1Hit (p : Position) (b : bool) : Position :=
  mkPosition (id p) (symbol p) (side p) (entryPrice p) (size p) (leverage p)
    (stopLoss p) (takeProfit p) (takeProfit2 p) (entryTime p)
    (commission p) (status p) (reason p) (partialCloses p)
    (trailingStop p) (breakeven p) b.

Definition withStopLoss (p : Position) (sl : Q) : Position :=
  mkPosition (id p) (symbol p) (side p) (entryPrice p) (size p) (leverage p)
    sl (takeProfit p) (takeProfit2 p) (entryTime p)
    (commission p) (status p) (reason p) (partialCloses p)
    (trailingStop p) (breakeven p) (tp1Hit p).

Definition withBreakeven (p : Position) (b : bool) : Position :=
  mkPosition (id p) (symbol p) (side p) (entryPrice p) (size p) (leverage p)
    (stopLoss p) (takeProfit p) (takeProfit2 p) (entryTime p)
    (commission p) (status p) (reason p) (partialCloses p)
    (trailingStop p) b (tp1Hit p).

Definition withTrailingStop (p : Position) (ts : Q) : Position :=
  mkPosition (id p) (symbol p) (side p) (entryPrice p) (size p) (leverage p)
    (stopLoss p) (takeProfit p) (takeProfit2 p) (entryTime p)
    (commission p) (status p) (reason p) (partialCloses p)
    (Some ts) (breakeven p) (tp1Hit p).

Definition withCommissionClosed (p : Position) (total : Q) : Position :=
  mkPosition (id p) (symbol p) (side p) (entryPrice p) (size p) (leverage p)
    (stopLoss p) (takeProfit p) (takeProfit2 p) (entryTime p)
    total closed (reason p) (partialCloses p)
    (trailingStop p) (breakeven p) (tp1Hit p).

(** [nextPositionId]: the id, and the counter after [positionCounter++]. *)
Definition nextPositionId (sym : string) (counter : nat) : string * nat :=
  ((sym ++ "-" ++ showNat counter)%string, S counter).

Definition remainingSize (position : Position) : Q :=
  let closed := fold_left (fun sum pc => sum + pc_size pc) (partialCloses position) 0 in
  size position - closed.

Definition partialPnl (position : Position) : Q :=
  fold_left (fun sum pc => sum + pc_pnl pc) (partialCloses position) 0.

Definition unrealisedPnl (position : Position) (currentPrice : Q) : Q :=
  let remSize := remainingSize position in
  let raw :=
    match side position with
    | long => ((currentPrice - entryPrice position) / entryPrice position) * remSize
    | short => ((entryPrice position - currentPrice) / entryPrice position) * remSize
    end in
  raw - commission position + partialPnl position.

Definition closePosition (position : Position) (exitPrice_ : Q) (exitTime_ : Z)
    (exitReason_ : string) (slippageRate_ commissionRate_ : Q) : Trade :=
  let slippedExit :=
    match side position with
    | long => exitPrice_ * (1 - slippageRate_)
    | short => exitPrice_ * (1 + slippageRate_)
    end in
  let remSize := remainingSize position in
  let exitCommission := remSize * commissionRate_ in
  let totalCommission := commission position + exitCommission in
  let pnl0 :=
    match side position with
    | long =>
        ((slippedExit - entryPrice position) / entryPrice position) * remSize
        - totalCommission
    | short =>
        ((entryPrice position - slippedExit) / entryPrice position) * remSize
        - totalCommission
    end in
  let pnl1 := pnl0 + partialPnl position in
  mkTrade (withCommissionClosed position totalCommission)
    exitTime_ slippedExit pnl1 exitReason_ (exitTime_ - entryTime position)%Z.

(** [partialClosePosition] pushes the record onto [position.partialCloses]
    and adds its fee to [position.commission]; the updated position is
    returned next to the record. *)
Definition partialClosePosition (position : Position) (price fraction : Q)
    (timestamp_ : Z) (reason_ : string) (slippageRate_ commissionRate_ : Q)
    : Position * PartialClose :=
  let closeSize := remainingSize position * fraction in
  let slippedPrice :=
    match side position with
    | long => price * (1 - slippageRate_)
    | short => price * (1 + slippageRate_)
    end in
  let fee := closeSize * commissionRate_ in
  let pnl_ :=
    match side position with
    | long =>
        ((slippedPrice - entryPrice position) / entryPrice position) * closeSize - fee
    | short =>
        ((entryPrice position - slippedPrice) / entryPrice position) * closeSize - fee
    end in
  let pc := mkPartialClose slippedPrice closeSize pnl_ timestamp_ reason_ in
  (withPartialClose position pc fee, pc).

(** *** The exit cascade for one open position at one candle *)

Inductive ExitOutcome : Type :=
| Closed (trade : Trade)
| StillOpen (position : Position).

(** [if (closed) continue;] between two rules. *)
Definition unlessClosed (o : ExitOutcome) (next : Position -> ExitOutcome) : ExitOutcome :=
  match o with
  | Closed t => Closed t
  | StillOpen p => next p
  end.

Definition stopLossRule (cfg : BacktestConfig) (candle : CandleWithIndicators)
    (position : Position) : ExitOutcome :=
  if isLong (side position) && Qle_bool (low candle) (stopLoss position) then
    Closed (closePosition position (stopLoss position) (timestamp candle)
              "Stop loss hit" (slippageRate cfg) (commissionRate cfg))
  else if isShort (side position) && Qgeb (high candle) (stopLoss position) then
    Closed (closePosition position (stopLoss position) (timestamp candle)
              "Stop loss hit" (slippageRate cfg) (commissionRate cfg))
  else StillOpen position.

Definition takeProfit1Rule (cfg : BacktestConfig) (candle : CandleWithIndicators)
    (position : Position) : ExitOutcome :=
  if negb (tp1Hit position) then
    let hit :=
      (isLong (side position) && Qgeb (high candle) (takeProfit position))
      || (isShort (side position) && Qle_bool (low candle) (takeProfit position)) in
    if hit then
      let position1 :=
        fst (partialClosePosition position (takeProfit position) (1 # 2)
               (timestamp candle) "TP1 hit — partial close 50%"
               (slippageRate cfg) (commissionRate cfg)) in
      let position2 := withTp1Hit position1 true in
      match takeProfit2 position2 with
      | Some _ =>
          StillOpen (withBreakeven (withStopLoss position2 (entryPrice position2)) true)
      | None =>
          Closed (closePosition position2 (takeProfit position2) (timestamp candle)
                    "TP1 hit — full close" (slippageRate cfg) (commissionRate cfg))
      end
    else StillOpen position
  else StillOpen position.

Definition takeProfit2Rule (cfg : BacktestConfig) (candle : CandleWithIndicators)
    (position : Position) : ExitOutcome :=
  match tp1Hit position, takeProfit2 position with
  | true, Some tp2 =>
      let hit :=
        (isLong (side position) && Qgeb (high candle) tp2)
        || (isShort (side position) && Qle_bool (low candle) tp2) in
      if hit then
        Closed (closePosition position tp2 (timestamp candle)
                  "TP2 hit — full close" (slippageRate cfg) (commissionRate cfg))
      else StillOpen position
  | _, _ => StillOpen position
  end.

Definition strategyExitRule (cfg : BacktestConfig)
    (candles : list CandleWithIndicators) (candleIdx : nat)
    (multiTfData : option MultiTimeframeData) (candle : CandleWithIndicators)
    (position : Position) : ExitOutcome :=
  let exitSignal := shouldExit (strategy cfg) position candles candleIdx multiTfData in
  if exit exitSignal then
    Closed (closePosition position (close candle) (timestamp candle)
              (exit_reason exitSignal) (slippageRate cfg) (commissionRate cfg))
  else StillOpen position.

(** The trailing stop never closes; it only moves [stopLoss]. *)
Definition trailingStopRule (candle : CandleWithIndicators) (position : Position)
    : Position :=
  match atr (indicators candle) with
  | None => position
  | Some atr_ =>
      if Qgtb atr_ 0 then
        match side position with
        | long =>
            let profitDistance := close candle - entryPrice position in
            if Qgeb profitDistance atr_ then
              let newTrail := entryPrice position + (1 # 2) * atr_ in
              let trail :=
                match trailingStop position with
                | None => newTrail
                | Some old => if Qgtb newTrail old then newTrail else old
                end in
              let position1 := withTrailingStop position trail in
              if Qgtb trail (stopLoss position1) then withStopLoss position1 trail
              else position1
            else position
        | short =>
            let profitDistance := entryPrice position - close candle in
            if Qgeb profitDistance atr_ then
              let newTrail := entryPrice position - (1 # 2) * atr_ in
              let trail :=
                match trailingStop position with
                | None => newTrail
                | Some old => if Qltb newTrail old then newTrail else old
                end in
              let position1 := withTrailingStop position trail in
              if Qltb trail (stopLoss position1) then withStopLoss position1 trail
              else position1
            else position
        end
      else position
  end.

Definition checkExit (cfg : BacktestConfig)
    (candles : list CandleWithIndicators) (candleIdx : nat)
    (multiTfData : option MultiTimeframeData) (candle : CandleWithIndicators)
    (position : Position) : ExitOutcome :=
  unlessClosed (stopLossRule cfg candle position) (fun p1 =>
  unlessClosed (takeProfit1Rule cfg candle p1) (fun p2 =>
  unlessClosed (takeProfit2Rule cfg candle p2) (fun p3 =>
  unlessClosed (strategyExitRule cfg candles candleIdx multiTfData candle p3) (fun p4 =>
  StillOpen (trailingStopRule candle p4))))).

(** *** The simulation state and the main loop *)

Record Sim : Type := mkSim {
  sim_equity : Q;
  openPositions : list Position;
  completedTrades : list Trade;
  sim_equityCurve : list EquityPoint;
  sim_counter : nat;
  candleCount : nat
}.

Definition SymbolDataMap : Type := list (string * list CandleWithIndicators).
Definition IndexMaps : Type := list (string * list (Z * nat)).
Definition MultiTfBySymbol : Type := list (string * MultiTimeframeData).

(** a. exits: [for (p = openPositions.length - 1; p >= 0; p--)].  The loop
    walks the ledger from its last position to its first and [splice(p, 1)]
    leaves the positions below [p] where they are: a right fold, in which
    the last position is handled first. *)
Definition checkExits (cfg : BacktestConfig) (sym : string)
    (candles : list CandleWithIndicators) (candleIdx : nat)
    (multiTfData : option MultiTimeframeData) (candle : CandleWithIndicators)
    (positions : list Position) (done : list Trade) : list Position * list Trade :=
  fold_right
    (fun position acc =>
       let '(kept, done1) := acc in
       if negb (String.eqb (symbol position) sym) then (position :: kept, done1)
       else
         match checkExit cfg candles candleIdx multiTfData candle position with
         | Closed trade => (kept, done1 ++ [trade])
         | StillOpen position1 => (position1 :: kept, done1)
         end)
    ([], done) positions.

(** b. entries: [for (const { signal, side } of signals)], with its [break]
    at the concurrency cap and its two [continue]s. *)
Fixpoint openSignals (cfg : BacktestConfig) (sym : string)
    (candle : CandleWithIndicators) (equity_ : Q)
    (signals : list (EntrySignal * Side)) (st : list Position * nat)
    : list Position * nat :=
  match signals with
  | [] => st
  | (signal, side_) :: rest =>
      let '(positions, counter) := st in
      if (Z.of_nat (List.length positions) >=? maxConcurrentPositions cfg)%Z then st
      else
        let riskAmount := equity_ * riskPerTrade cfg in
        let entryPrice_ :=
          match side_ with
          | long => close candle * (1 + slippageRate cfg)
          | short => close candle * (1 - slippageRate cfg)
          end in
        let distanceToSL := Qabs (entryPrice_ - sig_stopLoss signal) in
        if Qeq_bool distanceToSL 0 then openSignals cfg sym candle equity_ rest st
        else
          let positionSize0 := riskAmount / (distanceToSL / entryPrice_) in
          let maxSize := equity_ * cfg_leverage cfg in
          let positionSize :=
            if Qgtb positionSize0 maxSize then maxSize else positionSize0 in
          if Qle_bool positionSize 0 then openSignals cfg sym candle equity_ rest st
          else
            let entryCommission := positionSize * commissionRate cfg in
            let '(newId, counter1) := nextPositionId sym counter in
            let position :=
              mkPosition newId sym side_ entryPrice_ positionSize (cfg_leverage cfg)
                (sig_stopLoss signal) (sig_takeProfit signal) (sig_takeProfit2 signal)
                (timestamp candle) entryCommission open_ (sig_reason signal)
                [] None false false in
            openSignals cfg sym candle equity_ rest (positions ++ [position], counter1)
  end.

Definition checkEntries (cfg : BacktestConfig) (sym : string)
    (candles : list CandleWithIndicators) (candleIdx : nat)
    (multiTfData : option MultiTimeframeData) (candle : CandleWithIndicators)
    (equity_ : Q) (st : list Position * nat) : list Position * nat :=
  if (Z.of_nat (List.length (fst st)) <? maxConcurrentPositions cfg)%Z then
    let longSignal := shouldEnterLong (strategy cfg) candles candleIdx multiTfData in
    let shortSignal := shouldEnterShort (strategy cfg) candles candleIdx multiTfData in
    let signals :=
      (if enter longSignal then [(longSignal, long)] else [])
      ++ (if enter shortSignal then [(shortSignal, short)] else []) in
    openSignals cfg sym candle equity_ signals st
  else st.

(** The body of [for (const [symbol, candles] of symbolDataMap)]. *)
Definition processSymbol (cfg : BacktestConfig) (indexMaps : IndexMaps)
    (multiTfBySymbol : MultiTfBySymbol) (ts : Z) (st : Sim)
    (entry : string * list CandleWithIndicators) : Sim :=
  let '(sym, candles) := entry in
  match JsMap.get String.eqb indexMaps sym with
  | None => st
  | Some indexMap =>
      match JsMap.get Z.eqb indexMap ts with
      | None => st
      | Some candleIdx =>
          match nth_error candles candleIdx with
          | None => st
          | Some candle =>
              let multiTfData := JsMap.get String.eqb multiTfBySymbol sym in
              let '(open1, done1) :=
                checkExits cfg sym candles candleIdx multiTfData candle
                  (openPositions st) (completedTrades st) in
              let '(open2, counter2) :=
                checkEntries cfg sym candles candleIdx multiTfData candle
                  (sim_equity st) (open1, sim_counter st) in
              mkSim (sim_equity st) open2 done1 (sim_equityCurve st) counter2
                (candleCount st)
          end
      end
  end.

(** c. the mark-to-market of the open positions that have a candle at [ts]. *)
Definition unrealisedAt (symbolDataMap : SymbolDataMap) (indexMaps : IndexMaps)
    (ts : Z) (positions : list Position) : Q :=
  fold_left
    (fun unrealised pos =>
       match JsMap.get String.eqb symbolDataMap (symbol pos) with
       | None => unrealised
       | Some candles =>
           match JsMap.get String.eqb indexMaps (symbol pos) with
           | None => unrealised
           | Some indexMap =>
               match JsMap.get Z.eqb indexMap ts with
               | None => unrealised
               | Some idx =>
                   match nth_error candles idx with
                   | None => unrealised
                   | Some c => unrealised + unrealisedPnl pos (close c)
                   end
               end
           end
       end)
    positions 0.

(** The body of [for (const ts of sortedTimestamps)]. *)
Definition processTimestamp (cfg : BacktestConfig) (symbolDataMap : SymbolDataMap)
    (indexMaps : IndexMaps) (multiTfBySymbol : MultiTfBySymbol) (lastTs : Z)
    (st : Sim) (ts : Z) : Sim :=
  let st1 := fold_left (processSymbol cfg indexMaps multiTfBySymbol ts) symbolDataMap st in
  let candleCount1 := S (candleCount st1) in
  if (Nat.eqb (candleCount1 mod 100) 0 || Nat.eqb candleCount1 1 || Z.eqb ts lastTs)%bool
  then
    let realisedPnl := sumOf pnl (completedTrades st1) in
    let unrealised := unrealisedAt symbolDataMap indexMaps ts (openPositions st1) in
    let equity1 := startingCapital cfg + realisedPnl + unrealised in
    mkSim equity1 (openPositions st1) (completedTrades st1)
      (sim_equityCurve st1 ++ [mkEquityPoint ts equity1]) (sim_counter st1) candleCount1
  else
    mkSim (sim_equity st1) (openPositions st1) (completedTrades st1)
      (sim_equityCurve st1) (sim_counter st1) candleCount1.

(** 5. the forced close of what is still open, at the last candle of its
    symbol.  The ledger itself is not emptied. *)
Definition forceClose (cfg : BacktestConfig) (symbolDataMap : SymbolDataMap)
    (positions : list Position) (done : list Trade) : list Trade :=
  fold_left
    (fun done1 position =>
       match JsMap.get String.eqb symbolDataMap (symbol position) with
       | None => done1
       | Some candles =>
           match candles with
           | [] => done1
           | c0 :: _ =>
               let lastCandle := List.last candles c0 in
               done1 ++ [closePosition position (close lastCandle) (timestamp lastCandle)
                           "End of backtest — forced close"
                           (slippageRate cfg) (commissionRate cfg)]
           end
       end)
    positions done.

(** 3. the merged timeline and the per-symbol index maps. *)
Definition collectTimestamps (symbolDataMap : SymbolDataMap) : list Z :=
  fold_left
    (fun set_ entry =>
       fold_left (fun s c => JsSet.add s (timestamp c)) (snd entry) set_)
    symbolDataMap [].

Definition buildIndexMap (candles : list CandleWithIndicators) : list (Z * nat) :=
  snd (fold_left
         (fun acc c => (S (fst acc), JsMap.set Z.eqb (snd acc) (timestamp c) (fst acc)))
         candles (0%nat, [])).

Definition buildIndexMaps (symbolDataMap : SymbolDataMap) : IndexMaps :=
  fold_left
    (fun m entry => JsMap.set String.eqb m (fst entry) (buildIndexMap (snd entry)))
    symbolDataMap [].

Section DataFeed.
(** The market-data provider and the indicator engine. *)
Variable loadCandles : string -> string -> option (list Candle).
Variable calculateIndicators : list Candle -> list CandleWithIndicators.

(** 2. the body of [for (const symbol of symbols)]. *)
Definition loadSymbol (cfg : BacktestConfig)
    (acc : SymbolDataMap * MultiTfBySymbol) (sym : string)
    : SymbolDataMap * MultiTfBySymbol :=
  let '(symbolDataMap, multiTfBySymbol) := acc in
  match loadCandles sym (timeframe cfg) with
  | None => acc
  | Some [] => acc
  | Some rawCandles =>
      let withIndicators := calculateIndicators rawCandles in
      let symbolDataMap1 := JsMap.set String.eqb symbolDataMap sym withIndicators in
      match requiredTimeframes (strategy cfg) with
      | None => (symbolDataMap1, multiTfBySymbol)
      | Some [] => (symbolDataMap1, multiTfBySymbol)
      | Some tfs =>
          let multiTf0 := JsMap.set String.eqb [] (timeframe cfg) withIndicators in
          let multiTf :=
            fold_left
              (fun m tf =>
                 if String.eqb tf (timeframe cfg) then m
                 else
                   match loadCandles sym tf with
                   | None => m
                   | Some [] => m
                   | Some tfCandles =>
                       JsMap.set String.eqb m tf (calculateIndicators tfCandles)
                   end)
              tfs multiTf0 in
          (symbolDataMap1, JsMap.set String.eqb multiTfBySymbol sym multiTf)
      end
  end.

Definition loadData (cfg : BacktestConfig) : SymbolDataMap * MultiTfBySymbol :=
  fold_left (loadSymbol cfg) (symbols cfg) ([], []).

Definition sortedTimestampsOf (cfg : BacktestConfig) : list Z :=
  sortNumeric (collectTimestamps (fst (loadData cfg))).

(** 1. to 4.: the state after the main loop.  The module-level
    [positionCounter] is reset whatever the world left in it. *)
Definition mainLoop (w : World) (cfg : BacktestConfig) : Sim :=
  let positionCounter0 := 0%nat in
  let '(symbolDataMap, multiTfBySymbol) := loadData cfg in
  let sortedTimestamps := sortNumeric (collectTimestamps symbolDataMap) in
  let indexMaps := buildIndexMaps symbolDataMap in
  let lastTs := List.last sortedTimestamps 0%Z in
  fold_left (processTimestamp cfg symbolDataMap indexMaps multiTfBySymbol lastTs)
    sortedTimestamps
    (mkSim (startingCapital cfg) [] [] [] positionCounter0 0%nat).

(** 5. and the final equity point: the trade list and the equity curve
    handed to [calculateResults]. *)
Definition simulate (w : World) (cfg : BacktestConfig)
    : list Trade * list EquityPoint :=
  let st := mainLoop w cfg in
  let sortedTimestamps := sortedTimestampsOf cfg in
  let done := forceClose cfg (fst (loadData cfg)) (openPositions st) (completedTrades st) in
  let finalRealisedPnl := sumOf pnl done in
  let equity1 := startingCapital cfg + finalRealisedPnl in
  let curve := sim_equityCurve st in
  let stale :=
    match curve with
    | [] => true
    | p0 :: _ => Qneqb (equity (List.last curve p0)) equity1
    end in
  if stale then
    let lastTs :=
      match sortedTimestamps with
      | [] => Date_now w
      | t0 :: _ => List.last sortedTimestamps t0
      end in
    (done, curve ++ [mkEquityPoint lastTs equity1])
  else (done, curve).
End DataFeed.

(** *** Results calculation ([calculateResults]) *)

Definition ofNat (n : nat) : Q := inject_Z (Z.of_nat n).

(** [arr.reduce((acc, t) => pick(t, acc) ? t : acc)] without an initial
    value: [null] on the empty list. *)
Definition reducePick (better : Trade -> Trade -> bool) (l : list Trade) : option Trade :=
  match l with
  | [] => None
  | t0 :: rest => Some (fold_left (fun acc t => if better t acc then t else acc) rest t0)
  end.

(** The drawdown scan. *)
Record Drawdown : Type := mkDrawdown {
  dd_maxDrawdown : Q;
  dd_maxDrawdownPercent : Q;
  dd_peak : Q
}.

Definition drawdownStep (st : Drawdown) (point : EquityPoint) : Drawdown :=
  let peak1 := if Qgtb (equity point) (dd_peak st) then equity point else dd_peak st in
  let drawdown := peak1 - equity point in
  if Qgtb drawdown (dd_maxDrawdown st) then
    mkDrawdown drawdown ((drawdown / peak1) * 100) peak1
  else mkDrawdown (dd_maxDrawdown st) (dd_maxDrawdownPercent st) peak1.

Definition drawdownInit (startingCapital_ : Q) (curve : list EquityPoint) : Drawdown :=
  mkDrawdown 0 0
    match curve with
    | [] => startingCapital_
    | p0 :: _ => equity p0
    end.

Definition drawdownScan (startingCapital_ : Q) (curve : list EquityPoint) : Drawdown :=
  fold_left drawdownStep curve (drawdownInit startingCapital_ curve).

(** The daily equity map of the Sharpe computation. *)
Record DayEquity : Type := mkDayEquity {
  day_first : Q;
  day_last : Q
}.

Definition DAY_MS : Z := 86400000.

Definition dayKeyOf (ts : Z) : Z := (ts / DAY_MS * DAY_MS)%Z.

Definition groupByDay (curve : list EquityPoint) : list (Z * DayEquity) :=
  fold_left
    (fun dailyEquity point =>
       let dayKey := dayKeyOf (ep_timestamp point) in
       match JsMap.get Z.eqb dailyEquity dayKey with
       | None =>
           JsMap.set Z.eqb dailyEquity dayKey (mkDayEquity (equity point) (equity point))
       | Some existing =>
           JsMap.set Z.eqb dailyEquity dayKey (mkDayEquity (day_first existing) (equity point))
       end)
    curve [].

(** [for (let i = 1; i < dayKeys.length; i++)], with [prevKey = dayKeys[i - 1]]. *)
Fixpoint dailyReturnsFrom (dailyEquity : list (Z * DayEquity)) (prevKey : Z)
    (rest : list Z) : list Q :=
  match rest with
  | [] => []
  | key :: rest1 =>
      match JsMap.get Z.eqb dailyEquity prevKey, JsMap.get Z.eqb dailyEquity key with
      | Some prev, Some curr =>
          let prevEquity := day_last prev in
          let currEquity := day_last curr in
          if Qneqb prevEquity 0 then
            ((currEquity - prevEquity) / prevEquity)
              :: dailyReturnsFrom dailyEquity key rest1
          else dailyReturnsFrom dailyEquity key rest1
      | _, _ => dailyReturnsFrom dailyEquity key rest1
      end
  end.

Definition dailyReturnsOf (curve : list EquityPoint) : list Q :=
  let dailyEquity := groupByDay curve in
  match sortNumeric (JsMap.keys dailyEquity) with
  | [] => []
  | k0 :: rest => dailyReturnsFrom dailyEquity k0 rest
  end.

Definition meanOf (rs : list Q) : Q := sumOf (fun r => r) rs / ofNat (List.length rs).

Definition varianceOf (rs : list Q) : Q :=
  fold_left (fun s r => s + (r - meanOf rs) ^ 2) rs 0 / (ofNat (List.length rs) - 1).

(** The monthly and the per-symbol accumulators. *)
Record MonthAcc : Type := mkMonthAcc {
  ma_pnl : Q;
  ma_trades : nat;
  ma_wins : nat
}.

Record SymbolAcc : Type := mkSymbolAcc {
  sa_trades : nat;
  sa_pnl : Q;
  sa_wins : nat;
  sa_winPnl : Q;
  sa_lossPnl : Q
}.

Definition ratioPercent (num den : nat) : Q :=
  if (0 <? den)%nat then (ofNat num / ofNat den) * 100 else 0.

Section Runtime.
(** [Math.sqrt]; the [YYYY-MM] of a timestamp in UTC; [a.localeCompare(b)]. *)
Variable Math_sqrt : Q -> Q.
Variable utcMonthKey : Z -> string.
Variable localeCompare : string -> string -> comparison.

Definition sharpeRatioOf (curve : list EquityPoint) : Q :=
  if (1 <? List.length curve)%nat then
    let dailyReturns := dailyReturnsOf curve in
    if (1 <? List.length dailyReturns)%nat then
      let meanReturn := meanOf dailyReturns in
      let variance := varianceOf dailyReturns in
      let stdDev := Math_sqrt variance in
      if Qgtb stdDev 0 then (meanReturn / stdDev) * Math_sqrt 365 else 0
    else 0
  else 0.

Definition monthlyReturnsOf (startingCapital_ : Q) (trades_ : list Trade)
    : list MonthlyReturn :=
  let monthlyMap :=
    fold_left
      (fun m trade =>
         let monthKey := utcMonthKey (exitTime trade) in
         let entry :=
           match JsMap.get String.eqb m monthKey with
           | Some e => e
           | None => mkMonthAcc 0 0 0
           end in
         JsMap.set String.eqb m monthKey
           (mkMonthAcc (ma_pnl entry + pnl trade) (S (ma_trades entry))
              (if Qgtb (pnl trade) 0 then S (ma_wins entry) else ma_wins entry)))
      trades_ [] in
  map
    (fun kv =>
       mkMonthlyReturn (fst kv) (ma_pnl (snd kv))
         ((ma_pnl (snd kv) / startingCapital_) * 100)
         (ma_trades (snd kv))
         (ratioPercent (ma_wins (snd kv)) (ma_trades (snd kv))))
    (jsSort (fun a b => localeCompare (fst a) (fst b)) monthlyMap).

Definition symbolBreakdownOf (trades_ : list Trade) : list SymbolBreakdown :=
  let symbolMap :=
    fold_left
      (fun m trade =>
         let key := symbol (trade_base trade) in
         let entry :=
           match JsMap.get String.eqb m key with
           | Some e => e
           | None => mkSymbolAcc 0 0 0 0 0
           end in
         JsMap.set String.eqb m key
           (if Qgtb (pnl trade) 0 then
              mkSymbolAcc (S (sa_trades entry)) (sa_pnl entry + pnl trade)
                (S (sa_wins entry)) (sa_winPnl entry + pnl trade) (sa_lossPnl entry)
            else
              mkSymbolAcc (S (sa_trades entry)) (sa_pnl entry + pnl trade)
                (sa_wins entry) (sa_winPnl entry)
                (sa_lossPnl entry + Qabs (pnl trade))))
      trades_ [] in
  map
    (fun kv =>
       mkSymbolBreakdown (fst kv) (sa_trades (snd kv)) (sa_pnl (snd kv))
         (ratioPercent (sa_wins (snd kv)) (sa_trades (snd kv)))
         (if Qeq_bool (sa_lossPnl (snd kv)) 0 then Infinity
          else Finite (sa_winPnl (snd kv) / sa_lossPnl (snd kv))))
    (jsSort (fun a b => localeCompare (fst a) (fst b)) symbolMap).

Definition calculateResults (cfg : BacktestConfig) (trades_ : list Trade)
    (equityCurve_ : list EquityPoint) : BacktestResult :=
  let totalTrades_ := List.length trades_ in
  let wins_ := List.length (filter (fun t => Qgtb (pnl t) 0) trades_) in
  let losses_ := List.length (filter (fun t => Qle_bool (pnl t) 0) trades_) in
  let winRate_ := ratioPercent wins_ totalTrades_ in
  let totalPnl_ := sumOf pnl trades_ in
  let totalPnlPercent_ := (totalPnl_ / startingCapital cfg) * 100 in
  let winningPnls := map pnl (filter (fun t => Qgtb (pnl t) 0) trades_) in
  let losingPnls := map pnl (filter (fun t => Qle_bool (pnl t) 0) trades_) in
  let sumWins := sumOf (fun p => p) winningPnls in
  let sumLosses := Qabs (sumOf (fun p => p) losingPnls) in
  let profitFactor_ :=
    if Qeq_bool sumLosses 0 then Infinity else Finite (sumWins / sumLosses) in
  let avgWin_ :=
    if (0 <? List.length winningPnls)%nat
    then sumWins / ofNat (List.length winningPnls) else 0 in
  let avgLoss_ :=
    if (0 <? List.length losingPnls)%nat
    then sumOf (fun p => p) losingPnls / ofNat (List.length losingPnls) else 0 in
  let bestTrade_ := reducePick (fun t best => Qgtb (pnl t) (pnl best)) trades_ in
  let worstTrade_ := reducePick (fun t worst => Qltb (pnl t) (pnl worst)) trades_ in
  let avgTradeDuration_ :=
    if (0 <? List.length trades_)%nat
    then inject_Z (fold_left (fun sum t => (sum + duration t)%Z) trades_ 0%Z)
         / ofNat (List.length trades_)
    else 0 in
  let dd := drawdownScan (startingCapital cfg) equityCurve_ in
  let finalEquity_ := startingCapital cfg + totalPnl_ in
  mkBacktestResult (name (strategy cfg)) (cfg_leverage cfg) trades_ totalTrades_
    wins_ losses_ winRate_ totalPnl_ totalPnlPercent_ profitFactor_
    (dd_maxDrawdown dd) (dd_maxDrawdownPercent dd) avgWin_ avgLoss_
    bestTrade_ worstTrade_ avgTradeDuration_ (sharpeRatioOf equityCurve_)
    (monthlyReturnsOf (startingCapital cfg) trades_) (symbolBreakdownOf trades_)
    equityCurve_ finalEquity_ (startingCapital cfg).

Section Run.
Variable loadCandles : string -> string -> option (list Candle).
Variable calculateIndicators : list Candle -> list CandleWithIndicators.

Definition runBacktest (w : World) (cfg : BacktestConfig) : BacktestResult :=
  let '(trades_, equityCurve_) := simulate loadCandles calculateIndicators w cfg in
  calculateResults cfg trades_ equityCurve_.
End Run.
End Runtime.

End Usd.

(** ** The Sharpe ratio over either arithmetic

    The engine computes in IEEE doubles and the model above in exact
    rationals; the two agree up to rounding wherever rounding does not decide
    a comparison.  The Sharpe ratio is where it does: the guard
    [stdDev > 0] sees the rounding residue of the variance.  Its computation
    is therefore given once more, over an arithmetic that is a parameter:
    over the rationals it is [Usd.sharpeRatioOf], over binary64
    ([PrimFloat], the [number] of the engine) it is what the engine
    computes.  [x ** 2] is the product [x * x]. *)

Module Numbers.

Record Arith (N : Type) : Type := mkArith {
  num_zero : N;
  num_ofNat : nat -> N;
  num_add : N -> N -> N;
  num_sub : N -> N -> N;
  num_mul : N -> N -> N;
  num_div : N -> N -> N;
  num_sqrt : N -> N;
  num_gt : N -> N -> bool;
  num_neq : N -> N -> bool
}.

Arguments num_zero {N}.
Arguments num_ofNat {N}.
Arguments num_add {N}.
Arguments num_sub {N}.
Arguments num_mul {N}.
Arguments num_div {N}.
Arguments num_sqrt {N}.
Arguments num_gt {N}.
Arguments num_neq {N}.

(** Exact arithmetic, with [Math.sqrt] left to the runtime. *)
Definition rationals (Math_sqrt : Q -> Q) : Arith Q :=
  mkArith Q 0 Usd.ofNat Qplus Qminus Qmult Qdiv Math_sqrt Qgtb Qneqb.


Definition doubleOf (q : Q) : PrimFloat.float :=
  PrimFloat.div (PrimFloat.of_uint63 (Uint63.of_Z (Qnum q)))
    (PrimFloat.of_uint63 (Uint63.of_Z (Zpos (Qden q)))).


Section SharpeOver.
Context {N : Type} (A : Arith N).

(** The Sharpe block of [calculateResults], on samples (timestamp, equity);
    a day of the map is the pair (first, last). *)
Definition groupByDay (curve : list (Z * N)) : list (Z * (N * N)) :=
  fold_left
    (fun dailyEquity point =>
       let dayKey := Usd.dayKeyOf (fst point) in
       match JsMap.get Z.eqb dailyEquity dayKey with
       | None => JsMap.set Z.eqb dailyEquity dayKey (snd point, snd point)
       | Some existing => JsMap.set Z.eqb dailyEquity dayKey (fst existing, snd point)
       end)
    curve [].

Fixpoint dailyReturnsFrom (dailyEquity : list (Z * (N * N))) (prevKey : Z)
    (rest : list Z) : list N :=
  match rest with
  | [] => []
  | key :: rest1 =>
      match JsMap.get Z.eqb dailyEquity prevKey, JsMap.get Z.eqb dailyEquity key with
      | Some prev, Some curr =>
          let prevEquity := snd prev in
          let currEquity := snd curr in
          if num_neq A prevEquity (num_zero A) then
            num_div A (num_sub A currEquity prevEquity) prevEquity
              :: dailyReturnsFrom dailyEquity key rest1
          else dailyReturnsFrom dailyEquity key rest1
      | _, _ => dailyReturnsFrom dailyEquity key rest1
      end
  end.

Definition dailyReturnsOf (curve : list (Z * N)) : list N :=
  let dailyEquity := groupByDay curve in
  match sortNumeric (JsMap.keys dailyEquity) with
  | [] => []
  | k0 :: rest => dailyReturnsFrom dailyEquity k0 rest
  end.

Definition sharpeRatioOf (curve : list (Z * N)) : N :=
  if (1 <? List.length curve)%nat then
    let dailyReturns := dailyReturnsOf curve in
    if (1 <? List.length dailyReturns)%nat then
      let count := num_ofNat A (List.length dailyReturns) in
      let meanReturn :=
        num_div A (fold_left (fun s r => num_add A s r) dailyReturns (num_zero A)) count in
      let variance :=
        num_div A
          (fold_left
             (fun s r =>
                num_add A s (num_mul A (num_sub A r meanReturn) (num_sub A r meanReturn)))
             dailyReturns (num_zero A))
          (num_sub A count (num_ofNat A 1)) in
      let stdDev := num_sqrt A variance in
      if num_gt A stdDev (num_zero A) then
        num_mul A (num_div A meanReturn stdDev) (num_sqrt A (num_ofNat A 365))
      else num_zero A
    else num_zero A
  else num_zero A.
End SharpeOver.

End Numbers.

(** ** The BTC engine ([src/btc-backtester.ts], [src/altbtc.ts]) *)

Module Btc.

Record FundingRate : Type := mkFundingRate {
  fr_symbol : string;
  fundingRate : Q;
  fundingRateTimestamp : Z
}.

Record AltBtcCandle : Type := mkAltBtcCandle {
  timestamp : Z;
  altSymbol : string;
  open : Q;
  high : Q;
  low : Q;
  close : Q;
  volume : Q;
  turnover : Q;
  altUsdtPrice : Q;
  btcUsdtPrice : Q;
  indicators : Indicators;
  altFundingRate : option Q
}.

(** As for the USD engine, the optional exit fields of the interface live
    in [BtcTrade]. *)
Record BtcPosition : Type := mkBtcPosition {
  id : string;
  pos_altSymbol : string;
  entryRatio : Q;
  btcAllocated : Q;
  entryTime : Z;
  status : Status;
  reason : string;
  tp1Hit : bool;
  leverage : Q
}.

Record BtcTrade : Type := mkBtcTrade {
  trade_base : BtcPosition;
  exitTime : Z;
  exitRatio : Q;
  btcPnl : Q;
  exitReason : string;
  duration : Z
}.

Record BtcEquityPoint : Type := mkBtcEquityPoint {
  ep_timestamp : Z;
  btcEquity : Q;
  usdtEquity : Q
}.

Record AltBreakdown : Type := mkAltBreakdown {
  ab_symbol : string;
  ab_trades : nat;
  ab_btcPnl : Q;
  ab_winRate : Q
}.

Record BtcBacktestResult : Type := mkBtcBacktestResult {
  strategyName : string;
  startingBtc : Q;
  finalBtc : Q;
  btcProfit : Q;
  btcProfitPercent : Q;
  startBtcPrice : Q;
  endBtcPrice : Q;
  usdtValueStart : Q;
  usdtValueEnd : Q;
  holdOnlyUsdtEnd : Q;
  totalTrades : nat;
  wins : nat;
  losses : nat;
  winRate : Q;
  avgHoldTime : Q;
  bestTrade : option BtcTrade;
  worstTrade : option BtcTrade;
  trades : list BtcTrade;
  equityCurve : list BtcEquityPoint;
  perAltBreakdown : list AltBreakdown
}.

Record BtcEntrySignal : Type := mkBtcEntrySignal {
  enter : bool;
  stopLossRatio : Q;
  tp1Ratio : Q;
  tp2Ratio : Q;
  btcAllocation : Q;
  entry_reason : string
}.

Record BtcExitSignal : Type := mkBtcExitSignal {
  exit : bool;
  sellFraction : Q;
  exit_reason : string
}.

Record BtcStrategy : Type := mkBtcStrategy {
  name : string;
  strat_leverage : Q;
  shouldEnter : list AltBtcCandle -> nat -> Q -> BtcEntrySignal;
  shouldExit : BtcPosition -> list AltBtcCandle -> nat -> Q -> BtcExitSignal
}.

Definition ALT_SYMBOLS : list string :=
  ["ETHUSDT"; "SOLUSDT"; "BNBUSDT"; "XRPUSDT";
   "ADAUSDT"; "DOGEUSDT"; "AVAXUSDT"; "LINKUSDT"; "SUIUSDT"]%string.

(** *** Constants *)

Definition STARTING_BTC : Q := 5 # 100.
Definition MAX_CONCURRENT_POSITIONS : nat := 3.
Definition STOP_LOSS_PCT : Q := 15 # 100.
Definition TP1_PCT : Q := 30 # 100.
Definition TP2_PCT : Q := 50 # 100.
Definition TP1_SELL_FRACTION : Q := 50 # 100.
Definition MAX_HOLD_MS : Z := 14 * 86400000.
Definition DOMINANCE_TREND_THRESHOLD : Q := 2.
Definition MIN_BTC_ALLOCATION : Q := 1 # 10000.
Definition EQUITY_RECORD_INTERVAL : nat := 10.
Definition SPOT_COMMISSION_RATE : Q := 1 # 1000.
Definition FUTURES_COMMISSION_RATE : Q := 6 # 10000.

Definition AltCandleMap : Type := list (string * list AltBtcCandle).

(** *** [src/altbtc.ts] *)

(** [while (lo < hi)] of the two closest-index searches: the first index
    whose key is not below [target].  Every turn shrinks [hi - lo], so the
    callers' fuel (the length of the array) is never used up. *)
Fixpoint lowerBound (keyAt : Z -> Z) (target : Z) (fuel : nat) (lo hi : Z) : Z :=
  match fuel with
  | O => lo
  | S fuel1 =>
      if (lo <? hi)%Z then
        let mid := Z.shiftr (lo + hi) 1 in
        if (keyAt mid <? target)%Z then lowerBound keyAt target fuel1 (mid + 1)%Z hi
        else lowerBound keyAt target fuel1 lo mid
      else lo
  end.

(** [arr[i]] for an index that is in range. *)
Definition keyAtOf (keys : list Z) (i : Z) : Z := nth (Z.to_nat i) keys 0%Z.

(** [binarySearchClosest] and [findClosestCandleIndex] run the same code,
    one on timestamps, one on candles; [-1] on an empty array. *)
Definition closestIndex (keys : list Z) (target : Z) : Z :=
  match keys with
  | [] => (-1)%Z
  | _ =>
      let len := Z.of_nat (List.length keys) in
      let lo := lowerBound (keyAtOf keys) target (List.length keys) 0%Z (len - 1)%Z in
      if (lo =? 0)%Z then 0%Z
      else if (lo >=? len)%Z then (len - 1)%Z
      else
        let diffLo := Z.abs (keyAtOf keys lo - target) in
        let diffPrev := Z.abs (keyAtOf keys (lo - 1) - target) in
        if (diffPrev <=? diffLo)%Z then (lo - 1)%Z else lo
  end.

Definition binarySearchClosest (sortedArr : list Z) (target : Z) : Z :=
  closestIndex sortedArr target.

Definition findClosestCandleIndex (candles : list AltBtcCandle) (target : Z) : Z :=
  closestIndex (map timestamp candles) target.

Definition calculateAvgRatioTrend (allAltCandles : AltCandleMap) (timestamp_ : Z)
    (lookbackDays : Z) : Q :=
  let lookbackMs := (lookbackDays * 86400000)%Z in
  let startTimestamp := (timestamp_ - lookbackMs)%Z in
  let '(totalPctChange, count) :=
    fold_left
      (fun acc entry =>
         let candles := snd entry in
         match candles with
         | [] => acc
         | _ =>
             let startIdx := findClosestCandleIndex candles startTimestamp in
             let endIdx := findClosestCandleIndex candles timestamp_ in
             if ((startIdx <? 0) || (endIdx <? 0))%Z%bool then acc
             else
               match nth_error candles (Z.to_nat startIdx),
                     nth_error candles (Z.to_nat endIdx) with
               | Some cs, Some ce =>
                   let startRatio := close cs in
                   let endRatio := close ce in
                   if Qeq_bool startRatio 0 then acc
                   else
                     let pctChange := ((endRatio - startRatio) / startRatio) * 100 in
                     (fst acc + pctChange, S (snd acc))
               | _, _ => acc
               end
         end)
      allAltCandles (0, 0%nat) in
  match count with
  | O => 0
  | _ => totalPctChange / inject_Z (Z.of_nat count)
  end.

Record RatioRow : Type := mkRatioRow {
  rr_timestamp : Z;
  rr_open : Q;
  rr_high : Q;
  rr_low : Q;
  rr_close : Q;
  rr_volume : Q;
  rr_turnover : Q;
  rr_altUsdtPrice : Q;
  rr_btcUsdtPrice : Q
}.

Section AltFeed.
(** The market-data provider and the indicator engine. *)
Variable loadCandles : string -> string -> option (list Candle).
Variable loadFundingRates : string -> option (list FundingRate).
Variable calculateIndicators : list Candle -> list CandleWithIndicators.

Definition ratioRowOf (alt btc : Candle) : RatioRow :=
  mkRatioRow (raw_timestamp alt)
    (raw_open alt / raw_open btc)
    (raw_high alt / raw_low btc)
    (raw_low alt / raw_high btc)
    (raw_close alt / raw_close btc)
    (raw_volume alt) (raw_turnover alt) (raw_close alt) (raw_close btc).

Definition attachFunding (fundingRates : list FundingRate) (c : AltBtcCandle)
    : AltBtcCandle :=
  let frTimestamps := map fundingRateTimestamp fundingRates in
  let idx := binarySearchClosest frTimestamps (timestamp c) in
  if ((idx >=? 0) && (idx <? Z.of_nat (List.length fundingRates)))%Z%bool then
    match nth_error fundingRates (Z.to_nat idx) with
    | Some fr =>
        mkAltBtcCandle (timestamp c) (altSymbol c) (open c) (high c) (low c) (close c)
          (volume c) (turnover c) (altUsdtPrice c) (btcUsdtPrice c) (indicators c)
          (Some (fundingRate fr))
    | None => c
    end
  else c.

(** [null] is [None].  The indicator engine answers one snapshot per
    candle; the rows and the snapshots are paired in order. *)
Definition buildAltBtcCandles (altSymbol_ timeframe_ : string)
    : option (list AltBtcCandle) :=
  match loadCandles "BTCUSDT" timeframe_, loadCandles altSymbol_ timeframe_ with
  | Some (b0 :: bs), Some (a0 :: as_) =>
      let btcMap :=
        fold_left (fun m c => JsMap.set Z.eqb m (raw_timestamp c) c) (b0 :: bs) [] in
      let ratioRows :=
        flat_map
          (fun alt =>
             match JsMap.get Z.eqb btcMap (raw_timestamp alt) with
             | None => []
             | Some btc =>
                 if (Qeq_bool (raw_open btc) 0 || Qeq_bool (raw_close btc) 0
                     || Qeq_bool (raw_high btc) 0 || Qeq_bool (raw_low btc) 0)%bool
                 then []
                 else [ratioRowOf alt btc]
             end)
          (a0 :: as_) in
      match ratioRows with
      | [] => None
      | _ =>
          let sorted :=
            jsSort (fun a b => Z.compare (rr_timestamp a) (rr_timestamp b)) ratioRows in
          let dummyCandles :=
            map (fun r => mkCandle (rr_timestamp r) (rr_open r) (rr_high r) (rr_low r)
                            (rr_close r) (rr_volume r) (rr_turnover r)) sorted in
          let candlesWithIndicators := calculateIndicators dummyCandles in
          let result :=
            map (fun ri =>
                   let r := fst ri in
                   mkAltBtcCandle (rr_timestamp r) altSymbol_ (rr_open r) (rr_high r)
                     (rr_low r) (rr_close r) (rr_volume r) (rr_turnover r)
                     (rr_altUsdtPrice r) (rr_btcUsdtPrice r)
                     (snapshotOf (snd ri)) None)
                (combine sorted candlesWithIndicators) in
          match loadFundingRates altSymbol_ with
          | Some (f0 :: fs) => Some (map (attachFunding (f0 :: fs)) result)
          | _ => Some result
          end
      end
  | _, _ => None
  end.

Definition buildAllAltBtcCandles (timeframe_ : string) : AltCandleMap :=
  fold_left
    (fun result sym =>
       match buildAltBtcCandles sym timeframe_ with
       | Some (c0 :: cs) => JsMap.set String.eqb result sym (c0 :: cs)
       | _ => result
       end)
    ALT_SYMBOLS [].
End AltFeed.

(** *** Internal helpers of [src/btc-backtester.ts] *)

Definition calculateBtcReturn (btcAllocated_ entryRatio_ exitRatio_ leverage_
    commissionRate_ : Q) : Q :=
  if Qeq_bool entryRatio_ 0 then 0
  else
    let ratioChange := exitRatio_ / entryRatio_ in
    let grossReturn :=
      if Qle_bool leverage_ 1 then btcAllocated_ * ratioChange
      else
        let g := btcAllocated_ * (1 + leverage_ * (ratioChange - 1)) in
        if Qltb g 0 then 0 else g in
    let notional :=
      if Qle_bool leverage_ 1 then btcAllocated_ else btcAllocated_ * leverage_ in
    let totalCommission := notional * commissionRate_ * 2 in
    let netReturn := grossReturn - totalCommission in
    Qmax netReturn 0.

Definition getCloseBtcReturn (pos : BtcPosition) (exitRatio_ leverage_
    commissionRate_ : Q) : Q :=
  calculateBtcReturn (btcAllocated pos) (entryRatio pos) exitRatio_ leverage_
    commissionRate_.

Definition markClosed (pos : BtcPosition) : BtcPosition :=
  mkBtcPosition (id pos) (pos_altSymbol pos) (entryRatio pos) (btcAllocated pos)
    (entryTime pos) closed (reason pos) (tp1Hit pos) (leverage pos).

(** [closePosition]: the trade pushed onto [completedTrades]. *)
Definition closePosition (pos : BtcPosition) (exitRatio_ : Q) (exitTime_ : Z)
    (exitReason_ : string) (leverage_ commissionRate_ : Q) : BtcTrade :=
  let btcReturned :=
    calculateBtcReturn (btcAllocated pos) (entryRatio pos) exitRatio_ leverage_
      commissionRate_ in
  let btcPnl_ := btcReturned - btcAllocated pos in
  mkBtcTrade (markClosed pos) exitTime_ exitRatio_ btcPnl_ exitReason_
    (exitTime_ - entryTime pos)%Z.

(** [while (lo <= hi)] of [findRatioAtTimestamp]: the last index whose
    timestamp is not above the target, [-1] if there is none. *)
Fixpoint lastAtOrBefore (keyAt : Z -> Z) (target : Z) (fuel : nat)
    (lo hi bestIdx : Z) : Z :=
  match fuel with
  | O => bestIdx
  | S fuel1 =>
      if (lo <=? hi)%Z then
        let mid := Z.shiftr (lo + hi) 1 in
        if (keyAt mid <=? target)%Z then
          lastAtOrBefore keyAt target fuel1 (mid + 1)%Z hi mid
        else lastAtOrBefore keyAt target fuel1 lo (mid - 1)%Z bestIdx
      else bestIdx
  end.

Definition findRatioAtTimestamp (candles : list AltBtcCandle) (timestamp_ : Z) : Q :=
  match candles with
  | [] => 0
  | c0 :: _ =>
      let keys := map timestamp candles in
      let bestIdx :=
        lastAtOrBefore (keyAtOf keys) timestamp_ (S (List.length candles))
          0%Z (Z.of_nat (List.length candles) - 1)%Z (-1)%Z in
      if (bestIdx <? 0)%Z then close c0
      else close (nth (Z.to_nat bestIdx) candles c0)
  end.

Definition isOpen (pos : BtcPosition) : bool :=
  match status pos with open_ => true | closed => false end.

Definition calculateTotalEquity (availableBtc : Q) (openPositions : list BtcPosition)
    (allAltCandles : AltCandleMap) (timestamp_ : Z) : Q :=
  fold_left
    (fun total pos =>
       if negb (isOpen pos) then total
       else
         match JsMap.get String.eqb allAltCandles (pos_altSymbol pos) with
         | None => total + btcAllocated pos
         | Some [] => total + btcAllocated pos
         | Some altCandles =>
             let currentRatio := findRatioAtTimestamp altCandles timestamp_ in
             if (Qle_bool currentRatio 0 || Qle_bool (entryRatio pos) 0)%bool then
               total + btcAllocated pos
             else
               let ratioChange := currentRatio / entryRatio pos in
               if Qle_bool (leverage pos) 1 then total + btcAllocated pos * ratioChange
               else
                 let mtm := btcAllocated pos * (1 + leverage pos * (ratioChange - 1)) in
                 total + Qmax mtm 0
         end)
    openPositions availableBtc.

Definition buildAltBreakdown (trades_ : list BtcTrade) : list AltBreakdown :=
  let grouped :=
    fold_left
      (fun m t =>
         let key := pos_altSymbol (trade_base t) in
         match JsMap.get String.eqb m key with
         | Some existing => JsMap.set String.eqb m key (existing ++ [t])
         | None => JsMap.set String.eqb m key [t]
         end)
      trades_ [] in
  let breakdown :=
    map
      (fun kv =>
         let altTrades := snd kv in
         let wins_ := List.length (filter (fun t => Qgtb (btcPnl t) 0) altTrades) in
         let totalPnl_ := sumOf btcPnl altTrades in
         mkAltBreakdown (fst kv) (List.length altTrades) totalPnl_
           (if (0 <? List.length altTrades)%nat
            then (inject_Z (Z.of_nat wins_) / inject_Z (Z.of_nat (List.length altTrades))) * 100
            else 0))
      grouped in
  jsSort (fun a b => Qcompare (ab_btcPnl b) (ab_btcPnl a)) breakdown.

Definition emptyResult (strategyName_ : string) : BtcBacktestResult :=
  mkBtcBacktestResult strategyName_ STARTING_BTC STARTING_BTC 0 0 0 0 0 0 0
    0%nat 0%nat 0%nat 0 0 None None [] [] [].

(** *** The simulation state and the main loop *)

(** A ghost record of one partial sale (the slice of the allocation sold and
    the BTC credited for it).  The engine keeps no such record; the field
    [partialSales] below exists for the accounting statements only and no
    other field is computed from it. *)
Record PartialSale : Type := mkPartialSale {
  ps_sold : Q;
  ps_returned : Q
}.

Record Sim : Type := mkSim {
  availableBtc : Q;
  openPositions : list BtcPosition;
  completedTrades : list BtcTrade;
  sim_equityCurve : list BtcEquityPoint;
  positionCounter : nat;
  sim_startBtcPrice : Q;
  sim_endBtcPrice : Q;
  candelCounter : nat;
  partialSales : list PartialSale
}.

(** What the exit cascade decides for one position. *)
Inductive ExitAction : Type :=
| FullClose (exitReason_ : string)
| SellPart (sold : Q) (markTp1 : bool)
| Hold.

(** [currentRatio <= pos.entryRatio * (1 - STOP_LOSS_PCT)] *)
Definition stopLossRule (pos : BtcPosition) (currentRatio : Q) : bool :=
  Qle_bool currentRatio (entryRatio pos * (1 - STOP_LOSS_PCT)).

Definition exitAction (strategy_ : BtcStrategy) (avgRatioTrend7d avgRatioTrend1d : Q)
    (altCandles : list AltBtcCandle) (candleIdx : nat) (timestamp_ : Z)
    (currentRatio : Q) (pos : BtcPosition) : ExitAction :=
  if stopLossRule pos currentRatio then FullClose "stop_loss"
  else if Qgtb avgRatioTrend1d DOMINANCE_TREND_THRESHOLD then FullClose "btc_dominance_drop"
  else if (negb (tp1Hit pos) && Qgeb currentRatio (entryRatio pos * (1 + TP1_PCT)))%bool
  then SellPart (btcAllocated pos * TP1_SELL_FRACTION) true
  else if (tp1Hit pos && Qgeb currentRatio (entryRatio pos * (1 + TP2_PCT)))%bool
  then FullClose "tp2"
  else if (timestamp_ - entryTime pos >=? MAX_HOLD_MS)%Z then FullClose "max_hold_timeout"
  else
    let exitSignal := shouldExit strategy_ pos altCandles candleIdx avgRatioTrend7d in
    if exit exitSignal then
      let fraction :=
        if (Qgtb (sellFraction exitSignal) 0 && Qle_bool (sellFraction exitSignal) 1)%bool
        then sellFraction exitSignal else 1 in
      if Qgeb fraction 1 then FullClose (exit_reason exitSignal)
      else SellPart (btcAllocated pos * fraction) false
    else Hold.

Definition afterSale (pos : BtcPosition) (sold : Q) (markTp1 : bool) : BtcPosition :=
  mkBtcPosition (id pos) (pos_altSymbol pos) (entryRatio pos) (btcAllocated pos - sold)
    (entryTime pos) (status pos) (reason pos) (if markTp1 then true else tp1Hit pos)
    (leverage pos).

Record Ledger : Type := mkLedger {
  led_availableBtc : Q;
  led_completedTrades : list BtcTrade;
  led_partialSales : list PartialSale
}.

(** 3a. [for (const pos of positionsForAlt)]: the positions of this alt, in
    ledger order; a closed one is removed, a sold-down one updated in place. *)
Fixpoint checkExits (strategy_ : BtcStrategy) (commissionRate_ : Q)
    (avgRatioTrend7d avgRatioTrend1d : Q) (sym : string)
    (altCandles : list AltBtcCandle) (candleIdx : nat) (timestamp_ : Z)
    (currentRatio : Q) (positions : list BtcPosition) (led : Ledger)
    : list BtcPosition * Ledger :=
  match positions with
  | [] => ([], led)
  | pos :: rest =>
      if (String.eqb (pos_altSymbol pos) sym && isOpen pos)%bool then
        match exitAction strategy_ avgRatioTrend7d avgRatioTrend1d altCandles candleIdx
                timestamp_ currentRatio pos with
        | FullClose exitReason_ =>
            let trade :=
              closePosition pos currentRatio timestamp_ exitReason_
                (strat_leverage strategy_) commissionRate_ in
            let led1 :=
              mkLedger
                (led_availableBtc led
                 + getCloseBtcReturn pos currentRatio (strat_leverage strategy_) commissionRate_)
                (led_completedTrades led ++ [trade]) (led_partialSales led) in
            checkExits strategy_ commissionRate_ avgRatioTrend7d avgRatioTrend1d sym
              altCandles candleIdx timestamp_ currentRatio rest led1
        | SellPart sold markTp1 =>
            let btcReturned :=
              calculateBtcReturn sold (entryRatio pos) currentRatio
                (strat_leverage strategy_) commissionRate_ in
            let led1 :=
              mkLedger (led_availableBtc led + btcReturned) (led_completedTrades led)
                (led_partialSales led ++ [mkPartialSale sold btcReturned]) in
            let '(kept, led2) :=
              checkExits strategy_ commissionRate_ avgRatioTrend7d avgRatioTrend1d sym
                altCandles candleIdx timestamp_ currentRatio rest led1 in
            (afterSale pos sold markTp1 :: kept, led2)
        | Hold =>
            let '(kept, led2) :=
              checkExits strategy_ commissionRate_ avgRatioTrend7d avgRatioTrend1d sym
                altCandles candleIdx timestamp_ currentRatio rest led in
            (pos :: kept, led2)
        end
      else
        let '(kept, led2) :=
          checkExits strategy_ commissionRate_ avgRatioTrend7d avgRatioTrend1d sym
            altCandles candleIdx timestamp_ currentRatio rest led in
        (pos :: kept, led2)
  end.

(** 3b. the entry check for one alt at one candle: the new ledger of open
    positions, the available BTC and the position counter. *)
Definition checkEntry (strategy_ : BtcStrategy) (allAltCandles : AltCandleMap)
    (avgRatioTrend7d : Q) (sym : string) (altCandles : list AltBtcCandle)
    (candleIdx : nat) (currentCandle : AltBtcCandle) (timestamp_ : Z)
    (positions : list BtcPosition) (availableBtc_ : Q) (counter : nat)
    : list BtcPosition * Q * nat :=
  let activeCount := List.length (filter isOpen positions) in
  if (MAX_CONCURRENT_POSITIONS <=? activeCount)%nat then (positions, availableBtc_, counter)
  else if existsb (fun p => (String.eqb (pos_altSymbol p) sym && isOpen p)%bool) positions
  then (positions, availableBtc_, counter)
  else
    let entrySignal := shouldEnter strategy_ altCandles candleIdx avgRatioTrend7d in
    if enter entrySignal then
      let totalEquity := calculateTotalEquity availableBtc_ positions allAltCandles timestamp_ in
      let btcToAllocate := Qmin (totalEquity * btcAllocation entrySignal) availableBtc_ in
      if Qltb btcToAllocate MIN_BTC_ALLOCATION then (positions, availableBtc_, counter)
      else
        let counter1 := S counter in
        let newPosition :=
          mkBtcPosition ("btc-pos-" ++ showNat counter1)%string sym (close currentCandle)
            btcToAllocate timestamp_ open_ (entry_reason entrySignal) false
            (strat_leverage strategy_) in
        (positions ++ [newPosition], availableBtc_ - btcToAllocate, counter1)
    else (positions, availableBtc_, counter).

(** The body of [for (const [altSymbol, altCandles] of allAltCandles)]; the
    second component is the loop-local [currentBtcUsdtPrice]. *)
Definition processAlt (strategy_ : BtcStrategy) (commissionRate_ : Q)
    (allAltCandles : AltCandleMap) (altIndexMaps : list (string * list (Z * nat)))
    (avgRatioTrend7d avgRatioTrend1d : Q) (timestamp_ : Z)
    (acc : Sim * Q) (entry : string * list AltBtcCandle) : Sim * Q :=
  let '(st, currentBtcUsdtPrice) := acc in
  let '(sym, altCandles) := entry in
  match JsMap.get String.eqb altIndexMaps sym with
  | None => acc
  | Some indexMap =>
      match JsMap.get Z.eqb indexMap timestamp_ with
      | None => acc
      | Some candleIdx =>
          match nth_error altCandles candleIdx with
          | None => acc
          | Some currentCandle =>
              let currentBtcUsdtPrice1 :=
                if Qeq_bool currentBtcUsdtPrice 0 then btcUsdtPrice currentCandle
                else currentBtcUsdtPrice in
              let startBtcPrice1 :=
                if Qeq_bool (sim_startBtcPrice st) 0 then btcUsdtPrice currentCandle
                else sim_startBtcPrice st in
              let endBtcPrice1 := btcUsdtPrice currentCandle in
              let currentRatio := close currentCandle in
              let '(open1, led1) :=
                checkExits strategy_ commissionRate_ avgRatioTrend7d avgRatioTrend1d sym
                  altCandles candleIdx timestamp_ currentRatio (openPositions st)
                  (mkLedger (availableBtc st) (completedTrades st) (partialSales st)) in
              let '(open2, available2, counter2) :=
                checkEntry strategy_ allAltCandles avgRatioTrend7d sym altCandles candleIdx
                  currentCandle timestamp_ open1 (led_availableBtc led1)
                  (positionCounter st) in
              (mkSim available2 open2 (led_completedTrades led1) (sim_equityCurve st)
                 counter2 startBtcPrice1 endBtcPrice1 (candelCounter st)
                 (led_partialSales led1),
               currentBtcUsdtPrice1)
          end
      end
  end.

(** The body of [for (const timestamp of timeline)]. *)
Definition processTimestamp (strategy_ : BtcStrategy) (commissionRate_ : Q)
    (allAltCandles : AltCandleMap) (altIndexMaps : list (string * list (Z * nat)))
    (st : Sim) (timestamp_ : Z) : Sim :=
  let st0 :=
    mkSim (availableBtc st) (openPositions st) (completedTrades st) (sim_equityCurve st)
      (positionCounter st) (sim_startBtcPrice st) (sim_endBtcPrice st)
      (S (candelCounter st)) (partialSales st) in
  let avgRatioTrend7d := calculateAvgRatioTrend allAltCandles timestamp_ 7 in
  let avgRatioTrend1d := calculateAvgRatioTrend allAltCandles timestamp_ 1 in
  let '(st1, currentBtcUsdtPrice) :=
    fold_left
      (processAlt strategy_ commissionRate_ allAltCandles altIndexMaps
         avgRatioTrend7d avgRatioTrend1d timestamp_)
      allAltCandles (st0, 0) in
  if (Nat.eqb (candelCounter st1 mod EQUITY_RECORD_INTERVAL) 0
      && Qgtb currentBtcUsdtPrice 0)%bool then
    let totalBtcEquity :=
      calculateTotalEquity (availableBtc st1) (openPositions st1) allAltCandles timestamp_ in
    mkSim (availableBtc st1) (openPositions st1) (completedTrades st1)
      (sim_equityCurve st1
       ++ [mkBtcEquityPoint timestamp_ totalBtcEquity (totalBtcEquity * currentBtcUsdtPrice)])
      (positionCounter st1) (sim_startBtcPrice st1) (sim_endBtcPrice st1)
      (candelCounter st1) (partialSales st1)
  else st1.

(** 4. the forced close at the end of the timeline, over a copy of the
    ledger.  A position whose alt has no candles is skipped and stays. *)
Fixpoint forceClose (strategy_ : BtcStrategy) (commissionRate_ : Q)
    (allAltCandles : AltCandleMap) (lastTimestamp : Z)
    (positions : list BtcPosition) (led : Ledger) : list BtcPosition * Ledger :=
  match positions with
  | [] => ([], led)
  | pos :: rest =>
      let skip :=
        let '(kept, led1) :=
          forceClose strategy_ commissionRate_ allAltCandles lastTimestamp rest led in
        (pos :: kept, led1) in
      if negb (isOpen pos) then skip
      else
        match JsMap.get String.eqb allAltCandles (pos_altSymbol pos) with
        | None => skip
        | Some [] => skip
        | Some (c0 :: cs) =>
            let lastCandle := List.last (c0 :: cs) c0 in
            let exitRatio_ := close lastCandle in
            let trade :=
              closePosition pos exitRatio_ lastTimestamp "backtest_end"
                (strat_leverage strategy_) commissionRate_ in
            forceClose strategy_ commissionRate_ allAltCandles lastTimestamp rest
              (mkLedger
                 (led_availableBtc led
                  + getCloseBtcReturn pos exitRatio_ (strat_leverage strategy_) commissionRate_)
                 (led_completedTrades led ++ [trade]) (led_partialSales led))
        end
  end.

Definition commissionRateOf (strategy_ : BtcStrategy) : Q :=
  if Qgtb (strat_leverage strategy_) 1 then FUTURES_COMMISSION_RATE
  else SPOT_COMMISSION_RATE.

Definition buildIndexMap (candles : list AltBtcCandle) : list (Z * nat) :=
  snd (fold_left
         (fun acc c => (S (fst acc), JsMap.set Z.eqb (snd acc) (timestamp c) (fst acc)))
         candles (0%nat, [])).

Definition buildIndexMaps (allAltCandles : AltCandleMap) : list (string * list (Z * nat)) :=
  fold_left
    (fun m entry => JsMap.set String.eqb m (fst entry) (buildIndexMap (snd entry)))
    allAltCandles [].

Definition timelineOf (allAltCandles : AltCandleMap) : list Z :=
  sortNumeric
    (fold_left
       (fun set_ entry =>
          fold_left (fun s c => JsSet.add s (timestamp c)) (snd entry) set_)
       allAltCandles []).

Definition initialSim : Sim := mkSim STARTING_BTC [] [] [] 0%nat 0 0 0%nat [].

(** 3. and 4.: the state after the main loop and the forced close. *)
Definition finalSim (strategy_ : BtcStrategy) (allAltCandles : AltCandleMap) : Sim :=
  let commissionRate_ := commissionRateOf strategy_ in
  let altIndexMaps := buildIndexMaps allAltCandles in
  let timeline := timelineOf allAltCandles in
  let st :=
    fold_left (processTimestamp strategy_ commissionRate_ allAltCandles altIndexMaps)
      timeline initialSim in
  let lastTimestamp := List.last timeline 0%Z in
  let '(open1, led1) :=
    forceClose strategy_ commissionRate_ allAltCandles lastTimestamp (openPositions st)
      (mkLedger (availableBtc st) (completedTrades st) (partialSales st)) in
  mkSim (led_availableBtc led1) open1 (led_completedTrades led1) (sim_equityCurve st)
    (positionCounter st) (sim_startBtcPrice st) (sim_endBtcPrice st) (candelCounter st)
    (led_partialSales led1).

(** [for (const t of completedTrades)] picking the best and the worst. *)
Definition pickTrade (better : BtcTrade -> BtcTrade -> bool) (l : list BtcTrade)
    : option BtcTrade :=
  fold_left
    (fun acc t =>
       match acc with
       | None => Some t
       | Some cur => if better t cur then Some t else Some cur
       end)
    l None.

(** 5. the result object. *)
Definition resultOf (strategy_ : BtcStrategy) (st : Sim) : BtcBacktestResult :=
  let finalBtc_ := availableBtc st in
  let btcProfit_ := finalBtc_ - STARTING_BTC in
  let btcProfitPercent_ := (btcProfit_ / STARTING_BTC) * 100 in
  let usdtValueStart_ := STARTING_BTC * sim_startBtcPrice st in
  let usdtValueEnd_ := finalBtc_ * sim_endBtcPrice st in
  let holdOnlyUsdtEnd_ := STARTING_BTC * sim_endBtcPrice st in
  let done := completedTrades st in
  let wins_ := List.length (filter (fun t => Qgtb (btcPnl t) 0) done) in
  let losses_ := List.length (filter (fun t => Qle_bool (btcPnl t) 0) done) in
  let totalTrades_ := List.length done in
  let winRate_ :=
    if (0 <? totalTrades_)%nat
    then (inject_Z (Z.of_nat wins_) / inject_Z (Z.of_nat totalTrades_)) * 100 else 0 in
  let avgHoldTime_ :=
    if (0 <? totalTrades_)%nat
    then inject_Z (fold_left (fun sum t => (sum + duration t)%Z) done 0%Z)
         / inject_Z (Z.of_nat totalTrades_)
    else 0 in
  mkBtcBacktestResult (name strategy_) STARTING_BTC finalBtc_ btcProfit_ btcProfitPercent_
    (sim_startBtcPrice st) (sim_endBtcPrice st) usdtValueStart_ usdtValueEnd_
    holdOnlyUsdtEnd_ totalTrades_ wins_ losses_ winRate_ avgHoldTime_
    (pickTrade (fun t best => Qgtb (btcPnl t) (btcPnl best)) done)
    (pickTrade (fun t worst => Qltb (btcPnl t) (btcPnl worst)) done)
    done (sim_equityCurve st) (buildAltBreakdown done).

(** [runBtcBacktest] from the point where the candles are loaded. *)
Definition runBtcBacktestOn (allAltCandles : AltCandleMap) (strategy_ : BtcStrategy)
    : BtcBacktestResult :=
  match allAltCandles with
  | [] => emptyResult (name strategy_)
  | _ =>
      match timelineOf allAltCandles with
      | [] => emptyResult (name strategy_)
      | _ => resultOf strategy_ (finalSim strategy_ allAltCandles)
      end
  end.

Section Run.
Variable loadCandles : string -> string -> option (list Candle).
Variable loadFundingRates : string -> option (list FundingRate).
Variable calculateIndicators : list Candle -> list CandleWithIndicators.

Definition runBtcBacktest (strategy_ : BtcStrategy) (timeframe_ : string)
    : BtcBacktestResult :=
  runBtcBacktestOn
    (buildAllAltBtcCandles loadCandles loadFundingRates calculateIndicators timeframe_)
    strategy_.
End Run.

End Btc.

(** ** Reference models of the runtime, and the data of the examples *)

Module Runtime.

(** [Math.sqrt], to twelve decimal places; [0] on what is not positive. *)
Definition Math_sqrt (q : Q) : Q :=
  match Qnum q with
  | Zpos n => Z.sqrt (Zpos n * Zpos (Qden q) * 10 ^ 24) # (Qden q * 10 ^ 12)
  | _ => 0
  end.

Definition pad2 (n : Z) : string :=
  if (n <? 10)%Z then ("0" ++ showNat (Z.to_nat n))%string else showNat (Z.to_nat n).

(** The [YYYY-MM] of a millisecond timestamp in UTC (proleptic Gregorian
    calendar, years from 0 on). *)
Definition utcMonthKey (ts : Z) : string :=
  let z := (ts / 86400000 + 719468)%Z in
  let era := (z / 146097)%Z in
  let doe := (z - era * 146097)%Z in
  let yoe := ((doe - doe / 1460 + doe / 36524 - doe / 146096) / 365)%Z in
  let doy := (doe - (365 * yoe + yoe / 4 - yoe / 100))%Z in
  let mp := ((5 * doy + 2) / 153)%Z in
  let m := (if mp <? 10 then mp + 3 else mp - 9)%Z in
  let y := (yoe + era * 400 + (if m <=? 2 then 1 else 0))%Z in
  (showNat (Z.to_nat y) ++ "-" ++ pad2 m)%string.

(** [localeCompare], on the ASCII keys the engine sorts. *)
Definition localeCompare (a b : string) : comparison := String.compare a b.

Definition noIndicators : Indicators :=
  mkIndicators None None None None None None None None None None None.

(** An indicator engine that attaches an empty snapshot to every candle. *)
Definition calculateIndicators (raw : list Candle) : list CandleWithIndicators :=
  map (fun c =>
         mkCandleWithIndicators (raw_timestamp c) (raw_open c) (raw_high c) (raw_low c)
           (raw_close c) (raw_volume c) (raw_turnover c) noIndicators)
      raw.

(** A provider with no data at all. *)
Definition noCandles (sym tf : string) : option (list Candle) := None.

Definition noFunding (sym : string) : option (list Btc.FundingRate) := None.

Definition world0 : World := mkWorld 1700000000000 0.

Definition noSignal : EntrySignal := mkEntrySignal false 0 0 None "".
Definition noExit : ExitSignal := mkExitSignal false "".

(** A strategy that never signals, and a configuration around it. *)
Definition idle : Strategy :=
  mkStrategy "idle" None
    (fun _ _ _ => noSignal) (fun _ _ _ => noSignal) (fun _ _ _ _ => noExit).

Definition config0 : BacktestConfig :=
  mkBacktestConfig 500 3 (6 # 10000) (3 # 10000) (4 # 100) 3 ["BTCUSDT"] "1h" idle.

(** Equity samples on five consecutive days. *)
Definition DAY : Z := 86400000.

Definition fiveDays : list EquityPoint :=
  [mkEquityPoint (1 * DAY) 1000; mkEquityPoint (2 * DAY) 1050;
   mkEquityPoint (3 * DAY) 900; mkEquityPoint (4 * DAY) 950;
   mkEquityPoint (5 * DAY) 1100].

(** BTC examples.  A 2x strategy that never signals, and a leveraged
    position entered at ratio 1. *)
Definition btcIdle : Btc.BtcStrategy :=
  Btc.mkBtcStrategy "idle 2x" 2
    (fun _ _ _ => Btc.mkBtcEntrySignal false 0 0 0 0 "")
    (fun _ _ _ _ => Btc.mkBtcExitSignal false 0 "").


(** A feed in which ETHUSDT closes its first candle at 0 while BTCUSDT
    trades at 50000: the ALT/BTC ratio of that candle is 0. *)
Definition zeroCloseFeed (sym tf : string) : option (list Candle) :=
  if String.eqb sym "BTCUSDT" then
    Some [mkCandle 0 50000 50000 50000 50000 1 1;
          mkCandle (3 * DAY) 50000 50000 50000 50000 1 1]
  else if String.eqb sym "ETHUSDT" then
    Some [mkCandle 0 2500 2500 0 0 1 1;
          mkCandle (3 * DAY) 2500 2500 2500 2500 1 1]
  else None.

(** A spot strategy that enters on the first candle of an alt with a fifth
    of the equity and never asks for an exit. *)
Definition enterFirst : Btc.BtcStrategy :=
  Btc.mkBtcStrategy "enter first" 1
    (fun _ idx _ =>
       if Nat.eqb idx 0 then Btc.mkBtcEntrySignal true 0 0 0 (20 # 100) "first candle"
       else Btc.mkBtcEntrySignal false 0 0 0 0 "")
    (fun _ _ _ _ => Btc.mkBtcExitSignal false 0 "").

(** A long signal whose stop is the entry price itself, on a candle that
    closes at 100 with no slippage. *)
Definition candle100 : CandleWithIndicators :=
  mkCandleWithIndicators 0 100 100 100 100 1 1 noIndicators.

Definition stopAtEntry : EntrySignal := mkEntrySignal true 100 110 None "flat stop".

Definition configNoSlip : BacktestConfig :=
  mkBacktestConfig 500 3 (6 # 10000) 0 (4 # 100) 3 ["BTCUSDT"] "1h" idle.

(** Scenario A.  One symbol; the first candle closes at 100 / 1.0003, so
    that the slipped long entry is at 100; the second candle touches 110;
    the third drifts to 105.  The strategy goes long on the first candle
    with stop 95 and a single take-profit at 110, and never asks to exit. *)
Definition scenarioAFeed (sym tf : string) : option (list Candle) :=
  if String.eqb sym "BTCUSDT" then
    Some [mkCandle 0 (1000000 # 10003) (1000000 # 10003) (1000000 # 10003)
            (1000000 # 10003) 1 1;
          mkCandle 3600000 105 111 104 108 1 1;
          mkCandle 7200000 105 106 104 105 1 1]
  else None.

Definition longOnce : Strategy :=
  mkStrategy "long once" None
    (fun _ idx _ =>
       if Nat.eqb idx 0 then mkEntrySignal true 95 110 None "first candle" else noSignal)
    (fun _ _ _ => noSignal) (fun _ _ _ _ => noExit).

Definition scenarioA : BacktestConfig :=
  mkBacktestConfig 500 3 (6 # 10000) (3 # 10000) (4 # 100) 3 ["BTCUSDT"] "1h" longOnce.

(** A strategy that goes long on every candle, with a stop 5 percent below
    the close, and the same feed. *)
Definition longAlways : Strategy :=
  mkStrategy "long always" None
    (fun candles idx _ =>
       match nth_error candles idx with
       | Some c => mkEntrySignal true (close c * (95 # 100)) (close c * 2) None "again"
       | None => noSignal
       end)
    (fun _ _ _ => noSignal) (fun _ _ _ _ => noExit).

Definition stacking : BacktestConfig :=
  mkBacktestConfig 500 3 (6 # 10000) (3 # 10000) (4 # 100) 3 ["BTCUSDT"] "1h" longAlways.

(** Two open long positions that differ in their symbol only. *)
Definition heldOn (sym : string) : Position :=
  mkPosition (sym ++ "-0")%string sym long 100 400 3 95 200 None 0 (24 # 100) open_
    "held" [] None false false.

(** Scenario B: the candle after the entry falls to 94, through the stop
    at 95. *)
Definition scenarioBFeed (sym tf : string) : option (list Candle) :=
  if String.eqb sym "BTCUSDT" then
    Some [mkCandle 0 (1000000 # 10003) (1000000 # 10003) (1000000 # 10003)
            (1000000 # 10003) 1 1;
          mkCandle 3600000 99 99 94 96 1 1]
  else None.

(** Scenario D: a closed trade with a given [pnl]. *)
Definition closedWith (pnl_ : Q) : Trade :=
  mkTrade (heldOn "BTCUSDT") 3600000 100 pnl_ "closed" 3600000.

(** A market that halves on each of 28 hourly candles, and the same
    strategy without fees or slippage: every position is stopped out, 5
    percent down, on the candle after its entry. *)
Definition halving (i : nat) : Q := inject_Z (2 ^ Z.of_nat (30 - i)).

Definition fallingFeed (sym tf : string) : option (list Candle) :=
  if String.eqb sym "BTCUSDT" then
    Some (map (fun i =>
                 mkCandle (Z.of_nat i * 3600000) (halving (pred i)) (halving (pred i))
                   (halving i) (halving i) 1 1)
              (seq 0 28))
  else None.

Definition frictionless : BacktestConfig :=
  mkBacktestConfig 500 3 0 0 (4 # 100) 3 ["BTCUSDT"] "1h" longAlways.

(** A feed in which the ETH/BTC ratio closes at 1, then 0.9, then 1.308,
    three days apart; and a spot strategy that enters on the first candle
    with a fifth of the equity and asks to sell 60 percent on the second. *)
Definition offsetFeed (sym tf : string) : option (list Candle) :=
  if String.eqb sym "BTCUSDT" then
    Some [mkCandle 0 50000 50000 50000 50000 1 1;
          mkCandle (3 * DAY) 50000 50000 50000 50000 1 1;
          mkCandle (6 * DAY) 50000 50000 50000 50000 1 1]
  else if String.eqb sym "ETHUSDT" then
    Some [mkCandle 0 50000 50000 50000 50000 1 1;
          mkCandle (3 * DAY) 45000 45000 45000 45000 1 1;
          mkCandle (6 * DAY) 65400 65400 65400 65400 1 1]
  else None.

Definition sellSixty : Btc.BtcStrategy :=
  Btc.mkBtcStrategy "sell sixty" 1
    (fun _ idx _ =>
       if Nat.eqb idx 0 then Btc.mkBtcEntrySignal true 0 0 0 (20 # 100) "first candle"
       else Btc.mkBtcEntrySignal false 0 0 0 0 "")
    (fun _ _ idx _ =>
       if Nat.eqb idx 1 then Btc.mkBtcExitSignal true (60 # 100) "trim"
       else Btc.mkBtcExitSignal false 0 "").

(** A spot position entered at ratio 1 with 0.01 BTC, and the ledger of a
    run that holds nothing else. *)
Definition spotPosition : Btc.BtcPosition :=
  Btc.mkBtcPosition "btc-pos-1" "ETHUSDT" 1 (1 # 100) 0 open_ "" false 1.

Definition freshLedger : Btc.Ledger := Btc.mkLedger (4 # 100) [] [].

End Runtime.

(** ** Vocabulary of the statements *)

(** Ratios and prices are IEEE doubles in the engines and exact rationals
    here.  A threshold such as [entryRatio * (1 - 0.15)] is a rounded
    product there, so a ratio within a rounding error of the threshold can
    fall on either side of it.  The statements about such a threshold keep
    [roundingBand], one part in a thousand million of the threshold, away
    from it: the relative error of a double product is below one part in
    10^15 (in the normal range of doubles, where ratios and prices are), so
    outside the band the comparison goes the same way on both readings.
    The thresholds are positive wherever these are used. *)
Definition roundingBand : Q := 1 # 1000000000.

Definition safelyBelow (x threshold : Q) : Prop :=
  x <= threshold * (1 - roundingBand).

Definition safelyAbove (x threshold : Q) : Prop :=
  threshold * (1 + roundingBand) <= x.

(** The peak held by the drawdown scan after its first [n] points. *)
Definition peakAfter (startingCapital_ : Q) (curve : list EquityPoint) (n : nat) : Q :=
  Usd.dd_peak
    (fold_left Usd.drawdownStep (firstn n curve) (Usd.drawdownInit startingCapital_ curve)).

(** The gain of a trade before fees: each partial close at its own slipped
    price, the rest at the slipped exit price. *)
Definition grossGain (t : Trade) : Q :=
  let p := trade_base t in
  let gain price amount :=
    match side p with
    | long => ((price - entryPrice p) / entryPrice p) * amount
    | short => ((entryPrice p - price) / entryPrice p) * amount
    end in
  sumOf (fun pc => gain (pc_price pc) (pc_size pc)) (partialCloses p)
  + gain (exitPrice t) (Usd.remainingSize p).

(** The commission of a trade when each leg (entry, every partial close,
    final close) is charged once on the notional it trades. *)
Definition legsCommission (rate : Q) (t : Trade) : Q :=
  let p := trade_base t in
  size p * rate
  + sumOf (fun pc => pc_size pc * rate) (partialCloses p)
  + Usd.remainingSize p * rate.

(** The state of the USD simulation after the first [n] timestamps of the
    timeline and, within the next timestamp, the first [k] symbols: the
    states the main loop goes through. *)
Definition stateAt (loadCandles : string -> string -> option (list Candle))
    (calculateIndicators : list Candle -> list CandleWithIndicators)
    (cfg : BacktestConfig) (n k : nat) : Usd.Sim :=
  let symbolDataMap := fst (Usd.loadData loadCandles calculateIndicators cfg) in
  let multiTfBySymbol := snd (Usd.loadData loadCandles calculateIndicators cfg) in
  let sortedTimestamps := sortNumeric (Usd.collectTimestamps symbolDataMap) in
  let indexMaps := Usd.buildIndexMaps symbolDataMap in
  let lastTs := List.last sortedTimestamps 0%Z in
  let st :=
    fold_left (Usd.processTimestamp cfg symbolDataMap indexMaps multiTfBySymbol lastTs)
      (firstn n sortedTimestamps)
      (Usd.mkSim (startingCapital cfg) [] [] [] 0%nat 0%nat) in
  match nth_error sortedTimestamps n with
  | Some ts =>
      fold_left (Usd.processSymbol cfg indexMaps multiTfBySymbol ts)
        (firstn k symbolDataMap) st
  | None => st
  end.

(** The concurrency cap on a ledger of open positions. *)
Definition withinCap (cfg : BacktestConfig) (positions : list Position) : Prop :=
  (Z.of_nat (List.length positions) <= Z.max 0 (maxConcurrentPositions cfg))%Z.

(** The Sharpe ratio in the words of the specification.  The calendar days
    (UTC) that hold an equity sample, each once; the closing equity of a
    day, which is its last sample; one return for each day after the first,
    on the closing equity of the day before it, unless that is zero; then
    the mean and the variance of these returns, with [n - 1] under the
    variance.  The calendar day is the specification's own: the number of
    whole days since the epoch. *)
Module SharpeSpec.

(** The calendar day (UTC) of a millisecond timestamp: the number of whole
    days since the epoch. *)
Definition dayOf (ts : Z) : Z := (ts / 86400000)%Z.

Definition daysSeen (curve : list EquityPoint) : list Z :=
  fold_left (fun days p => JsSet.add days (dayOf (ep_timestamp p))) curve [].

Definition closingEquity (curve : list EquityPoint) (day : Z) : option Q :=
  fold_left
    (fun acc p => if Z.eqb (dayOf (ep_timestamp p)) day then Some (equity p) else acc)
    curve None.

Definition closings (curve : list EquityPoint) : list Q :=
  flat_map
    (fun day => match closingEquity curve day with Some e => [e] | None => [] end)
    (sortNumeric (daysSeen curve)).

Fixpoint returnsBetween (prev : Q) (rest : list Q) : list Q :=
  match rest with
  | [] => []
  | curr :: rest1 =>
      if Qeq_bool prev 0 then returnsBetween curr rest1
      else ((curr - prev) / prev) :: returnsBetween curr rest1
  end.

Definition dailyReturns (curve : list EquityPoint) : list Q :=
  match closings curve with
  | [] => []
  | c0 :: rest => returnsBetween c0 rest
  end.

Definition mean (rs : list Q) : Q :=
  sumOf (fun r => r) rs / inject_Z (Z.of_nat (List.length rs)).

Definition variance (rs : list Q) : Q :=
  sumOf (fun r => (r - mean rs) ^ 2) rs / (inject_Z (Z.of_nat (List.length rs)) - 1).

End SharpeSpec.


(** An equity curve as the samples of [Numbers.sharpeRatioOf], in exact
    arithmetic and, for a curve of whole numbers that are not negative, in
    doubles. *)
Definition samplesOf (curve : list EquityPoint) : list (Z * Q) :=
  map (fun p => (ep_timestamp p, equity p)) curve.


Definition daysOf (m : list (Z * Usd.DayEquity)) : list (Z * (Q * Q)) :=
  map (fun kv => (fst kv, (Usd.day_first (snd kv), Usd.day_last (snd kv)))) m.


(** Two strategy objects answer alike: they have the same name and required
    timeframes and their callbacks return the same answers on the same
    arguments.  A callback of the repository can read module-level state
    next to its arguments (the funding-rate strategy reads the rates that
    [loadFundingData] stored before the run), which no run changes; the
    [Strategy] of a run is what the object answers while that state is what
    it is, and two runs are given the same strategy when their objects
    answer alike. *)
Record sameAnswers (s1 s2 : Strategy) : Prop := mkSameAnswers {
  same_name : name s1 = name s2;
  same_timeframes : requiredTimeframes s1 = requiredTimeframes s2;
  same_long :
    forall candles idx multiTf,
      shouldEnterLong s1 candles idx multiTf = shouldEnterLong s2 candles idx multiTf;
  same_short :
    forall candles idx multiTf,
      shouldEnterShort s1 candles idx multiTf = shouldEnterShort s2 candles idx multiTf;
  same_exit :
    forall position candles idx multiTf,
      shouldExit s1 position candles idx multiTf
      = shouldExit s2 position candles idx multiTf
}.

(** A configuration with another strategy in it. *)
Definition withStrategy (cfg : BacktestConfig) (s : Strategy) : BacktestConfig :=
  mkBacktestConfig (startingCapital cfg) (cfg_leverage cfg) (commissionRate cfg)
    (slippageRate cfg) (riskPerTrade cfg) (maxConcurrentPositions cfg) (symbols cfg)
    (timeframe cfg) s.

(** The net BTC of a partial sale: what was credited less the slice of the
    allocation that was sold. *)
Definition salePnl (sale : Btc.PartialSale) : Q := Btc.ps_returned sale - Btc.ps_sold sale.

(** What the BTC books hold beyond what the trades and the partial sales
    account for: available BTC and the allocations still open, less the
    P&L of the trades and the net BTC of the partial sales. *)
Definition btcBooks (available : Q) (positions : list Btc.BtcPosition)
    (done : list Btc.BtcTrade) (sales : list Btc.PartialSale) : Q :=
  available + sumOf Btc.btcAllocated positions - sumOf Btc.btcPnl done - sumOf salePnl sales.

Definition simBooks (st : Btc.Sim) : Q :=
  btcBooks (Btc.availableBtc st) (Btc.openPositions st) (Btc.completedTrades st)
    (Btc.partialSales st).

(** The bounds kept by the drawdown scan. *)
Definition ddBounded (st : Usd.Drawdown) : Prop :=
  0 <= Usd.dd_maxDrawdown st
  /\ 0 <= Usd.dd_maxDrawdownPercent st /\ Usd.dd_maxDrawdownPercent st <= 100.

(** The provider has nothing for a symbol: no array, or an empty one. *)
Definition noData (loadCandles : string -> string -> option (list Candle))
    (tf : string) (sym : string) : Prop :=
  loadCandles sym tf = None \/ loadCandles sym tf = Some [].

(** What is left of a position is not negative. *)
Definition sizeLeft (p : Position) : Prop := 0 <= Usd.remainingSize p.

Definition outcomeSound (o : Usd.ExitOutcome) : Prop :=
  match o with
  | Usd.Closed t => sizeLeft (trade_base t)
  | Usd.StillOpen p => sizeLeft p
  end.

Definition tradeSound (t : Trade) : Prop := sizeLeft (trade_base t).

Record simSound (st : Usd.Sim) : Prop := mkSimSound {
  open_sound : Forall sizeLeft (Usd.openPositions st);
  done_sound : Forall tradeSound (Usd.completedTrades st)
}.

(** The fees of a position while it is open: the entry fee on its size and
    the fee of each partial close on the size that close took.  Its entry
    price is not zero, so that no price move on it is a division by zero. *)
Definition feesCharged (rate : Q) (p : Position) : Prop :=
  commission p == (size p + sumOf pc_size (partialCloses p)) * rate
  /\ ~ entryPrice p == 0.

(** The price move a trade realises at its exit, as a fraction of the entry
    price. *)
Definition priceMove (t : Trade) : Q :=
  match side (trade_base t) with
  | long => (exitPrice t - entryPrice (trade_base t)) / entryPrice (trade_base t)
  | short => (entryPrice (trade_base t) - exitPrice t) / entryPrice (trade_base t)
  end.

(** The final close of a trade was made on [closedSize]: the trade has paid
    its fees on the size opened, on each partial close and on [closedSize],
    its P&L realises the exit price on [closedSize] (next to what the
    partial closes brought, less the commission), on an entry price that is
    not zero, and it is closed. *)
Definition finalLegOn (rate : Q) (t : Trade) (closedSize : Q) : Prop :=
  commission (trade_base t)
  == (size (trade_base t) + sumOf pc_size (partialCloses (trade_base t)) + closedSize)
     * rate
  /\ pnl t
     == priceMove t * closedSize - commission (trade_base t)
        + sumOf pc_pnl (partialCloses (trade_base t))
  /\ ~ entryPrice (trade_base t) == 0
  /\ status (trade_base t) = closed.

Definition outcomeCharged (rate : Q) (o : Usd.ExitOutcome) : Prop :=
  match o with
  | Usd.Closed t => finalLegOn rate t (Usd.remainingSize (trade_base t))
  | Usd.StillOpen p => feesCharged rate p
  end.

Definition tradeCharged (rate : Q) (t : Trade) : Prop :=
  finalLegOn rate t (Usd.remainingSize (trade_base t)).

Record simCharged (cfg : BacktestConfig) (st : Usd.Sim) : Prop := mkSimCharged {
  open_charged : Forall (feesCharged (commissionRate cfg)) (Usd.openPositions st);
  done_charged : Forall (tradeCharged (commissionRate cfg)) (Usd.completedTrades st)
}.


(** An alt with candles, and a position the forced close can close. *)
Definition hasCandles (allAltCandles : Btc.AltCandleMap) (sym : string) : Prop :=
  exists c cs, JsMap.get String.eqb allAltCandles sym = Some (c :: cs).

Definition closable (allAltCandles : Btc.AltCandleMap) (pos : Btc.BtcPosition) : Prop :=
  Btc.isOpen pos = true /\ hasCandles allAltCandles (Btc.pos_altSymbol pos).

(** ** The batch runners ([runAllBacktests], [runAllBtcBacktests]) *)

Module Batch.
Section Runs.
Variable Math_sqrt : Q -> Q.
Variable utcMonthKey : Z -> string.
Variable localeCompare : string -> string -> comparison.
Variable loadCandles : string -> string -> option (list Candle).
Variable loadFundingRates : string -> option (list Btc.FundingRate).
Variable calculateIndicators : list Candle -> list CandleWithIndicators.
(** The clock and the position counter the [n]-th run of a batch finds. *)
Variable worldAt : nat -> World.

(** The configuration [runAllBacktests] builds for one strategy and one
    leverage: a strategy with required timeframes runs on [15m]. *)
Definition configOf (symbols_ : list string) (timeframe_ : string)
    (strategy_ : Strategy) (leverage_ : Q) : BacktestConfig :=
  let primaryTimeframe :=
    match requiredTimeframes strategy_ with
    | Some (_ :: _) => "15m"%string
    | _ => timeframe_
    end in
  mkBacktestConfig 500 leverage_ (6 # 10000) (3 # 10000) (4 # 100) 3 symbols_
    primaryTimeframe strategy_.

(** [leverages: number[] = [3, 5]] *)
Definition leveragesOr (leverages : option (list Q)) : list Q :=
  match leverages with
  | Some l => l
  | None => [3; 5]
  end.

(** The two nested loops, with [results.push(result)]; the console output
    is left out. *)
Definition runAllBacktests (symbols_ : list string) (strategies : list Strategy)
    (timeframe_ : string) (leverages : option (list Q)) : list BacktestResult :=
  fold_left
    (fun results strategy_ =>
       fold_left
         (fun results1 leverage_ =>
            results1
            ++ [Usd.runBacktest Math_sqrt utcMonthKey localeCompare loadCandles
                  calculateIndicators (worldAt (List.length results1))
                  (configOf symbols_ timeframe_ strategy_ leverage_)])
         (leveragesOr leverages) results)
    strategies [].

Definition runAllBtcBacktests (strategies : list Btc.BtcStrategy) (timeframe_ : string)
    : list Btc.BtcBacktestResult :=
  map (fun s => Btc.runBtcBacktest loadCandles loadFundingRates calculateIndicators
                  s timeframe_)
    strategies.
End Runs.
End Batch.

(** ** The exit rules of the two BTC strategies
    ([src/strategies/btc-accumulation.ts], [src/strategies/futures-rotation.ts]) *)

Module Exits.

Definition NO_BTC_EXIT : Btc.BtcExitSignal := Btc.mkBtcExitSignal false 0 "".

Section Formatting.
(** [x.toFixed(digits)] *)
Variable toFixed : Q -> nat -> string.

(** [shouldExit] of strategy H.  [None] is the [TypeError] of reading
    [.close] of [altCandles[currentIndex]] beyond the array. *)
Definition accumulationShouldExit (position : Btc.BtcPosition)
    (altCandles : list Btc.AltBtcCandle) (currentIndex : nat) (avgRatioTrend : Q)
    : option Btc.BtcExitSignal :=
  match nth_error altCandles currentIndex with
  | None => None
  | Some current =>
      let currentClose := Btc.close current in
      if Qgtb avgRatioTrend 3 then
        Some (Btc.mkBtcExitSignal true 1
                ("BTC dominance dropping fast (avgRatioTrend="
                 ++ toFixed avgRatioTrend 2 ++ ")")%string)
      else
        let holdDuration := (Btc.timestamp current - Btc.entryTime position)%Z in
        if (holdDuration >=? 21 * 86400000)%Z then
          Some (Btc.mkBtcExitSignal true 1
                  ("Max hold time reached ("
                   ++ toFixed (inject_Z holdDuration / 86400000) 1 ++ " days)")%string)
        else if Qle_bool currentClose (Btc.entryRatio position * (85 # 100)) then
          Some (Btc.mkBtcExitSignal true 1 "Stop loss hit")
        else if (negb (Btc.tp1Hit position)
                 && Qgeb currentClose (Btc.entryRatio position * (120 # 100)))%bool then
          Some (Btc.mkBtcExitSignal true (1 # 2) "TP1 hit: +20%")
        else if (Btc.tp1Hit position
                 && Qgeb currentClose (Btc.entryRatio position * (140 # 100)))%bool then
          Some (Btc.mkBtcExitSignal true 1 "TP2 hit: +40%")
        else
          match rsi (Btc.indicators current) with
          | Some rsi_ =>
              if (Qgeb rsi_ 70 && Qgtb currentClose (Btc.entryRatio position))%bool then
                Some (Btc.mkBtcExitSignal true 1
                        ("RSI overbought (" ++ toFixed rsi_ 1
                         ++ ") while in profit")%string)
              else Some NO_BTC_EXIT
          | None => Some NO_BTC_EXIT
          end
  end.

(** [shouldExit] of strategy I. *)
Definition rotationShouldExit (position : Btc.BtcPosition)
    (altCandles : list Btc.AltBtcCandle) (currentIndex : nat) (avgRatioTrend : Q)
    : option Btc.BtcExitSignal :=
  match nth_error altCandles currentIndex with
  | None => None
  | Some current =>
      let currentClose := Btc.close current in
      if Qgtb avgRatioTrend (25 # 10) then
        Some (Btc.mkBtcExitSignal true 1
                ("BTC dominance dropping (avgRatioTrend="
                 ++ toFixed avgRatioTrend 2 ++ ")")%string)
      else
        let holdDuration := (Btc.timestamp current - Btc.entryTime position)%Z in
        if (holdDuration >=? 14 * 86400000)%Z then
          Some (Btc.mkBtcExitSignal true 1
                  ("Max hold time reached ("
                   ++ toFixed (inject_Z holdDuration / 86400000) 1 ++ " days)")%string)
        else if Qle_bool currentClose (Btc.entryRatio position * (90 # 100)) then
          Some (Btc.mkBtcExitSignal true 1 "Stop loss hit (10% * 2x = 20% loss)")
        else if (negb (Btc.tp1Hit position)
                 && Qgeb currentClose (Btc.entryRatio position * (115 # 100)))%bool then
          Some (Btc.mkBtcExitSignal true (1 # 2) "TP1 hit: +15% ratio (30% effective)")
        else if (Btc.tp1Hit position
                 && Qgeb currentClose (Btc.entryRatio position * (130 # 100)))%bool then
          Some (Btc.mkBtcExitSignal true 1 "TP2 hit: +30% ratio (60% effective)")
        else
          match rsi (Btc.indicators current) with
          | Some rsi_ =>
              if (Qgeb rsi_ 75 && Qgtb currentClose (Btc.entryRatio position))%bool then
                Some (Btc.mkBtcExitSignal true 1
                        ("RSI overbought (" ++ toFixed rsi_ 1
                         ++ ") while in profit")%string)
              else Some NO_BTC_EXIT
          | None => Some NO_BTC_EXIT
          end
  end.
End Formatting.

(** A strategy record carries the exit rule [rule]: it answers what the
    rule answers wherever the rule answers. *)
Definition exitsBy (rule : Btc.BtcPosition -> list Btc.AltBtcCandle -> nat -> Q ->
                           option Btc.BtcExitSignal)
    (s : Btc.BtcStrategy) : Prop :=
  forall position altCandles currentIndex avgRatioTrend signal,
    rule position altCandles currentIndex avgRatioTrend = Some signal ->
    Btc.shouldExit s position altCandles currentIndex avgRatioTrend = signal.

(** The call the engine makes: the candle of the index it found, whose
    close is the current ratio and whose timestamp the current one. *)
Definition engineCall (altCandles : list Btc.AltBtcCandle) (candleIdx : nat)
    (ts : Z) (currentRatio : Q) : Prop :=
  exists current,
    nth_error altCandles candleIdx = Some current
    /\ Btc.close current = currentRatio /\ Btc.timestamp current = ts.
End Exits.

(** ** The exit rule of the funding-rate strategy
    ([fundingRateStrategy], imported as [./strategies/funding-rate]; its
    text follows the RSI strategy in [src/strategies/rsi-reversal.ts])

    The one strategy of the repository whose callbacks read a module-level
    variable: [fundingRates], set by [loadFundingData] outside the run. *)

Module Funding.

Record FundingRateEntry : Type := mkFundingRateEntry {
  fundingRate : Q;
  fundingRateTimestamp : Z
}.

Definition NO_EXIT : ExitSignal := mkExitSignal false "".

(** [loadFundingData]: what the module-level [fundingRates] holds after the
    call, the rates sorted by timestamp. *)
Definition loadFundingData (rates : list FundingRateEntry) : list FundingRateEntry :=
  jsSort (fun a b => Z.compare (fundingRateTimestamp a) (fundingRateTimestamp b)) rates.

(** [findFundingRate]: the last entry at or before the timestamp. *)
Definition findFundingRate (fundingRates : list FundingRateEntry) (timestamp_ : Z)
    : option FundingRateEntry :=
  find (fun fr => (fundingRateTimestamp fr <=? timestamp_)%Z) (rev fundingRates).

Section Formatting.
Variable toFixed : Q -> nat -> string.

(** [fundingRateStrategy.shouldExit], with the module-level array as its
    first argument; [None] where [candles[currentIndex]] is undefined and
    the source throws.  The index is a [nat]: the test [currentIndex < 0]
    has nothing to catch. *)
Definition shouldExit (fundingRates : list FundingRateEntry) (position : Position)
    (candles : list CandleWithIndicators) (currentIndex : nat)
    (_multiTfData : option MultiTimeframeData) : option ExitSignal :=
  if Nat.eqb (List.length fundingRates) 0 then Some NO_EXIT
  else
    match nth_error candles currentIndex with
    | None => None
    | Some current =>
        match findFundingRate fundingRates (timestamp current) with
        | None => Some NO_EXIT
        | Some fr =>
            match side position with
            | long =>
                if Qgtb (fundingRate fr) (1 # 10000) then
                  Some (mkExitSignal true
                          ("Funding rate flipped positive ("
                           ++ toFixed (fundingRate fr * 100) 4
                           ++ "%) — setup invalidated"))
                else Some NO_EXIT
            | short =>
                if Qltb (fundingRate fr) (- (1 # 10000)) then
                  Some (mkExitSignal true
                          ("Funding rate flipped negative ("
                           ++ toFixed (fundingRate fr * 100) 4
                           ++ "%) — setup invalidated"))
                else Some NO_EXIT
            end
        end
    end.
End Formatting.

End Funding.

(** ** The indicator helpers ([src/indicators.ts])

    Arrays of numbers in which [NaN] is [None]; a period is a count.  With a
    period of zero every quotient of the source is [0 / 0], so that every
    entry stays [NaN]: the helpers answer the unfilled array. *)

Module Indicator.

(** [result[i] = v] for an index the array has. *)
Fixpoint setAt {A : Type} (l : list A) (i : nat) (v : A) : list A :=
  match l, i with
  | [], _ => []
  | _ :: rest, O => v :: rest
  | x :: rest, S j => x :: setAt rest j v
  end.

(** [new Array(n).fill(NaN)] *)
Definition nans (n : nat) : list (option Q) := repeat None n.

Definition ofNat (n : nat) : Q := inject_Z (Z.of_nat n).

(** [for (let i = 0; i < period; i++) sum += data[i]] *)
Definition sumFirst (data : list Q) (period : nat) : Q :=
  fold_left (fun sum i => sum + nth i data 0) (seq 0 period) 0.

Definition sma (data : list Q) (period : nat) : list (option Q) :=
  let result := nans (List.length data) in
  if (List.length data <? period)%nat then result
  else
    match period with
    | O => result
    | S _ =>
        let sum := sumFirst data period in
        let result1 := setAt result (period - 1) (Some (sum / ofNat period)) in
        snd (fold_left
               (fun acc i =>
                  let sum1 := fst acc + (nth i data 0 - nth (i - period) data 0) in
                  (sum1, setAt (snd acc) i (Some (sum1 / ofNat period))))
               (seq period (List.length data - period)) (sum, result1))
    end.

Definition ema (data : list Q) (period : nat) : list (option Q) :=
  let result := nans (List.length data) in
  if (List.length data <? period)%nat then result
  else
    match period with
    | O => result
    | S _ =>
        let multiplier := 2 / (ofNat period + 1) in
        let sum := sumFirst data period in
        let result1 := setAt result (period - 1) (Some (sum / ofNat period)) in
        fold_left
          (fun res i =>
             setAt res i
               match nth (i - 1) res None with
               | Some prev => Some (nth i data 0 * multiplier + prev * (1 - multiplier))
               | None => None
               end)
          (seq period (List.length data - period)) result1
    end.

Definition computeRsi (ag al : Q) : Q :=
  if Qeq_bool al 0 then 100
  else
    let rs := ag / al in
    100 - 100 / (1 + rs).

(** The state of the smoothing loops: the two averages and the array. *)
Record Smoothing : Type := mkSmoothing {
  avgGain : Q;
  avgLoss : Q;
  filled : list (option Q)
}.

Definition rsi (closes : list Q) (period : nat) : list (option Q) :=
  let result := nans (List.length closes) in
  if (List.length closes <? period + 1)%nat then result
  else
    match period with
    | O => result
    | S _ =>
        let diffs :=
          map (fun i => nth i closes 0 - nth (i - 1) closes 0)
            (seq 1 (List.length closes - 1)) in
        let gains := map (fun diff => if Qgtb diff 0 then diff else 0) diffs in
        let losses := map (fun diff => if Qltb diff 0 then - diff else 0) diffs in
        let avgGain0 := sumFirst gains period / ofNat period in
        let avgLoss0 := sumFirst losses period / ofNat period in
        let result1 := setAt result period (Some (computeRsi avgGain0 avgLoss0)) in
        filled
          (fold_left
             (fun st i =>
                let avgGain1 :=
                  (avgGain st * (ofNat period - 1) + nth i gains 0) / ofNat period in
                let avgLoss1 :=
                  (avgLoss st * (ofNat period - 1) + nth i losses 0) / ofNat period in
                mkSmoothing avgGain1 avgLoss1
                  (setAt (filled st) (i + 1) (Some (computeRsi avgGain1 avgLoss1))))
             (seq period (List.length gains - period))
             (mkSmoothing avgGain0 avgLoss0 result1))
    end.

(** [tr[i]]: the range of the first candle, then the greatest of the three
    distances. *)
Definition trueRange (candles : list Candle) (i : nat) : Q :=
  let blank := mkCandle 0 0 0 0 0 0 0 in
  match i with
  | O => raw_high (nth 0 candles blank) - raw_low (nth 0 candles blank)
  | S j =>
      let high_ := raw_high (nth i candles blank) in
      let low_ := raw_low (nth i candles blank) in
      let prevClose := raw_close (nth j candles blank) in
      Qmax (Qmax (high_ - low_) (Qabs (high_ - prevClose))) (Qabs (low_ - prevClose))
  end.

Definition atr (candles : list Candle) (period : nat) : list (option Q) :=
  let result := nans (List.length candles) in
  if (List.length candles <? period + 1)%nat then result
  else
    match period with
    | O => result
    | S _ =>
        let sum := fold_left (fun sum i => sum + trueRange candles i) (seq 1 period) 0 in
        let atrVal0 := sum / ofNat period in
        let result1 := setAt result period (Some atrVal0) in
        snd (fold_left
               (fun acc i =>
                  let atrVal1 :=
                    (fst acc * (ofNat period - 1) + trueRange candles i) / ofNat period in
                  (atrVal1, setAt (snd acc) i (Some atrVal1)))
               (seq (period + 1) (List.length candles - (period + 1)))
               (atrVal0, result1))
    end.
End Indicator.

(** ** Vocabulary of the further properties *)

(** One turn of the loop that fills an index map: [imap.set(c.timestamp, i)]. *)
Definition indexStep {A : Type} (f : A -> Z) (acc : nat * list (Z * nat)) (c : A)
    : nat * list (Z * nat) :=
  (S (fst acc), JsMap.set Z.eqb (snd acc) (f c) (fst acc)).

(** What the scan knows after the points of [seen]: the peak is at least
    every equity seen and is one of them once a point was seen; the maximum
    drawdown is at least every fall from an earlier to a later point, and is
    zero or one of these falls. *)
Definition ddExact (seen : list EquityPoint) (st : Usd.Drawdown) : Prop :=
  (forall q, In q seen -> equity q <= Usd.dd_peak st)
  /\ (seen <> [] -> exists i q, nth_error seen i = Some q /\ equity q == Usd.dd_peak st)
  /\ 0 <= Usd.dd_maxDrawdown st
  /\ (forall i j q p, (i <= j)%nat -> nth_error seen i = Some q ->
        nth_error seen j = Some p -> equity q - equity p <= Usd.dd_maxDrawdown st)
  /\ (Usd.dd_maxDrawdown st == 0
      \/ exists i j q p, (i <= j)%nat /\ nth_error seen i = Some q
           /\ nth_error seen j = Some p
           /\ equity q - equity p == Usd.dd_maxDrawdown st).

(** One turn of a grouping loop: [const e = m.get(key) ?? e0; m.set(key,
    upd(e, x))], the shape of the monthly and the per-symbol loops. *)
Definition tallyStep {K V T : Type} (keq : K -> K -> bool) (key : T -> K)
    (upd : V -> T -> V) (e0 : V) (m : list (K * V)) (x : T) : list (K * V) :=
  JsMap.set keq m (key x)
    (upd (match JsMap.get keq m (key x) with Some e => e | None => e0 end) x).

(** The per-symbol and the monthly accumulator updates. *)
Definition symbolUpd (entry : Usd.SymbolAcc) (trade : Trade) : Usd.SymbolAcc :=
  if Qgtb (pnl trade) 0 then
    Usd.mkSymbolAcc (S (Usd.sa_trades entry)) (Usd.sa_pnl entry + pnl trade)
      (S (Usd.sa_wins entry)) (Usd.sa_winPnl entry + pnl trade) (Usd.sa_lossPnl entry)
  else
    Usd.mkSymbolAcc (S (Usd.sa_trades entry)) (Usd.sa_pnl entry + pnl trade)
      (Usd.sa_wins entry) (Usd.sa_winPnl entry)
      (Usd.sa_lossPnl entry + Qabs (pnl trade)).

Definition monthUpd (entry : Usd.MonthAcc) (trade : Trade) : Usd.MonthAcc :=
  Usd.mkMonthAcc (Usd.ma_pnl entry + pnl trade) (S (Usd.ma_trades entry))
    (if Qgtb (pnl trade) 0 then S (Usd.ma_wins entry) else Usd.ma_wins entry).

(** The trades of one symbol, of one month, and the winners among trades. *)
Definition tradesOfSymbol (s : string) (l : list Trade) : list Trade :=
  filter (fun t => String.eqb (symbol (trade_base t)) s) l.

Definition tradesOfMonth (utcMonthKey : Z -> string) (m : string) (l : list Trade)
    : list Trade :=
  filter (fun t => String.eqb (utcMonthKey (exitTime t)) m) l.

Definition winners (l : list Trade) : list Trade :=
  filter (fun t => Qgtb (pnl t) 0) l.

(** A position of the ledger: still marked open, on a symbol the data map
    holds candles for. *)
Definition tradable (symbolDataMap : Usd.SymbolDataMap) (p : Position) : Prop :=
  status p = open_
  /\ exists c cs, JsMap.get String.eqb symbolDataMap (symbol p) = Some (c :: cs).

(** Every id handed out so far belongs to one position, which is either in
    the ledger or among the completed trades. *)
Record ledgerKept (symbolDataMap : Usd.SymbolDataMap) (st : Usd.Sim) : Prop :=
  mkLedgerKept {
  kept_count :
    Usd.sim_counter st
    = (List.length (Usd.openPositions st) + List.length (Usd.completedTrades st))%nat;
  kept_open : Forall (tradable symbolDataMap) (Usd.openPositions st);
  kept_done : Forall (fun t => status (trade_base t) = closed) (Usd.completedTrades st)
}.

(** What the forced close makes of one position that has candles. *)
Definition forcedTrade (cfg : BacktestConfig) (symbolDataMap : Usd.SymbolDataMap)
    (position : Position) : option Trade :=
  match JsMap.get String.eqb symbolDataMap (symbol position) with
  | Some (c0 :: rest) =>
      let lastCandle := List.last (c0 :: rest) c0 in
      Some (Usd.closePosition position (close lastCandle) (timestamp lastCandle)
              "End of backtest — forced close" (slippageRate cfg) (commissionRate cfg))
  | _ => None
  end.

(** A position of the BTC ledger: open, with BTC still allocated to it. *)
Definition funded (p : Btc.BtcPosition) : Prop :=
  Btc.isOpen p = true /\ 0 < Btc.btcAllocated p.

(** What the BTC loop keeps true of its books: the free BTC is never
    negative; the ledger holds open, funded positions only, at most one per
    alt and at most [MAX_CONCURRENT_POSITIONS] in all; every position opened
    is in the ledger or among the completed trades. *)
Definition btcBooksKept (available : Q) (positions : list Btc.BtcPosition)
    (done : list Btc.BtcTrade) (counter : nat) : Prop :=
  0 <= available
  /\ Forall funded positions
  /\ NoDup (map Btc.pos_altSymbol positions)
  /\ (List.length positions <= Btc.MAX_CONCURRENT_POSITIONS)%nat
  /\ counter = (List.length positions + List.length done)%nat.

Definition btcLedgerKept (st : Btc.Sim) : Prop :=
  btcBooksKept (Btc.availableBtc st) (Btc.openPositions st) (Btc.completedTrades st)
    (Btc.positionCounter st).

(** Three ratio candles, at the timestamps 10, 20 and 30, closing at 1, 2
    and 3. *)
Definition risingCandles : list Btc.AltBtcCandle :=
  map (fun i => Btc.mkAltBtcCandle (10 * i) "ETHUSDT" 1 1 1 (inject_Z i) 0 0 1 1
                  Runtime.noIndicators None)
    [1; 2; 3]%Z.

(** A ratio candle made of an alt candle and a BTC candle of the same
    timestamp, none of the four BTC prices being zero. *)
Definition quotientOf (alt btc : Candle) (c : Btc.AltBtcCandle) : Prop :=
  raw_timestamp alt = Btc.timestamp c
  /\ raw_timestamp btc = Btc.timestamp c
  /\ Btc.open c = raw_open alt / raw_open btc
  /\ Btc.high c = raw_high alt / raw_low btc
  /\ Btc.low c = raw_low alt / raw_high btc
  /\ Btc.close c = raw_close alt / raw_close btc
  /\ Btc.volume c = raw_volume alt
  /\ Btc.turnover c = raw_turnover alt
  /\ Btc.altUsdtPrice c = raw_close alt
  /\ Btc.btcUsdtPrice c = raw_close btc
  /\ ~ raw_open btc == 0 /\ ~ raw_close btc == 0
  /\ ~ raw_high btc == 0 /\ ~ raw_low btc == 0.

(** The candles a provider holds for a symbol, none if it has no array. *)
Definition candlesOf (loadCandles : string -> string -> option (list Candle))
    (sym tf : string) : list Candle :=
  match loadCandles sym tf with
  | Some l => l
  | None => []
  end.

(** The ETH/BTC candles of the feed [Runtime.offsetFeed]. *)
Definition offsetRatioCandles : list Btc.AltBtcCandle :=
  match Btc.buildAltBtcCandles Runtime.offsetFeed Runtime.noFunding
          Runtime.calculateIndicators "ETHUSDT" "1h" with
  | Some candles => candles
  | None => []
  end.

(** The entry [buildAllAltBtcCandles] keeps for a symbol, if any. *)
Definition altEntry (build : string -> option (list Btc.AltBtcCandle)) (sym : string)
    : list (string * list Btc.AltBtcCandle) :=
  match build sym with
  | Some (c0 :: cs) => [(sym, c0 :: cs)]
  | _ => []
  end.

Definition hasRatioCandles (build : string -> option (list Btc.AltBtcCandle))
    (sym : string) : bool :=
  match build sym with
  | Some (_ :: _) => true
  | _ => false
  end.

(** The BTC trades of one alt, and the loop body that groups trades by alt. *)
Definition tradesOfAlt (s : string) (l : list Btc.BtcTrade) : list Btc.BtcTrade :=
  filter (fun t => String.eqb (Btc.pos_altSymbol (Btc.trade_base t)) s) l.

Definition groupByAlt (m : list (string * list Btc.BtcTrade)) (t : Btc.BtcTrade)
    : list (string * list Btc.BtcTrade) :=
  let key := Btc.pos_altSymbol (Btc.trade_base t) in
  match JsMap.get String.eqb m key with
  | Some existing => JsMap.set String.eqb m key (existing ++ [t])
  | None => JsMap.set String.eqb m key [t]
  end.

(** A point of the BTC equity curve taken at one of the timestamps [tss],
    with no negative value in it. *)
Definition soundPoint (tss : list Z) (p : Btc.BtcEquityPoint) : Prop :=
  0 <= Btc.btcEquity p /\ 0 <= Btc.usdtEquity p /\ In (Btc.ep_timestamp p) tss.

(** A strategy that never enters and exits by [rule] (no signal where the
    rule has no answer), and a candle closing at [ratio] at the time [ts]. *)
Definition exitOnly (name_ : string) (leverage_ : Q)
    (rule : Btc.BtcPosition -> list Btc.AltBtcCandle -> nat -> Q ->
            option Btc.BtcExitSignal) : Btc.BtcStrategy :=
  Btc.mkBtcStrategy name_ leverage_
    (fun _ _ _ => Btc.mkBtcEntrySignal false 0 0 0 0 "")
    (fun position altCandles currentIndex avgRatioTrend =>
       match rule position altCandles currentIndex avgRatioTrend with
       | Some signal => signal
       | None => Exits.NO_BTC_EXIT
       end).

Definition ratioCandle (ts : Z) (ratio : Q) : Btc.AltBtcCandle :=
  Btc.mkAltBtcCandle ts "ETHUSDT" ratio ratio ratio ratio 0 0 1 1
    Runtime.noIndicators None.

(** [toFixed] is not needed to run the examples. *)
Definition noDigits (x : Q) (digits : nat) : string := "?".

(** A position entered at the ratio 1 at time 0, with a tenth of a BTC. *)
Definition unitPosition : Btc.BtcPosition :=
  Btc.mkBtcPosition "btc-pos-1" "ETHUSDT" 1 (1 # 10) 0 open_ "entry" false 1.

(** [unitPosition] after half of it was sold for a strategy. *)
Definition halfSold : Btc.BtcPosition :=
  Btc.afterSale unitPosition (Btc.btcAllocated unitPosition * (1 # 2)) false.

(** The sum of [data[first .. first + count - 1]]. *)
Definition windowSum (data : list Q) (first count : nat) : Q :=
  sumOf (fun i => nth i data 0) (seq first count).

(** An array filled from the index [from] on, each filled entry meeting [P]
    at its index. *)
Definition filledFrom (from : nat) (P : nat -> Q -> Prop) (l : list (option Q)) : Prop :=
  forall i, (i < List.length l)%nat ->
    if (i <? from)%nat then nth_error l i = Some None
    else exists v, nth_error l i = Some (Some v) /\ P i v.

(** The same while the loop is at the index [upTo]: nothing is filled from
    there on. *)
Definition filledUpTo (from upTo : nat) (P : nat -> Q -> Prop) (l : list (option Q))
    : Prop :=
  forall i, (i < List.length l)%nat ->
    if (i <? from)%nat then nth_error l i = Some None
    else if (i <? upTo)%nat then exists v, nth_error l i = Some (Some v) /\ P i v
    else nth_error l i = Some None.

(** Four candles for the examples of the indicator helpers. *)
Definition fourCandles : list Candle :=
  [mkCandle 0 10 12 9 11 1 1; mkCandle 1 11 13 10 12 1 1;
   mkCandle 2 12 12 8 9 1 1; mkCandle 3 9 11 9 10 1 1].

(** A BTC trade that does not end before it starts, and a ledger whose
    positions were all entered by the time [now]. *)
Definition timed (t : Btc.BtcTrade) : Prop :=
  Btc.duration t = (Btc.exitTime t - Btc.entryTime (Btc.trade_base t))%Z
  /\ (0 <= Btc.duration t)%Z.

Definition enteredBy (now : Z) (positions : list Btc.BtcPosition)
    (done : list Btc.BtcTrade) : Prop :=
  Forall (fun p => (Btc.entryTime p <= now)%Z) positions /\ Forall timed done.

(** A USD trade that does not end before it starts. *)
Definition usdTimed (t : Trade) : Prop :=
  duration t = (exitTime t - entryTime (trade_base t))%Z /\ (0 <= duration t)%Z.

(** The timestamps of the candles the data map holds for a symbol. *)
Definition candleTimes (symbolDataMap : Usd.SymbolDataMap) (sym : string) : list Z :=
  match JsMap.get String.eqb symbolDataMap sym with
  | Some candles => map timestamp candles
  | None => []
  end.

(** A position entered by the time [now], at the timestamp of a candle of
    its symbol. *)
Definition enteredAtCandle (symbolDataMap : Usd.SymbolDataMap) (now : Z) (p : Position)
    : Prop :=
  (entryTime p <= now)%Z /\ In (entryTime p) (candleTimes symbolDataMap (symbol p)).

(** Every candle array of the data map is in ascending order of timestamp. *)
Definition ascendingData (symbolDataMap : Usd.SymbolDataMap) : Prop :=
  Forall (fun e => StronglySorted Z.le (map timestamp (snd e))) symbolDataMap.

(** A quiet market after the entry of scenario A: the candles stay between
    the stop and the take-profit.  And the funding-rate exit on top of the
    entries of scenario A. *)
Definition quietFeed (sym tf : string) : option (list Candle) :=
  if String.eqb sym "BTCUSDT" then
    Some [mkCandle 0 (1000000 # 10003) (1000000 # 10003) (1000000 # 10003)
            (1000000 # 10003) 1 1;
          mkCandle 3600000 100 101 99 100 1 1;
          mkCandle 7200000 100 101 99 100 1 1]
  else None.

Definition fundedLongOnce (fundingRates : list Funding.FundingRateEntry) : Strategy :=
  mkStrategy "Funding Rate + Trend" (Some ["4h"])
    (shouldEnterLong Runtime.longOnce) (shouldEnterShort Runtime.longOnce)
    (fun position candles currentIndex multiTfData =>
       match Funding.shouldExit noDigits fundingRates position candles currentIndex
               multiTfData with
       | Some signal => signal
       | None => Funding.NO_EXIT
       end).

(** * Properties *)

(** ** Comparisons and sums *)

Lemma Qltb_lt (x y : Q) : Qltb x y = true <-> x < y.
Proof.
  unfold Qltb. rewrite negb_true_iff. split; intro H.
  - apply Qnot_le_lt. intro Hle. apply Qle_bool_iff in Hle. congruence.
  - destruct (Qle_bool y x) eqn:E; [|reflexivity].
    apply Qle_bool_iff in E. exfalso. apply (Qlt_not_le _ _ H E).
Qed.

Lemma Qltb_ge (x y : Q) : Qltb x y = false <-> y <= x.
Proof.
  unfold Qltb. rewrite negb_false_iff. apply Qle_bool_iff.
Qed.

Lemma Qgtb_gt (x y : Q) : Qgtb x y = true <-> y < x.
Proof. apply Qltb_lt. Qed.

Lemma Qgtb_le (x y : Q) : Qgtb x y = false <-> x <= y.
Proof. apply Qltb_ge. Qed.

Lemma Qle_bool_gt (x y : Q) : Qle_bool x y = false <-> y < x.
Proof.
  split; intro H.
  - apply Qnot_le_lt. intro Hle. apply Qle_bool_iff in Hle. congruence.
  - destruct (Qle_bool x y) eqn:E; [|reflexivity].
    apply Qle_bool_iff in E. exfalso. apply (Qlt_not_le _ _ H E).
Qed.

Lemma fold_sum_shift {A : Type} (f : A -> Q) (l : list A) (a : Q) :
  fold_left (fun s x => s + f x) l a == a + fold_left (fun s x => s + f x) l 0.
Proof.
  revert a. induction l as [|x l IH]; intro a; simpl.
  - lra.
  - rewrite (IH (a + f x)), (IH (0 + f x)). lra.
Qed.

Lemma sumOf_cons {A : Type} (f : A -> Q) (x : A) (l : list A) :
  sumOf f (x :: l) == f x + sumOf f l.
Proof.
  unfold sumOf. simpl. rewrite fold_sum_shift. lra.
Qed.

Lemma sumOf_app {A : Type} (f : A -> Q) (l1 l2 : list A) :
  sumOf f (l1 ++ l2) == sumOf f l1 + sumOf f l2.
Proof.
  unfold sumOf. rewrite fold_left_app. apply fold_sum_shift.
Qed.

Lemma sumOf_snoc {A : Type} (f : A -> Q) (l : list A) (x : A) :
  sumOf f (l ++ [x]) == sumOf f l + f x.
Proof.
  rewrite sumOf_app, sumOf_cons. change (sumOf f []) with 0. lra.
Qed.

(** ** The drawdown scan *)

Ltac qcompute := apply Qle_bool_iff; vm_compute; reflexivity.

(** Where the two arithmetics part.  A ratio of 0.493 is exactly 15 percent
    under an entry of 0.58, and in doubles it is above the rounded product
    [0.58 * (1 - 0.15)]; [250 * (1 + 0.001)] is 250.25, and in doubles it is
    not.  This is why the statements on thresholds keep [roundingBand] away
    from them, and why the statement on zero stop distances is about the
    entry price as the engine computes it. *)
Lemma rounding_decides_at_a_threshold :
  (493 # 1000) <= (58 # 100) * (1 - (15 # 100))
  /\ PrimFloat.leb (Numbers.doubleOf (493 # 1000))
       (PrimFloat.mul (Numbers.doubleOf (58 # 100))
          (PrimFloat.sub (Numbers.doubleOf 1) (Numbers.doubleOf (15 # 100))))
     = false
  /\ 250 * (1 + (1 # 1000)) == 25025 # 100
  /\ PrimFloat.eqb
       (PrimFloat.mul (Numbers.doubleOf 250)
          (PrimFloat.add (Numbers.doubleOf 1) (Numbers.doubleOf (1 # 1000))))
       (Numbers.doubleOf (25025 # 100))
     = false.
Proof.
  split; [qcompute|]. split; [vm_compute; reflexivity|].
  split; vm_compute; reflexivity.
Qed.

Lemma fold_left_firstn_S {A B : Type} (f : A -> B -> A) (l : list B) (n : nat) (a : A) :
  fold_left f (firstn (S n) l) a =
  match nth_error l n with
  | Some x => f (fold_left f (firstn n l) a) x
  | None => fold_left f (firstn n l) a
  end.
Proof.
  revert n a. induction l as [|y l IH]; intros n a.
  - destruct n; reflexivity.
  - destruct n as [|n].
    + reflexivity.
    + change (firstn (S (S n)) (y :: l)) with (y :: firstn (S n) l).
      change (firstn (S n) (y :: l)) with (y :: firstn n l).
      simpl fold_left. simpl nth_error. apply IH.
Qed.

Lemma drawdownStep_peak (st : Usd.Drawdown) (p : EquityPoint) :
  Usd.dd_peak st <= Usd.dd_peak (Usd.drawdownStep st p)
  /\ equity p <= Usd.dd_peak (Usd.drawdownStep st p).
Proof.
  unfold Usd.drawdownStep.
  destruct (Qgtb (equity p) (Usd.dd_peak st)) eqn:Epk;
    [apply Qgtb_gt in Epk | apply Qgtb_le in Epk];
    match goal with |- context [if ?c then _ else _] => destruct c end;
    simpl; split; lra.
Qed.

Lemma drawdownStep_bounded (st : Usd.Drawdown) (p : EquityPoint) :
  0 <= equity p -> ddBounded st -> ddBounded (Usd.drawdownStep st p).
Proof.
  intros Hp (Hmax & Hlo & Hhi).
  pose proof (drawdownStep_peak st p) as [_ Hpk].
  unfold Usd.drawdownStep in *.
  set (peak1 := if Qgtb (equity p) (Usd.dd_peak st) then equity p else Usd.dd_peak st) in *.
  destruct (Qgtb (peak1 - equity p) (Usd.dd_maxDrawdown st)) eqn:Edd.
  - apply Qgtb_gt in Edd. simpl in Hpk. unfold ddBounded. simpl.
    assert (Hpos : 0 < peak1) by lra.
    assert (Hq0 : 0 <= (peak1 - equity p) / peak1).
    { apply Qle_shift_div_l; [exact Hpos | lra]. }
    assert (Hq1 : (peak1 - equity p) / peak1 <= 1).
    { apply Qle_shift_div_r; [exact Hpos | lra]. }
    repeat split; lra.
  - unfold ddBounded. simpl. repeat split; assumption.
Qed.

Lemma drawdown_fold_bounded (curve : list EquityPoint) (st : Usd.Drawdown) :
  Forall (fun p => 0 <= equity p) curve -> ddBounded st ->
  ddBounded (fold_left Usd.drawdownStep curve st).
Proof.
  intro Hall. revert st. induction Hall as [|p curve Hp _ IH]; intros st Hst.
  - exact Hst.
  - simpl. apply IH. apply drawdownStep_bounded; assumption.
Qed.

(** C7, as amended.  The peak of the drawdown scan never falls from one
    point to the next, on any curve; the reported [maxDrawdownPercent] lies
    in [0, 100] when no equity sample is negative. *)
Theorem drawdown_peak_rises_percent_bounded
    (Math_sqrt : Q -> Q) (utcMonthKey : Z -> string)
    (localeCompare : string -> string -> comparison)
    (cfg : BacktestConfig) (trades_ : list Trade) (curve : list EquityPoint) :
  (forall n : nat,
      peakAfter (startingCapital cfg) curve n
      <= peakAfter (startingCapital cfg) curve (S n))
  /\ (Forall (fun p => 0 <= equity p) curve ->
      0 <= maxDrawdownPercent
             (Usd.calculateResults Math_sqrt utcMonthKey localeCompare cfg trades_ curve)
      /\ maxDrawdownPercent
           (Usd.calculateResults Math_sqrt utcMonthKey localeCompare cfg trades_ curve)
         <= 100).
Proof.
  split.
  - intro n. unfold peakAfter. rewrite fold_left_firstn_S.
    destruct (nth_error curve n) as [p|].
    + apply drawdownStep_peak.
    + apply Qle_refl.
  - intro Hall.
    assert (H : ddBounded (Usd.drawdownScan (startingCapital cfg) curve)).
    { apply drawdown_fold_bounded; [exact Hall|].
      unfold ddBounded. simpl. repeat split; lra. }
    destruct H as (_ & Hlo & Hhi). split; assumption.
Qed.

Lemma drawdown_peak_rises_percent_bounded_witness :
  0 <= maxDrawdownPercent
         (Usd.calculateResults Runtime.Math_sqrt Runtime.utcMonthKey
            Runtime.localeCompare Runtime.config0 [] Runtime.fiveDays)
  /\ maxDrawdownPercent
       (Usd.calculateResults Runtime.Math_sqrt Runtime.utcMonthKey
          Runtime.localeCompare Runtime.config0 [] Runtime.fiveDays)
     <= 100.
Proof.
  apply (proj2 (drawdown_peak_rises_percent_bounded Runtime.Math_sqrt
                  Runtime.utcMonthKey Runtime.localeCompare Runtime.config0 []
                  Runtime.fiveDays)).
  repeat constructor; qcompute.
Defined.

(** C7, as stated, fails.  In a market that halves every hour the engine,
    risking 4 percent of a starting capital of 500 per trade, takes 27
    stop-outs of 20 each between two equity samples: the curve goes from
    500 to -40, a drawdown of 540, reported as 108 percent. *)
Lemma drawdown_percent_above_100 :
  let r := Usd.runBacktest Runtime.Math_sqrt Runtime.utcMonthKey Runtime.localeCompare
             Runtime.fallingFeed Runtime.calculateIndicators Runtime.world0
             Runtime.frictionless in
  map (fun p => Qred (equity p)) (equityCurve r) = [500; -40]
  /\ Qred (maxDrawdownPercent r) = 108
  /\ ~ (maxDrawdownPercent r <= 100).
Proof.
  cbv zeta.
  assert (H : map (fun p => Qred (equity p))
                (equityCurve
                   (Usd.runBacktest Runtime.Math_sqrt Runtime.utcMonthKey
                      Runtime.localeCompare Runtime.fallingFeed
                      Runtime.calculateIndicators Runtime.world0 Runtime.frictionless))
              = [500; -40]
              /\ Qred (maxDrawdownPercent
                         (Usd.runBacktest Runtime.Math_sqrt Runtime.utcMonthKey
                            Runtime.localeCompare Runtime.fallingFeed
                            Runtime.calculateIndicators Runtime.world0
                            Runtime.frictionless))
                 = 108)
    by (vm_compute; split; reflexivity).
  destruct H as [Hcurve Hpct]. split; [exact Hcurve|]. split; [exact Hpct|].
  intro Hle. rewrite <- (Qred_correct (maxDrawdownPercent _)) in Hle.
  rewrite Hpct in Hle. apply Qle_bool_iff in Hle. discriminate.
Qed.

(** ** The stop-loss rule of the BTC engine *)




(** ** Degenerate entries *)

Lemma btc_return_of_zero_entry (allocated exitRatio_ leverage_ rate : Q) :
  Btc.calculateBtcReturn allocated 0 exitRatio_ leverage_ rate = 0.
Proof. reflexivity. Qed.

Lemma openSignals_keep_a_distance (cfg : BacktestConfig) (sym : string)
    (candle : CandleWithIndicators) (equity_ : Q)
    (signals : list (EntrySignal * Side)) (positions : list Position) (counter : nat) :
  exists (opened : list Position) (counter1 : nat),
    Usd.openSignals cfg sym candle equity_ signals (positions, counter)
    = (positions ++ opened, counter1)
    /\ Forall (fun p => ~ entryPrice p == stopLoss p) opened.
Proof.
  revert positions counter.
  induction signals as [|[signal side_] rest IH]; intros positions counter.
  - exists [], counter. rewrite app_nil_r. split; [reflexivity|constructor].
  - cbn [Usd.openSignals].
    destruct (Z.of_nat (List.length positions) >=? maxConcurrentPositions cfg)%Z.
    { exists [], counter. rewrite app_nil_r. split; [reflexivity|constructor]. }
    set (entryPrice_ := match side_ with
                        | long => close candle * (1 + slippageRate cfg)
                        | short => close candle * (1 - slippageRate cfg)
                        end).
    destruct (Qeq_bool (Qabs (entryPrice_ - sig_stopLoss signal)) 0) eqn:Ezero;
      [apply IH|].
    match goal with
    | |- context [Qle_bool ?x 0] => destruct (Qle_bool x 0)
    end; [apply IH|].
    cbn [Usd.nextPositionId].
    match goal with
    | |- context [Usd.openSignals _ _ _ _ rest (positions ++ [?p], ?c)] =>
        destruct (IH (positions ++ [p]) c) as (opened & counter1 & Heq & Hall);
        exists (p :: opened), counter1
    end.
    split; [rewrite Heq, <- app_assoc; reflexivity|].
    constructor; [|exact Hall].
    cbn [entryPrice stopLoss]. intro Hsame.
    assert (Hnone : Qabs (entryPrice_ - sig_stopLoss signal) == 0).
    { assert (Hdiff : entryPrice_ - sig_stopLoss signal == 0) by lra.
      rewrite Hdiff. reflexivity. }
    apply Qeq_bool_iff in Hnone. congruence.
Qed.

(** C8, as amended.  USD: the entry loop never opens a position at zero
    distance between its entry price, as the engine computes it, and its
    stop loss; and with no slippage configured, where the entry price is the
    close itself, a signal whose stop is the close opens nothing and the
    loop goes on to the next signal (or has stopped at the concurrency cap).
    BTC: a zero entry ratio is not rejected; the division is guarded
    instead, and closing such a position returns no BTC at all. *)
Theorem degenerate_entry_handling
    (cfg : BacktestConfig) (sym : string) (candle : CandleWithIndicators)
    (equity_ : Q) (allocated exitRatio_ leverage_ rate : Q) :
  (forall (signals : list (EntrySignal * Side)) (positions : list Position)
          (counter : nat),
      exists (opened : list Position) (counter1 : nat),
        Usd.openSignals cfg sym candle equity_ signals (positions, counter)
        = (positions ++ opened, counter1)
        /\ Forall (fun p => ~ entryPrice p == stopLoss p) opened)
  /\ (forall (signal : EntrySignal) (side_ : Side) (rest : list (EntrySignal * Side))
             (st : list Position * nat),
        slippageRate cfg == 0 -> sig_stopLoss signal == close candle ->
        Usd.openSignals cfg sym candle equity_ ((signal, side_) :: rest) st
        = if (Z.of_nat (List.length (fst st)) >=? maxConcurrentPositions cfg)%Z then st
          else Usd.openSignals cfg sym candle equity_ rest st)
  /\ Btc.calculateBtcReturn allocated 0 exitRatio_ leverage_ rate = 0.
Proof.
  split; [|split; [|apply btc_return_of_zero_entry]].
  - intros signals positions counter. apply openSignals_keep_a_distance.
  - intros signal side_ rest [positions counter] Hslip Hstop.
    cbn [Usd.openSignals fst].
    destruct (Z.of_nat (List.length positions) >=? maxConcurrentPositions cfg)%Z;
      [reflexivity|].
    assert (Hzero : Qabs (match side_ with
                          | long => close candle * (1 + slippageRate cfg)
                          | short => close candle * (1 - slippageRate cfg)
                          end - sig_stopLoss signal) == 0).
    { assert (Hdiff : match side_ with
                      | long => close candle * (1 + slippageRate cfg)
                      | short => close candle * (1 - slippageRate cfg)
                      end - sig_stopLoss signal == 0).
      { destruct side_; rewrite Hslip, Hstop; ring. }
      rewrite Hdiff. reflexivity. }
    apply Qeq_bool_iff in Hzero. rewrite Hzero. reflexivity.
Qed.

Lemma degenerate_entry_handling_witness :
  Usd.openSignals Runtime.configNoSlip "BTCUSDT" Runtime.candle100 500
    [(Runtime.stopAtEntry, long)] ([], 0%nat)
  = ([], 0%nat).
Proof.
  apply (proj1 (proj2 (degenerate_entry_handling Runtime.configNoSlip "BTCUSDT"
                         Runtime.candle100 500 0 0 0 0))
           Runtime.stopAtEntry long [] ([], 0%nat)).
  - reflexivity.
  - reflexivity.
Defined.

(** C8, as stated, fails for the BTC engine: on a feed whose first ALT/BTC
    ratio is 0 the strategy's entry is taken, and the position, entered at
    ratio 0, ends as a trade. *)
Lemma btc_zero_entry_ratio_is_traded :
  map (fun t => (Qeq_bool (Btc.entryRatio (Btc.trade_base t)) 0, Btc.exitReason t))
    (Btc.trades
       (Btc.runBtcBacktest Runtime.zeroCloseFeed Runtime.noFunding
          Runtime.calculateIndicators Runtime.enterFirst "1d"))
  = [(true, "backtest_end")].
Proof. vm_compute. reflexivity. Qed.

(** ** Runs without data *)

Lemma loadSymbol_noData (loadCandles : string -> string -> option (list Candle))
    (calculateIndicators : list Candle -> list CandleWithIndicators)
    (cfg : BacktestConfig) (acc : Usd.SymbolDataMap * Usd.MultiTfBySymbol)
    (sym : string) :
  noData loadCandles (timeframe cfg) sym ->
  Usd.loadSymbol loadCandles calculateIndicators cfg acc sym = acc.
Proof.
  intros [H|H]; unfold Usd.loadSymbol; destruct acc; rewrite H; reflexivity.
Qed.

Lemma loadData_noData (loadCandles : string -> string -> option (list Candle))
    (calculateIndicators : list Candle -> list CandleWithIndicators)
    (cfg : BacktestConfig) :
  Forall (noData loadCandles (timeframe cfg)) (symbols cfg) ->
  Usd.loadData loadCandles calculateIndicators cfg = ([], []).
Proof.
  unfold Usd.loadData. generalize (@nil (string * list CandleWithIndicators),
                                   @nil (string * MultiTimeframeData)).
  induction 1 as [|sym syms Hsym _ IH]; simpl.
  - reflexivity.
  - rewrite loadSymbol_noData by exact Hsym. exact IH.
Qed.

Lemma simulate_noData (loadCandles : string -> string -> option (list Candle))
    (calculateIndicators : list Candle -> list CandleWithIndicators)
    (w : World) (cfg : BacktestConfig) :
  Usd.loadData loadCandles calculateIndicators cfg = ([], []) ->
  Usd.simulate loadCandles calculateIndicators w cfg
  = ([], [mkEquityPoint (Date_now w) (startingCapital cfg + 0)]).
Proof.
  intro H. unfold Usd.simulate, Usd.mainLoop, Usd.sortedTimestampsOf.
  rewrite H. reflexivity.
Qed.

Lemma buildAltBtcCandles_noData
    (loadCandles : string -> string -> option (list Candle))
    (loadFundingRates : string -> option (list Btc.FundingRate))
    (calculateIndicators : list Candle -> list CandleWithIndicators)
    (tf sym : string) :
  noData loadCandles tf sym ->
  Btc.buildAltBtcCandles loadCandles loadFundingRates calculateIndicators sym tf = None.
Proof.
  intros [H|H]; unfold Btc.buildAltBtcCandles; rewrite H;
    destruct (loadCandles "BTCUSDT" tf) as [[|b bs]|]; reflexivity.
Qed.

Lemma buildAll_noData (loadCandles : string -> string -> option (list Candle))
    (loadFundingRates : string -> option (list Btc.FundingRate))
    (calculateIndicators : list Candle -> list CandleWithIndicators) (tf : string) :
  Forall (noData loadCandles tf) Btc.ALT_SYMBOLS ->
  Btc.buildAllAltBtcCandles loadCandles loadFundingRates calculateIndicators tf = [].
Proof.
  unfold Btc.buildAllAltBtcCandles.
  generalize Btc.ALT_SYMBOLS, (@nil (string * list Btc.AltBtcCandle)).
  intros syms acc Hall. revert acc.
  induction Hall as [|sym syms Hsym _ IH]; intro acc; simpl.
  - reflexivity.
  - rewrite buildAltBtcCandles_noData by exact Hsym. apply IH.
Qed.

(** C9.  When the provider has no candle for any configured symbol, both
    engines return a result: the USD engine one with no trade and a final
    equity equal to the starting capital, the BTC engine one with no trade
    and a final balance equal to the starting balance. *)
Theorem no_data_gives_empty_results
    (Math_sqrt : Q -> Q) (utcMonthKey : Z -> string)
    (localeCompare : string -> string -> comparison)
    (loadCandles : string -> string -> option (list Candle))
    (loadFundingRates : string -> option (list Btc.FundingRate))
    (calculateIndicators : list Candle -> list CandleWithIndicators)
    (w : World) (cfg : BacktestConfig) (btcStrategy : Btc.BtcStrategy) (tf : string) :
  (Forall (noData loadCandles (timeframe cfg)) (symbols cfg) ->
   let r := Usd.runBacktest Math_sqrt utcMonthKey localeCompare loadCandles
              calculateIndicators w cfg in
   totalTrades r = 0%nat /\ trades r = [] /\ finalEquity r == startingCapital cfg)
  /\ (Forall (noData loadCandles tf) Btc.ALT_SYMBOLS ->
      let r := Btc.runBtcBacktest loadCandles loadFundingRates calculateIndicators
                 btcStrategy tf in
      Btc.totalTrades r = 0%nat /\ Btc.trades r = []
      /\ Btc.finalBtc r = Btc.startingBtc r /\ Btc.startingBtc r = Btc.STARTING_BTC).
Proof.
  split.
  - intro Hall. cbv zeta. unfold Usd.runBacktest.
    rewrite simulate_noData by (apply loadData_noData; exact Hall).
    simpl. repeat split. unfold sumOf. simpl. lra.
  - intro Hall. cbv zeta. unfold Btc.runBtcBacktest.
    rewrite buildAll_noData by exact Hall. simpl. repeat split.
Qed.

Lemma no_data_gives_empty_results_witness :
  (let r := Usd.runBacktest Runtime.Math_sqrt Runtime.utcMonthKey Runtime.localeCompare
              Runtime.noCandles Runtime.calculateIndicators Runtime.world0
              Runtime.config0 in
   totalTrades r = 0%nat /\ trades r = [] /\ finalEquity r == startingCapital Runtime.config0)
  /\ (let r := Btc.runBtcBacktest Runtime.noCandles Runtime.noFunding
                 Runtime.calculateIndicators Runtime.btcIdle "1d" in
      Btc.totalTrades r = 0%nat /\ Btc.trades r = []
      /\ Btc.finalBtc r = Btc.startingBtc r /\ Btc.startingBtc r = Btc.STARTING_BTC).
Proof.
  pose proof (no_data_gives_empty_results Runtime.Math_sqrt Runtime.utcMonthKey
                Runtime.localeCompare Runtime.noCandles Runtime.noFunding
                Runtime.calculateIndicators Runtime.world0 Runtime.config0
                Runtime.btcIdle "1d") as [Husd Hbtc].
  split.
  - apply Husd. repeat constructor.
  - apply Hbtc. repeat constructor.
Defined.

(** ** Scenario A: the fee of the TP1 partial close *)

(** C2 on its scenario.  The run ends with one trade, closed for
    [TP1 hit — full close], on a position of size 400.  Its [pnl] is 39.268;
    the gross gain less one commission per leg is 39.388.  The difference,
    0.12, is the fee of the 50 percent partial close, which [closePosition]
    subtracts a second time: once inside the partial close's own [pnl] and
    once inside [position.commission]. *)
Theorem scenario_A_charges_partial_fee_twice :
  let r := Usd.runBacktest Runtime.Math_sqrt Runtime.utcMonthKey Runtime.localeCompare
             Runtime.scenarioAFeed Runtime.calculateIndicators Runtime.world0
             Runtime.scenarioA in
  let rate := commissionRate Runtime.scenarioA in
  map (fun t => (exitReason t, Qred (size (trade_base t)), Qred (entryPrice (trade_base t)),
                 Qred (pnl t)))
      (trades r)
  = [("TP1 hit — full close", 400, 100, 9817 # 250)]
  /\ map (fun t => Qred (grossGain t - legsCommission rate t)) (trades r)
     = [9847 # 250]
  /\ map (fun t => Qred (grossGain t - legsCommission rate t - pnl t)) (trades r)
     = [3 # 25]
  /\ map (fun t => map (fun pc => (pc_reason pc, Qred (pc_size pc * rate)))
                     (partialCloses (trade_base t)))
         (trades r)
     = [[("TP1 hit — partial close 50%", 3 # 25)]].
Proof. vm_compute. repeat split. Qed.

(** ** Runs on the same inputs *)

Lemma fold_left_same {A B : Type} (f g : A -> B -> A) (l : list B) (a : A) :
  (forall x y, f x y = g x y) -> fold_left f l a = fold_left g l a.
Proof.
  intro Hfg. revert a. induction l as [|y l IH]; intro a; cbn [fold_left].
  - reflexivity.
  - rewrite Hfg. apply IH.
Qed.

Section SameAnswers.
Variables (cfg : BacktestConfig) (s1 s2 : Strategy).
Hypothesis Hsame : sameAnswers s1 s2.

Lemma loadData_sameAnswers (loadCandles : string -> string -> option (list Candle))
    (calculateIndicators : list Candle -> list CandleWithIndicators) :
  Usd.loadData loadCandles calculateIndicators (withStrategy cfg s1)
  = Usd.loadData loadCandles calculateIndicators (withStrategy cfg s2).
Proof.
  unfold Usd.loadData. apply fold_left_same. intros acc sym.
  unfold Usd.loadSymbol. cbn [withStrategy timeframe strategy].
  rewrite (same_timeframes s1 s2 Hsame). reflexivity.
Qed.

Lemma checkExit_sameAnswers (candles : list CandleWithIndicators) (candleIdx : nat)
    (multiTfData : option MultiTimeframeData) (candle : CandleWithIndicators)
    (p : Position) :
  Usd.checkExit (withStrategy cfg s1) candles candleIdx multiTfData candle p
  = Usd.checkExit (withStrategy cfg s2) candles candleIdx multiTfData candle p.
Proof.
  unfold Usd.checkExit.
  change (Usd.stopLossRule (withStrategy cfg s1)) with (Usd.stopLossRule (withStrategy cfg s2)).
  destruct (Usd.stopLossRule (withStrategy cfg s2) candle p) as [t|p1];
    cbn [Usd.unlessClosed]; [reflexivity|].
  change (Usd.takeProfit1Rule (withStrategy cfg s1))
    with (Usd.takeProfit1Rule (withStrategy cfg s2)).
  destruct (Usd.takeProfit1Rule (withStrategy cfg s2) candle p1) as [t|p2];
    cbn [Usd.unlessClosed]; [reflexivity|].
  change (Usd.takeProfit2Rule (withStrategy cfg s1))
    with (Usd.takeProfit2Rule (withStrategy cfg s2)).
  destruct (Usd.takeProfit2Rule (withStrategy cfg s2) candle p2) as [t|p3];
    cbn [Usd.unlessClosed]; [reflexivity|].
  assert (Hrule : Usd.strategyExitRule (withStrategy cfg s1) candles candleIdx multiTfData
                    candle p3
                  = Usd.strategyExitRule (withStrategy cfg s2) candles candleIdx
                      multiTfData candle p3).
  { unfold Usd.strategyExitRule. cbn [withStrategy strategy slippageRate commissionRate].
    rewrite (same_exit s1 s2 Hsame). reflexivity. }
  rewrite Hrule. reflexivity.
Qed.

Lemma checkExits_sameAnswers (sym : string) (candles : list CandleWithIndicators)
    (candleIdx : nat) (multiTfData : option MultiTimeframeData)
    (candle : CandleWithIndicators) (positions : list Position) (done : list Trade) :
  Usd.checkExits (withStrategy cfg s1) sym candles candleIdx multiTfData candle
    positions done
  = Usd.checkExits (withStrategy cfg s2) sym candles candleIdx multiTfData candle
      positions done.
Proof.
  unfold Usd.checkExits. induction positions as [|p ps IH]; cbn [fold_right].
  - reflexivity.
  - rewrite IH. destruct (fold_right _ _ ps) as [kept done1].
    rewrite checkExit_sameAnswers. reflexivity.
Qed.

Lemma openSignals_sameAnswers (sym : string) (candle : CandleWithIndicators)
    (equity_ : Q) (signals : list (EntrySignal * Side)) (st : list Position * nat) :
  Usd.openSignals (withStrategy cfg s1) sym candle equity_ signals st
  = Usd.openSignals (withStrategy cfg s2) sym candle equity_ signals st.
Proof.
  revert st. induction signals as [|[signal side_] rest IH]; intros [positions counter];
    cbn [Usd.openSignals].
  - reflexivity.
  - cbn [withStrategy maxConcurrentPositions riskPerTrade slippageRate cfg_leverage
         commissionRate].
    destruct (Z.of_nat (List.length positions) >=? maxConcurrentPositions cfg)%Z;
      [reflexivity|].
    destruct (Qeq_bool _ 0); [apply IH|].
    match goal with
    | |- context [Qle_bool ?x 0] => destruct (Qle_bool x 0)
    end; [apply IH|].
    cbn [Usd.nextPositionId]. apply IH.
Qed.

Lemma checkEntries_sameAnswers (sym : string) (candles : list CandleWithIndicators)
    (candleIdx : nat) (multiTfData : option MultiTimeframeData)
    (candle : CandleWithIndicators) (equity_ : Q) (st : list Position * nat) :
  Usd.checkEntries (withStrategy cfg s1) sym candles candleIdx multiTfData candle
    equity_ st
  = Usd.checkEntries (withStrategy cfg s2) sym candles candleIdx multiTfData candle
      equity_ st.
Proof.
  unfold Usd.checkEntries. cbn [withStrategy strategy maxConcurrentPositions].
  rewrite (same_long s1 s2 Hsame), (same_short s1 s2 Hsame).
  rewrite openSignals_sameAnswers. reflexivity.
Qed.

Lemma processSymbol_sameAnswers (indexMaps : Usd.IndexMaps)
    (multiTfBySymbol : Usd.MultiTfBySymbol) (ts : Z) (st : Usd.Sim)
    (entry : string * list CandleWithIndicators) :
  Usd.processSymbol (withStrategy cfg s1) indexMaps multiTfBySymbol ts st entry
  = Usd.processSymbol (withStrategy cfg s2) indexMaps multiTfBySymbol ts st entry.
Proof.
  unfold Usd.processSymbol. destruct entry as [sym candles].
  destruct (JsMap.get String.eqb indexMaps sym) as [indexMap|]; [|reflexivity].
  destruct (JsMap.get Z.eqb indexMap ts) as [candleIdx|]; [|reflexivity].
  destruct (nth_error candles candleIdx) as [candle|]; [|reflexivity].
  rewrite checkExits_sameAnswers.
  destruct (Usd.checkExits _ _ _ _ _ _ _ _) as [open1 done1].
  rewrite checkEntries_sameAnswers. reflexivity.
Qed.

Lemma processTimestamp_sameAnswers (symbolDataMap : Usd.SymbolDataMap)
    (indexMaps : Usd.IndexMaps) (multiTfBySymbol : Usd.MultiTfBySymbol) (lastTs : Z)
    (st : Usd.Sim) (ts : Z) :
  Usd.processTimestamp (withStrategy cfg s1) symbolDataMap indexMaps multiTfBySymbol
    lastTs st ts
  = Usd.processTimestamp (withStrategy cfg s2) symbolDataMap indexMaps multiTfBySymbol
      lastTs st ts.
Proof.
  unfold Usd.processTimestamp.
  rewrite (fold_left_same _ _ symbolDataMap st
             (processSymbol_sameAnswers indexMaps multiTfBySymbol ts)).
  reflexivity.
Qed.

Lemma mainLoop_sameAnswers (loadCandles : string -> string -> option (list Candle))
    (calculateIndicators : list Candle -> list CandleWithIndicators) (w1 w2 : World) :
  Usd.mainLoop loadCandles calculateIndicators w1 (withStrategy cfg s1)
  = Usd.mainLoop loadCandles calculateIndicators w2 (withStrategy cfg s2).
Proof.
  unfold Usd.mainLoop. rewrite loadData_sameAnswers.
  destruct (Usd.loadData loadCandles calculateIndicators (withStrategy cfg s2))
    as [dataMap multiTf].
  apply fold_left_same. intros st ts. apply processTimestamp_sameAnswers.
Qed.

Lemma simulate_sameAnswers (loadCandles : string -> string -> option (list Candle))
    (calculateIndicators : list Candle -> list CandleWithIndicators) (w1 w2 : World) :
  Usd.sortedTimestampsOf loadCandles calculateIndicators (withStrategy cfg s1) <> [] ->
  Usd.simulate loadCandles calculateIndicators w1 (withStrategy cfg s1)
  = Usd.simulate loadCandles calculateIndicators w2 (withStrategy cfg s2).
Proof.
  intro Hts. unfold Usd.simulate.
  rewrite (mainLoop_sameAnswers loadCandles calculateIndicators w1 w2).
  assert (Htss : Usd.sortedTimestampsOf loadCandles calculateIndicators
                   (withStrategy cfg s1)
                 = Usd.sortedTimestampsOf loadCandles calculateIndicators
                     (withStrategy cfg s2)).
  { unfold Usd.sortedTimestampsOf. rewrite loadData_sameAnswers. reflexivity. }
  rewrite Htss in *. rewrite loadData_sameAnswers.
  change (Usd.forceClose (withStrategy cfg s1)) with (Usd.forceClose (withStrategy cfg s2)).
  destruct (Usd.sortedTimestampsOf loadCandles calculateIndicators (withStrategy cfg s2))
    as [|t0 tss]; [contradiction|reflexivity].
Qed.
End SameAnswers.

(** C4, as amended.  Two runs on the same data and configuration, with
    strategy objects that answer alike, return the same result, whatever
    clock and position counter each starts from, as soon as one candle is
    loaded.  With an empty timeline the result is the statistics of no trade
    over a single equity point, whose timestamp is the wall clock of the
    run. *)
Theorem usd_run_reads_clock_only_without_data
    (Math_sqrt : Q -> Q) (utcMonthKey : Z -> string)
    (localeCompare : string -> string -> comparison)
    (loadCandles : string -> string -> option (list Candle))
    (calculateIndicators : list Candle -> list CandleWithIndicators)
    (w1 w2 : World) (cfg : BacktestConfig) (s1 s2 : Strategy)
    (Hsame : sameAnswers s1 s2) :
  (Usd.sortedTimestampsOf loadCandles calculateIndicators (withStrategy cfg s1) <> [] ->
   Usd.runBacktest Math_sqrt utcMonthKey localeCompare loadCandles calculateIndicators
     w1 (withStrategy cfg s1)
   = Usd.runBacktest Math_sqrt utcMonthKey localeCompare loadCandles calculateIndicators
       w2 (withStrategy cfg s2))
  /\ (Usd.sortedTimestampsOf loadCandles calculateIndicators (withStrategy cfg s1) = [] ->
      Usd.runBacktest Math_sqrt utcMonthKey localeCompare loadCandles
        calculateIndicators w1 (withStrategy cfg s1)
      = Usd.calculateResults Math_sqrt utcMonthKey localeCompare (withStrategy cfg s1) []
          [mkEquityPoint (Date_now w1) (startingCapital cfg + 0)]).
Proof.
  split; intro Hts.
  - unfold Usd.runBacktest.
    rewrite (simulate_sameAnswers cfg s1 s2 Hsame loadCandles calculateIndicators w1 w2 Hts).
    destruct (Usd.simulate loadCandles calculateIndicators w2 (withStrategy cfg s2))
      as [trades_ curve].
    unfold Usd.calculateResults. cbn [withStrategy strategy startingCapital cfg_leverage].
    rewrite (same_name s1 s2 Hsame). reflexivity.
  - unfold Usd.runBacktest, Usd.simulate, Usd.mainLoop.
    unfold Usd.sortedTimestampsOf in *.
    destruct (Usd.loadData loadCandles calculateIndicators (withStrategy cfg s1))
      as [dataMap multiTf].
    simpl fst in *. rewrite Hts. reflexivity.
Qed.

Lemma usd_run_reads_clock_only_without_data_witness :
  Usd.runBacktest Runtime.Math_sqrt Runtime.utcMonthKey Runtime.localeCompare
    Runtime.scenarioAFeed Runtime.calculateIndicators (mkWorld 1 0)
    (withStrategy Runtime.scenarioA Runtime.longOnce)
  = Usd.runBacktest Runtime.Math_sqrt Runtime.utcMonthKey Runtime.localeCompare
      Runtime.scenarioAFeed Runtime.calculateIndicators (mkWorld 2 7)
      (withStrategy Runtime.scenarioA Runtime.longOnce).
Proof.
  apply (proj1 (usd_run_reads_clock_only_without_data Runtime.Math_sqrt
                  Runtime.utcMonthKey Runtime.localeCompare Runtime.scenarioAFeed
                  Runtime.calculateIndicators (mkWorld 1 0) (mkWorld 2 7)
                  Runtime.scenarioA Runtime.longOnce Runtime.longOnce
                  (mkSameAnswers _ _ eq_refl eq_refl (fun _ _ _ => eq_refl)
                     (fun _ _ _ => eq_refl) (fun _ _ _ _ => eq_refl)))).
  vm_compute. discriminate.
Defined.

(** C4, as stated, fails: with no candle loaded, two runs that differ in the
    time they are started at return different equity curves. *)
Lemma empty_runs_differ_with_the_clock :
  Usd.runBacktest Runtime.Math_sqrt Runtime.utcMonthKey Runtime.localeCompare
    Runtime.noCandles Runtime.calculateIndicators (mkWorld 1 0) Runtime.config0
  <> Usd.runBacktest Runtime.Math_sqrt Runtime.utcMonthKey Runtime.localeCompare
       Runtime.noCandles Runtime.calculateIndicators (mkWorld 2 0) Runtime.config0.
Proof.
  intro H. apply (f_equal equityCurve) in H. vm_compute in H. discriminate.
Qed.

(** What a strategy answers can depend on more than its arguments: with the
    exit rule of the funding-rate strategy, the same run ends by the forced
    close when no rate is loaded and by the strategy's exit once
    [loadFundingData] has stored a positive rate. *)
Lemma funding_rate_runs_differ_with_the_loaded_rates :
  map exitReason
    (trades
       (Usd.runBacktest Runtime.Math_sqrt Runtime.utcMonthKey Runtime.localeCompare
          quietFeed Runtime.calculateIndicators Runtime.world0
          (withStrategy Runtime.scenarioA (fundedLongOnce (Funding.loadFundingData [])))))
  = ["End of backtest — forced close"]
  /\ map exitReason
       (trades
          (Usd.runBacktest Runtime.Math_sqrt Runtime.utcMonthKey Runtime.localeCompare
             quietFeed Runtime.calculateIndicators Runtime.world0
             (withStrategy Runtime.scenarioA
                (fundedLongOnce
                   (Funding.loadFundingData [Funding.mkFundingRateEntry (1 # 1000) 0])))))
     = ["Funding rate flipped positive (?%) — setup invalidated"].
Proof. split; vm_compute; reflexivity. Qed.

(** ** The concurrency cap of the USD engine *)

Lemma checkExits_length (cfg : BacktestConfig) (sym : string)
    (candles : list CandleWithIndicators) (candleIdx : nat)
    (multiTfData : option MultiTimeframeData) (candle : CandleWithIndicators)
    (positions : list Position) (done : list Trade) :
  (List.length (fst (Usd.checkExits cfg sym candles candleIdx multiTfData candle
                       positions done))
   <= List.length positions)%nat.
Proof.
  unfold Usd.checkExits. induction positions as [|p ps IH]; simpl.
  - lia.
  - destruct (fold_right _ _ ps) as [kept done1]. simpl in IH.
    destruct (negb (String.eqb (symbol p) sym)); simpl; [lia|].
    destruct (Usd.checkExit cfg candles candleIdx multiTfData candle p); simpl; lia.
Qed.

Lemma openSignals_withinCap (cfg : BacktestConfig) (sym : string)
    (candle : CandleWithIndicators) (equity_ : Q)
    (signals : list (EntrySignal * Side)) (st : list Position * nat) :
  withinCap cfg (fst st) ->
  withinCap cfg (fst (Usd.openSignals cfg sym candle equity_ signals st)).
Proof.
  revert st. induction signals as [|[signal side_] rest IH]; intros [positions counter] H.
  - exact H.
  - cbn [Usd.openSignals].
    destruct (Z.of_nat (List.length positions) >=? maxConcurrentPositions cfg)%Z eqn:Ecap;
      [exact H|].
    destruct (Qeq_bool _ 0); [apply IH; exact H|].
    match goal with |- context [Qle_bool ?x 0] => destruct (Qle_bool x 0) end;
      [apply IH; exact H|].
    cbn [Usd.nextPositionId]. apply IH. unfold withinCap in *. cbn [fst] in *.
    rewrite length_app. simpl List.length. lia.
Qed.

Lemma checkEntries_withinCap (cfg : BacktestConfig) (sym : string)
    (candles : list CandleWithIndicators) (candleIdx : nat)
    (multiTfData : option MultiTimeframeData) (candle : CandleWithIndicators)
    (equity_ : Q) (st : list Position * nat) :
  withinCap cfg (fst st) ->
  withinCap cfg (fst (Usd.checkEntries cfg sym candles candleIdx multiTfData candle
                        equity_ st)).
Proof.
  intro H. unfold Usd.checkEntries.
  destruct (Z.of_nat (List.length (fst st)) <? maxConcurrentPositions cfg)%Z;
    [apply openSignals_withinCap|]; exact H.
Qed.

Lemma processSymbol_withinCap (cfg : BacktestConfig) (indexMaps : Usd.IndexMaps)
    (multiTfBySymbol : Usd.MultiTfBySymbol) (ts : Z) (st : Usd.Sim)
    (entry : string * list CandleWithIndicators) :
  withinCap cfg (Usd.openPositions st) ->
  withinCap cfg (Usd.openPositions (Usd.processSymbol cfg indexMaps multiTfBySymbol ts
                                      st entry)).
Proof.
  intro H. unfold Usd.processSymbol. destruct entry as [sym candles].
  destruct (JsMap.get String.eqb indexMaps sym) as [indexMap|]; [|exact H].
  destruct (JsMap.get Z.eqb indexMap ts) as [candleIdx|]; [|exact H].
  destruct (nth_error candles candleIdx) as [candle|]; [|exact H].
  pose proof (checkExits_length cfg sym candles candleIdx
                (JsMap.get String.eqb multiTfBySymbol sym) candle
                (Usd.openPositions st) (Usd.completedTrades st)) as Hlen.
  destruct (Usd.checkExits _ _ _ _ _ _ _ _) as [open1 done1].
  pose proof (checkEntries_withinCap cfg sym candles candleIdx
                (JsMap.get String.eqb multiTfBySymbol sym) candle
                (Usd.sim_equity st) (open1, Usd.sim_counter st)) as Hent.
  destruct (Usd.checkEntries _ _ _ _ _ _ _ _) as [open2 counter2].
  simpl in *. apply Hent. unfold withinCap in *. lia.
Qed.

Lemma processSymbols_withinCap (cfg : BacktestConfig) (indexMaps : Usd.IndexMaps)
    (multiTfBySymbol : Usd.MultiTfBySymbol) (ts : Z)
    (entries : list (string * list CandleWithIndicators)) (st : Usd.Sim) :
  withinCap cfg (Usd.openPositions st) ->
  withinCap cfg (Usd.openPositions
                   (fold_left (Usd.processSymbol cfg indexMaps multiTfBySymbol ts)
                      entries st)).
Proof.
  revert st. induction entries as [|e es IH]; intros st H; simpl.
  - exact H.
  - apply IH. apply processSymbol_withinCap. exact H.
Qed.

Lemma processTimestamp_withinCap (cfg : BacktestConfig)
    (symbolDataMap : Usd.SymbolDataMap) (indexMaps : Usd.IndexMaps)
    (multiTfBySymbol : Usd.MultiTfBySymbol) (lastTs : Z) (st : Usd.Sim) (ts : Z) :
  withinCap cfg (Usd.openPositions st) ->
  withinCap cfg (Usd.openPositions
                   (Usd.processTimestamp cfg symbolDataMap indexMaps multiTfBySymbol
                      lastTs st ts)).
Proof.
  intro H. unfold Usd.processTimestamp.
  match goal with |- context [if ?c then _ else _] => destruct c end;
    simpl; apply processSymbols_withinCap; exact H.
Qed.

Lemma processTimestamps_withinCap (cfg : BacktestConfig)
    (symbolDataMap : Usd.SymbolDataMap) (indexMaps : Usd.IndexMaps)
    (multiTfBySymbol : Usd.MultiTfBySymbol) (lastTs : Z) (tss : list Z) (st : Usd.Sim) :
  withinCap cfg (Usd.openPositions st) ->
  withinCap cfg (Usd.openPositions
                   (fold_left
                      (Usd.processTimestamp cfg symbolDataMap indexMaps multiTfBySymbol
                         lastTs)
                      tss st)).
Proof.
  revert st. induction tss as [|t tss IH]; intros st H; simpl.
  - exact H.
  - apply IH. apply processTimestamp_withinCap. exact H.
Qed.

Lemma mainLoop_is_stateAt (loadCandles : string -> string -> option (list Candle))
    (calculateIndicators : list Candle -> list CandleWithIndicators)
    (w : World) (cfg : BacktestConfig) :
  Usd.mainLoop loadCandles calculateIndicators w cfg
  = stateAt loadCandles calculateIndicators cfg
      (List.length (Usd.sortedTimestampsOf loadCandles calculateIndicators cfg)) 0.
Proof.
  unfold Usd.mainLoop, stateAt, Usd.sortedTimestampsOf.
  destruct (Usd.loadData loadCandles calculateIndicators cfg) as [dataMap multiTf].
  cbn [fst snd].
  set (tss := sortNumeric (Usd.collectTimestamps dataMap)).
  rewrite firstn_all.
  assert (Hnone : nth_error tss (List.length tss) = None)
    by (apply nth_error_None; lia).
  rewrite Hnone. reflexivity.
Qed.

Lemma openSignals_symbol_blind (cfg : BacktestConfig) (sym : string)
    (candle : CandleWithIndicators) (equity_ : Q)
    (signals : list (EntrySignal * Side)) (ps1 ps2 : list Position) (counter : nat) :
  List.length ps1 = List.length ps2 ->
  exists opened counter1,
    Usd.openSignals cfg sym candle equity_ signals (ps1, counter)
    = (ps1 ++ opened, counter1)
    /\ Usd.openSignals cfg sym candle equity_ signals (ps2, counter)
       = (ps2 ++ opened, counter1).
Proof.
  revert ps1 ps2 counter.
  induction signals as [|[signal side_] rest IH]; intros ps1 ps2 counter Hlen.
  - exists [], counter. rewrite !app_nil_r. split; reflexivity.
  - cbn [Usd.openSignals]. rewrite Hlen.
    destruct (Z.of_nat (List.length ps2) >=? maxConcurrentPositions cfg)%Z.
    { exists [], counter. rewrite !app_nil_r. split; reflexivity. }
    destruct (Qeq_bool _ 0); [apply IH; exact Hlen|].
    match goal with |- context [Qle_bool ?x 0] => destruct (Qle_bool x 0) end;
      [apply IH; exact Hlen|].
    cbn [Usd.nextPositionId].
    match goal with
    | |- context [Usd.openSignals _ _ _ _ rest (ps1 ++ [?p], ?c)] =>
        destruct (IH (ps1 ++ [p]) (ps2 ++ [p]) c) as (opened & counter1 & H1 & H2);
        [rewrite !length_app; simpl; lia|];
        exists (p :: opened), counter1
    end.
    rewrite H1, H2, <- !app_assoc. split; reflexivity.
Qed.

(** Below the cap the entry loop takes a signal whose sizing is sound:
    positive equity, risk fraction, leverage and close, a slippage rate in
    [0, 1) and a stop on the losing side of the close.  The entry price is
    then on the other side of the stop on the engine's own reading as well,
    since [close * (1 + slippage)] is not below the close and
    [close * (1 - slippage)] not above it. *)
Lemma openSignals_opens_below_cap (cfg : BacktestConfig) (sym : string)
    (candle : CandleWithIndicators) (equity_ : Q) (signal : EntrySignal) (side_ : Side)
    (rest : list (EntrySignal * Side)) (positions : list Position) (counter : nat) :
  (Z.of_nat (List.length positions) < maxConcurrentPositions cfg)%Z ->
  0 < equity_ -> 0 < riskPerTrade cfg -> 0 < cfg_leverage cfg ->
  0 < close candle -> 0 <= slippageRate cfg -> slippageRate cfg < 1 ->
  match side_ with
  | long => sig_stopLoss signal < close candle
  | short => close candle < sig_stopLoss signal
  end ->
  exists p : Position,
    Usd.openSignals cfg sym candle equity_ ((signal, side_) :: rest) (positions, counter)
    = Usd.openSignals cfg sym candle equity_ rest (positions ++ [p], S counter)
    /\ symbol p = sym /\ side p = side_ /\ stopLoss p = sig_stopLoss signal
    /\ entryTime p = timestamp candle /\ 0 < size p.
Proof.
  intros Hcap Hequity Hrisk Hlev Hclose Hslip0 Hslip1 Hstop.
  cbn [Usd.openSignals].
  assert (Ecap : (Z.of_nat (List.length positions) >=? maxConcurrentPositions cfg)%Z
                 = false) by (rewrite Z.geb_leb; apply Z.leb_gt; exact Hcap).
  rewrite Ecap.
  set (entryPrice_ := match side_ with
                      | long => close candle * (1 + slippageRate cfg)
                      | short => close candle * (1 - slippageRate cfg)
                      end).
  set (distance := Qabs (entryPrice_ - sig_stopLoss signal)).
  assert (Hentry : 0 < entryPrice_).
  { unfold entryPrice_. destruct side_; nra. }
  assert (Hdist : 0 < distance).
  { unfold distance, entryPrice_. destruct side_.
    - rewrite Qabs_pos; nra.
    - rewrite Qabs_neg; nra. }
  assert (Ezero : Qeq_bool distance 0 = false).
  { destruct (Qeq_bool distance 0) eqn:E; [|reflexivity].
    apply Qeq_bool_iff in E. lra. }
  rewrite Ezero.
  set (size0 := equity_ * riskPerTrade cfg / (distance / entryPrice_)).
  set (maxSize := equity_ * cfg_leverage cfg).
  set (positionSize := if Qgtb size0 maxSize then maxSize else size0).
  assert (Hsize : 0 < positionSize).
  { assert (Hfrac : 0 < distance / entryPrice_) by (apply Qlt_shift_div_l; lra).
    assert (H0 : 0 < size0).
    { unfold size0. apply Qlt_shift_div_l; [exact Hfrac|]. nra. }
    assert (H1 : 0 < maxSize) by (unfold maxSize; nra).
    unfold positionSize. destruct (Qgtb size0 maxSize); assumption. }
  assert (Esize : Qle_bool positionSize 0 = false).
  { destruct (Qle_bool positionSize 0) eqn:E; [|reflexivity].
    apply Qle_bool_iff in E. lra. }
  rewrite Esize. cbn [Usd.nextPositionId].
  eexists. split; [reflexivity|].
  cbn [symbol side stopLoss entryTime size]. repeat split. exact Hsize.
Qed.

(** C1, as amended.  The entry evaluator of the USD engine enforces the
    global cap and nothing per symbol.  In every state the main loop goes
    through, and in the state it ends in, the number of open positions is at
    most [maxConcurrentPositions] (at most 0 for a negative cap).  On two
    ledgers of the same length the entry check opens the same new
    positions, whatever the symbols of the positions already open.  Below
    the cap a signal with a sound sizing (positive equity, risk fraction,
    leverage and close, a slippage rate in [0, 1), a stop on the losing side
    of the close) is opened on the symbol of the candle, whatever the ledger
    holds on that symbol; and at the cap the loop opens nothing. *)
Theorem usd_open_positions_within_cap
    (loadCandles : string -> string -> option (list Candle))
    (calculateIndicators : list Candle -> list CandleWithIndicators)
    (w : World) (cfg : BacktestConfig) :
  (forall n k : nat,
      withinCap cfg (Usd.openPositions (stateAt loadCandles calculateIndicators cfg n k)))
  /\ withinCap cfg (Usd.openPositions (Usd.mainLoop loadCandles calculateIndicators w cfg))
  /\ (forall (sym : string) (candles : list CandleWithIndicators) (candleIdx : nat)
        (multiTfData : option MultiTimeframeData) (candle : CandleWithIndicators)
        (equity_ : Q) (ps1 ps2 : list Position) (counter : nat),
         List.length ps1 = List.length ps2 ->
         exists opened counter1,
           Usd.checkEntries cfg sym candles candleIdx multiTfData candle equity_
             (ps1, counter)
           = (ps1 ++ opened, counter1)
           /\ Usd.checkEntries cfg sym candles candleIdx multiTfData candle equity_
                (ps2, counter)
              = (ps2 ++ opened, counter1))
  /\ (forall (sym : string) (candle : CandleWithIndicators) (equity_ : Q)
             (signal : EntrySignal) (side_ : Side) (rest : list (EntrySignal * Side))
             (positions : list Position) (counter : nat),
         (Z.of_nat (List.length positions) < maxConcurrentPositions cfg)%Z ->
         0 < equity_ -> 0 < riskPerTrade cfg -> 0 < cfg_leverage cfg ->
         0 < close candle -> 0 <= slippageRate cfg -> slippageRate cfg < 1 ->
         match side_ with
         | long => sig_stopLoss signal < close candle
         | short => close candle < sig_stopLoss signal
         end ->
         exists p : Position,
           Usd.openSignals cfg sym candle equity_ ((signal, side_) :: rest)
             (positions, counter)
           = Usd.openSignals cfg sym candle equity_ rest (positions ++ [p], S counter)
           /\ symbol p = sym /\ side p = side_ /\ stopLoss p = sig_stopLoss signal
           /\ entryTime p = timestamp candle /\ 0 < size p)
  /\ (forall (sym : string) (candle : CandleWithIndicators) (equity_ : Q)
             (signals : list (EntrySignal * Side)) (positions : list Position)
             (counter : nat),
         (maxConcurrentPositions cfg <= Z.of_nat (List.length positions))%Z ->
         Usd.openSignals cfg sym candle equity_ signals (positions, counter)
         = (positions, counter)).
Proof.
  assert (Hall : forall n k : nat,
             withinCap cfg
               (Usd.openPositions (stateAt loadCandles calculateIndicators cfg n k))).
  { intros n k. unfold stateAt.
    match goal with
    | |- context [fold_left ?f (firstn n ?tss) ?init] =>
        assert (Hst : withinCap cfg (Usd.openPositions (fold_left f (firstn n tss) init)))
    end.
    { apply processTimestamps_withinCap. unfold withinCap. simpl. lia. }
    destruct (nth_error _ n); [apply processSymbols_withinCap|]; exact Hst. }
  split; [exact Hall|]. split; [rewrite mainLoop_is_stateAt; apply Hall|].
  split; [|split].
  - intros sym candles candleIdx multiTfData candle equity_ ps1 ps2 counter Hlen.
    unfold Usd.checkEntries. cbn [fst]. rewrite Hlen.
    destruct (Z.of_nat (List.length ps2) <? maxConcurrentPositions cfg)%Z.
    + apply openSignals_symbol_blind. exact Hlen.
    + exists [], counter. rewrite !app_nil_r. split; reflexivity.
  - intros sym candle equity_ signal side_ rest positions counter.
    apply openSignals_opens_below_cap.
  - intros sym candle equity_ signals positions counter Hcap.
    destruct signals as [|[signal side_] rest]; [reflexivity|].
    cbn [Usd.openSignals].
    replace (Z.of_nat (List.length positions) >=? maxConcurrentPositions cfg)%Z
      with true by (symmetry; rewrite Z.geb_leb; apply Z.leb_le; exact Hcap).
    reflexivity.
Qed.

Lemma usd_open_positions_within_cap_witness :
  exists opened counter1,
    Usd.checkEntries Runtime.stacking "BTCUSDT" [Runtime.candle100] 0 None
      Runtime.candle100 500 ([Runtime.heldOn "BTCUSDT"], 1%nat)
    = ([Runtime.heldOn "BTCUSDT"] ++ opened, counter1)
    /\ Usd.checkEntries Runtime.stacking "BTCUSDT" [Runtime.candle100] 0 None
         Runtime.candle100 500 ([Runtime.heldOn "ETHUSDT"], 1%nat)
       = ([Runtime.heldOn "ETHUSDT"] ++ opened, counter1).
Proof.
  apply (proj1 (proj2 (proj2 (usd_open_positions_within_cap Runtime.scenarioAFeed
                                Runtime.calculateIndicators Runtime.world0
                                Runtime.stacking)))).
  reflexivity.
Defined.

(** C1, as stated, fails: a strategy that goes long on every candle of one
    symbol ends the main loop with three open positions on that symbol. *)
Lemma three_positions_on_one_symbol :
  map symbol
    (Usd.openPositions
       (Usd.mainLoop Runtime.scenarioAFeed Runtime.calculateIndicators Runtime.world0
          Runtime.stacking))
  = ["BTCUSDT"; "BTCUSDT"; "BTCUSDT"].
Proof. vm_compute. reflexivity. Qed.

(** ** Sizes: what is left of a position *)

Lemma closePosition_keeps_sizes (p : Position) (price : Q) (ts : Z) (why : string)
    (slip rate : Q) :
  Usd.remainingSize (trade_base (Usd.closePosition p price ts why slip rate))
  = Usd.remainingSize p
  /\ size (trade_base (Usd.closePosition p price ts why slip rate)) = size p
  /\ partialCloses (trade_base (Usd.closePosition p price ts why slip rate))
     = partialCloses p.
Proof. repeat split. Qed.

Lemma partialClose_remaining (p : Position) (price fraction : Q) (ts : Z)
    (why : string) (slip rate : Q) :
  Usd.remainingSize (fst (Usd.partialClosePosition p price fraction ts why slip rate))
  == Usd.remainingSize p * (1 - fraction).
Proof.
  unfold Usd.partialClosePosition, Usd.remainingSize. simpl.
  rewrite fold_left_app. simpl. ring.
Qed.

Lemma unlessClosed_sound (o : Usd.ExitOutcome) (next : Position -> Usd.ExitOutcome) :
  outcomeSound o ->
  (forall p : Position, sizeLeft p -> outcomeSound (next p)) ->
  outcomeSound (Usd.unlessClosed o next).
Proof.
  intros Ho Hnext. destruct o as [t|p]; simpl; [exact Ho|apply Hnext; exact Ho].
Qed.

Lemma stopLossRule_sound (cfg : BacktestConfig) (candle : CandleWithIndicators)
    (p : Position) :
  sizeLeft p -> outcomeSound (Usd.stopLossRule cfg candle p).
Proof.
  intro H. unfold Usd.stopLossRule.
  repeat match goal with |- context [if ?c then _ else _] => destruct c end;
    exact H.
Qed.

Lemma takeProfit1Rule_sound (cfg : BacktestConfig) (candle : CandleWithIndicators)
    (p : Position) :
  sizeLeft p -> outcomeSound (Usd.takeProfit1Rule cfg candle p).
Proof.
  intro H. unfold Usd.takeProfit1Rule.
  destruct (negb (tp1Hit p)); [|exact H].
  match goal with |- context [if ?c then _ else _] => destruct c end; [|exact H].
  assert (Hhalf : sizeLeft
                    (fst (Usd.partialClosePosition p (takeProfit p) (1 # 2)
                            (timestamp candle) "TP1 hit — partial close 50%"
                            (slippageRate cfg) (commissionRate cfg)))).
  { unfold sizeLeft in *. rewrite partialClose_remaining. lra. }
  destruct (takeProfit2 (Usd.withTp1Hit _ true)); exact Hhalf.
Qed.

Lemma takeProfit2Rule_sound (cfg : BacktestConfig) (candle : CandleWithIndicators)
    (p : Position) :
  sizeLeft p -> outcomeSound (Usd.takeProfit2Rule cfg candle p).
Proof.
  intro H. unfold Usd.takeProfit2Rule.
  destruct (tp1Hit p); [|exact H].
  destruct (takeProfit2 p); [|exact H].
  match goal with |- context [if ?c then _ else _] => destruct c end; exact H.
Qed.

Lemma strategyExitRule_sound (cfg : BacktestConfig)
    (candles : list CandleWithIndicators) (candleIdx : nat)
    (multiTfData : option MultiTimeframeData) (candle : CandleWithIndicators)
    (p : Position) :
  sizeLeft p ->
  outcomeSound (Usd.strategyExitRule cfg candles candleIdx multiTfData candle p).
Proof.
  intro H. unfold Usd.strategyExitRule.
  match goal with |- context [if ?c then _ else _] => destruct c end; exact H.
Qed.

Lemma trailingStopRule_sizes (candle : CandleWithIndicators) (p : Position) :
  Usd.remainingSize (Usd.trailingStopRule candle p) = Usd.remainingSize p.
Proof.
  unfold Usd.trailingStopRule.
  destruct (atr (indicators candle)); [|reflexivity].
  destruct (Qgtb q 0); [|reflexivity].
  destruct (side p);
    repeat match goal with |- context [if ?c then _ else _] => destruct c end;
    reflexivity.
Qed.

Lemma checkExit_sound (cfg : BacktestConfig)
    (candles : list CandleWithIndicators) (candleIdx : nat)
    (multiTfData : option MultiTimeframeData) (candle : CandleWithIndicators)
    (p : Position) :
  sizeLeft p -> outcomeSound (Usd.checkExit cfg candles candleIdx multiTfData candle p).
Proof.
  intro H. unfold Usd.checkExit.
  apply unlessClosed_sound; [apply stopLossRule_sound; exact H|]. intros p1 H1.
  apply unlessClosed_sound; [apply takeProfit1Rule_sound; exact H1|]. intros p2 H2.
  apply unlessClosed_sound; [apply takeProfit2Rule_sound; exact H2|]. intros p3 H3.
  apply unlessClosed_sound; [apply strategyExitRule_sound; exact H3|]. intros p4 H4.
  simpl. unfold sizeLeft. rewrite trailingStopRule_sizes. exact H4.
Qed.

Lemma checkExits_sound (cfg : BacktestConfig) (sym : string)
    (candles : list CandleWithIndicators) (candleIdx : nat)
    (multiTfData : option MultiTimeframeData) (candle : CandleWithIndicators)
    (positions : list Position) (done : list Trade) :
  Forall sizeLeft positions -> Forall tradeSound done ->
  Forall sizeLeft
    (fst (Usd.checkExits cfg sym candles candleIdx multiTfData candle positions done))
  /\ Forall tradeSound
       (snd (Usd.checkExits cfg sym candles candleIdx multiTfData candle positions done)).
Proof.
  intros Hpos Hdone. unfold Usd.checkExits.
  induction Hpos as [|p ps Hp _ IH]; simpl.
  - split; [constructor|exact Hdone].
  - destruct (fold_right _ _ ps) as [kept done1]. simpl in IH. destruct IH as [IHk IHd].
    destruct (negb (String.eqb (symbol p) sym)); simpl.
    + split; [constructor; assumption|assumption].
    + pose proof (checkExit_sound cfg candles candleIdx multiTfData candle p Hp) as Ho.
      destruct (Usd.checkExit cfg candles candleIdx multiTfData candle p) as [t|p1];
        simpl in *.
      * split; [assumption|]. apply Forall_app. split; [assumption|].
        constructor; [exact Ho|constructor].
      * split; [constructor; assumption|assumption].
Qed.

Lemma openSignals_sound (cfg : BacktestConfig) (sym : string)
    (candle : CandleWithIndicators) (equity_ : Q)
    (signals : list (EntrySignal * Side)) (st : list Position * nat) :
  Forall sizeLeft (fst st) ->
  Forall sizeLeft (fst (Usd.openSignals cfg sym candle equity_ signals st)).
Proof.
  revert st. induction signals as [|[signal side_] rest IH]; intros [positions counter] H.
  - exact H.
  - cbn [Usd.openSignals].
    destruct (Z.of_nat (List.length positions) >=? maxConcurrentPositions cfg)%Z;
      [exact H|].
    destruct (Qeq_bool _ 0); [apply IH; exact H|].
    match goal with
    | |- context [Qle_bool ?x 0] => set (positionSize := x); destruct (Qle_bool positionSize 0) eqn:Esize
    end; [apply IH; exact H|].
    cbn [Usd.nextPositionId]. apply IH. cbn [fst] in *.
    apply Forall_app. split; [exact H|]. constructor; [|constructor].
    apply Qle_bool_gt in Esize. unfold sizeLeft, Usd.remainingSize.
    cbn [size partialCloses fold_left]. lra.
Qed.

Lemma processSymbol_sound (cfg : BacktestConfig) (indexMaps : Usd.IndexMaps)
    (multiTfBySymbol : Usd.MultiTfBySymbol) (ts : Z) (st : Usd.Sim)
    (entry : string * list CandleWithIndicators) :
  simSound st -> simSound (Usd.processSymbol cfg indexMaps multiTfBySymbol ts st entry).
Proof.
  intros [Hopen Hdone]. unfold Usd.processSymbol. destruct entry as [sym candles].
  destruct (JsMap.get String.eqb indexMaps sym) as [indexMap|]; [|split; assumption].
  destruct (JsMap.get Z.eqb indexMap ts) as [candleIdx|]; [|split; assumption].
  destruct (nth_error candles candleIdx) as [candle|]; [|split; assumption].
  pose proof (checkExits_sound cfg sym candles candleIdx
                (JsMap.get String.eqb multiTfBySymbol sym) candle
                (Usd.openPositions st) (Usd.completedTrades st) Hopen Hdone) as [Hk Hd].
  destruct (Usd.checkExits _ _ _ _ _ _ _ _) as [open1 done1].
  assert (Hent : Forall sizeLeft
                   (fst (Usd.checkEntries cfg sym candles candleIdx
                           (JsMap.get String.eqb multiTfBySymbol sym) candle
                           (Usd.sim_equity st) (open1, Usd.sim_counter st)))).
  { unfold Usd.checkEntries.
    match goal with |- context [if ?c then _ else _] => destruct c end;
      [apply openSignals_sound|]; exact Hk. }
  destruct (Usd.checkEntries _ _ _ _ _ _ _ _) as [open2 counter2].
  split; simpl in *; assumption.
Qed.

Lemma processTimestamp_sound (cfg : BacktestConfig)
    (symbolDataMap : Usd.SymbolDataMap) (indexMaps : Usd.IndexMaps)
    (multiTfBySymbol : Usd.MultiTfBySymbol) (lastTs : Z) (st : Usd.Sim) (ts : Z) :
  simSound st ->
  simSound (Usd.processTimestamp cfg symbolDataMap indexMaps multiTfBySymbol lastTs st ts).
Proof.
  intro H. unfold Usd.processTimestamp.
  assert (Hfold : simSound
                    (fold_left (Usd.processSymbol cfg indexMaps multiTfBySymbol ts)
                       symbolDataMap st)).
  { revert st H. induction symbolDataMap as [|e es IH]; intros st H; simpl.
    - exact H.
    - apply IH. apply processSymbol_sound. exact H. }
  destruct Hfold as [Ho Hd].
  match goal with |- context [if ?c then _ else _] => destruct c end;
    split; simpl; assumption.
Qed.

Lemma processTimestamps_sound (cfg : BacktestConfig)
    (symbolDataMap : Usd.SymbolDataMap) (indexMaps : Usd.IndexMaps)
    (multiTfBySymbol : Usd.MultiTfBySymbol) (lastTs : Z) (tss : list Z) (st : Usd.Sim) :
  simSound st ->
  simSound
    (fold_left (Usd.processTimestamp cfg symbolDataMap indexMaps multiTfBySymbol lastTs)
       tss st).
Proof.
  revert st. induction tss as [|t tss IH]; intros st H; simpl.
  - exact H.
  - apply IH. apply processTimestamp_sound. exact H.
Qed.

Lemma mainLoop_sound (loadCandles : string -> string -> option (list Candle))
    (calculateIndicators : list Candle -> list CandleWithIndicators)
    (w : World) (cfg : BacktestConfig) :
  simSound (Usd.mainLoop loadCandles calculateIndicators w cfg).
Proof.
  unfold Usd.mainLoop.
  destruct (Usd.loadData loadCandles calculateIndicators cfg) as [dataMap multiTf].
  apply processTimestamps_sound. split; constructor.
Qed.

Lemma forceClose_sound (cfg : BacktestConfig) (symbolDataMap : Usd.SymbolDataMap)
    (positions : list Position) (done : list Trade) :
  Forall sizeLeft positions -> Forall tradeSound done ->
  Forall tradeSound (Usd.forceClose cfg symbolDataMap positions done).
Proof.
  intro Hpos. revert done. unfold Usd.forceClose.
  induction Hpos as [|p ps Hp _ IH]; intros done Hdone; simpl.
  - exact Hdone.
  - apply IH.
    destruct (JsMap.get String.eqb symbolDataMap (symbol p)) as [[|c0 cs]|];
      try exact Hdone.
    apply Forall_app. split; [exact Hdone|]. constructor; [exact Hp|constructor].
Qed.

(** *** Fees: what each leg was charged on *)

Lemma closePosition_charged (p : Position) (price : Q) (ts : Z) (why : string)
    (slip rate : Q) :
  feesCharged rate p ->
  finalLegOn rate (Usd.closePosition p price ts why slip rate)
    (Usd.remainingSize (trade_base (Usd.closePosition p price ts why slip rate))).
Proof.
  unfold feesCharged, finalLegOn, priceMove, Usd.closePosition, Usd.remainingSize,
    Usd.partialPnl, sumOf.
  cbn [trade_base pnl exitPrice Usd.withCommissionClosed commission size partialCloses
       side entryPrice status].
  intros [Hfees Hentry]. split; [|split; [|split; [exact Hentry|reflexivity]]].
  - rewrite Hfees. ring.
  - destruct (side p); ring.
Qed.

Lemma partialClose_charged (p : Position) (price fraction : Q) (ts : Z) (why : string)
    (slip rate : Q) :
  feesCharged rate p ->
  feesCharged rate (fst (Usd.partialClosePosition p price fraction ts why slip rate)).
Proof.
  unfold feesCharged, Usd.partialClosePosition.
  cbn [fst Usd.withPartialClose commission size partialCloses entryPrice].
  intros [Hfees Hentry]. split; [|exact Hentry].
  rewrite sumOf_app, Hfees. unfold sumOf. cbn [fold_left pc_size]. ring.
Qed.

Lemma unlessClosed_charged (rate : Q) (o : Usd.ExitOutcome)
    (next : Position -> Usd.ExitOutcome) :
  outcomeCharged rate o ->
  (forall p : Position, feesCharged rate p -> outcomeCharged rate (next p)) ->
  outcomeCharged rate (Usd.unlessClosed o next).
Proof.
  intros Ho Hnext. destruct o as [t|p]; simpl; [exact Ho|apply Hnext; exact Ho].
Qed.

Lemma trailingStopRule_charged (rate : Q) (candle : CandleWithIndicators) (p : Position) :
  feesCharged rate p -> feesCharged rate (Usd.trailingStopRule candle p).
Proof.
  unfold Usd.trailingStopRule.
  destruct (atr (indicators candle)); [|trivial].
  destruct (Qgtb q 0); [|trivial].
  destruct (side p);
    repeat match goal with |- context [if ?c then _ else _] => destruct c end;
    trivial.
Qed.

Lemma checkExit_charged (cfg : BacktestConfig)
    (candles : list CandleWithIndicators) (candleIdx : nat)
    (multiTfData : option MultiTimeframeData) (candle : CandleWithIndicators)
    (p : Position) :
  feesCharged (commissionRate cfg) p ->
  outcomeCharged (commissionRate cfg)
    (Usd.checkExit cfg candles candleIdx multiTfData candle p).
Proof.
  intro H. unfold Usd.checkExit.
  apply unlessClosed_charged.
  { unfold Usd.stopLossRule.
    repeat match goal with |- context [if ?c then _ else _] => destruct c end;
      first [apply closePosition_charged; exact H | exact H]. }
  intros p1 H1. apply unlessClosed_charged.
  { unfold Usd.takeProfit1Rule.
    destruct (negb (tp1Hit p1)); [|exact H1].
    match goal with |- context [if ?c then _ else _] => destruct c end; [|exact H1].
    pose proof (partialClose_charged p1 (takeProfit p1) (1 # 2) (timestamp candle)
                  "TP1 hit — partial close 50%" (slippageRate cfg) (commissionRate cfg) H1)
      as Hhalf.
    destruct (takeProfit2 (Usd.withTp1Hit _ true));
      [exact Hhalf|apply closePosition_charged; exact Hhalf]. }
  intros p2 H2. apply unlessClosed_charged.
  { unfold Usd.takeProfit2Rule.
    destruct (tp1Hit p2); [|exact H2].
    destruct (takeProfit2 p2); [|exact H2].
    match goal with |- context [if ?c then _ else _] => destruct c end;
      [apply closePosition_charged; exact H2|exact H2]. }
  intros p3 H3. apply unlessClosed_charged.
  { unfold Usd.strategyExitRule.
    match goal with |- context [if ?c then _ else _] => destruct c end;
      [apply closePosition_charged; exact H3|exact H3]. }
  intros p4 H4. apply trailingStopRule_charged. exact H4.
Qed.

Lemma checkExits_charged (cfg : BacktestConfig) (sym : string)
    (candles : list CandleWithIndicators) (candleIdx : nat)
    (multiTfData : option MultiTimeframeData) (candle : CandleWithIndicators)
    (positions : list Position) (done : list Trade) :
  Forall (feesCharged (commissionRate cfg)) positions ->
  Forall (tradeCharged (commissionRate cfg)) done ->
  Forall (feesCharged (commissionRate cfg))
    (fst (Usd.checkExits cfg sym candles candleIdx multiTfData candle positions done))
  /\ Forall (tradeCharged (commissionRate cfg))
       (snd (Usd.checkExits cfg sym candles candleIdx multiTfData candle positions done)).
Proof.
  intros Hpos Hdone. unfold Usd.checkExits.
  induction Hpos as [|p ps Hp _ IH]; simpl.
  - split; [constructor|exact Hdone].
  - destruct (fold_right _ _ ps) as [kept done1]. simpl in IH. destruct IH as [IHk IHd].
    destruct (negb (String.eqb (symbol p) sym)); simpl.
    + split; [constructor; assumption|assumption].
    + pose proof (checkExit_charged cfg candles candleIdx multiTfData candle p Hp) as Ho.
      destruct (Usd.checkExit cfg candles candleIdx multiTfData candle p) as [t|p1];
        simpl in *.
      * split; [assumption|]. apply Forall_app. split; [assumption|].
        constructor; [exact Ho|constructor].
      * split; [constructor; assumption|assumption].
Qed.

Lemma openSignals_charged (cfg : BacktestConfig) (sym : string)
    (candle : CandleWithIndicators) (equity_ : Q)
    (signals : list (EntrySignal * Side)) (st : list Position * nat) :
  Forall (feesCharged (commissionRate cfg)) (fst st) ->
  Forall (feesCharged (commissionRate cfg))
    (fst (Usd.openSignals cfg sym candle equity_ signals st)).
Proof.
  revert st. induction signals as [|[signal side_] rest IH]; intros [positions counter] H.
  - exact H.
  - cbn [Usd.openSignals].
    destruct (Z.of_nat (List.length positions) >=? maxConcurrentPositions cfg)%Z;
      [exact H|].
    set (entryPrice_ := match side_ with
                        | long => close candle * (1 + slippageRate cfg)
                        | short => close candle * (1 - slippageRate cfg)
                        end).
    set (distance := Qabs (entryPrice_ - sig_stopLoss signal)).
    destruct (Qeq_bool distance 0); [apply IH; exact H|].
    set (size0 := equity_ * riskPerTrade cfg / (distance / entryPrice_)).
    set (maxSize := equity_ * cfg_leverage cfg).
    set (positionSize := if Qgtb size0 maxSize then maxSize else size0).
    destruct (Qle_bool positionSize 0) eqn:Esize; [apply IH; exact H|].
    cbn [Usd.nextPositionId]. apply IH. cbn [fst] in *.
    apply Forall_app. split; [exact H|]. constructor; [|constructor].
    unfold feesCharged, sumOf. cbn [commission size partialCloses fold_left entryPrice].
    split; [ring|]. intro Hzero. apply Qle_bool_gt in Esize.
    assert (Hnone : size0 == 0).
    { unfold size0. rewrite Hzero. unfold Qdiv. change (/ 0) with 0.
      setoid_replace (distance * 0) with 0 by ring. change (/ 0) with 0. ring. }
    unfold positionSize in Esize.
    destruct (Qgtb size0 maxSize) eqn:Ecap;
      [apply Qgtb_gt in Ecap|]; lra.
Qed.

Lemma processSymbol_charged (cfg : BacktestConfig) (indexMaps : Usd.IndexMaps)
    (multiTfBySymbol : Usd.MultiTfBySymbol) (ts : Z) (st : Usd.Sim)
    (entry : string * list CandleWithIndicators) :
  simCharged cfg st ->
  simCharged cfg (Usd.processSymbol cfg indexMaps multiTfBySymbol ts st entry).
Proof.
  intros [Hopen Hdone]. unfold Usd.processSymbol. destruct entry as [sym candles].
  destruct (JsMap.get String.eqb indexMaps sym) as [indexMap|]; [|split; assumption].
  destruct (JsMap.get Z.eqb indexMap ts) as [candleIdx|]; [|split; assumption].
  destruct (nth_error candles candleIdx) as [candle|]; [|split; assumption].
  pose proof (checkExits_charged cfg sym candles candleIdx
                (JsMap.get String.eqb multiTfBySymbol sym) candle
                (Usd.openPositions st) (Usd.completedTrades st) Hopen Hdone) as [Hk Hd].
  destruct (Usd.checkExits _ _ _ _ _ _ _ _) as [open1 done1].
  assert (Hent : Forall (feesCharged (commissionRate cfg))
                   (fst (Usd.checkEntries cfg sym candles candleIdx
                           (JsMap.get String.eqb multiTfBySymbol sym) candle
                           (Usd.sim_equity st) (open1, Usd.sim_counter st)))).
  { unfold Usd.checkEntries.
    match goal with |- context [if ?c then _ else _] => destruct c end;
      [apply openSignals_charged|]; exact Hk. }
  destruct (Usd.checkEntries _ _ _ _ _ _ _ _) as [open2 counter2].
  split; simpl in *; assumption.
Qed.

Lemma processTimestamps_charged (cfg : BacktestConfig)
    (symbolDataMap : Usd.SymbolDataMap) (indexMaps : Usd.IndexMaps)
    (multiTfBySymbol : Usd.MultiTfBySymbol) (lastTs : Z) (tss : list Z) (st : Usd.Sim) :
  simCharged cfg st ->
  simCharged cfg
    (fold_left (Usd.processTimestamp cfg symbolDataMap indexMaps multiTfBySymbol lastTs)
       tss st).
Proof.
  revert st. induction tss as [|t tss IH]; intros st H; simpl.
  - exact H.
  - apply IH. unfold Usd.processTimestamp.
    assert (Hfold : simCharged cfg
                      (fold_left (Usd.processSymbol cfg indexMaps multiTfBySymbol t)
                         symbolDataMap st)).
    { clear IH. revert st H. induction symbolDataMap as [|e es IHe]; intros st H; simpl.
      - exact H.
      - apply IHe. apply processSymbol_charged. exact H. }
    destruct Hfold as [Ho Hd].
    match goal with |- context [if ?c then _ else _] => destruct c end;
      split; simpl; assumption.
Qed.

Lemma forceClose_charged (cfg : BacktestConfig) (symbolDataMap : Usd.SymbolDataMap)
    (positions : list Position) (done : list Trade) :
  Forall (feesCharged (commissionRate cfg)) positions ->
  Forall (tradeCharged (commissionRate cfg)) done ->
  Forall (tradeCharged (commissionRate cfg))
    (Usd.forceClose cfg symbolDataMap positions done).
Proof.
  intro Hpos. revert done. unfold Usd.forceClose.
  induction Hpos as [|p ps Hp _ IH]; intros done Hdone; simpl.
  - exact Hdone.
  - apply IH.
    destruct (JsMap.get String.eqb symbolDataMap (symbol p)) as [[|c0 cs]|];
      try exact Hdone.
    apply Forall_app. split; [exact Hdone|]. constructor; [|constructor].
    apply closePosition_charged. exact Hp.
Qed.

(** C5.  In every trade the USD engine returns, the size that was still
    open just before the final close is not negative, and the partial-close
    sizes and that size add up to the original size of the position.  That
    size is what [closePosition] closed: the trade has paid its fees on the
    size opened, on each partial close and on that size, its P&L realises
    the exit price on that size (the entry price is never zero), and the
    trade is closed. *)
Theorem usd_trade_sizes_add_up
    (Math_sqrt : Q -> Q) (utcMonthKey : Z -> string)
    (localeCompare : string -> string -> comparison)
    (loadCandles : string -> string -> option (list Candle))
    (calculateIndicators : list Candle -> list CandleWithIndicators)
    (w : World) (cfg : BacktestConfig) :
  Forall
    (fun t : Trade =>
       0 <= Usd.remainingSize (trade_base t)
       /\ sumOf pc_size (partialCloses (trade_base t)) + Usd.remainingSize (trade_base t)
          == size (trade_base t)
       /\ finalLegOn (commissionRate cfg) t (Usd.remainingSize (trade_base t)))
    (trades (Usd.runBacktest Math_sqrt utcMonthKey localeCompare loadCandles
               calculateIndicators w cfg)).
Proof.
  assert (Hdone : Forall (fun t => tradeSound t /\ tradeCharged (commissionRate cfg) t)
                    (trades (Usd.runBacktest Math_sqrt utcMonthKey localeCompare
                               loadCandles calculateIndicators w cfg))).
  { unfold Usd.runBacktest, Usd.simulate.
    pose proof (mainLoop_sound loadCandles calculateIndicators w cfg) as [Ho Hd].
    assert (Hch : simCharged cfg (Usd.mainLoop loadCandles calculateIndicators w cfg)).
    { unfold Usd.mainLoop.
      destruct (Usd.loadData loadCandles calculateIndicators cfg) as [dataMap multiTf].
      apply processTimestamps_charged. split; constructor. }
    destruct Hch as [Hco Hcd].
    pose proof (forceClose_sound cfg
                  (fst (Usd.loadData loadCandles calculateIndicators cfg))
                  _ _ Ho Hd) as Hfs.
    pose proof (forceClose_charged cfg
                  (fst (Usd.loadData loadCandles calculateIndicators cfg))
                  _ _ Hco Hcd) as Hfc.
    assert (Hboth : forall l : list Trade,
               Forall tradeSound l -> Forall (tradeCharged (commissionRate cfg)) l ->
               Forall (fun t => tradeSound t /\ tradeCharged (commissionRate cfg) t) l).
    { intros l H1 H2. rewrite Forall_forall in *. intros t Ht. split; auto. }
    match goal with |- context [if ?c then _ else _] => destruct c end;
      apply Hboth; assumption. }
  eapply Forall_impl; [|exact Hdone].
  intros t [Hs Hc]. split; [exact Hs|]. split; [|exact Hc].
  unfold Usd.remainingSize, sumOf. ring.
Qed.

(** ** The Sharpe ratio *)

Section JsMapFacts.
Context {V : Type}.

Lemma JsMap_get_set (m : list (Z * V)) (k k' : Z) (v : V) :
  JsMap.get Z.eqb (JsMap.set Z.eqb m k v) k'
  = if Z.eqb k k' then Some v else JsMap.get Z.eqb m k'.
Proof.
  induction m as [|[k0 v0] m IH]; simpl.
  - reflexivity.
  - destruct (Z.eqb k0 k) eqn:E0; simpl.
    + apply Z.eqb_eq in E0. subst k0. destruct (Z.eqb k k'); reflexivity.
    + rewrite IH. destruct (Z.eqb k0 k') eqn:E1; [|reflexivity].
      apply Z.eqb_eq in E1. subst k0. rewrite Z.eqb_sym, E0. reflexivity.
Qed.

Lemma JsMap_has_keys (m : list (Z * V)) (k : Z) :
  JsSet.has (JsMap.keys m) k
  = match JsMap.get Z.eqb m k with Some _ => true | None => false end.
Proof.
  induction m as [|[k0 v0] m IH]; simpl.
  - reflexivity.
  - destruct (Z.eqb k0 k); [reflexivity|exact IH].
Qed.


End JsMapFacts.

Lemma sortInsert_in {A : Type} (cmp : A -> A -> comparison) (x y : A) (l : list A) :
  In y (sortInsert cmp x l) <-> y = x \/ In y l.
Proof.
  induction l as [|z l IH]; simpl.
  - intuition.
  - destruct (cmp x z); simpl; rewrite ?IH; intuition.
Qed.

Lemma jsSort_in {A : Type} (cmp : A -> A -> comparison) (y : A) (l : list A) :
  In y (jsSort cmp l) <-> In y l.
Proof.
  unfold jsSort. induction l as [|x l IH]; simpl.
  - reflexivity.
  - rewrite sortInsert_in, IH. intuition.
Qed.















(** The parametric computation, over the rationals, is the one of the
    model. *)
Lemma daysOf_get (m : list (Z * Usd.DayEquity)) (k : Z) :
  JsMap.get Z.eqb (daysOf m) k
  = option_map (fun e => (Usd.day_first e, Usd.day_last e)) (JsMap.get Z.eqb m k).
Proof.
  induction m as [|[k0 e0] m IH]; cbn [daysOf map JsMap.get fst snd option_map].
  - reflexivity.
  - destruct (Z.eqb k0 k); [reflexivity|exact IH].
Qed.

Lemma daysOf_set (m : list (Z * Usd.DayEquity)) (k : Z) (e : Usd.DayEquity) :
  JsMap.set Z.eqb (daysOf m) k (Usd.day_first e, Usd.day_last e)
  = daysOf (JsMap.set Z.eqb m k e).
Proof.
  induction m as [|[k0 e0] m IH]; cbn [daysOf map JsMap.set fst snd].
  - reflexivity.
  - destruct (Z.eqb k0 k); cbn [map fst snd]; [reflexivity|].
    f_equal. exact IH.
Qed.

Lemma daysOf_keys (m : list (Z * Usd.DayEquity)) :
  JsMap.keys (daysOf m) = JsMap.keys m.
Proof. unfold JsMap.keys, daysOf. rewrite map_map. reflexivity. Qed.

Lemma groupByDay_rationals (curve : list EquityPoint) :
  Numbers.groupByDay (samplesOf curve) = daysOf (Usd.groupByDay curve).
Proof.
  unfold Numbers.groupByDay, Usd.groupByDay, samplesOf.
  change (@nil (Z * (Q * Q))) with (daysOf []).
  generalize (@nil (Z * Usd.DayEquity)). 
  induction curve as [|p curve IH]; intro m; cbn [map fold_left fst snd].
  - reflexivity.
  - rewrite daysOf_get.
    destruct (JsMap.get Z.eqb m (Usd.dayKeyOf (ep_timestamp p))) as [e|];
      cbn [option_map fst snd].
    + rewrite (daysOf_set m _ (Usd.mkDayEquity (Usd.day_first e) (equity p))). apply IH.
    + rewrite (daysOf_set m _ (Usd.mkDayEquity (equity p) (equity p))). apply IH.
Qed.

Lemma dailyReturnsFrom_rationals (sqrt : Q -> Q) (m : list (Z * Usd.DayEquity))
    (prevKey : Z) (rest : list Z) :
  Numbers.dailyReturnsFrom (Numbers.rationals sqrt) (daysOf m) prevKey rest
  = Usd.dailyReturnsFrom m prevKey rest.
Proof.
  revert prevKey. induction rest as [|k rest IH]; intro prevKey;
    cbn [Numbers.dailyReturnsFrom Usd.dailyReturnsFrom].
  - reflexivity.
  - rewrite !daysOf_get.
    destruct (JsMap.get Z.eqb m prevKey) as [e0|]; cbn [option_map]; [|apply IH].
    destruct (JsMap.get Z.eqb m k) as [e1|]; cbn [option_map snd]; [|apply IH].
    cbn [Numbers.rationals Numbers.num_neq Numbers.num_zero Numbers.num_div
         Numbers.num_sub].
    destruct (Qneqb (Usd.day_last e0) 0); [f_equal|]; apply IH.
Qed.

Lemma sharpeRatioOf_rationals (sqrt : Q -> Q) (curve : list EquityPoint) :
  Numbers.sharpeRatioOf (Numbers.rationals sqrt) (samplesOf curve)
  = Usd.sharpeRatioOf sqrt curve.
Proof.
  unfold Numbers.sharpeRatioOf, Usd.sharpeRatioOf.
  assert (Hlen : List.length (samplesOf curve) = List.length curve)
    by (unfold samplesOf; apply length_map).
  rewrite Hlen.
  assert (Hrs : Numbers.dailyReturnsOf (Numbers.rationals sqrt) (samplesOf curve)
                = Usd.dailyReturnsOf curve).
  { unfold Numbers.dailyReturnsOf, Usd.dailyReturnsOf.
    rewrite groupByDay_rationals, daysOf_keys.
    destruct (sortNumeric (JsMap.keys (Usd.groupByDay curve))) as [|k0 rest];
      [reflexivity|apply dailyReturnsFrom_rationals]. }
  rewrite Hrs. reflexivity.
Qed.






(** ** The books of the BTC engine *)

Lemma btc_checkExits_books (strategy_ : Btc.BtcStrategy) (rate avg7d avg1d : Q)
    (sym : string) (altCandles : list Btc.AltBtcCandle) (candleIdx : nat) (ts : Z)
    (currentRatio : Q) (positions : list Btc.BtcPosition) (led : Btc.Ledger) :
  let r := Btc.checkExits strategy_ rate avg7d avg1d sym altCandles candleIdx ts
             currentRatio positions led in
  btcBooks (Btc.led_availableBtc (snd r)) (fst r) (Btc.led_completedTrades (snd r))
    (Btc.led_partialSales (snd r))
  == btcBooks (Btc.led_availableBtc led) positions (Btc.led_completedTrades led)
       (Btc.led_partialSales led).
Proof.
  cbv zeta. revert led. induction positions as [|pos rest IH]; intro led.
  - reflexivity.
  - cbn [Btc.checkExits]. unfold btcBooks in *.
    change salePnl with (fun sale => Btc.ps_returned sale - Btc.ps_sold sale) in *.
    pose proof (sumOf_cons Btc.btcAllocated pos rest) as Hcons.
    destruct (String.eqb (Btc.pos_altSymbol pos) sym && Btc.isOpen pos)%bool.
    + destruct (Btc.exitAction strategy_ avg7d avg1d altCandles candleIdx ts currentRatio
                  pos) as [why|sold mark|].
      * rewrite IH. cbn [Btc.led_availableBtc Btc.led_completedTrades Btc.led_partialSales].
        rewrite sumOf_snoc. unfold Btc.closePosition, Btc.getCloseBtcReturn.
        cbn [Btc.btcPnl]. lra.
      * match goal with
        | |- context [Btc.checkExits _ _ _ _ _ _ _ _ _ rest ?l] =>
            specialize (IH l); destruct (Btc.checkExits _ _ _ _ _ _ _ _ _ rest l)
              as [kept led2]
        end.
        cbn [fst snd Btc.led_availableBtc Btc.led_completedTrades Btc.led_partialSales]
          in *.
        rewrite sumOf_snoc in IH. rewrite sumOf_cons.
        cbn [Btc.ps_returned Btc.ps_sold] in IH.
        cbn [Btc.afterSale Btc.btcAllocated]. lra.
      * specialize (IH led).
        destruct (Btc.checkExits _ _ _ _ _ _ _ _ _ rest led) as [kept led2].
        cbn [fst snd] in *. rewrite sumOf_cons. lra.
    + specialize (IH led).
      destruct (Btc.checkExits _ _ _ _ _ _ _ _ _ rest led) as [kept led2].
      cbn [fst snd] in *. rewrite sumOf_cons. lra.
Qed.

Lemma btc_checkEntry_books (strategy_ : Btc.BtcStrategy)
    (allAltCandles : Btc.AltCandleMap) (avg7d : Q) (sym : string)
    (altCandles : list Btc.AltBtcCandle) (candleIdx : nat)
    (currentCandle : Btc.AltBtcCandle) (ts : Z)
    (positions : list Btc.BtcPosition) (available : Q) (counter : nat) :
  let r := Btc.checkEntry strategy_ allAltCandles avg7d sym altCandles candleIdx
             currentCandle ts positions available counter in
  snd (fst r) + sumOf Btc.btcAllocated (fst (fst r))
  == available + sumOf Btc.btcAllocated positions.
Proof.
  cbv zeta. unfold Btc.checkEntry.
  repeat match goal with
         | |- context [if ?c then _ else _] => destruct c
         end; cbn [fst snd]; try reflexivity.
  rewrite sumOf_snoc. cbn [Btc.btcAllocated]. lra.
Qed.

Lemma btc_processAlt_books (strategy_ : Btc.BtcStrategy) (rate : Q)
    (allAltCandles : Btc.AltCandleMap) (altIndexMaps : list (string * list (Z * nat)))
    (avg7d avg1d : Q) (ts : Z) (acc : Btc.Sim * Q)
    (entry : string * list Btc.AltBtcCandle) :
  simBooks (fst (Btc.processAlt strategy_ rate allAltCandles altIndexMaps avg7d avg1d ts
                   acc entry))
  == simBooks (fst acc).
Proof.
  unfold Btc.processAlt. destruct acc as [st price]. destruct entry as [sym altCandles].
  destruct (JsMap.get String.eqb altIndexMaps sym) as [indexMap|]; [|reflexivity].
  destruct (JsMap.get Z.eqb indexMap ts) as [candleIdx|]; [|reflexivity].
  destruct (nth_error altCandles candleIdx) as [currentCandle|]; [|reflexivity].
  pose proof (btc_checkExits_books strategy_ rate avg7d avg1d sym altCandles candleIdx ts
                (Btc.close currentCandle) (Btc.openPositions st)
                (Btc.mkLedger (Btc.availableBtc st) (Btc.completedTrades st)
                   (Btc.partialSales st))) as Hex.
  cbv zeta in Hex.
  destruct (Btc.checkExits _ _ _ _ _ _ _ _ _ _ _) as [open1 led1].
  pose proof (btc_checkEntry_books strategy_ allAltCandles avg7d sym altCandles candleIdx
                currentCandle ts open1 (Btc.led_availableBtc led1)
                (Btc.positionCounter st)) as Hen.
  cbv zeta in Hen.
  destruct (Btc.checkEntry _ _ _ _ _ _ _ _ _ _ _) as [[open2 available2] counter2].
  unfold simBooks, btcBooks in *.
  cbn [fst snd Btc.availableBtc Btc.openPositions Btc.completedTrades Btc.partialSales
         Btc.led_availableBtc Btc.led_completedTrades Btc.led_partialSales] in *.
  lra.
Qed.

Lemma btc_processAlts_books (strategy_ : Btc.BtcStrategy) (rate : Q)
    (allAltCandles : Btc.AltCandleMap) (altIndexMaps : list (string * list (Z * nat)))
    (avg7d avg1d : Q) (ts : Z) (entries : list (string * list Btc.AltBtcCandle))
    (acc : Btc.Sim * Q) :
  simBooks (fst (fold_left
                   (Btc.processAlt strategy_ rate allAltCandles altIndexMaps avg7d avg1d ts)
                   entries acc))
  == simBooks (fst acc).
Proof.
  revert acc. induction entries as [|e es IH]; intro acc; simpl fold_left.
  - reflexivity.
  - rewrite IH. apply btc_processAlt_books.
Qed.

Lemma btc_processTimestamp_books (strategy_ : Btc.BtcStrategy) (rate : Q)
    (allAltCandles : Btc.AltCandleMap) (altIndexMaps : list (string * list (Z * nat)))
    (st : Btc.Sim) (ts : Z) :
  simBooks (Btc.processTimestamp strategy_ rate allAltCandles altIndexMaps st ts)
  == simBooks st.
Proof.
  unfold Btc.processTimestamp.
  match goal with
  | |- context [fold_left ?f allAltCandles ?acc] =>
      pose proof (btc_processAlts_books strategy_ rate allAltCandles altIndexMaps
                    (Btc.calculateAvgRatioTrend allAltCandles ts 7)
                    (Btc.calculateAvgRatioTrend allAltCandles ts 1) ts allAltCandles acc)
        as Hfold;
      destruct (fold_left f allAltCandles acc) as [st1 price]
  end.
  cbn [fst] in Hfold.
  match goal with |- context [if ?c then _ else _] => destruct c end;
    rewrite <- Hfold; reflexivity.
Qed.

Lemma btc_processTimestamps_books (strategy_ : Btc.BtcStrategy) (rate : Q)
    (allAltCandles : Btc.AltCandleMap) (altIndexMaps : list (string * list (Z * nat)))
    (tss : list Z) (st : Btc.Sim) :
  simBooks (fold_left (Btc.processTimestamp strategy_ rate allAltCandles altIndexMaps)
              tss st)
  == simBooks st.
Proof.
  revert st. induction tss as [|t tss IH]; intro st; simpl fold_left.
  - reflexivity.
  - rewrite IH. apply btc_processTimestamp_books.
Qed.

Lemma btc_forceClose_books (strategy_ : Btc.BtcStrategy) (rate : Q)
    (allAltCandles : Btc.AltCandleMap) (lastTimestamp : Z)
    (positions : list Btc.BtcPosition) (led : Btc.Ledger) :
  let r := Btc.forceClose strategy_ rate allAltCandles lastTimestamp positions led in
  btcBooks (Btc.led_availableBtc (snd r)) (fst r) (Btc.led_completedTrades (snd r))
    (Btc.led_partialSales (snd r))
  == btcBooks (Btc.led_availableBtc led) positions (Btc.led_completedTrades led)
       (Btc.led_partialSales led).
Proof.
  cbv zeta. revert led. induction positions as [|pos rest IH]; intro led.
  - reflexivity.
  - cbn [Btc.forceClose]. unfold btcBooks in *.
    pose proof (sumOf_cons Btc.btcAllocated pos rest) as Hcons.
    assert (Hskip :
              forall kept led2,
                Btc.forceClose strategy_ rate allAltCandles lastTimestamp rest led
                = (kept, led2) ->
                Btc.led_availableBtc led2 + sumOf Btc.btcAllocated (pos :: kept)
                - sumOf Btc.btcPnl (Btc.led_completedTrades led2)
                - sumOf salePnl (Btc.led_partialSales led2)
                == Btc.led_availableBtc led + sumOf Btc.btcAllocated (pos :: rest)
                   - sumOf Btc.btcPnl (Btc.led_completedTrades led)
                   - sumOf salePnl (Btc.led_partialSales led)).
    { intros kept led2 E. specialize (IH led). rewrite E in IH. cbn [fst snd] in IH.
      rewrite sumOf_cons. lra. }
    destruct (negb (Btc.isOpen pos)).
    + destruct (Btc.forceClose strategy_ rate allAltCandles lastTimestamp rest led)
        as [kept led2] eqn:E.
      cbn [fst snd]. apply Hskip. reflexivity.
    + destruct (JsMap.get String.eqb allAltCandles (Btc.pos_altSymbol pos))
        as [[|c0 cs]|].
      * destruct (Btc.forceClose strategy_ rate allAltCandles lastTimestamp rest led)
          as [kept led2] eqn:E.
        cbn [fst snd]. apply Hskip. reflexivity.
      * rewrite IH.
        cbn [Btc.led_availableBtc Btc.led_completedTrades Btc.led_partialSales].
        rewrite sumOf_snoc. unfold Btc.closePosition, Btc.getCloseBtcReturn.
        cbn [Btc.btcPnl]. lra.
      * destruct (Btc.forceClose strategy_ rate allAltCandles lastTimestamp rest led)
          as [kept led2] eqn:E.
        cbn [fst snd]. apply Hskip. reflexivity.
Qed.

Lemma btc_finalSim_books (strategy_ : Btc.BtcStrategy) (allAltCandles : Btc.AltCandleMap) :
  simBooks (Btc.finalSim strategy_ allAltCandles) == Btc.STARTING_BTC.
Proof.
  unfold Btc.finalSim.
  match goal with
  | |- context [Btc.forceClose ?s ?r ?m ?l ?ps ?led] =>
      pose proof (btc_forceClose_books s r m l ps led) as Hfc;
      destruct (Btc.forceClose s r m l ps led) as [open1 led1]
  end.
  cbv zeta in Hfc. cbn [fst snd Btc.led_availableBtc Btc.led_completedTrades
                          Btc.led_partialSales] in Hfc.
  unfold simBooks at 1.
  cbn [Btc.availableBtc Btc.openPositions Btc.completedTrades Btc.partialSales].
  rewrite Hfc.
  change (simBooks
            (fold_left
               (Btc.processTimestamp strategy_ (Btc.commissionRateOf strategy_)
                  allAltCandles (Btc.buildIndexMaps allAltCandles))
               (Btc.timelineOf allAltCandles) Btc.initialSim)
          == Btc.STARTING_BTC).
  rewrite btc_processTimestamps_books. unfold simBooks, btcBooks, Btc.initialSim.
  cbn. unfold sumOf. simpl. lra.
Qed.

(** Every open position sits on an alt that has candles, so the forced
    close leaves none behind. *)

Lemma get_of_nonempty_map (m : Btc.AltCandleMap) (sym : string) :
  Forall (fun e => snd e <> []) m ->
  In sym (map fst m) -> hasCandles m sym.
Proof.
  induction 1 as [|[k v] m Hv _ IH]; simpl.
  - intros [].
  - intro Hin. unfold hasCandles. simpl.
    destruct (String.eqb k sym) eqn:E.
    + destruct v as [|c cs]; [contradiction Hv; reflexivity|]. eauto.
    + apply IH. destruct Hin as [Hk|Hin]; [|exact Hin].
      subst k. rewrite String.eqb_refl in E. discriminate.
Qed.

Lemma set_keeps_nonempty (m : Btc.AltCandleMap) (sym : string)
    (v : list Btc.AltBtcCandle) :
  v <> [] -> Forall (fun e => snd e <> []) m ->
  Forall (fun e => snd e <> []) (JsMap.set String.eqb m sym v).
Proof.
  intros Hv. induction 1 as [|[k v0] m Hv0 Hm IH]; simpl.
  - constructor; [exact Hv|constructor].
  - destruct (String.eqb k sym); constructor; assumption.
Qed.

Lemma buildAll_nonempty (loadCandles : string -> string -> option (list Candle))
    (loadFundingRates : string -> option (list Btc.FundingRate))
    (calculateIndicators : list Candle -> list CandleWithIndicators) (tf : string) :
  Forall (fun e => snd e <> [])
    (Btc.buildAllAltBtcCandles loadCandles loadFundingRates calculateIndicators tf).
Proof.
  unfold Btc.buildAllAltBtcCandles.
  assert (Hnil : Forall (fun e : string * list Btc.AltBtcCandle => snd e <> []) [])
    by constructor.
  revert Hnil. generalize (@nil (string * list Btc.AltBtcCandle)).
  induction Btc.ALT_SYMBOLS as [|sym syms IH]; intros acc Hacc; simpl.
  - exact Hacc.
  - apply IH.
    destruct (Btc.buildAltBtcCandles loadCandles loadFundingRates calculateIndicators
                sym tf) as [[|c0 cs]|]; try exact Hacc.
    apply set_keeps_nonempty; [discriminate|exact Hacc].
Qed.

Lemma btc_checkExits_closable (allAltCandles : Btc.AltCandleMap)
    (strategy_ : Btc.BtcStrategy) (rate avg7d avg1d : Q)
    (sym : string) (altCandles : list Btc.AltBtcCandle) (candleIdx : nat) (ts : Z)
    (currentRatio : Q) (positions : list Btc.BtcPosition) (led : Btc.Ledger) :
  Forall (closable allAltCandles) positions ->
  Forall (closable allAltCandles)
    (fst (Btc.checkExits strategy_ rate avg7d avg1d sym altCandles candleIdx ts
            currentRatio positions led)).
Proof.
  intro Hall. revert led. induction Hall as [|pos rest Hpos _ IH]; intro led.
  - constructor.
  - cbn [Btc.checkExits].
    destruct (String.eqb (Btc.pos_altSymbol pos) sym && Btc.isOpen pos)%bool.
    + destruct (Btc.exitAction strategy_ avg7d avg1d altCandles candleIdx ts currentRatio
                  pos) as [why|sold mark|].
      * apply IH.
      * match goal with
        | |- context [Btc.checkExits _ _ _ _ _ _ _ _ _ rest ?l] =>
            specialize (IH l); destruct (Btc.checkExits _ _ _ _ _ _ _ _ _ rest l)
              as [kept led2]
        end.
        cbn [fst] in *. constructor; [exact Hpos|exact IH].
      * specialize (IH led).
        destruct (Btc.checkExits _ _ _ _ _ _ _ _ _ rest led) as [kept led2].
        cbn [fst] in *. constructor; assumption.
    + specialize (IH led).
      destruct (Btc.checkExits _ _ _ _ _ _ _ _ _ rest led) as [kept led2].
      cbn [fst] in *. constructor; assumption.
Qed.

Lemma btc_checkEntry_closable (strategy_ : Btc.BtcStrategy)
    (allAltCandles : Btc.AltCandleMap) (avg7d : Q) (sym : string)
    (altCandles : list Btc.AltBtcCandle) (candleIdx : nat)
    (currentCandle : Btc.AltBtcCandle) (ts : Z)
    (positions : list Btc.BtcPosition) (available : Q) (counter : nat) :
  hasCandles allAltCandles sym ->
  Forall (closable allAltCandles) positions ->
  Forall (closable allAltCandles)
    (fst (fst (Btc.checkEntry strategy_ allAltCandles avg7d sym altCandles candleIdx
                 currentCandle ts positions available counter))).
Proof.
  intros Hsym Hall. unfold Btc.checkEntry.
  repeat match goal with
         | |- context [if ?c then _ else _] => destruct c
         end; cbn [fst]; try exact Hall.
  apply Forall_app. split; [exact Hall|]. constructor; [|constructor].
  split; [reflexivity|exact Hsym].
Qed.

Lemma btc_processAlt_closable (strategy_ : Btc.BtcStrategy) (rate : Q)
    (allAltCandles : Btc.AltCandleMap) (altIndexMaps : list (string * list (Z * nat)))
    (avg7d avg1d : Q) (ts : Z) (acc : Btc.Sim * Q)
    (entry : string * list Btc.AltBtcCandle) :
  hasCandles allAltCandles (fst entry) ->
  Forall (closable allAltCandles) (Btc.openPositions (fst acc)) ->
  Forall (closable allAltCandles)
    (Btc.openPositions
       (fst (Btc.processAlt strategy_ rate allAltCandles altIndexMaps avg7d avg1d ts
               acc entry))).
Proof.
  intros Hsym Hall. unfold Btc.processAlt.
  destruct acc as [st price]. destruct entry as [sym altCandles]. cbn [fst] in *.
  destruct (JsMap.get String.eqb altIndexMaps sym) as [indexMap|]; [|exact Hall].
  destruct (JsMap.get Z.eqb indexMap ts) as [candleIdx|]; [|exact Hall].
  destruct (nth_error altCandles candleIdx) as [currentCandle|]; [|exact Hall].
  pose proof (btc_checkExits_closable allAltCandles strategy_ rate avg7d avg1d sym
                altCandles candleIdx ts (Btc.close currentCandle) (Btc.openPositions st)
                (Btc.mkLedger (Btc.availableBtc st) (Btc.completedTrades st)
                   (Btc.partialSales st)) Hall) as Hex.
  destruct (Btc.checkExits _ _ _ _ _ _ _ _ _ _ _) as [open1 led1].
  pose proof (btc_checkEntry_closable strategy_ allAltCandles avg7d sym altCandles
                candleIdx currentCandle ts open1 (Btc.led_availableBtc led1)
                (Btc.positionCounter st) Hsym Hex) as Hen.
  destruct (Btc.checkEntry _ _ _ _ _ _ _ _ _ _ _) as [[open2 available2] counter2].
  exact Hen.
Qed.

Lemma btc_processAlts_closable (strategy_ : Btc.BtcStrategy) (rate : Q)
    (allAltCandles : Btc.AltCandleMap) (altIndexMaps : list (string * list (Z * nat)))
    (avg7d avg1d : Q) (ts : Z) (entries : list (string * list Btc.AltBtcCandle))
    (acc : Btc.Sim * Q) :
  Forall (fun e => hasCandles allAltCandles (fst e)) entries ->
  Forall (closable allAltCandles) (Btc.openPositions (fst acc)) ->
  Forall (closable allAltCandles)
    (Btc.openPositions
       (fst (fold_left
               (Btc.processAlt strategy_ rate allAltCandles altIndexMaps avg7d avg1d ts)
               entries acc))).
Proof.
  intro Hentries. revert acc.
  induction Hentries as [|e es He _ IH]; intros acc Hall; simpl fold_left.
  - exact Hall.
  - apply IH. apply btc_processAlt_closable; assumption.
Qed.

Lemma btc_processTimestamps_closable (strategy_ : Btc.BtcStrategy) (rate : Q)
    (allAltCandles : Btc.AltCandleMap) (altIndexMaps : list (string * list (Z * nat)))
    (tss : list Z) (st : Btc.Sim) :
  Forall (fun e => snd e <> []) allAltCandles ->
  Forall (closable allAltCandles) (Btc.openPositions st) ->
  Forall (closable allAltCandles)
    (Btc.openPositions
       (fold_left (Btc.processTimestamp strategy_ rate allAltCandles altIndexMaps)
          tss st)).
Proof.
  intro Hmap.
  assert (Hentries : Forall (fun e => hasCandles allAltCandles (fst e)) allAltCandles).
  { apply Forall_forall. intros e He. apply get_of_nonempty_map; [exact Hmap|].
    apply in_map. exact He. }
  revert st. induction tss as [|t tss IH]; intros st Hall; simpl fold_left.
  - exact Hall.
  - apply IH. unfold Btc.processTimestamp.
    match goal with
    | |- context [fold_left ?f allAltCandles ?acc] =>
        pose proof (btc_processAlts_closable strategy_ rate allAltCandles altIndexMaps
                      (Btc.calculateAvgRatioTrend allAltCandles t 7)
                      (Btc.calculateAvgRatioTrend allAltCandles t 1) t allAltCandles acc
                      Hentries Hall) as Hfold;
        destruct (fold_left f allAltCandles acc) as [st1 price]
    end.
    cbn [fst] in Hfold.
    match goal with |- context [if ?c then _ else _] => destruct c end; exact Hfold.
Qed.

Lemma btc_forceClose_all (strategy_ : Btc.BtcStrategy) (rate : Q)
    (allAltCandles : Btc.AltCandleMap) (lastTimestamp : Z)
    (positions : list Btc.BtcPosition) (led : Btc.Ledger) :
  Forall (closable allAltCandles) positions ->
  fst (Btc.forceClose strategy_ rate allAltCandles lastTimestamp positions led) = [].
Proof.
  intro Hall. revert led.
  induction Hall as [|pos rest [Hopen (c & cs & Hget)] _ IH]; intro led.
  - reflexivity.
  - cbn [Btc.forceClose]. rewrite Hopen, Hget. cbn [negb]. apply IH.
Qed.

Lemma btc_finalSim_no_open (strategy_ : Btc.BtcStrategy)
    (allAltCandles : Btc.AltCandleMap) :
  Forall (fun e => snd e <> []) allAltCandles ->
  Btc.openPositions (Btc.finalSim strategy_ allAltCandles) = [].
Proof.
  intro Hmap. unfold Btc.finalSim.
  match goal with
  | |- context [Btc.forceClose ?s ?r ?m ?l ?ps ?led] =>
      pose proof (btc_forceClose_all s r m l ps led) as Hfc;
      destruct (Btc.forceClose s r m l ps led) as [open1 led1]
  end.
  cbn [fst Btc.openPositions] in *. apply Hfc.
  apply btc_processTimestamps_closable; [exact Hmap|constructor].
Qed.

Lemma btc_tp1_sale_step (strategy_ : Btc.BtcStrategy) (rate avg7d avg1d : Q)
    (altCandles : list Btc.AltBtcCandle) (candleIdx : nat) (ts : Z)
    (currentRatio sold : Q) (pos : Btc.BtcPosition) (led : Btc.Ledger) :
  Btc.isOpen pos = true ->
  Btc.exitAction strategy_ avg7d avg1d altCandles candleIdx ts currentRatio pos
  = Btc.SellPart sold true ->
  Btc.checkExits strategy_ rate avg7d avg1d (Btc.pos_altSymbol pos) altCandles candleIdx
    ts currentRatio [pos] led
  = ([Btc.afterSale pos sold true],
     Btc.mkLedger
       (Btc.led_availableBtc led
        + Btc.calculateBtcReturn sold (Btc.entryRatio pos) currentRatio
            (Btc.strat_leverage strategy_) rate)
       (Btc.led_completedTrades led)
       (Btc.led_partialSales led
        ++ [Btc.mkPartialSale sold
              (Btc.calculateBtcReturn sold (Btc.entryRatio pos) currentRatio
                 (Btc.strat_leverage strategy_) rate)])).
Proof.
  intros Hopen Hact. cbn [Btc.checkExits].
  rewrite String.eqb_refl, Hopen, Hact. reflexivity.
Qed.

Lemma sumOf_positive {A : Type} (f : A -> Q) (l : list A) :
  l <> [] -> Forall (fun x => 0 < f x) l -> 0 < sumOf f l.
Proof.
  intros Hne Hall. destruct Hall as [|x l Hx Hl]; [contradiction Hne; reflexivity|].
  rewrite sumOf_cons. clear Hne.
  assert (Hrest : 0 <= sumOf f l).
  { induction Hl as [|y l Hy _ IH]; [apply Qle_refl|]. rewrite sumOf_cons. lra. }
  lra.
Qed.

Lemma btc_finalSim_quiet (strategy_ : Btc.BtcStrategy) (allAltCandles : Btc.AltCandleMap) :
  Btc.timelineOf allAltCandles = [] ->
  Btc.finalSim strategy_ allAltCandles = Btc.initialSim.
Proof. intro Hts. unfold Btc.finalSim. rewrite Hts. reflexivity. Qed.

(** C10, as amended.  For every run of the BTC engine, the BTC gained,
    [finalBtc - startingBtc], is the sum of [btcPnl] over the completed
    trades plus the net BTC of every partial sale, those of TP1 and those a
    strategy asks for: the two amounts differ exactly by the net
    result of the partial sales, which a losing strategy-requested sale can
    bring back to zero.  The win and loss counts and the per-alt breakdown
    are computed from the trades alone.  When every partial sale of a run
    has a positive net result, and there is one, the BTC gained exceeds the
    sum of [btcPnl].  A TP1 partial close credits the available BTC and
    halves the allocation; it adds no trade. *)
Theorem btc_profit_is_trades_plus_partial_sales
    (loadCandles : string -> string -> option (list Candle))
    (loadFundingRates : string -> option (list Btc.FundingRate))
    (calculateIndicators : list Candle -> list CandleWithIndicators)
    (strategy_ : Btc.BtcStrategy) (tf : string) :
  let allAltCandles :=
    Btc.buildAllAltBtcCandles loadCandles loadFundingRates calculateIndicators tf in
  let r := Btc.runBtcBacktest loadCandles loadFundingRates calculateIndicators
             strategy_ tf in
  let sales := Btc.partialSales (Btc.finalSim strategy_ allAltCandles) in
  Btc.finalBtc r - Btc.startingBtc r == sumOf Btc.btcPnl (Btc.trades r) + sumOf salePnl sales
  /\ Btc.wins r = List.length (filter (fun t => Qgtb (Btc.btcPnl t) 0) (Btc.trades r))
  /\ Btc.losses r = List.length (filter (fun t => Qle_bool (Btc.btcPnl t) 0) (Btc.trades r))
  /\ Btc.perAltBreakdown r = Btc.buildAltBreakdown (Btc.trades r)
  /\ (sales <> [] -> Forall (fun sale => 0 < salePnl sale) sales ->
      sumOf Btc.btcPnl (Btc.trades r) < Btc.finalBtc r - Btc.startingBtc r)
  /\ (forall (rate avg7d avg1d : Q) (altCandles : list Btc.AltBtcCandle)
        (candleIdx : nat) (ts : Z) (currentRatio sold : Q) (pos : Btc.BtcPosition)
        (led : Btc.Ledger),
         Btc.isOpen pos = true ->
         Btc.exitAction strategy_ avg7d avg1d altCandles candleIdx ts currentRatio pos
         = Btc.SellPart sold true ->
         let after :=
           Btc.checkExits strategy_ rate avg7d avg1d (Btc.pos_altSymbol pos) altCandles
             candleIdx ts currentRatio [pos] led in
         Btc.led_completedTrades (snd after) = Btc.led_completedTrades led
         /\ Btc.led_availableBtc (snd after)
            = Btc.led_availableBtc led
              + Btc.calculateBtcReturn sold (Btc.entryRatio pos) currentRatio
                  (Btc.strat_leverage strategy_) rate
         /\ fst after = [Btc.afterSale pos sold true]).
Proof.
  cbv zeta. unfold Btc.runBtcBacktest.
  set (allAltCandles :=
         Btc.buildAllAltBtcCandles loadCandles loadFundingRates calculateIndicators tf).
  assert (Hbooks : Btc.availableBtc (Btc.finalSim strategy_ allAltCandles)
                   - Btc.STARTING_BTC
                   == sumOf Btc.btcPnl (Btc.completedTrades (Btc.finalSim strategy_ allAltCandles))
                      + sumOf salePnl (Btc.partialSales (Btc.finalSim strategy_ allAltCandles))).
  { pose proof (btc_finalSim_books strategy_ allAltCandles) as Hb.
    unfold simBooks, btcBooks in Hb.
    rewrite (btc_finalSim_no_open strategy_ allAltCandles) in Hb
      by apply buildAll_nonempty.
    unfold sumOf at 1 in Hb. simpl fold_left in Hb. lra. }
  clearbody allAltCandles.
  assert (Hid : Btc.finalBtc (Btc.runBtcBacktestOn allAltCandles strategy_)
                - Btc.startingBtc (Btc.runBtcBacktestOn allAltCandles strategy_)
                == sumOf Btc.btcPnl (Btc.trades (Btc.runBtcBacktestOn allAltCandles strategy_))
                   + sumOf salePnl (Btc.partialSales (Btc.finalSim strategy_ allAltCandles))).
  { unfold Btc.runBtcBacktestOn.
    destruct allAltCandles as [|e es].
    + rewrite btc_finalSim_quiet by reflexivity. reflexivity.
    + destruct (Btc.timelineOf (e :: es)) as [|t0 tss] eqn:Ets.
      * rewrite btc_finalSim_quiet by exact Ets. reflexivity.
      * exact Hbooks. }
  split; [|split; [|split; [|split; [|split]]]].
  - exact Hid.
  - unfold Btc.runBtcBacktestOn.
    destruct allAltCandles as [|e es]; [reflexivity|].
    destruct (Btc.timelineOf (e :: es)); reflexivity.
  - unfold Btc.runBtcBacktestOn.
    destruct allAltCandles as [|e es]; [reflexivity|].
    destruct (Btc.timelineOf (e :: es)); reflexivity.
  - unfold Btc.runBtcBacktestOn.
    destruct allAltCandles as [|e es]; [reflexivity|].
    destruct (Btc.timelineOf (e :: es)); reflexivity.
  - intros Hne Hall. pose proof (sumOf_positive salePnl _ Hne Hall). lra.
  - intros rate avg7d avg1d altCandles candleIdx ts currentRatio sold pos led Hopen Hact.
    rewrite (btc_tp1_sale_step strategy_ rate avg7d avg1d altCandles candleIdx ts
               currentRatio sold pos led Hopen Hact).
    repeat split.
Qed.

Lemma btc_profit_is_trades_plus_partial_sales_witness :
  (let r := Btc.runBtcBacktest Runtime.offsetFeed Runtime.noFunding
              Runtime.calculateIndicators Runtime.enterFirst "1d" in
   sumOf Btc.btcPnl (Btc.trades r) < Btc.finalBtc r - Btc.startingBtc r)
  /\ (let after :=
        Btc.checkExits Runtime.enterFirst Btc.SPOT_COMMISSION_RATE 0 0 "ETHUSDT" [] 0 0
          (13 # 10) [Runtime.spotPosition] Runtime.freshLedger in
      Btc.led_completedTrades (snd after) = []
      /\ Btc.led_availableBtc (snd after)
         = (4 # 100)
           + Btc.calculateBtcReturn ((1 # 100) * Btc.TP1_SELL_FRACTION) 1 (13 # 10) 1
               Btc.SPOT_COMMISSION_RATE
      /\ fst after
         = [Btc.afterSale Runtime.spotPosition ((1 # 100) * Btc.TP1_SELL_FRACTION) true]).
Proof.
  pose proof (btc_profit_is_trades_plus_partial_sales Runtime.offsetFeed Runtime.noFunding
                Runtime.calculateIndicators Runtime.enterFirst "1d")
    as (_ & _ & _ & _ & Hgain & Hstep).
  split.
  - apply Hgain.
    + vm_compute. discriminate.
    + vm_compute. repeat constructor.
  - apply (Hstep Btc.SPOT_COMMISSION_RATE 0 0 [] 0%nat 0%Z (13 # 10)
             ((1 # 100) * Btc.TP1_SELL_FRACTION) Runtime.spotPosition Runtime.freshLedger).
    + reflexivity.
    + vm_compute. reflexivity.
Defined.

(** C10, as stated, fails: in this run a TP1 partial close takes place and
    is profitable (0.002 BTC of allocation sold for 0.002612 BTC), and yet
    [finalBtc - startingBtc] equals the sum of [btcPnl] over the trades,
    because the sale the strategy asked for one candle earlier lost as much
    (0.006 BTC of allocation sold for 0.005388 BTC). *)
Lemma profitable_tp1_offset_by_losing_sale :
  let allAltCandles :=
    Btc.buildAllAltBtcCandles Runtime.offsetFeed Runtime.noFunding
      Runtime.calculateIndicators "1d" in
  let r := Btc.runBtcBacktest Runtime.offsetFeed Runtime.noFunding
             Runtime.calculateIndicators Runtime.sellSixty "1d" in
  map (fun sale => (Qred (Btc.ps_sold sale), Qred (Btc.ps_returned sale)))
    (Btc.partialSales (Btc.finalSim Runtime.sellSixty allAltCandles))
  = [(3 # 500, 1347 # 250000); (1 # 500, 653 # 250000)]
  /\ map (fun t => (Btc.exitReason t, Btc.tp1Hit (Btc.trade_base t))) (Btc.trades r)
     = [("backtest_end", true)]
  /\ Btc.finalBtc r - Btc.startingBtc r == sumOf Btc.btcPnl (Btc.trades r).
Proof.
  cbv zeta. split; [|split].
  - vm_compute. reflexivity.
  - vm_compute. reflexivity.
  - apply Qeq_bool_iff. vm_compute. reflexivity.
Qed.

(** On scenario A the trade closes the 200 left after a partial close of
    200, on a position of 400. *)
Example scenario_A_sizes :
  map (fun t => (map (fun pc => Qred (pc_size pc)) (partialCloses (trade_base t)),
                 Qred (Usd.remainingSize (trade_base t)), Qred (size (trade_base t))))
    (trades (Usd.runBacktest Runtime.Math_sqrt Runtime.utcMonthKey Runtime.localeCompare
               Runtime.scenarioAFeed Runtime.calculateIndicators Runtime.world0
               Runtime.scenarioA))
  = [([200], 200, 400)].
Proof. vm_compute. reflexivity. Qed.

(** ** The scenarios of the specification, run through the model *)

(** Scenario B: the trade closes at the stop, 95 less slippage, not at the
    low of the candle. *)
Example scenario_B_closes_at_stop :
  map (fun t => (exitReason t, Qred (exitPrice t)))
    (trades (Usd.runBacktest Runtime.Math_sqrt Runtime.utcMonthKey Runtime.localeCompare
               Runtime.scenarioBFeed Runtime.calculateIndicators Runtime.world0
               Runtime.scenarioA))
  = [("Stop loss hit", Qred (95 * (1 - (3 # 10000))))].
Proof. vm_compute. reflexivity. Qed.

(** Scenario D: a win of 50 and a loss of 20 give a profit factor of 2.5
    and a win rate of 50 percent. *)
Example scenario_D_profit_factor :
  let r := Usd.calculateResults Runtime.Math_sqrt Runtime.utcMonthKey
             Runtime.localeCompare Runtime.config0
             [Runtime.closedWith 50; Runtime.closedWith (-20)] [] in
  match profitFactor r with
  | Finite pf => Qred pf = 5 # 2
  | Infinity => False
  end
  /\ Qred (winRate r) = 50.
Proof. vm_compute. split; reflexivity. Qed.

(** Scenario E: on the five daily samples the largest drawdown is 150,
    from the peak of 1050, which is 100/7 percent. *)
Example scenario_E_drawdown :
  let r := Usd.calculateResults Runtime.Math_sqrt Runtime.utcMonthKey
             Runtime.localeCompare Runtime.config0 [] Runtime.fiveDays in
  Qred (maxDrawdown r) = 150 /\ Qred (maxDrawdownPercent r) = 100 # 7.
Proof. vm_compute. split; reflexivity. Qed.

(** Scenario C: a spot position entered at ratio 1 with 0.01 BTC reaches
    ratio 1.30; TP1 sells half and 0.005 BTC stays allocated. *)
Example scenario_C_tp1_partial :
  Btc.exitAction Runtime.enterFirst 0 0 [] 0 0 (130 # 100) Runtime.spotPosition
  = Btc.SellPart ((1 # 100) * Btc.TP1_SELL_FRACTION) true
  /\ Qred (Btc.btcAllocated
             (Btc.afterSale Runtime.spotPosition ((1 # 100) * Btc.TP1_SELL_FRACTION) true))
     = 1 # 200.
Proof. vm_compute. split; reflexivity. Qed.

(** ** The binary searches end within their fuel *)

Lemma shiftr1_bounds (lo hi : Z) :
  (lo < hi -> lo <= Z.shiftr (lo + hi) 1 < hi)%Z.
Proof.
  intro H. rewrite Z.shiftr_div_pow2 by lia. change (2 ^ 1)%Z with 2%Z.
  pose proof (Z.div_mod (lo + hi) 2 ltac:(lia)) as Hdm.
  pose proof (Z.mod_pos_bound (lo + hi) 2 ltac:(lia)) as Hmod.
  lia.
Qed.

Lemma lowerBound_fuel_enough (keyAt : Z -> Z) (target : Z) (fuel extra : nat)
    (lo hi : Z) :
  (hi - lo < Z.of_nat fuel)%Z ->
  Btc.lowerBound keyAt target (fuel + extra) lo hi
  = Btc.lowerBound keyAt target fuel lo hi.
Proof.
  revert lo hi. induction fuel as [|fuel IH]; intros lo hi Hfuel.
  - destruct extra as [|extra]; simpl; [reflexivity|].
    destruct (Z.ltb_spec lo hi); [lia|reflexivity].
  - simpl. destruct (Z.ltb_spec lo hi) as [Hlt|]; [|reflexivity].
    pose proof (shiftr1_bounds lo hi Hlt) as Hmid.
    destruct (keyAt (Z.shiftr (lo + hi) 1) <? target)%Z; apply IH; lia.
Qed.

Lemma lastAtOrBefore_fuel_enough (keyAt : Z -> Z) (target : Z) (fuel extra : nat)
    (lo hi bestIdx : Z) :
  (hi - lo + 1 < Z.of_nat fuel)%Z ->
  Btc.lastAtOrBefore keyAt target (fuel + extra) lo hi bestIdx
  = Btc.lastAtOrBefore keyAt target fuel lo hi bestIdx.
Proof.
  revert lo hi bestIdx. induction fuel as [|fuel IH]; intros lo hi bestIdx Hfuel.
  - destruct extra as [|extra]; simpl; [reflexivity|].
    destruct (Z.leb_spec lo hi); [lia|reflexivity].
  - simpl. destruct (Z.leb_spec lo hi) as [Hle|]; [|reflexivity].
    assert (Hmid : (lo <= Z.shiftr (lo + hi) 1 <= hi)%Z).
    { destruct (Z.eq_dec lo hi) as [->|Hne].
      - rewrite Z.shiftr_div_pow2 by lia. change (2 ^ 1)%Z with 2%Z.
        replace (hi + hi)%Z with (hi * 2)%Z by lia. rewrite Z.div_mul by lia. lia.
      - pose proof (shiftr1_bounds lo hi ltac:(lia)). lia. }
    destruct (keyAt (Z.shiftr (lo + hi) 1) <=? target)%Z; apply IH; lia.
Qed.

(** * Further properties of the code *)

(** ** The merged timeline *)

Lemma JsSet_has_in (s : list Z) (x : Z) : JsSet.has s x = true <-> In x s.
Proof.
  induction s as [|y s IH]; simpl.
  - split; [discriminate|intros []].
  - destruct (Z.eqb_spec y x) as [->|Hne].
    + split; auto.
    + rewrite IH. split; [auto|intros [H|H]; [contradiction|exact H]].
Qed.

Lemma JsSet_add_in (s : list Z) (x y : Z) : In y (JsSet.add s x) <-> In y s \/ y = x.
Proof.
  unfold JsSet.add. destruct (JsSet.has s x) eqn:E.
  - apply JsSet_has_in in E. split; [auto|intros [H| ->]; assumption].
  - rewrite in_app_iff. simpl. intuition.
Qed.

Lemma JsSet_add_NoDup (s : list Z) (x : Z) : NoDup s -> NoDup (JsSet.add s x).
Proof.
  intro H. unfold JsSet.add. destruct (JsSet.has s x) eqn:E; [exact H|].
  apply NoDup_app; [exact H|repeat constructor; intros []|].
  intros y Hy [Heq|[]]. subst y. apply JsSet_has_in in Hy. congruence.
Qed.

Lemma collect_inner {A : Type} (f : A -> Z) (l : list A) (s : list Z) :
  NoDup s ->
  NoDup (fold_left (fun acc c => JsSet.add acc (f c)) l s)
  /\ forall t, In t (fold_left (fun acc c => JsSet.add acc (f c)) l s)
               <-> In t s \/ exists c, In c l /\ f c = t.
Proof.
  revert s. induction l as [|c l IH]; intros s Hs; simpl.
  - split; [exact Hs|]. intro t. split; [auto|intros [H|(c & [] & _)]; exact H].
  - destruct (IH (JsSet.add s (f c)) (JsSet_add_NoDup s (f c) Hs)) as [Hnd Hin].
    split; [exact Hnd|]. intro t. rewrite Hin, JsSet_add_in. split.
    + intros [[H|H]|(c' & Hc' & Hf)]; [auto| |].
      * right. exists c. split; [left; reflexivity|symmetry; exact H].
      * right. exists c'. split; [right; exact Hc'|exact Hf].
    + intros [H|(c' & [Heq|Hc'] & Hf)]; [auto| |].
      * subst c'. left. right. symmetry. exact Hf.
      * right. exists c'. split; assumption.
Qed.

Lemma collect_outer {K A : Type} (f : A -> Z) (m : list (K * list A)) (s : list Z) :
  NoDup s ->
  NoDup (fold_left
           (fun set_ entry => fold_left (fun acc c => JsSet.add acc (f c)) (snd entry) set_)
           m s)
  /\ forall t,
       In t (fold_left
               (fun set_ entry =>
                  fold_left (fun acc c => JsSet.add acc (f c)) (snd entry) set_)
               m s)
       <-> In t s \/ exists e c, In e m /\ In c (snd e) /\ f c = t.
Proof.
  revert s. induction m as [|e m IH]; intros s Hs; simpl.
  - split; [exact Hs|]. intro t. split; [auto|intros [H|(e & c & [] & _)]; exact H].
  - destruct (collect_inner f (snd e) s Hs) as [Hnd1 Hin1].
    destruct (IH _ Hnd1) as [Hnd Hin]. split; [exact Hnd|].
    intro t. rewrite Hin, Hin1. split.
    + intros [[H|(c & Hc & Hf)]|(e' & c & He' & Hc & Hf)]; [auto| |].
      * right. exists e, c. auto.
      * right. exists e', c. auto.
    + intros [H|(e' & c & [Heq|He'] & Hc & Hf)]; [auto| |].
      * subst e'. left. right. exists c. auto.
      * right. exists e', c. auto.
Qed.

Lemma sortInsert_strict (x : Z) (l : list Z) :
  StronglySorted Z.lt l -> ~ In x l -> StronglySorted Z.lt (sortInsert Z.compare x l).
Proof.
  induction 1 as [|y l Hl IH Hy]; intro Hx; simpl.
  - repeat constructor.
  - destruct (Z.compare_spec x y) as [Heq|Hlt|Hgt].
    + exfalso. apply Hx. left. symmetry. exact Heq.
    + constructor; [constructor; assumption|].
      constructor; [exact Hlt|]. eapply Forall_impl; [|exact Hy]. simpl. intros; lia.
    + constructor.
      * apply IH. intro H. apply Hx. right. exact H.
      * apply Forall_forall. intros z Hz. apply sortInsert_in in Hz.
        destruct Hz as [->|Hz]; [exact Hgt|].
        rewrite Forall_forall in Hy. apply Hy. exact Hz.
Qed.

Lemma sortNumeric_strict (l : list Z) :
  NoDup l -> StronglySorted Z.lt (sortNumeric l).
Proof.
  unfold sortNumeric. induction 1 as [|x l Hx _ IH].
  - constructor.
  - change (jsSort Z.compare (x :: l)) with (sortInsert Z.compare x (jsSort Z.compare l)).
    apply sortInsert_strict; [exact IH|].
    intro H. rewrite jsSort_in in H. contradiction.
Qed.

(** X1.  The timeline of either engine is strictly ascending, so it holds no
    timestamp twice, and it holds exactly the timestamps of the candles of
    the loaded symbols. *)
Theorem timeline_is_sorted_union
    (loadCandles : string -> string -> option (list Candle))
    (calculateIndicators : list Candle -> list CandleWithIndicators)
    (cfg : BacktestConfig) (allAltCandles : Btc.AltCandleMap) :
  StronglySorted Z.lt (Usd.sortedTimestampsOf loadCandles calculateIndicators cfg)
  /\ (forall t : Z,
         In t (Usd.sortedTimestampsOf loadCandles calculateIndicators cfg)
         <-> exists e c,
               In e (fst (Usd.loadData loadCandles calculateIndicators cfg))
               /\ In c (snd e) /\ timestamp c = t)
  /\ StronglySorted Z.lt (Btc.timelineOf allAltCandles)
  /\ (forall t : Z,
         In t (Btc.timelineOf allAltCandles)
         <-> exists e c, In e allAltCandles /\ In c (snd e) /\ Btc.timestamp c = t).
Proof.
  unfold Usd.sortedTimestampsOf, Usd.collectTimestamps, Btc.timelineOf.
  destruct (collect_outer timestamp
              (fst (Usd.loadData loadCandles calculateIndicators cfg)) [] (NoDup_nil Z))
    as [Hnd1 Hin1].
  destruct (collect_outer Btc.timestamp allAltCandles [] (NoDup_nil Z)) as [Hnd2 Hin2].
  repeat split.
  - apply sortNumeric_strict. exact Hnd1.
  - intro H. unfold sortNumeric in H. rewrite jsSort_in in H. apply Hin1 in H.
    destruct H as [[]|H]. exact H.
  - intro H. unfold sortNumeric. rewrite jsSort_in. apply Hin1. right. exact H.
  - apply sortNumeric_strict. exact Hnd2.
  - intro H. unfold sortNumeric in H. rewrite jsSort_in in H. apply Hin2 in H.
    destruct H as [[]|H]. exact H.
  - intro H. unfold sortNumeric. rewrite jsSort_in. apply Hin2. right. exact H.
Qed.

(** ** The index maps *)

Section IndexMap.
Context {A : Type} (f : A -> Z).

Lemma indexFold_length (l : list A) (acc : nat * list (Z * nat)) :
  fst (fold_left (indexStep f) l acc) = (fst acc + List.length l)%nat.
Proof.
  revert acc. induction l as [|c l IH]; intro acc; simpl.
  - lia.
  - rewrite IH. simpl. lia.
Qed.

Lemma indexFold_lookup (l : list A) (ts : Z) :
  match JsMap.get Z.eqb (snd (fold_left (indexStep f) l (0%nat, []))) ts with
  | Some i =>
      exists c, nth_error l i = Some c /\ f c = ts
                /\ forall j c', nth_error l j = Some c' -> f c' = ts -> (j <= i)%nat
  | None => forall c, In c l -> f c <> ts
  end.
Proof.
  induction l as [|c l IH] using rev_ind.
  - simpl. intros c [].
  - rewrite fold_left_app. simpl fold_left. unfold indexStep at 1. cbn [snd].
    rewrite indexFold_length. cbn [fst]. rewrite Nat.add_0_l, JsMap_get_set.
    destruct (Z.eqb_spec (f c) ts) as [Heq|Hne].
    + exists c. split; [|split; [exact Heq|]].
      * rewrite nth_error_app2 by lia. rewrite Nat.sub_diag. reflexivity.
      * intros j c' Hj _.
        assert (Hlt : (j < List.length (l ++ [c]))%nat)
          by (apply nth_error_Some; congruence).
        rewrite length_app in Hlt. simpl in Hlt. lia.
    + destruct (JsMap.get Z.eqb (snd (fold_left (indexStep f) l (0%nat, []))) ts) as [i|].
      * destruct IH as (c0 & Hi & Hf & Hmax). exists c0.
        assert (Hlt : (i < List.length l)%nat) by (apply nth_error_Some; congruence).
        split; [rewrite nth_error_app1 by exact Hlt; exact Hi|]. split; [exact Hf|].
        intros j c' Hj Hf'.
        destruct (Nat.lt_ge_cases j (List.length l)) as [Hjl|Hjl].
        -- rewrite nth_error_app1 in Hj by exact Hjl. eapply Hmax; eassumption.
        -- rewrite nth_error_app2 in Hj by exact Hjl.
           destruct (j - List.length l)%nat as [|k] eqn:Ek; simpl in Hj.
           ++ injection Hj as <-. contradiction.
           ++ destruct k; discriminate.
      * intros c' Hin. apply in_app_iff in Hin. destruct Hin as [Hin|[<-|[]]].
        -- apply IH. exact Hin.
        -- exact Hne.
Qed.
End IndexMap.

(** X2.  Looking a timestamp up in the index map of a candle array answers
    the index of a candle that carries this timestamp, the last one if
    several do; it answers nothing exactly when no candle carries it. *)
Theorem index_map_lookup (candles : list CandleWithIndicators)
    (altCandles : list Btc.AltBtcCandle) (ts : Z) :
  match JsMap.get Z.eqb (Usd.buildIndexMap candles) ts with
  | Some i =>
      exists c, nth_error candles i = Some c /\ timestamp c = ts
                /\ forall j c', nth_error candles j = Some c' -> timestamp c' = ts ->
                                (j <= i)%nat
  | None => forall c, In c candles -> timestamp c <> ts
  end
  /\ match JsMap.get Z.eqb (Btc.buildIndexMap altCandles) ts with
     | Some i =>
         exists c, nth_error altCandles i = Some c /\ Btc.timestamp c = ts
                   /\ forall j c', nth_error altCandles j = Some c' ->
                                   Btc.timestamp c' = ts -> (j <= i)%nat
     | None => forall c, In c altCandles -> Btc.timestamp c <> ts
     end.
Proof.
  split.
  - exact (indexFold_lookup timestamp candles ts).
  - exact (indexFold_lookup Btc.timestamp altCandles ts).
Qed.


(** ** The exit rules of the USD engine *)

(** X3.  The stop loss comes first.  When the candle reaches the stop of a
    position, the cascade closes it for [Stop loss hit] at the stop price
    less slippage (not at the low or the high of the candle), whatever the
    take-profit levels and the strategy say. *)
Theorem stop_loss_closes_at_stop (cfg : BacktestConfig)
    (candles : list CandleWithIndicators) (candleIdx : nat)
    (multiTfData : option MultiTimeframeData) (candle : CandleWithIndicators)
    (p : Position)
    (Hhit : match side p with
            | long => low candle <= stopLoss p
            | short => stopLoss p <= high candle
            end) :
  exists t : Trade,
    Usd.checkExit cfg candles candleIdx multiTfData candle p = Usd.Closed t
    /\ exitReason t = "Stop loss hit"
    /\ exitTime t = timestamp candle
    /\ exitPrice t
       = match side p with
         | long => stopLoss p * (1 - slippageRate cfg)
         | short => stopLoss p * (1 + slippageRate cfg)
         end
    /\ partialCloses (trade_base t) = partialCloses p.
Proof.
  unfold Usd.checkExit, Usd.stopLossRule.
  destruct (side p) eqn:Eside; cbn [isLong isShort negb andb].
  - apply Qle_bool_iff in Hhit. rewrite Hhit. cbn [Usd.unlessClosed].
    eexists. split; [reflexivity|]. unfold Usd.closePosition. rewrite Eside.
    repeat split.
  - unfold Qgeb. apply Qle_bool_iff in Hhit. rewrite Hhit. cbn [Usd.unlessClosed].
    eexists. split; [reflexivity|]. unfold Usd.closePosition. rewrite Eside.
    repeat split.
Qed.

Lemma stop_loss_closes_at_stop_witness :
  exists t : Trade,
    Usd.checkExit Runtime.scenarioA [] 0 None
      (mkCandleWithIndicators 3600000 99 120 94 96 1 1 Runtime.noIndicators)
      (Runtime.heldOn "BTCUSDT")
    = Usd.Closed t
    /\ exitReason t = "Stop loss hit"
    /\ exitTime t = 3600000%Z
    /\ exitPrice t = 95 * (1 - slippageRate Runtime.scenarioA)
    /\ partialCloses (trade_base t) = [].
Proof.
  apply (stop_loss_closes_at_stop Runtime.scenarioA [] 0 None
           (mkCandleWithIndicators 3600000 99 120 94 96 1 1 Runtime.noIndicators)
           (Runtime.heldOn "BTCUSDT")).
  simpl. apply Qle_bool_iff. reflexivity.
Defined.

(** X4.  The trailing stop only tightens.  It never lowers the stop of a
    long position nor raises the stop of a short one, the trailing level it
    records moves the same way only, and every other field of the position
    (its fifteen fields besides [stopLoss] and [trailingStop]) is left as it
    was. *)
Theorem trailing_stop_only_tightens (candle : CandleWithIndicators) (p : Position) :
  let p' := Usd.trailingStopRule candle p in
  match side p with
  | long => stopLoss p <= stopLoss p'
  | short => stopLoss p' <= stopLoss p
  end
  /\ match trailingStop p, trailingStop p' with
     | Some old, Some new =>
         match side p with long => old <= new | short => new <= old end
     | Some _, None => False
     | None, _ => True
     end
  /\ id p' = id p /\ symbol p' = symbol p /\ side p' = side p
  /\ entryPrice p' = entryPrice p /\ size p' = size p /\ leverage p' = leverage p
  /\ takeProfit p' = takeProfit p /\ takeProfit2 p' = takeProfit2 p
  /\ entryTime p' = entryTime p /\ commission p' = commission p
  /\ status p' = status p /\ reason p' = reason p
  /\ partialCloses p' = partialCloses p /\ breakeven p' = breakeven p
  /\ tp1Hit p' = tp1Hit p.
Proof.
  cbv zeta. unfold Usd.trailingStopRule.
  assert (Hsame :
            match side p with long => stopLoss p <= stopLoss p | short => stopLoss p <= stopLoss p end
            /\ match trailingStop p, trailingStop p with
               | Some old, Some new =>
                   match side p with long => old <= new | short => new <= old end
               | Some _, None => False
               | None, _ => True
               end
            /\ id p = id p /\ symbol p = symbol p /\ side p = side p
            /\ entryPrice p = entryPrice p /\ size p = size p /\ leverage p = leverage p
            /\ takeProfit p = takeProfit p /\ takeProfit2 p = takeProfit2 p
            /\ entryTime p = entryTime p /\ commission p = commission p
            /\ status p = status p /\ reason p = reason p
            /\ partialCloses p = partialCloses p /\ breakeven p = breakeven p
            /\ tp1Hit p = tp1Hit p).
  { split; [destruct (side p); apply Qle_refl|].
    split; [destruct (trailingStop p); [destruct (side p); apply Qle_refl|exact I]|].
    repeat split. }
  destruct (atr (indicators candle)) as [atr_|]; [|exact Hsame].
  destruct (Qgtb atr_ 0); [|exact Hsame].
  destruct (side p) eqn:Eside.
  - destruct (Qgeb _ atr_); [|rewrite Eside in *; exact Hsame].
    destruct (trailingStop p) as [old|] eqn:Etrail.
    + destruct (Qgtb _ old) eqn:Enew;
        [apply Qgtb_gt in Enew | apply Qgtb_le in Enew];
        match goal with
        | |- context [if Qgtb ?a ?b then _ else _] =>
            destruct (Qgtb a b) eqn:Estop;
              [apply Qgtb_gt in Estop | apply Qgtb_le in Estop]
        end;
        cbn in *; rewrite ?Eside; repeat split; try lra; try apply Qle_refl.
    + match goal with
      | |- context [if Qgtb ?a ?b then _ else _] =>
          destruct (Qgtb a b) eqn:Estop;
            [apply Qgtb_gt in Estop | apply Qgtb_le in Estop]
      end;
      cbn in *; rewrite ?Eside; repeat split; try lra; try apply Qle_refl.
  - destruct (Qgeb _ atr_); [|rewrite Eside in *; exact Hsame].
    destruct (trailingStop p) as [old|] eqn:Etrail.
    + destruct (Qltb _ old) eqn:Enew;
        [apply Qltb_lt in Enew | apply Qltb_ge in Enew];
        match goal with
        | |- context [if Qltb ?a ?b then _ else _] =>
            destruct (Qltb a b) eqn:Estop;
              [apply Qltb_lt in Estop | apply Qltb_ge in Estop]
        end;
        cbn in *; rewrite ?Eside; repeat split; try lra; try apply Qle_refl.
    + match goal with
      | |- context [if Qltb ?a ?b then _ else _] =>
          destruct (Qltb a b) eqn:Estop;
            [apply Qltb_lt in Estop | apply Qltb_ge in Estop]
      end;
      cbn in *; rewrite ?Eside; repeat split; try lra; try apply Qle_refl.
Qed.


(** X5.  Closing a position that has a non-zero entry price realises its
    mark-to-market at the slipped exit price, less the fee of the closing
    leg. *)
Theorem close_realises_mark_to_market (p : Position) (price : Q) (ts : Z)
    (why : string) (slip rate : Q) (Hentry : ~ entryPrice p == 0) :
  let slipped :=
    match side p with
    | long => price * (1 - slip)
    | short => price * (1 + slip)
    end in
  pnl (Usd.closePosition p price ts why slip rate)
  == Usd.unrealisedPnl p slipped - Usd.remainingSize p * rate
  /\ commission (trade_base (Usd.closePosition p price ts why slip rate))
     == commission p + Usd.remainingSize p * rate.
Proof.
  cbv zeta. unfold Usd.closePosition, Usd.unrealisedPnl. cbn [pnl trade_base].
  split; [|reflexivity].
  destruct (side p);
    match goal with
    | |- ?g * ?r - _ + _ == _ => set (gain := g * r)
    end; lra.
Qed.

Lemma close_realises_mark_to_market_witness :
  pnl (Usd.closePosition (Runtime.heldOn "BTCUSDT") 110 0 "exit" 0 (6 # 10000))
  == Usd.unrealisedPnl (Runtime.heldOn "BTCUSDT") (110 * (1 - 0))
     - Usd.remainingSize (Runtime.heldOn "BTCUSDT") * (6 # 10000)
  /\ commission
       (trade_base (Usd.closePosition (Runtime.heldOn "BTCUSDT") 110 0 "exit" 0
                      (6 # 10000)))
     == commission (Runtime.heldOn "BTCUSDT")
        + Usd.remainingSize (Runtime.heldOn "BTCUSDT") * (6 # 10000).
Proof.
  apply (close_realises_mark_to_market (Runtime.heldOn "BTCUSDT") 110 0 "exit" 0
           (6 # 10000)).
  intro H. apply Qeq_bool_iff in H. vm_compute in H. discriminate.
Defined.

(** X6.  Position sizing.  Every position the entry loop opens has a size
    that is positive and at most [equity * leverage]; with a positive entry
    price, what it loses between entry and stop is at most
    [equity * riskPerTrade].  It starts with the entry fee as its
    commission, no partial close, and the candle's time as its entry time.
    The loop opens at most one position per signal and numbers what it
    opens consecutively: the position opened [k]-th (from 0) has the id
    made of the symbol, a dash and the counter plus [k]. *)
Theorem entries_are_sized_by_risk (cfg : BacktestConfig) (sym : string)
    (candle : CandleWithIndicators) (equity_ : Q)
    (signals : list (EntrySignal * Side)) (positions : list Position) (counter : nat) :
  exists opened : list Position,
    Usd.openSignals cfg sym candle equity_ signals (positions, counter)
    = (positions ++ opened, (counter + List.length opened)%nat)
    /\ (List.length opened <= List.length signals)%nat
    /\ Forall
         (fun p =>
            0 < size p /\ size p <= equity_ * cfg_leverage cfg
            /\ (0 < entryPrice p ->
                size p * (Qabs (entryPrice p - stopLoss p) / entryPrice p)
                <= equity_ * riskPerTrade cfg)
            /\ commission p == size p * commissionRate cfg
            /\ partialCloses p = [] /\ tp1Hit p = false /\ trailingStop p = None
            /\ symbol p = sym /\ entryTime p = timestamp candle)
         opened
    /\ map id opened
       = map (fun k : nat => (sym ++ "-" ++ showNat (counter + k))%string)
           (seq 0 (List.length opened)).
Proof.
  revert positions counter.
  induction signals as [|[signal side_] rest IH]; intros positions counter.
  - exists []. rewrite app_nil_r, Nat.add_0_r.
    split; [reflexivity|]. split; [simpl; lia|]. split; [constructor|reflexivity].
  - cbn [Usd.openSignals].
    assert (Hskip :
              exists opened : list Position,
                Usd.openSignals cfg sym candle equity_ rest (positions, counter)
                = (positions ++ opened, (counter + List.length opened)%nat)
                /\ (List.length opened <= List.length ((signal, side_) :: rest))%nat
                /\ Forall
                     (fun p =>
                        0 < size p /\ size p <= equity_ * cfg_leverage cfg
                        /\ (0 < entryPrice p ->
                            size p * (Qabs (entryPrice p - stopLoss p) / entryPrice p)
                            <= equity_ * riskPerTrade cfg)
                        /\ commission p == size p * commissionRate cfg
                        /\ partialCloses p = [] /\ tp1Hit p = false
                        /\ trailingStop p = None
                        /\ symbol p = sym /\ entryTime p = timestamp candle)
                     opened
                /\ map id opened
                   = map (fun k : nat => (sym ++ "-" ++ showNat (counter + k))%string)
                       (seq 0 (List.length opened))).
    { destruct (IH positions counter) as (opened & Heq & Hlen & Hall & Hids).
      exists opened. split; [exact Heq|]. split; [simpl; lia|]. split; assumption. }
    destruct (Z.of_nat (List.length positions) >=? maxConcurrentPositions cfg)%Z.
    { exists []. rewrite app_nil_r, Nat.add_0_r.
      split; [reflexivity|]. split; [simpl; lia|]. split; [constructor|reflexivity]. }
    set (entryPrice_ := match side_ with
                        | long => close candle * (1 + slippageRate cfg)
                        | short => close candle * (1 - slippageRate cfg)
                        end).
    set (distance := Qabs (entryPrice_ - sig_stopLoss signal)).
    destruct (Qeq_bool distance 0) eqn:Ezero; [exact Hskip|].
    set (size0 := equity_ * riskPerTrade cfg / (distance / entryPrice_)).
    set (maxSize := equity_ * cfg_leverage cfg).
    set (positionSize := if Qgtb size0 maxSize then maxSize else size0).
    destruct (Qle_bool positionSize 0) eqn:Esize; [exact Hskip|].
    cbn [Usd.nextPositionId].
    match goal with
    | |- context [Usd.openSignals _ _ _ _ rest (positions ++ [?p], ?c)] =>
        destruct (IH (positions ++ [p]) c) as (opened & Heq & Hlen & Hall & Hids);
        exists (p :: opened)
    end.
    split; [rewrite Heq, <- app_assoc; simpl; f_equal; lia|].
    split; [simpl; lia|].
    split.
    2:{ cbn [map id List.length seq]. rewrite Nat.add_0_r. f_equal.
        rewrite Hids, <- seq_shift, map_map. apply map_ext. intro k.
        rewrite Nat.add_succ_r. reflexivity. }
    constructor; [|exact Hall].
    apply Qle_bool_gt in Esize. cbn [size entryPrice stopLoss commission partialCloses
                                      tp1Hit trailingStop symbol entryTime].
    assert (Hle0 : positionSize <= size0 /\ positionSize <= maxSize).
    { unfold positionSize. destruct (Qgtb size0 maxSize) eqn:Ecap;
        [apply Qgtb_gt in Ecap | apply Qgtb_le in Ecap]; split; lra. }
    destruct Hle0 as [Hle0 Hcap].
    repeat split; try assumption; try reflexivity.
    intro Hentry. fold distance.
    assert (Hdist : 0 < distance).
    { pose proof (Qabs_nonneg (entryPrice_ - sig_stopLoss signal)) as Hnn.
      fold distance in Hnn.
      destruct (Qlt_le_dec 0 distance) as [Hlt|Hle]; [exact Hlt|].
      assert (Heq0 : distance == 0) by lra.
      apply Qeq_bool_iff in Heq0. congruence. }
    assert (Hfrac : 0 < distance / entryPrice_).
    { apply Qlt_shift_div_l; [exact Hentry|lra]. }
    assert (Hrisk : size0 * (distance / entryPrice_) == equity_ * riskPerTrade cfg).
    { unfold size0. field. split; lra. }
    rewrite <- Hrisk. apply Qmult_le_compat_r; [exact Hle0|lra].
Qed.


Lemma trailingStopRule_keeps (candle : CandleWithIndicators) (p : Position) :
  match side p with
  | long => stopLoss p <= stopLoss (Usd.trailingStopRule candle p)
  | short => stopLoss (Usd.trailingStopRule candle p) <= stopLoss p
  end
  /\ partialCloses (Usd.trailingStopRule candle p) = partialCloses p
  /\ commission (Usd.trailingStopRule candle p) = commission p
  /\ tp1Hit (Usd.trailingStopRule candle p) = tp1Hit p
  /\ breakeven (Usd.trailingStopRule candle p) = breakeven p
  /\ symbol (Usd.trailingStopRule candle p) = symbol p.
Proof.
  unfold Usd.trailingStopRule.
  assert (Hsame :
            match side p with
            | long => stopLoss p <= stopLoss p
            | short => stopLoss p <= stopLoss p
            end
            /\ partialCloses p = partialCloses p /\ commission p = commission p
            /\ tp1Hit p = tp1Hit p /\ breakeven p = breakeven p /\ symbol p = symbol p).
  { split; [destruct (side p); apply Qle_refl|repeat split]. }
  destruct (atr (indicators candle)) as [atr_|]; [|exact Hsame].
  destruct (Qgtb atr_ 0); [|exact Hsame].
  destruct (side p) eqn:Eside.
  - destruct (Qgeb _ atr_); [|first [exact Hsame | rewrite Eside in *; exact Hsame]].
    match goal with
    | |- context [if Qgtb ?a ?b then _ else _] =>
        destruct (Qgtb a b) eqn:Estop;
          [apply Qgtb_gt in Estop | apply Qgtb_le in Estop]
    end; cbn in *; rewrite ?Eside; repeat split; try lra; try apply Qle_refl.
  - destruct (Qgeb _ atr_); [|first [exact Hsame | rewrite Eside in *; exact Hsame]].
    match goal with
    | |- context [if Qltb ?a ?b then _ else _] =>
        destruct (Qltb a b) eqn:Estop;
          [apply Qltb_lt in Estop | apply Qltb_ge in Estop]
    end; cbn in *; rewrite ?Eside; repeat split; try lra; try apply Qle_refl.
Qed.

(** X7.  The first take-profit with a second one ahead.  When a candle
    touches the first take-profit of a position that has a second target,
    without reaching the stop or the second target, and the strategy asks
    for no exit, the position stays open: half of what was left is closed
    and recorded as one more partial close, its fee is added to the
    commission, the stop is at the entry price or tighter, and the
    breakeven and TP1 flags are set. *)
Theorem first_take_profit_moves_stop_to_breakeven (cfg : BacktestConfig)
    (candles : list CandleWithIndicators) (candleIdx : nat)
    (multiTfData : option MultiTimeframeData) (candle : CandleWithIndicators)
    (p : Position) (tp2 : Q)
    (Hfresh : tp1Hit p = false)
    (Htp2 : takeProfit2 p = Some tp2)
    (Hstop : match side p with
             | long => stopLoss p < low candle
             | short => high candle < stopLoss p
             end)
    (Htouch : match side p with
              | long => takeProfit p <= high candle
              | short => low candle <= takeProfit p
              end)
    (Hbelow : match side p with
              | long => high candle < tp2
              | short => tp2 < low candle
              end)
    (Hquiet : forall q : Position,
        exit (shouldExit (strategy cfg) q candles candleIdx multiTfData) = false) :
  exists p' : Position,
    Usd.checkExit cfg candles candleIdx multiTfData candle p = Usd.StillOpen p'
    /\ Usd.remainingSize p' == Usd.remainingSize p * (1 # 2)
    /\ List.length (partialCloses p') = S (List.length (partialCloses p))
    /\ commission p' == commission p + Usd.remainingSize p * (1 # 2) * commissionRate cfg
    /\ match side p with
       | long => entryPrice p <= stopLoss p'
       | short => stopLoss p' <= entryPrice p
       end
    /\ breakeven p' = true /\ tp1Hit p' = true.
Proof.
  unfold Usd.checkExit.
  assert (Hsl : Usd.stopLossRule cfg candle p = Usd.StillOpen p).
  { unfold Usd.stopLossRule. destruct (side p); cbn [isLong isShort negb andb].
    - apply Qle_bool_gt in Hstop. rewrite Hstop. reflexivity.
    - unfold Qgeb. apply Qle_bool_gt in Hstop. rewrite Hstop. reflexivity. }
  rewrite Hsl. cbn [Usd.unlessClosed].
  set (p1 := fst (Usd.partialClosePosition p (takeProfit p) (1 # 2) (timestamp candle)
                    "TP1 hit — partial close 50%" (slippageRate cfg)
                    (commissionRate cfg))).
  set (p2 := Usd.withBreakeven
               (Usd.withStopLoss (Usd.withTp1Hit p1 true)
                  (entryPrice (Usd.withTp1Hit p1 true))) true).
  assert (Htp1 : Usd.takeProfit1Rule cfg candle p = Usd.StillOpen p2).
  { unfold Usd.takeProfit1Rule. rewrite Hfresh. cbn [negb].
    assert (Hhit : (isLong (side p) && Qgeb (high candle) (takeProfit p)
                    || isShort (side p) && Qle_bool (low candle) (takeProfit p))%bool
                   = true).
    { destruct (side p); cbn [isLong isShort negb andb orb]; unfold Qgeb;
        rewrite ?orb_false_r; apply Qle_bool_iff; exact Htouch. }
    rewrite Hhit. fold p1.
    change (takeProfit2 (Usd.withTp1Hit p1 true)) with (takeProfit2 p).
    rewrite Htp2. reflexivity. }
  rewrite Htp1. cbn [Usd.unlessClosed].
  assert (Hno2 : Usd.takeProfit2Rule cfg candle p2 = Usd.StillOpen p2).
  { unfold Usd.takeProfit2Rule.
    change (tp1Hit p2) with true. change (takeProfit2 p2) with (takeProfit2 p).
    rewrite Htp2. change (side p2) with (side p).
    destruct (side p); cbn [isLong isShort negb andb orb]; unfold Qgeb;
      apply Qle_bool_gt in Hbelow; rewrite Hbelow; reflexivity. }
  rewrite Hno2. cbn [Usd.unlessClosed].
  unfold Usd.strategyExitRule. rewrite Hquiet. cbn [Usd.unlessClosed].
  eexists. split; [reflexivity|].
  pose proof (trailingStopRule_keeps candle p2) as (Hside & Hpc & Hcom & Htp & Hbe & _).
  pose proof (partialClose_remaining p (takeProfit p) (1 # 2) (timestamp candle)
                "TP1 hit — partial close 50%" (slippageRate cfg) (commissionRate cfg))
    as Hrem.
  fold p1 in Hrem.
  split.
  { rewrite trailingStopRule_sizes. change (Usd.remainingSize p2) with (Usd.remainingSize p1).
    rewrite Hrem. ring. }
  split.
  { rewrite Hpc. change (partialCloses p2) with (partialCloses p ++
      [snd (Usd.partialClosePosition p (takeProfit p) (1 # 2) (timestamp candle)
              "TP1 hit — partial close 50%" (slippageRate cfg) (commissionRate cfg))]).
    rewrite length_app. simpl. lia. }
  split.
  { rewrite Hcom. reflexivity. }
  split.
  { change (side p2) with (side p) in Hside.
    change (stopLoss p2) with (entryPrice p) in Hside. exact Hside. }
  split; [rewrite Hbe|rewrite Htp]; reflexivity.
Qed.

Lemma first_take_profit_moves_stop_to_breakeven_witness :
  exists p' : Position,
    Usd.checkExit Runtime.config0 [] 0 None
      (mkCandleWithIndicators 3600000 105 205 104 108 1 1 Runtime.noIndicators)
      (mkPosition "BTCUSDT-0" "BTCUSDT" long 100 400 3 95 200 (Some 300) 0 (24 # 100)
         open_ "held" [] None false false)
    = Usd.StillOpen p'
    /\ Usd.remainingSize p'
       == Usd.remainingSize
            (mkPosition "BTCUSDT-0" "BTCUSDT" long 100 400 3 95 200 (Some 300) 0
               (24 # 100) open_ "held" [] None false false) * (1 # 2)
    /\ List.length (partialCloses p') = 1%nat
    /\ commission p'
       == (24 # 100)
          + Usd.remainingSize
              (mkPosition "BTCUSDT-0" "BTCUSDT" long 100 400 3 95 200 (Some 300) 0
                 (24 # 100) open_ "held" [] None false false)
            * (1 # 2) * commissionRate Runtime.config0
    /\ 100 <= stopLoss p'
    /\ breakeven p' = true /\ tp1Hit p' = true.
Proof.
  apply (first_take_profit_moves_stop_to_breakeven Runtime.config0 [] 0 None
           (mkCandleWithIndicators 3600000 105 205 104 108 1 1 Runtime.noIndicators)
           (mkPosition "BTCUSDT-0" "BTCUSDT" long 100 400 3 95 200 (Some 300) 0
              (24 # 100) open_ "held" [] None false false) 300).
  - reflexivity.
  - reflexivity.
  - simpl. apply Qltb_lt. reflexivity.
  - simpl. apply Qle_bool_iff. reflexivity.
  - simpl. apply Qltb_lt. reflexivity.
  - intro q. reflexivity.
Defined.


(** ** The result of the USD engine *)

(** X8.  The equity curve of a result is never empty, and its last point is
    the final equity: the starting capital plus the P&L of all trades. *)
Theorem equity_curve_ends_at_final_equity
    (Math_sqrt : Q -> Q) (utcMonthKey : Z -> string)
    (localeCompare : string -> string -> comparison)
    (loadCandles : string -> string -> option (list Candle))
    (calculateIndicators : list Candle -> list CandleWithIndicators)
    (w : World) (cfg : BacktestConfig) :
  let r := Usd.runBacktest Math_sqrt utcMonthKey localeCompare loadCandles
             calculateIndicators w cfg in
  exists (earlier : list EquityPoint) (final : EquityPoint),
    equityCurve r = earlier ++ [final]
    /\ equity final == finalEquity r
    /\ finalEquity r == startingCapital cfg + sumOf pnl (trades r).
Proof.
  cbv zeta. unfold Usd.runBacktest, Usd.simulate.
  set (st := Usd.mainLoop loadCandles calculateIndicators w cfg).
  set (done := Usd.forceClose cfg (fst (Usd.loadData loadCandles calculateIndicators cfg))
                 (Usd.openPositions st) (Usd.completedTrades st)).
  destruct (Usd.sim_equityCurve st) as [|p0 curve] eqn:Ecurve.
  - eexists [], _. cbn. repeat split; reflexivity.
  - destruct (Qneqb (equity (last (p0 :: curve) p0)) (startingCapital cfg + sumOf pnl done))
      eqn:Estale.
    + eexists (p0 :: curve), _. cbn. repeat split; reflexivity.
    + exists (removelast (p0 :: curve)), (last (p0 :: curve) p0). cbn [equityCurve
        finalEquity trades Usd.calculateResults].
      split; [apply app_removelast_last; discriminate|].
      split; [|reflexivity].
      unfold Qneqb in Estale. apply negb_false_iff, Qeq_bool_iff in Estale. exact Estale.
Qed.

Lemma filter_split_length {A : Type} (f : A -> Q) (l : list A) :
  (List.length (filter (fun t => Qgtb (f t) 0) l)
   + List.length (filter (fun t => Qle_bool (f t) 0) l)
   = List.length l)%nat.
Proof.
  induction l as [|x l IH]; cbn [filter List.length].
  - reflexivity.
  - unfold Qgtb, Qltb in *. destruct (Qle_bool (f x) 0); cbn [negb List.length]; lia.
Qed.

Lemma filter_length_le {A : Type} (g : A -> bool) (l : list A) :
  (List.length (filter g l) <= List.length l)%nat.
Proof.
  induction l as [|x l IH]; simpl; [lia|]. destruct (g x); simpl; lia.
Qed.

Lemma percent_of_part (part whole : nat) :
  (part <= whole)%nat ->
  0 <= Usd.ratioPercent part whole /\ Usd.ratioPercent part whole <= 100.
Proof.
  intro Hle. unfold Usd.ratioPercent, Usd.ofNat.
  destruct (Nat.ltb_spec 0 whole) as [Hpos|Hzero]; [|split; lra].
  assert (Hw : 0 < inject_Z (Z.of_nat whole)).
  { change 0 with (inject_Z 0). rewrite <- Zlt_Qlt. lia. }
  assert (Hp : 0 <= inject_Z (Z.of_nat part)).
  { change 0 with (inject_Z 0). rewrite <- Zle_Qle. lia. }
  assert (Hpw : inject_Z (Z.of_nat part) <= inject_Z (Z.of_nat whole)).
  { rewrite <- Zle_Qle. lia. }
  assert (H0 : 0 <= inject_Z (Z.of_nat part) / inject_Z (Z.of_nat whole)).
  { apply Qle_shift_div_l; [exact Hw|lra]. }
  assert (H1 : inject_Z (Z.of_nat part) / inject_Z (Z.of_nat whole) <= 1).
  { apply Qle_shift_div_r; [exact Hw|lra]. }
  split; lra.
Qed.

(** X9.  Wins and losses split the trades: in the result of either engine
    [wins + losses = totalTrades], and the win rate lies between 0 and
    100. *)
Theorem wins_and_losses_split_the_trades
    (Math_sqrt : Q -> Q) (utcMonthKey : Z -> string)
    (localeCompare : string -> string -> comparison)
    (cfg : BacktestConfig) (trades_ : list Trade) (curve : list EquityPoint)
    (allAltCandles : Btc.AltCandleMap) (btcStrategy : Btc.BtcStrategy) :
  let r := Usd.calculateResults Math_sqrt utcMonthKey localeCompare cfg trades_ curve in
  let b := Btc.runBtcBacktestOn allAltCandles btcStrategy in
  (wins r + losses r = totalTrades r)%nat
  /\ totalTrades r = List.length trades_
  /\ 0 <= winRate r /\ winRate r <= 100
  /\ (Btc.wins b + Btc.losses b = Btc.totalTrades b)%nat
  /\ Btc.totalTrades b = List.length (Btc.trades b)
  /\ 0 <= Btc.winRate b /\ Btc.winRate b <= 100.
Proof.
  cbv zeta. split; [apply filter_split_length|]. split; [reflexivity|].
  split; [|split].
  - apply percent_of_part, filter_length_le.
  - apply percent_of_part, filter_length_le.
  - unfold Btc.runBtcBacktestOn.
    assert (Hres : forall st,
               (Btc.wins (Btc.resultOf btcStrategy st)
                + Btc.losses (Btc.resultOf btcStrategy st)
                = Btc.totalTrades (Btc.resultOf btcStrategy st))%nat
               /\ Btc.totalTrades (Btc.resultOf btcStrategy st)
                  = List.length (Btc.trades (Btc.resultOf btcStrategy st))
               /\ 0 <= Btc.winRate (Btc.resultOf btcStrategy st)
               /\ Btc.winRate (Btc.resultOf btcStrategy st) <= 100).
    { intro st. split; [apply filter_split_length|]. split; [reflexivity|].
      apply (percent_of_part
               (List.length (filter (fun t => Qgtb (Btc.btcPnl t) 0) (Btc.completedTrades st)))
               (List.length (Btc.completedTrades st))).
      apply filter_length_le. }
    assert (Hempty : (Btc.wins (Btc.emptyResult (Btc.name btcStrategy))
                      + Btc.losses (Btc.emptyResult (Btc.name btcStrategy))
                      = Btc.totalTrades (Btc.emptyResult (Btc.name btcStrategy)))%nat
                     /\ Btc.totalTrades (Btc.emptyResult (Btc.name btcStrategy))
                        = List.length (Btc.trades (Btc.emptyResult (Btc.name btcStrategy)))
                     /\ 0 <= Btc.winRate (Btc.emptyResult (Btc.name btcStrategy))
                     /\ Btc.winRate (Btc.emptyResult (Btc.name btcStrategy)) <= 100).
    { simpl. repeat split; lra. }
    destruct allAltCandles as [|e es]; [exact Hempty|].
    destruct (Btc.timelineOf (e :: es)); [exact Hempty|apply Hres].
Qed.

(** ** Best and worst trade *)

Section Pick.
Context {A : Type} (better : A -> A -> bool) (key : A -> Q).

Lemma pick_fold_first_extremum (above : Q -> Q -> Prop) (rest : list A) (t0 : A) :
  (forall x y, better x y = true -> above (key x) (key y) /\ ~ above (key y) (key x)) ->
  (forall x y, better x y = false -> ~ above (key x) (key y)) ->
  (forall x y z, above y x -> ~ above z x -> above y z) ->
  (forall x y z, above y x -> above z y -> above z x) ->
  let b := fold_left (fun acc t => if better t acc then t else acc) rest t0 in
  exists pre post,
    t0 :: rest = pre ++ b :: post
    /\ Forall (fun t => above (key b) (key t)) pre
    /\ Forall (fun t => ~ above (key t) (key b)) post.
Proof.
  intros Hyes Hno Hmix Htrans. induction rest as [|x rest IH] using rev_ind.
  - exists [], []. simpl. repeat split; constructor.
  - cbv zeta in *. rewrite fold_left_app. cbn [fold_left].
    destruct IH as (pre & post & Hsplit & Hpre & Hpost).
    set (b := fold_left (fun acc t => if better t acc then t else acc) rest t0) in *.
    destruct (better x b) eqn:E.
    + destruct (Hyes _ _ E) as [Hab _].
      exists (pre ++ b :: post), []. split; [|split].
      * change (t0 :: rest ++ [x]) with ((t0 :: rest) ++ [x]). now rewrite Hsplit.
      * apply Forall_app. split.
        -- eapply Forall_impl; [|exact Hpre]. intros t Ht. cbv beta in *.
           eapply Htrans; eassumption.
        -- constructor; [exact Hab|].
           eapply Forall_impl; [|exact Hpost]. intros t Ht. cbv beta in *.
           eapply Hmix; eassumption.
      * constructor.
    + exists pre, (post ++ [x]). split; [|split].
      * change (t0 :: rest ++ [x]) with ((t0 :: rest) ++ [x]).
        rewrite Hsplit, <- app_assoc. reflexivity.
      * exact Hpre.
      * apply Forall_app. split; [exact Hpost|].
        constructor; [|constructor]. apply (Hno _ _ E).
Qed.
End Pick.

Lemma pick_greatest {A : Type} (key : A -> Q) (rest : list A) (t0 : A) :
  let b := fold_left (fun acc t => if Qgtb (key t) (key acc) then t else acc) rest t0 in
  exists pre post,
    t0 :: rest = pre ++ b :: post
    /\ Forall (fun t => key t < key b) pre
    /\ Forall (fun t => key t <= key b) post.
Proof.
  destruct (pick_fold_first_extremum
              (fun t acc => Qgtb (key t) (key acc)) key (fun x y => y < x) rest t0)
    as (pre & post & H1 & H2 & H3).
  - intros x y H. apply Qgtb_gt in H. split; lra.
  - intros x y H. apply Qgtb_le in H. lra.
  - intros x y z H1 H2. lra.
  - intros x y z H1 H2. lra.
  - exists pre, post. split; [exact H1|]. split; [exact H2|].
    eapply Forall_impl; [|exact H3]. intros t Ht. cbv beta in Ht. lra.
Qed.

Lemma pick_least {A : Type} (key : A -> Q) (rest : list A) (t0 : A) :
  let b := fold_left (fun acc t => if Qltb (key t) (key acc) then t else acc) rest t0 in
  exists pre post,
    t0 :: rest = pre ++ b :: post
    /\ Forall (fun t => key b < key t) pre
    /\ Forall (fun t => key b <= key t) post.
Proof.
  destruct (pick_fold_first_extremum
              (fun t acc => Qltb (key t) (key acc)) key (fun x y => x < y) rest t0)
    as (pre & post & H1 & H2 & H3).
  - intros x y H. apply Qltb_lt in H. split; lra.
  - intros x y H. apply Qltb_ge in H. lra.
  - intros x y z H1 H2. lra.
  - intros x y z H1 H2. lra.
  - exists pre, post. split; [exact H1|]. split; [exact H2|].
    eapply Forall_impl; [|exact H3]. intros t Ht. cbv beta in Ht. lra.
Qed.

Lemma pickTrade_cons (better : Btc.BtcTrade -> Btc.BtcTrade -> bool)
    (t0 : Btc.BtcTrade) (rest : list Btc.BtcTrade) :
  Btc.pickTrade better (t0 :: rest)
  = Some (fold_left (fun acc t => if better t acc then t else acc) rest t0).
Proof.
  unfold Btc.pickTrade. cbn [fold_left]. revert t0.
  induction rest as [|x rest IH]; intro t0; cbn [fold_left].
  - reflexivity.
  - destruct (better x t0); apply IH.
Qed.

(** X10.  The best trade of a result is the first trade of the list with the
    greatest P&L and the worst trade the first with the least: every trade
    before it is strictly worse (better), every trade after it no better (no
    worse).  Both are [null] exactly when there is no trade.  The same holds
    for the BTC result over its list of completed trades. *)
Theorem best_and_worst_trade_are_first_extrema
    (Math_sqrt : Q -> Q) (utcMonthKey : Z -> string)
    (localeCompare : string -> string -> comparison)
    (cfg : BacktestConfig) (trades_ : list Trade) (curve : list EquityPoint)
    (btcStrategy : Btc.BtcStrategy) (st : Btc.Sim) :
  let r := Usd.calculateResults Math_sqrt utcMonthKey localeCompare cfg trades_ curve in
  let b := Btc.resultOf btcStrategy st in
  match bestTrade r with
  | Some best =>
      exists pre post, trades_ = pre ++ best :: post
        /\ Forall (fun t => pnl t < pnl best) pre
        /\ Forall (fun t => pnl t <= pnl best) post
  | None => trades_ = []
  end
  /\ match worstTrade r with
     | Some worst =>
         exists pre post, trades_ = pre ++ worst :: post
           /\ Forall (fun t => pnl worst < pnl t) pre
           /\ Forall (fun t => pnl worst <= pnl t) post
     | None => trades_ = []
     end
  /\ match Btc.bestTrade b with
     | Some best =>
         exists pre post, Btc.trades b = pre ++ best :: post
           /\ Forall (fun t => Btc.btcPnl t < Btc.btcPnl best) pre
           /\ Forall (fun t => Btc.btcPnl t <= Btc.btcPnl best) post
     | None => Btc.trades b = []
     end
  /\ match Btc.worstTrade b with
     | Some worst =>
         exists pre post, Btc.trades b = pre ++ worst :: post
           /\ Forall (fun t => Btc.btcPnl worst < Btc.btcPnl t) pre
           /\ Forall (fun t => Btc.btcPnl worst <= Btc.btcPnl t) post
     | None => Btc.trades b = []
     end.
Proof.
  cbv zeta. unfold Usd.calculateResults, Btc.resultOf.
  cbn [bestTrade worstTrade Btc.bestTrade Btc.worstTrade Btc.trades].
  unfold Usd.reducePick.
  repeat split.
  - destruct trades_ as [|t0 rest]; [reflexivity|]. apply (pick_greatest pnl).
  - destruct trades_ as [|t0 rest]; [reflexivity|]. apply (pick_least pnl).
  - destruct (Btc.completedTrades st) as [|t0 rest]; [reflexivity|].
    rewrite pickTrade_cons. apply (pick_greatest Btc.btcPnl).
  - destruct (Btc.completedTrades st) as [|t0 rest]; [reflexivity|].
    rewrite pickTrade_cons. apply (pick_least Btc.btcPnl).
Qed.

(** ** The drawdown scan as a maximum *)

Lemma nth_error_snoc_cases {A : Type} (l : list A) (x y : A) (i : nat) :
  nth_error (l ++ [x]) i = Some y ->
  ((i < List.length l)%nat /\ nth_error l i = Some y) \/ (i = List.length l /\ y = x).
Proof.
  intro H. destruct (Nat.lt_ge_cases i (List.length l)) as [Hlt|Hge].
  - left. split; [exact Hlt|]. rewrite nth_error_app1 in H; assumption.
  - right. rewrite nth_error_app2 in H by exact Hge.
    destruct (i - List.length l)%nat as [|k] eqn:Ek; cbn in H.
    + split; [lia|congruence].
    + destruct k; discriminate.
Qed.

Lemma nth_error_snoc_old {A : Type} (l : list A) (x y : A) (i : nat) :
  nth_error l i = Some y -> nth_error (l ++ [x]) i = Some y.
Proof.
  intro H. rewrite nth_error_app1; [exact H|]. apply nth_error_Some. congruence.
Qed.

Lemma nth_error_snoc_last {A : Type} (l : list A) (x : A) :
  nth_error (l ++ [x]) (List.length l) = Some x.
Proof.
  rewrite nth_error_app2 by lia. rewrite Nat.sub_diag. reflexivity.
Qed.

Lemma drawdownStep_exact (seen : list EquityPoint) (st : Usd.Drawdown) (p : EquityPoint) :
  (seen = [] -> Usd.dd_peak st == equity p) ->
  ddExact seen st -> ddExact (seen ++ [p]) (Usd.drawdownStep st p).
Proof.
  intros Hfirst (Hpeak & Hatt & Hnonneg & Hfalls & Hhit).
  set (peak1 := if Qgtb (equity p) (Usd.dd_peak st) then equity p else Usd.dd_peak st).
  assert (Hp1 : Usd.dd_peak (Usd.drawdownStep st p) = peak1).
  { unfold Usd.drawdownStep. fold peak1. cbv zeta.
    destruct (Qgtb (peak1 - equity p) (Usd.dd_maxDrawdown st)); reflexivity. }
  assert (Hge1 : Usd.dd_peak st <= peak1 /\ equity p <= peak1).
  { unfold peak1. destruct (Qgtb (equity p) (Usd.dd_peak st)) eqn:E.
    - apply Qgtb_gt in E. split; lra.
    - apply Qgtb_le in E. split; lra. }
  assert (Hm1 : Usd.dd_maxDrawdown st <= Usd.dd_maxDrawdown (Usd.drawdownStep st p)
                /\ peak1 - equity p <= Usd.dd_maxDrawdown (Usd.drawdownStep st p)
                /\ (Usd.dd_maxDrawdown (Usd.drawdownStep st p) = Usd.dd_maxDrawdown st
                    \/ Usd.dd_maxDrawdown (Usd.drawdownStep st p) = peak1 - equity p)).
  { unfold Usd.drawdownStep. fold peak1. cbv zeta.
    destruct (Qgtb (peak1 - equity p) (Usd.dd_maxDrawdown st)) eqn:E;
      cbn [Usd.dd_maxDrawdown].
    - apply Qgtb_gt in E. repeat split; try lra. right. reflexivity.
    - apply Qgtb_le in E. repeat split; try lra. left. reflexivity. }
  destruct Hge1 as [Hge1 Hge2]. destruct Hm1 as (Hm1 & Hm2 & Hm3).
  assert (Hatt1 : exists i q, (i <= List.length seen)%nat
                    /\ nth_error (seen ++ [p]) i = Some q /\ equity q == peak1).
  { unfold peak1. destruct (Qgtb (equity p) (Usd.dd_peak st)) eqn:E.
    - exists (List.length seen), p. split; [lia|].
      split; [apply nth_error_snoc_last|reflexivity].
    - destruct seen as [|q0 seen'].
      + exists 0%nat, p. split; [cbn; lia|]. split; [reflexivity|].
        symmetry. apply Hfirst. reflexivity.
      + destruct Hatt as (i & q & Hi & Hq); [discriminate|].
        exists i, q. split.
        * assert (i < List.length (q0 :: seen'))%nat by (apply nth_error_Some; congruence).
          lia.
        * split; [apply nth_error_snoc_old; exact Hi|exact Hq]. }
  unfold ddExact. rewrite Hp1. split; [|split; [|split; [|split]]].
  - intros q Hq. apply in_app_or in Hq. destruct Hq as [Hq|[Hq|[]]].
    + specialize (Hpeak q Hq). lra.
    + subst q. exact Hge2.
  - intros _. destruct Hatt1 as (i & q & _ & Hi & Hq). exists i, q. split; assumption.
  - lra.
  - intros i j q p' Hij Hi Hj.
    apply nth_error_snoc_cases in Hj. destruct Hj as [[Hjl Hj]|[Hj ->]].
    + assert (Hi' : nth_error seen i = Some q).
      { apply nth_error_snoc_cases in Hi. destruct Hi as [[_ Hi]|[Hi _]]; [exact Hi|lia]. }
      specialize (Hfalls i j q p' Hij Hi' Hj). lra.
    + assert (Hq : equity q <= peak1).
      { apply nth_error_snoc_cases in Hi. destruct Hi as [[_ Hi]|[_ ->]].
        - apply nth_error_In in Hi. specialize (Hpeak q Hi). lra.
        - exact Hge2. }
      lra.
  - destruct Hm3 as [Hsame|Hnew].
    + rewrite Hsame. destruct Hhit as [Hz|(i & j & q & p' & Hij & Hi & Hj & Heq)].
      * left. exact Hz.
      * right. exists i, j, q, p'. split; [exact Hij|].
        split; [apply nth_error_snoc_old; exact Hi|].
        split; [apply nth_error_snoc_old; exact Hj|exact Heq].
    + rewrite Hnew. right. destruct Hatt1 as (i & q & Hil & Hi & Hq).
      exists i, (List.length seen), q, p. split; [exact Hil|].
      split; [exact Hi|]. split; [apply nth_error_snoc_last|]. lra.
Qed.

Lemma drawdownFold_exact (rest seen : list EquityPoint) (st : Usd.Drawdown) :
  (seen = [] -> match rest with [] => True | p :: _ => Usd.dd_peak st == equity p end) ->
  ddExact seen st -> ddExact (seen ++ rest) (fold_left Usd.drawdownStep rest st).
Proof.
  revert seen st. induction rest as [|p rest IH]; intros seen st Hfirst Hst.
  - rewrite app_nil_r. exact Hst.
  - cbn [fold_left].
    replace (seen ++ p :: rest) with ((seen ++ [p]) ++ rest)
      by (rewrite <- app_assoc; reflexivity).
    apply IH.
    + intro Hnil. destruct seen; discriminate.
    + apply drawdownStep_exact; assumption.
Qed.

(** X11.  The reported [maxDrawdown] is the greatest fall of the equity
    curve: it is at least the fall from any point of the curve to any later
    point, never negative, and either zero or exactly the fall between two
    points of the curve, the earlier one first. *)
Theorem max_drawdown_is_the_greatest_fall
    (Math_sqrt : Q -> Q) (utcMonthKey : Z -> string)
    (localeCompare : string -> string -> comparison)
    (cfg : BacktestConfig) (trades_ : list Trade) (curve : list EquityPoint) :
  let r := Usd.calculateResults Math_sqrt utcMonthKey localeCompare cfg trades_ curve in
  0 <= maxDrawdown r
  /\ (forall i j q p, (i <= j)%nat -> nth_error curve i = Some q ->
        nth_error curve j = Some p -> equity q - equity p <= maxDrawdown r)
  /\ (maxDrawdown r == 0
      \/ exists i j q p, (i <= j)%nat /\ nth_error curve i = Some q
           /\ nth_error curve j = Some p /\ equity q - equity p == maxDrawdown r).
Proof.
  cbv zeta. unfold Usd.calculateResults. cbn [maxDrawdown]. unfold Usd.drawdownScan.
  assert (H : ddExact ([] ++ curve)
                (fold_left Usd.drawdownStep curve
                   (Usd.drawdownInit (startingCapital cfg) curve))).
  { apply drawdownFold_exact.
    - intros _. destruct curve as [|p0 rest]; [exact I|]. reflexivity.
    - unfold ddExact, Usd.drawdownInit. cbn [Usd.dd_maxDrawdown Usd.dd_peak].
      split; [intros q []|]. split; [intro Hne; contradiction Hne; reflexivity|].
      split; [lra|]. split.
      + intros i j q p _ Hi. destruct i; discriminate.
      + left. reflexivity. }
  cbn [app] in H. destruct H as (_ & _ & H0 & Hall & Hhit).
  split; [exact H0|]. split; [exact Hall|exact Hhit].
Qed.

(** ** Grouping loops: the per-symbol and the monthly tables *)

Section MapLaws.
Context {K V : Type} (keq : K -> K -> bool).
Hypothesis keq_spec : forall a b, keq a b = true <-> a = b.

Lemma tally_get_set (m : list (K * V)) (k k' : K) (v : V) :
  JsMap.get keq (JsMap.set keq m k v) k'
  = if keq k k' then Some v else JsMap.get keq m k'.
Proof.
  induction m as [|[k0 v0] m IH]; cbn [JsMap.get JsMap.set].
  - reflexivity.
  - destruct (keq k0 k) eqn:E0; cbn [JsMap.get].
    + apply keq_spec in E0. subst k0. destruct (keq k k'); reflexivity.
    + destruct (keq k0 k') eqn:E1.
      * apply keq_spec in E1. subst k0.
        destruct (keq k k') eqn:E2; [|reflexivity].
        apply keq_spec in E2. subst k'.
        assert (keq k k = true) by (apply keq_spec; reflexivity). congruence.
      * exact IH.
Qed.

Lemma tally_keys_set (m : list (K * V)) (k k' : K) (v : V) :
  In k' (JsMap.keys (JsMap.set keq m k v)) <-> k' = k \/ In k' (JsMap.keys m).
Proof.
  unfold JsMap.keys. induction m as [|[k0 v0] m IH]; cbn [JsMap.set map fst In].
  - intuition.
  - destruct (keq k0 k) eqn:E0; cbn [map fst In].
    + apply keq_spec in E0. subst k0. intuition.
    + rewrite IH. intuition.
Qed.

Lemma tally_NoDup_set (m : list (K * V)) (k : K) (v : V) :
  NoDup (JsMap.keys m) -> NoDup (JsMap.keys (JsMap.set keq m k v)).
Proof.
  unfold JsMap.keys. induction m as [|[k0 v0] m IH]; cbn [JsMap.set map fst]; intro Hnd.
  - constructor; [intros []|constructor].
  - inversion Hnd as [|? ? Hnotin Hnd']; subst.
    destruct (keq k0 k) eqn:E0; cbn [map fst].
    + constructor; assumption.
    + constructor; [|apply IH; exact Hnd'].
      intro Hin. apply (tally_keys_set m k k0 v) in Hin. destruct Hin as [Hin|Hin].
      * subst k0. assert (keq k k = true) by (apply keq_spec; reflexivity). congruence.
      * apply Hnotin. exact Hin.
Qed.

Lemma tally_get_of_In (m : list (K * V)) (k : K) (v : V) :
  NoDup (JsMap.keys m) -> In (k, v) m -> JsMap.get keq m k = Some v.
Proof.
  unfold JsMap.keys. induction m as [|[k0 v0] m IH]; cbn [JsMap.get map fst]; intros Hnd Hin.
  - destruct Hin.
  - inversion Hnd as [|? ? Hnotin Hnd']; subst. destruct Hin as [Heq|Hin].
    + inversion Heq; subst.
      assert (E : keq k k = true) by (apply keq_spec; reflexivity).
      rewrite E. reflexivity.
    + destruct (keq k0 k) eqn:E0.
      * apply keq_spec in E0. subst k0. exfalso. apply Hnotin.
        apply (in_map fst) in Hin. exact Hin.
      * apply IH; assumption.
Qed.

End MapLaws.

Section Tally.
Context {K V T : Type} (keq : K -> K -> bool) (key : T -> K)
  (upd : V -> T -> V) (e0 : V).
Hypothesis keq_spec : forall a b, keq a b = true <-> a = b.

Lemma tally_fold_NoDup (l : list T) (m : list (K * V)) :
  NoDup (JsMap.keys m) ->
  NoDup (JsMap.keys (fold_left (tallyStep keq key upd e0) l m)).
Proof.
  revert m. induction l as [|x l IH]; intros m Hnd; cbn [fold_left].
  - exact Hnd.
  - apply IH. apply (tally_NoDup_set keq keq_spec). exact Hnd.
Qed.

Lemma tally_fold_keys (l : list T) (m : list (K * V)) (k : K) :
  In k (JsMap.keys (fold_left (tallyStep keq key upd e0) l m))
  <-> In k (JsMap.keys m) \/ exists x, In x l /\ key x = k.
Proof.
  revert m. induction l as [|x l IH]; intro m; cbn [fold_left].
  - split; [auto|]. intros [H|(x & [] & _)]. exact H.
  - rewrite IH. unfold tallyStep. rewrite (tally_keys_set keq keq_spec). split.
    + intros [[->|H]|(y & Hy & Hk)].
      * right. exists x. split; [left; reflexivity|reflexivity].
      * left. exact H.
      * right. exists y. split; [right; exact Hy|exact Hk].
    + intros [H|(y & [->|Hy] & Hk)].
      * left. right. exact H.
      * left. left. symmetry. exact Hk.
      * right. exists y. split; assumption.
Qed.

(** The value a key ends with is the fold of [upd] over the items of that
    key, in order. *)
Lemma tally_fold_get (l : list T) (m : list (K * V)) (k : K) :
  JsMap.get keq (fold_left (tallyStep keq key upd e0) l m) k
  = match filter (fun x => keq (key x) k) l with
    | [] => JsMap.get keq m k
    | y :: ys =>
        Some (fold_left upd (y :: ys)
                (match JsMap.get keq m k with Some e => e | None => e0 end))
    end.
Proof.
  revert m. induction l as [|x l IH]; intro m; cbn [fold_left filter].
  - reflexivity.
  - rewrite IH. unfold tallyStep. rewrite (tally_get_set keq keq_spec).
    destruct (keq (key x) k) eqn:E.
    + apply keq_spec in E. subst k.
      destruct (filter (fun x0 => keq (key x0) (key x)) l); reflexivity.
    + reflexivity.
Qed.
End Tally.

Lemma string_eqb_spec (a b : string) : String.eqb a b = true <-> a = b.
Proof. apply String.eqb_eq. Qed.

Lemma symbolUpd_fold (l : list Trade) (e : Usd.SymbolAcc) :
  Usd.sa_trades (fold_left symbolUpd l e) = (Usd.sa_trades e + List.length l)%nat
  /\ Usd.sa_pnl (fold_left symbolUpd l e) == Usd.sa_pnl e + sumOf pnl l
  /\ Usd.sa_wins (fold_left symbolUpd l e)
     = (Usd.sa_wins e + List.length (winners l))%nat.
Proof.
  revert e. induction l as [|t l IH]; intro e; cbn [fold_left].
  - change (sumOf pnl []) with 0. cbn [List.length winners filter].
    repeat split; try lia. lra.
  - destruct (IH (symbolUpd e t)) as (H1 & H2 & H3).
    rewrite H1, H2, H3, sumOf_cons. unfold symbolUpd, winners. cbn [filter].
    destruct (Qgtb (pnl t) 0);
      cbn [Usd.sa_trades Usd.sa_pnl Usd.sa_wins List.length];
      repeat split; try lia; lra.
Qed.

Lemma monthUpd_fold (l : list Trade) (e : Usd.MonthAcc) :
  Usd.ma_trades (fold_left monthUpd l e) = (Usd.ma_trades e + List.length l)%nat
  /\ Usd.ma_pnl (fold_left monthUpd l e) == Usd.ma_pnl e + sumOf pnl l
  /\ Usd.ma_wins (fold_left monthUpd l e)
     = (Usd.ma_wins e + List.length (winners l))%nat.
Proof.
  revert e. induction l as [|t l IH]; intro e; cbn [fold_left].
  - change (sumOf pnl []) with 0. cbn [List.length winners filter].
    repeat split; try lia. lra.
  - destruct (IH (monthUpd e t)) as (H1 & H2 & H3).
    rewrite H1, H2, H3, sumOf_cons. unfold monthUpd, winners. cbn [filter].
    destruct (Qgtb (pnl t) 0);
      cbn [Usd.ma_trades Usd.ma_pnl Usd.ma_wins List.length];
      repeat split; try lia; lra.
Qed.

Lemma jsSort_NoDup_map {A B : Type} (cmp : A -> A -> comparison) (f : A -> B)
    (l : list A) :
  NoDup (map f l) -> NoDup (map f (jsSort cmp l)).
Proof.
  unfold jsSort. induction l as [|x l IH]; cbn [fold_right map]; intro Hnd.
  - constructor.
  - inversion Hnd as [|? ? Hnotin Hnd']; subst. specialize (IH Hnd').
    fold (jsSort cmp l) in *.
    assert (Hx : ~ In (f x) (map f (jsSort cmp l))).
    { intro Hin. apply Hnotin. apply in_map_iff in Hin.
      destruct Hin as (y & Hy & Hin). apply jsSort_in in Hin.
      rewrite <- Hy. apply in_map. exact Hin. }
    revert IH Hx. generalize (jsSort cmp l). intro s.
    induction s as [|y s IHs]; cbn [sortInsert map]; intros Hs Hx.
    + constructor; [exact Hx|constructor].
    + destruct (cmp x y); try (constructor; assumption).
      inversion Hs as [|? ? Hy Hs']; subst. cbn [map]. constructor.
      * intro Hin. apply in_map_iff in Hin. destruct Hin as (z & Hz & Hin).
        apply sortInsert_in in Hin. destruct Hin as [->|Hin].
        -- apply Hx. left. symmetry. exact Hz.
        -- apply Hy. rewrite <- Hz. apply in_map. exact Hin.
      * apply IHs; [exact Hs'|]. intro Hin. apply Hx. right. exact Hin.
Qed.

(** X12.  The per-symbol table has one row for each symbol that has a trade
    and no other row; a row's [trades] is the number of trades of its symbol,
    its [pnl] their total P&L and its [winRate] the share of winners among
    them.  The monthly table does the same by month of exit. *)
Theorem breakdown_rows_tally_their_trades
    (utcMonthKey : Z -> string) (localeCompare : string -> string -> comparison)
    (startingCapital_ : Q) (trades_ : list Trade) :
  let rows := Usd.symbolBreakdownOf localeCompare trades_ in
  let months := Usd.monthlyReturnsOf utcMonthKey localeCompare startingCapital_ trades_ in
  NoDup (map sb_symbol rows)
  /\ (forall s, In s (map sb_symbol rows)
                <-> exists t, In t trades_ /\ symbol (trade_base t) = s)
  /\ Forall (fun row =>
               let mine := tradesOfSymbol (sb_symbol row) trades_ in
               sb_trades row = List.length mine
               /\ sb_pnl row == sumOf pnl mine
               /\ sb_winRate row
                  = Usd.ratioPercent (List.length (winners mine)) (List.length mine))
            rows
  /\ NoDup (map month months)
  /\ (forall m, In m (map month months)
                <-> exists t, In t trades_ /\ utcMonthKey (exitTime t) = m)
  /\ Forall (fun row =>
               let mine := tradesOfMonth utcMonthKey (month row) trades_ in
               mr_trades row = List.length mine
               /\ mr_pnl row == sumOf pnl mine
               /\ mr_winRate row
                  = Usd.ratioPercent (List.length (winners mine)) (List.length mine))
            months.
Proof.
  cbv zeta. unfold Usd.symbolBreakdownOf, Usd.monthlyReturnsOf.
  change (fold_left _ trades_ (@nil (string * Usd.SymbolAcc)))
    with (fold_left (tallyStep String.eqb (fun t => symbol (trade_base t)) symbolUpd
                       (Usd.mkSymbolAcc 0 0 0 0 0)) trades_ []).
  change (fold_left _ trades_ (@nil (string * Usd.MonthAcc)))
    with (fold_left (tallyStep String.eqb (fun t => utcMonthKey (exitTime t)) monthUpd
                       (Usd.mkMonthAcc 0 0 0)) trades_ []).
  set (smap := fold_left (tallyStep String.eqb (fun t => symbol (trade_base t)) symbolUpd
                            (Usd.mkSymbolAcc 0 0 0 0 0)) trades_ []).
  set (mmap := fold_left (tallyStep String.eqb (fun t => utcMonthKey (exitTime t)) monthUpd
                            (Usd.mkMonthAcc 0 0 0)) trades_ []).
  assert (Hsnd : NoDup (JsMap.keys smap)).
  { apply tally_fold_NoDup; [exact string_eqb_spec|constructor]. }
  assert (Hmnd : NoDup (JsMap.keys mmap)).
  { apply tally_fold_NoDup; [exact string_eqb_spec|constructor]. }
  split; [|split; [|split; [|split; [|split]]]].
  - rewrite map_map. cbn [sb_symbol]. apply jsSort_NoDup_map. exact Hsnd.
  - intro s. rewrite map_map. cbn [sb_symbol]. rewrite in_map_iff.
    split.
    + intros (kv & Hk & Hin). apply jsSort_in in Hin.
      assert (Hkey : In s (JsMap.keys smap)).
      { rewrite <- Hk. apply in_map. exact Hin. }
      apply (tally_fold_keys String.eqb _ _ _ string_eqb_spec) in Hkey.
      destruct Hkey as [[]|H]. exact H.
    + intro H.
      assert (Hkey : In s (JsMap.keys smap)).
      { apply (tally_fold_keys String.eqb _ _ _ string_eqb_spec). right. exact H. }
      apply in_map_iff in Hkey. destruct Hkey as (kv & Hk & Hin).
      exists kv. split; [exact Hk|]. apply jsSort_in. exact Hin.
  - apply Forall_forall. intros row Hrow. apply in_map_iff in Hrow.
    destruct Hrow as ([k v] & <- & Hin). apply jsSort_in in Hin.
    cbn [sb_symbol sb_trades sb_pnl sb_winRate fst snd].
    apply (tally_get_of_In String.eqb string_eqb_spec) in Hin; [|exact Hsnd].
    unfold smap in Hin. rewrite (tally_fold_get String.eqb _ _ _ string_eqb_spec) in Hin.
    fold (tradesOfSymbol k trades_) in Hin. cbn [JsMap.get] in Hin.
    destruct (tradesOfSymbol k trades_) as [|y ys] eqn:E; [discriminate|].
    assert (Hv : v = fold_left symbolUpd (y :: ys) (Usd.mkSymbolAcc 0 0 0 0 0))
      by congruence.
    rewrite Hv. clear Hin Hv.
    destruct (symbolUpd_fold (y :: ys) (Usd.mkSymbolAcc 0 0 0 0 0)) as (H1 & H2 & H3).
    cbn [Usd.sa_trades Usd.sa_pnl Usd.sa_wins] in H1, H2, H3.
    rewrite H1, H3. split; [reflexivity|]. split; [rewrite H2; lra|reflexivity].
  - rewrite map_map. cbn [month]. apply jsSort_NoDup_map. exact Hmnd.
  - intro s. rewrite map_map. cbn [month]. rewrite in_map_iff.
    split.
    + intros (kv & Hk & Hin). apply jsSort_in in Hin.
      assert (Hkey : In s (JsMap.keys mmap)).
      { rewrite <- Hk. apply in_map. exact Hin. }
      apply (tally_fold_keys String.eqb _ _ _ string_eqb_spec) in Hkey.
      destruct Hkey as [[]|H]. exact H.
    + intro H.
      assert (Hkey : In s (JsMap.keys mmap)).
      { apply (tally_fold_keys String.eqb _ _ _ string_eqb_spec). right. exact H. }
      apply in_map_iff in Hkey. destruct Hkey as (kv & Hk & Hin).
      exists kv. split; [exact Hk|]. apply jsSort_in. exact Hin.
  - apply Forall_forall. intros row Hrow. apply in_map_iff in Hrow.
    destruct Hrow as ([k v] & <- & Hin). apply jsSort_in in Hin.
    cbn [month mr_trades mr_pnl mr_pnlPercent mr_winRate fst snd].
    apply (tally_get_of_In String.eqb string_eqb_spec) in Hin; [|exact Hmnd].
    unfold mmap in Hin. rewrite (tally_fold_get String.eqb _ _ _ string_eqb_spec) in Hin.
    fold (tradesOfMonth utcMonthKey k trades_) in Hin. cbn [JsMap.get] in Hin.
    destruct (tradesOfMonth utcMonthKey k trades_) as [|y ys] eqn:E; [discriminate|].
    assert (Hv : v = fold_left monthUpd (y :: ys) (Usd.mkMonthAcc 0 0 0))
      by congruence.
    rewrite Hv. clear Hin Hv.
    destruct (monthUpd_fold (y :: ys) (Usd.mkMonthAcc 0 0 0)) as (H1 & H2 & H3).
    cbn [Usd.ma_trades Usd.ma_pnl Usd.ma_wins] in H1, H2, H3.
    rewrite H1, H3. split; [reflexivity|]. split; [rewrite H2; lra|reflexivity].
Qed.

(** ** The ledger of the USD engine *)

Lemma trailingStopRule_status (candle : CandleWithIndicators) (p : Position) :
  status (Usd.trailingStopRule candle p) = status p
  /\ symbol (Usd.trailingStopRule candle p) = symbol p.
Proof.
  unfold Usd.trailingStopRule.
  destruct (atr (indicators candle)) as [a|]; [|split; reflexivity].
  destruct (Qgtb a 0); [|split; reflexivity].
  destruct (side p).
  - destruct (Qgeb _ a); [|split; reflexivity].
    match goal with |- context [if ?b then _ else _] => destruct b end; split; reflexivity.
  - destruct (Qgeb _ a); [|split; reflexivity].
    match goal with |- context [if ?b then _ else _] => destruct b end; split; reflexivity.
Qed.

Lemma checkExit_keeps_symbol (cfg : BacktestConfig)
    (candles : list CandleWithIndicators) (candleIdx : nat)
    (multiTfData : option MultiTimeframeData) (candle : CandleWithIndicators)
    (p : Position) :
  match Usd.checkExit cfg candles candleIdx multiTfData candle p with
  | Usd.Closed t => status (trade_base t) = closed
  | Usd.StillOpen p' => status p' = status p /\ symbol p' = symbol p
  end.
Proof.
  unfold Usd.checkExit, Usd.stopLossRule.
  destruct (isLong (side p) && Qle_bool (low candle) (stopLoss p)); [reflexivity|].
  destruct (isShort (side p) && Qgeb (high candle) (stopLoss p)); [reflexivity|].
  cbn [Usd.unlessClosed].
  assert (Hrest : forall p2, status p2 = status p -> symbol p2 = symbol p ->
            match
              Usd.unlessClosed (Usd.takeProfit2Rule cfg candle p2) (fun p3 =>
              Usd.unlessClosed
                (Usd.strategyExitRule cfg candles candleIdx multiTfData candle p3)
                (fun p4 => Usd.StillOpen (Usd.trailingStopRule candle p4)))
            with
            | Usd.Closed t => status (trade_base t) = closed
            | Usd.StillOpen p' => status p' = status p /\ symbol p' = symbol p
            end).
  { intros p2 Hs Hy. unfold Usd.takeProfit2Rule.
    assert (Hlast : match
                      Usd.unlessClosed
                        (Usd.strategyExitRule cfg candles candleIdx multiTfData candle p2)
                        (fun p4 => Usd.StillOpen (Usd.trailingStopRule candle p4))
                    with
                    | Usd.Closed t => status (trade_base t) = closed
                    | Usd.StillOpen p' => status p' = status p /\ symbol p' = symbol p
                    end).
    { unfold Usd.strategyExitRule. cbv zeta.
      destruct (exit (shouldExit (strategy cfg) p2 candles candleIdx multiTfData));
        cbn [Usd.unlessClosed]; [reflexivity|].
      destruct (trailingStopRule_status candle p2) as [H1 H2]. split; congruence. }
    destruct (tp1Hit p2); [|exact Hlast].
    destruct (takeProfit2 p2) as [tp2|]; [|exact Hlast].
    cbv zeta. match goal with |- context [if ?b then _ else _] => destruct b end;
      [reflexivity|exact Hlast]. }
  unfold Usd.takeProfit1Rule.
  destruct (negb (tp1Hit p)); [|cbn [Usd.unlessClosed]; apply Hrest; reflexivity].
  cbv zeta. match goal with |- context [if ?b then _ else _] => destruct b end;
    [|cbn [Usd.unlessClosed]; apply Hrest; reflexivity].
  match goal with |- context [match takeProfit2 ?q with _ => _ end] =>
    destruct (takeProfit2 q) end.
  - cbn [Usd.unlessClosed]. apply Hrest; reflexivity.
  - reflexivity.
Qed.

Lemma checkExits_ledger (symbolDataMap : Usd.SymbolDataMap) (cfg : BacktestConfig)
    (sym : string) (candles : list CandleWithIndicators) (candleIdx : nat)
    (multiTfData : option MultiTimeframeData) (candle : CandleWithIndicators)
    (positions : list Position) (done : list Trade) :
  Forall (tradable symbolDataMap) positions ->
  Forall (fun t => status (trade_base t) = closed) done ->
  let r := Usd.checkExits cfg sym candles candleIdx multiTfData candle positions done in
  (List.length (fst r) + List.length (snd r)
   = List.length positions + List.length done)%nat
  /\ Forall (tradable symbolDataMap) (fst r)
  /\ Forall (fun t => status (trade_base t) = closed) (snd r).
Proof.
  intros Hopen Hdone. cbv zeta. unfold Usd.checkExits.
  induction Hopen as [|p ps Hp Hps IH]; cbn [fold_right].
  - cbn [fst snd List.length]. repeat split; [constructor|exact Hdone].
  - destruct (fold_right _ _ ps) as [kept done1] eqn:E. cbn [fst snd] in IH.
    destruct IH as (Hlen & Hkept & Hdone1).
    destruct (negb (String.eqb (symbol p) sym)).
    + cbn [fst snd List.length]. split; [lia|]. split; [constructor; assumption|assumption].
    + pose proof (checkExit_keeps_symbol cfg candles candleIdx multiTfData candle p) as Hk.
      destruct (Usd.checkExit cfg candles candleIdx multiTfData candle p) as [t|p'].
      * cbn [fst snd List.length]. rewrite length_app. cbn [List.length].
        split; [lia|]. split; [exact Hkept|].
        apply Forall_app. split; [exact Hdone1|]. constructor; [exact Hk|constructor].
      * cbn [fst snd List.length]. split; [lia|]. split; [|exact Hdone1].
        constructor; [|exact Hkept]. destruct Hk as [Hs Hy]. destruct Hp as [Hp1 Hp2].
        split; [congruence|]. rewrite Hy. exact Hp2.
Qed.

Lemma openSignals_appends (cfg : BacktestConfig) (sym : string)
    (candle : CandleWithIndicators) (equity_ : Q)
    (signals : list (EntrySignal * Side)) (positions : list Position) (counter : nat) :
  exists opened,
    Usd.openSignals cfg sym candle equity_ signals (positions, counter)
    = (positions ++ opened, (counter + List.length opened)%nat)
    /\ Forall (fun p => status p = open_ /\ symbol p = sym) opened.
Proof.
  revert positions counter.
  induction signals as [|[signal side_] rest IH]; intros positions counter.
  - exists []. cbn [Usd.openSignals List.length]. rewrite app_nil_r, Nat.add_0_r.
    split; [reflexivity|constructor].
  - cbn [Usd.openSignals].
    destruct (Z.of_nat (List.length positions) >=? maxConcurrentPositions cfg)%Z.
    { exists []. cbn [List.length]. rewrite app_nil_r, Nat.add_0_r.
      split; [reflexivity|constructor]. }
    cbv zeta.
    destruct (Qeq_bool _ 0); [apply IH|].
    match goal with |- context [if Qle_bool ?x 0 then _ else _] =>
      destruct (Qle_bool x 0); [apply IH|] end.
    unfold Usd.nextPositionId.
    match goal with |- context [positions ++ [?q]] => set (newPos := q) end.
    destruct (IH (positions ++ [newPos]) (S counter)) as (opened & Heq & Hall).
    exists (newPos :: opened). split.
    + rewrite Heq, <- app_assoc. cbn [app List.length]. f_equal. lia.
    + constructor; [split; reflexivity|exact Hall].
Qed.

Lemma processSymbol_ledger (symbolDataMap : Usd.SymbolDataMap) (cfg : BacktestConfig)
    (indexMaps : Usd.IndexMaps) (multiTfBySymbol : Usd.MultiTfBySymbol) (ts : Z)
    (st : Usd.Sim) (entry : string * list CandleWithIndicators) :
  NoDup (JsMap.keys symbolDataMap) -> In entry symbolDataMap ->
  ledgerKept symbolDataMap st ->
  ledgerKept symbolDataMap (Usd.processSymbol cfg indexMaps multiTfBySymbol ts st entry).
Proof.
  intros Hnd Hin Hst. unfold Usd.processSymbol. destruct entry as [sym candles].
  destruct (JsMap.get String.eqb indexMaps sym) as [indexMap|]; [|exact Hst].
  destruct (JsMap.get Z.eqb indexMap ts) as [candleIdx|]; [|exact Hst].
  destruct (nth_error candles candleIdx) as [candle|] eqn:Ecandle; [|exact Hst].
  destruct Hst as [Hcount Hopen Hdone].
  pose proof (checkExits_ledger symbolDataMap cfg sym candles candleIdx
                (JsMap.get String.eqb multiTfBySymbol sym) candle
                (Usd.openPositions st) (Usd.completedTrades st) Hopen Hdone) as Hex.
  cbv zeta in Hex.
  destruct (Usd.checkExits cfg sym candles candleIdx
              (JsMap.get String.eqb multiTfBySymbol sym) candle
              (Usd.openPositions st) (Usd.completedTrades st)) as [open1 done1].
  cbn [fst snd] in Hex. destruct Hex as (Hlen & Hopen1 & Hdone1).
  unfold Usd.checkEntries. cbn [fst].
  assert (Hdata : exists c cs, JsMap.get String.eqb symbolDataMap sym = Some (c :: cs)).
  { rewrite (tally_get_of_In String.eqb string_eqb_spec symbolDataMap sym candles Hnd Hin).
    destruct candles as [|c cs]; [destruct candleIdx; discriminate|]. eauto. }
  destruct (Z.of_nat (List.length open1) <? maxConcurrentPositions cfg)%Z.
  - match goal with |- context [Usd.openSignals cfg sym candle ?e ?sigs _] =>
      destruct (openSignals_appends cfg sym candle e sigs open1 (Usd.sim_counter st))
        as (opened & Heq & Hall); rewrite Heq end.
    split; cbn [Usd.sim_counter Usd.openPositions Usd.completedTrades].
    + rewrite length_app. lia.
    + apply Forall_app. split; [exact Hopen1|].
      eapply Forall_impl; [|exact Hall]. intros p [Hs Hy]. split; [exact Hs|].
      rewrite Hy. exact Hdata.
    + exact Hdone1.
  - split; cbn [Usd.sim_counter Usd.openPositions Usd.completedTrades].
    + lia.
    + exact Hopen1.
    + exact Hdone1.
Qed.

Lemma processTimestamp_ledger (symbolDataMap : Usd.SymbolDataMap) (cfg : BacktestConfig)
    (indexMaps : Usd.IndexMaps) (multiTfBySymbol : Usd.MultiTfBySymbol) (lastTs : Z)
    (st : Usd.Sim) (ts : Z) :
  NoDup (JsMap.keys symbolDataMap) -> ledgerKept symbolDataMap st ->
  ledgerKept symbolDataMap
    (Usd.processTimestamp cfg symbolDataMap indexMaps multiTfBySymbol lastTs st ts).
Proof.
  intros Hnd Hst. unfold Usd.processTimestamp.
  assert (H1 : forall entries st0,
             (forall e, In e entries -> In e symbolDataMap) ->
             ledgerKept symbolDataMap st0 ->
             ledgerKept symbolDataMap
               (fold_left (Usd.processSymbol cfg indexMaps multiTfBySymbol ts)
                  entries st0)).
  { induction entries as [|e es IH]; intros st0 Hsub H0; cbn [fold_left].
    - exact H0.
    - apply IH.
      + intros e' He'. apply Hsub. right. exact He'.
      + apply processSymbol_ledger; [exact Hnd| |exact H0]. apply Hsub. left. reflexivity. }
  specialize (H1 symbolDataMap st (fun e He => He) Hst).
  destruct H1 as [Hc Ho Hd]. cbv zeta.
  match goal with |- context [if ?b then _ else _] => destruct b end;
    split; cbn [Usd.sim_counter Usd.openPositions Usd.completedTrades]; assumption.
Qed.

Lemma processTimestamps_ledger (symbolDataMap : Usd.SymbolDataMap) (cfg : BacktestConfig)
    (indexMaps : Usd.IndexMaps) (multiTfBySymbol : Usd.MultiTfBySymbol) (lastTs : Z)
    (tss : list Z) (st : Usd.Sim) :
  NoDup (JsMap.keys symbolDataMap) -> ledgerKept symbolDataMap st ->
  ledgerKept symbolDataMap
    (fold_left (Usd.processTimestamp cfg symbolDataMap indexMaps multiTfBySymbol lastTs)
       tss st).
Proof.
  intro Hnd. revert st. induction tss as [|ts tss IH]; intros st Hst; cbn [fold_left].
  - exact Hst.
  - apply IH. apply processTimestamp_ledger; assumption.
Qed.

Lemma loadData_NoDup (loadCandles : string -> string -> option (list Candle))
    (calculateIndicators : list Candle -> list CandleWithIndicators)
    (cfg : BacktestConfig) :
  NoDup (JsMap.keys (fst (Usd.loadData loadCandles calculateIndicators cfg))).
Proof.
  unfold Usd.loadData.
  assert (H : forall syms acc, NoDup (JsMap.keys (fst acc)) ->
            NoDup (JsMap.keys
                     (fst (fold_left (Usd.loadSymbol loadCandles calculateIndicators cfg)
                             syms acc)))).
  { induction syms as [|s syms IH]; intros acc Hacc; cbn [fold_left].
    - exact Hacc.
    - apply IH. unfold Usd.loadSymbol. destruct acc as [dm mt]. cbn [fst] in Hacc.
      destruct (loadCandles s (timeframe cfg)) as [[|c cs]|]; try exact Hacc.
      cbv zeta.
      destruct (requiredTimeframes (strategy cfg)) as [[|tf tfs]|]; cbn [fst];
        apply (tally_NoDup_set String.eqb string_eqb_spec); exact Hacc. }
  apply H. constructor.
Qed.

Lemma forceClose_closes_all (cfg : BacktestConfig) (symbolDataMap : Usd.SymbolDataMap)
    (positions : list Position) (done : list Trade) :
  Forall (tradable symbolDataMap) positions ->
  exists forced,
    Usd.forceClose cfg symbolDataMap positions done = done ++ forced
    /\ map Some forced = map (forcedTrade cfg symbolDataMap) positions.
Proof.
  intro Hall. revert done. unfold Usd.forceClose.
  induction Hall as [|p ps Hp Hps IH]; intro done; cbn [fold_left].
  - exists []. rewrite app_nil_r. split; reflexivity.
  - destruct Hp as [_ (c & cs & Hget)].
    destruct (IH (done ++ [Usd.closePosition p (close (List.last (c :: cs) c))
                             (timestamp (List.last (c :: cs) c))
                             "End of backtest — forced close"
                             (slippageRate cfg) (commissionRate cfg)]))
      as (forced & Heq & Hmap).
    rewrite Hget.
    exists (Usd.closePosition p (close (List.last (c :: cs) c))
              (timestamp (List.last (c :: cs) c))
              "End of backtest — forced close"
              (slippageRate cfg) (commissionRate cfg) :: forced).
    split.
    + rewrite Heq, <- app_assoc. reflexivity.
    + cbn [map]. unfold forcedTrade at 1. rewrite Hget. cbv zeta. rewrite Hmap.
      reflexivity.
Qed.

(** X13.  The positions of a run are conserved, as a count.  At the end of
    the main loop the number of positions opened so far (the position
    counter) is the number of positions in the ledger plus the number of
    completed trades; the forced close then turns each position left in the
    ledger into one trade, in ledger order, priced at the close of the last
    candle of its symbol.  So the run reports as many trades as it opened
    positions, every one of them closed. *)
Theorem every_opened_position_ends_as_one_trade
    (Math_sqrt : Q -> Q) (utcMonthKey : Z -> string)
    (localeCompare : string -> string -> comparison)
    (loadCandles : string -> string -> option (list Candle))
    (calculateIndicators : list Candle -> list CandleWithIndicators)
    (w : World) (cfg : BacktestConfig) :
  let st := Usd.mainLoop loadCandles calculateIndicators w cfg in
  let dataMap := fst (Usd.loadData loadCandles calculateIndicators cfg) in
  let r := Usd.runBacktest Math_sqrt utcMonthKey localeCompare loadCandles
             calculateIndicators w cfg in
  Usd.sim_counter st
  = (List.length (Usd.openPositions st) + List.length (Usd.completedTrades st))%nat
  /\ (exists forced,
        trades r = Usd.completedTrades st ++ forced
        /\ map Some forced = map (forcedTrade cfg dataMap) (Usd.openPositions st))
  /\ totalTrades r = Usd.sim_counter st
  /\ Forall (fun t => status (trade_base t) = closed) (trades r).
Proof.
  cbv zeta.
  assert (Hinv : ledgerKept (fst (Usd.loadData loadCandles calculateIndicators cfg))
                   (Usd.mainLoop loadCandles calculateIndicators w cfg)).
  { unfold Usd.mainLoop.
    pose proof (loadData_NoDup loadCandles calculateIndicators cfg) as Hnd.
    destruct (Usd.loadData loadCandles calculateIndicators cfg) as [dm mt].
    cbn [fst] in *. apply processTimestamps_ledger; [exact Hnd|].
    split; cbn [Usd.sim_counter Usd.openPositions Usd.completedTrades List.length];
      [reflexivity|constructor|constructor]. }
  destruct Hinv as [Hcount Hopen Hdone].
  destruct (forceClose_closes_all cfg _ _
              (Usd.completedTrades (Usd.mainLoop loadCandles calculateIndicators w cfg))
              Hopen) as (forced & Heq & Hmap).
  assert (Htrades : trades (Usd.runBacktest Math_sqrt utcMonthKey localeCompare loadCandles
                              calculateIndicators w cfg)
                    = Usd.completedTrades
                        (Usd.mainLoop loadCandles calculateIndicators w cfg) ++ forced).
  { unfold Usd.runBacktest, Usd.simulate. cbv zeta. rewrite Heq.
    match goal with |- context [if ?b then _ else _] => destruct b end; reflexivity. }
  assert (Hlen : List.length forced
                 = List.length
                     (Usd.openPositions (Usd.mainLoop loadCandles calculateIndicators w cfg))).
  { rewrite <- (length_map Some forced), Hmap, length_map. reflexivity. }
  split; [exact Hcount|]. split; [exists forced; split; assumption|]. split.
  - assert (Htotal : totalTrades (Usd.runBacktest Math_sqrt utcMonthKey localeCompare
                                    loadCandles calculateIndicators w cfg)
                     = List.length
                         (trades (Usd.runBacktest Math_sqrt utcMonthKey localeCompare
                                    loadCandles calculateIndicators w cfg))).
    { unfold Usd.runBacktest.
      destruct (Usd.simulate loadCandles calculateIndicators w cfg). reflexivity. }
    rewrite Htotal, Htrades, length_app, Hlen, Hcount. lia.
  - rewrite Htrades. apply Forall_app. split; [exact Hdone|].
    apply Forall_forall. intros t Ht.
    assert (Hin : In (Some t) (map Some forced)) by (apply in_map; exact Ht).
    rewrite Hmap in Hin. apply in_map_iff in Hin. destruct Hin as (p & Hp & _).
    unfold forcedTrade in Hp.
    destruct (JsMap.get String.eqb _ (symbol p)) as [[|c cs]|]; try discriminate.
    cbv zeta in Hp. inversion Hp. reflexivity.
Qed.

(** ** The ledger of the BTC engine *)

Lemma calculateBtcReturn_nonneg (allocated entry_ exit_ lev rate : Q) :
  0 <= Btc.calculateBtcReturn allocated entry_ exit_ lev rate.
Proof.
  unfold Btc.calculateBtcReturn. destruct (Qeq_bool entry_ 0); [apply Qle_refl|].
  cbv zeta. apply Q.le_max_r.
Qed.

Lemma exitAction_sale_leaves_some (strategy_ : Btc.BtcStrategy) (avg7d avg1d : Q)
    (altCandles : list Btc.AltBtcCandle) (candleIdx : nat) (ts : Z) (ratio : Q)
    (pos : Btc.BtcPosition) (sold : Q) (mark : bool) :
  Btc.exitAction strategy_ avg7d avg1d altCandles candleIdx ts ratio pos
  = Btc.SellPart sold mark ->
  0 < Btc.btcAllocated pos -> 0 < sold /\ sold < Btc.btcAllocated pos.
Proof.
  unfold Btc.exitAction. intros H Hpos.
  destruct (Btc.stopLossRule pos ratio); [discriminate|].
  destruct (Qgtb avg1d Btc.DOMINANCE_TREND_THRESHOLD); [discriminate|].
  destruct (negb (Btc.tp1Hit pos) && Qgeb ratio (Btc.entryRatio pos * (1 + Btc.TP1_PCT)))%bool.
  { inversion H; subst. unfold Btc.TP1_SELL_FRACTION. split; lra. }
  destruct (Btc.tp1Hit pos && Qgeb ratio (Btc.entryRatio pos * (1 + Btc.TP2_PCT)))%bool;
    [discriminate|].
  destruct (ts - Btc.entryTime pos >=? Btc.MAX_HOLD_MS)%Z; [discriminate|].
  cbv zeta in H.
  destruct (Btc.exit (Btc.shouldExit strategy_ pos altCandles candleIdx avg7d));
    [|discriminate].
  set (sf := Btc.sellFraction (Btc.shouldExit strategy_ pos altCandles candleIdx avg7d)) in *.
  destruct (Qgtb sf 0 && Qle_bool sf 1)%bool eqn:Erange.
  - destruct (Qgeb sf 1) eqn:Eone; [discriminate|].
    inversion H; subst. apply andb_true_iff in Erange. destruct Erange as [E0 E1].
    apply Qgtb_gt in E0. unfold Qgeb in Eone.
    assert (sf < 1).
    { apply Qnot_le_lt. intro Hle. apply Qle_bool_iff in Hle. congruence. }
    split; nra.
  - change (Qgeb 1 1) with true in H. discriminate.
Qed.

Lemma btc_checkExits_kept (strategy_ : Btc.BtcStrategy) (rate avg7d avg1d : Q)
    (sym : string) (altCandles : list Btc.AltBtcCandle) (candleIdx : nat) (ts : Z)
    (ratio : Q) (positions : list Btc.BtcPosition) (led : Btc.Ledger) :
  Forall funded positions -> 0 <= Btc.led_availableBtc led ->
  let r := Btc.checkExits strategy_ rate avg7d avg1d sym altCandles candleIdx ts ratio
             positions led in
  0 <= Btc.led_availableBtc (snd r)
  /\ Forall funded (fst r)
  /\ (forall s, In s (map Btc.pos_altSymbol (fst r)) -> In s (map Btc.pos_altSymbol positions))
  /\ (NoDup (map Btc.pos_altSymbol positions) -> NoDup (map Btc.pos_altSymbol (fst r)))
  /\ (List.length (fst r) + List.length (Btc.led_completedTrades (snd r))
      = List.length positions + List.length (Btc.led_completedTrades led))%nat
  /\ (List.length (fst r) <= List.length positions)%nat.
Proof.
  intro Hall. revert led. cbv zeta.
  induction Hall as [|pos rest Hpos Hrest IH]; intros led Hcash.
  - cbn [Btc.checkExits fst snd map List.length].
    split; [exact Hcash|]. split; [constructor|]. split; [intros s []|].
    split; [intro; constructor|]. split; [reflexivity|lia].
  - cbn [Btc.checkExits].
    assert (Hskip : forall led0 pos', 0 <= Btc.led_availableBtc led0 -> funded pos' ->
              Btc.pos_altSymbol pos' = Btc.pos_altSymbol pos ->
              List.length (Btc.led_completedTrades led0)
              = List.length (Btc.led_completedTrades led) ->
              let r := (let '(kept, led2) :=
                          Btc.checkExits strategy_ rate avg7d avg1d sym altCandles
                            candleIdx ts ratio rest led0 in
                        (pos' :: kept, led2)) in
              0 <= Btc.led_availableBtc (snd r)
              /\ Forall funded (fst r)
              /\ (forall s, In s (map Btc.pos_altSymbol (fst r)) ->
                    In s (map Btc.pos_altSymbol (pos :: rest)))
              /\ (NoDup (map Btc.pos_altSymbol (pos :: rest)) ->
                    NoDup (map Btc.pos_altSymbol (fst r)))
              /\ (List.length (fst r) + List.length (Btc.led_completedTrades (snd r))
                  = List.length (pos :: rest)
                    + List.length (Btc.led_completedTrades led))%nat
              /\ (List.length (fst r) <= List.length (pos :: rest))%nat).
    { intros led0 pos' Hc0 Hf Hsym Hlen0. cbv zeta.
      destruct (IH led0 Hc0) as (H1 & H2 & H3 & H4 & H5 & H6).
      destruct (Btc.checkExits strategy_ rate avg7d avg1d sym altCandles candleIdx ts
                  ratio rest led0) as [kept led2].
      cbn [fst snd map List.length] in *. split; [exact H1|].
      split; [constructor; assumption|]. split; [|split].
      - intros s [Hs|Hs]; [left; congruence|right; apply H3; exact Hs].
      - intro Hnd. inversion Hnd as [|? ? Hnotin Hnd']; subst.
        constructor; [|apply H4; exact Hnd'].
        rewrite Hsym. intro Hin. apply Hnotin. apply H3. exact Hin.
      - split; lia. }
    destruct (String.eqb (Btc.pos_altSymbol pos) sym && Btc.isOpen pos)%bool.
    + destruct (Btc.exitAction strategy_ avg7d avg1d altCandles candleIdx ts ratio pos)
        as [why|sold mark|] eqn:Eact.
      * match goal with
        | |- context [Btc.checkExits _ _ _ _ _ _ _ _ _ rest ?l] =>
            destruct (IH l) as (H1 & H2 & H3 & H4 & H5 & H6)
        end.
        { cbn [Btc.led_availableBtc]. unfold Btc.getCloseBtcReturn.
          pose proof (calculateBtcReturn_nonneg (Btc.btcAllocated pos) (Btc.entryRatio pos)
                        ratio (Btc.strat_leverage strategy_) rate). lra. }
        split; [exact H1|]. split; [exact H2|]. split; [|split].
        -- intros s Hs. cbn [map]. right. apply H3. exact Hs.
        -- intro Hnd. inversion Hnd; subst. apply H4. assumption.
        -- split; [|cbn [List.length]; lia].
           rewrite H5. cbn [Btc.led_completedTrades List.length]. rewrite length_app.
           cbn [List.length]. lia.
      * destruct (exitAction_sale_leaves_some _ _ _ _ _ _ _ _ _ _ Eact) as [Hs0 Hs1];
          [apply Hpos|].
        apply Hskip.
        -- cbn [Btc.led_availableBtc].
           pose proof (calculateBtcReturn_nonneg sold (Btc.entryRatio pos) ratio
                         (Btc.strat_leverage strategy_) rate). lra.
        -- destruct Hpos as [Ho Ha]. split; [exact Ho|].
           unfold Btc.afterSale. cbn [Btc.btcAllocated]. lra.
        -- reflexivity.
        -- reflexivity.
      * apply Hskip; [exact Hcash|exact Hpos|reflexivity|reflexivity].
    + apply Hskip; [exact Hcash|exact Hpos|reflexivity|reflexivity].
Qed.

Lemma btc_checkEntry_kept (strategy_ : Btc.BtcStrategy)
    (allAltCandles : Btc.AltCandleMap) (avg7d : Q) (sym : string)
    (altCandles : list Btc.AltBtcCandle) (candleIdx : nat)
    (currentCandle : Btc.AltBtcCandle) (ts : Z)
    (positions : list Btc.BtcPosition) (available : Q) (counter : nat)
    (done : list Btc.BtcTrade) :
  btcBooksKept available positions done counter ->
  let r := Btc.checkEntry strategy_ allAltCandles avg7d sym altCandles candleIdx
             currentCandle ts positions available counter in
  btcBooksKept (snd (fst r)) (fst (fst r)) done (snd r).
Proof.
  intros Hkept. pose proof Hkept as (Hcash & Hfunded & Hnd & Hcap & Hcount).
  cbv zeta. unfold Btc.checkEntry.
  assert (Hactive : filter Btc.isOpen positions = positions).
  { clear - Hfunded. induction Hfunded as [|p ps [Hp _] _ IH]; [reflexivity|].
    cbn [filter]. rewrite Hp, IH. reflexivity. }
  rewrite Hactive.
  destruct (Btc.MAX_CONCURRENT_POSITIONS <=? List.length positions)%nat eqn:Ecap;
    [exact Hkept|].
  destruct (existsb _ positions) eqn:Edup; [exact Hkept|].
  cbv zeta.
  destruct (Btc.enter (Btc.shouldEnter strategy_ altCandles candleIdx avg7d));
    [|exact Hkept].
  match goal with |- context [Qltb ?x Btc.MIN_BTC_ALLOCATION] =>
    set (amount := x); destruct (Qltb amount Btc.MIN_BTC_ALLOCATION) eqn:Emin end;
    [exact Hkept|].
  cbn [fst snd]. apply Qltb_ge in Emin. unfold Btc.MIN_BTC_ALLOCATION in Emin.
  assert (Hle : amount <= available) by (unfold amount; apply Q.le_min_r).
  apply Nat.leb_gt in Ecap.
  split; [lra|]. split; [|split; [|split]].
  - apply Forall_app. split; [exact Hfunded|]. constructor; [|constructor].
    split; [reflexivity|]. cbn [Btc.btcAllocated]. lra.
  - rewrite map_app. cbn [map Btc.pos_altSymbol].
    apply NoDup_app; [exact Hnd|constructor; [intros []|constructor]|].
    intros s Hs [Heq|[]]. subst s. apply in_map_iff in Hs.
    destruct Hs as (p & Hp & Hin).
    assert (Hfalse : (String.eqb (Btc.pos_altSymbol p) sym && Btc.isOpen p)%bool = false).
    { clear - Edup Hin. induction positions as [|q qs IH]; [destruct Hin|].
      cbn [existsb] in Edup. apply orb_false_iff in Edup. destruct Edup as [E1 E2].
      destruct Hin as [->|Hin]; [exact E1|apply IH; assumption]. }
    rewrite Hp, String.eqb_refl in Hfalse. cbn [andb] in Hfalse.
    rewrite Forall_forall in Hfunded. destruct (Hfunded p Hin) as [Ho _]. congruence.
  - rewrite length_app. cbn [List.length]. lia.
  - rewrite length_app. cbn [List.length]. lia.
Qed.

Lemma btc_processAlt_kept (strategy_ : Btc.BtcStrategy) (rate : Q)
    (allAltCandles : Btc.AltCandleMap) (altIndexMaps : list (string * list (Z * nat)))
    (avg7d avg1d : Q) (ts : Z) (acc : Btc.Sim * Q)
    (entry : string * list Btc.AltBtcCandle) :
  btcLedgerKept (fst acc) ->
  btcLedgerKept
    (fst (Btc.processAlt strategy_ rate allAltCandles altIndexMaps avg7d avg1d ts
            acc entry)).
Proof.
  intro Hkept. unfold Btc.processAlt.
  destruct acc as [st price]. destruct entry as [sym altCandles]. cbn [fst] in *.
  destruct (JsMap.get String.eqb altIndexMaps sym) as [indexMap|]; [|exact Hkept].
  destruct (JsMap.get Z.eqb indexMap ts) as [candleIdx|]; [|exact Hkept].
  destruct (nth_error altCandles candleIdx) as [currentCandle|]; [|exact Hkept].
  destruct Hkept as (Hcash & Hfunded & Hnd & Hcap & Hcount).
  pose proof (btc_checkExits_kept strategy_ rate avg7d avg1d sym altCandles candleIdx ts
                (Btc.close currentCandle) (Btc.openPositions st)
                (Btc.mkLedger (Btc.availableBtc st) (Btc.completedTrades st)
                   (Btc.partialSales st)) Hfunded Hcash) as Hex.
  cbv zeta in Hex.
  destruct (Btc.checkExits _ _ _ _ _ _ _ _ _ _ _) as [open1 led1].
  cbn [fst snd Btc.led_completedTrades] in Hex.
  destruct Hex as (H1 & H2 & H3 & H4 & H5 & Hlen1).
  assert (Hk1 : btcBooksKept (Btc.led_availableBtc led1) open1
                  (Btc.led_completedTrades led1) (Btc.positionCounter st)).
  { split; [exact H1|]. split; [exact H2|]. split; [apply H4; exact Hnd|].
    split; lia. }
  pose proof (btc_checkEntry_kept strategy_ allAltCandles avg7d sym altCandles
                candleIdx currentCandle ts open1 (Btc.led_availableBtc led1)
                (Btc.positionCounter st) (Btc.led_completedTrades led1) Hk1) as Hen.
  cbv zeta in Hen.
  destruct (Btc.checkEntry _ _ _ _ _ _ _ _ _ _ _) as [[open2 available2] counter2].
  exact Hen.
Qed.

Lemma btc_processTimestamp_kept (strategy_ : Btc.BtcStrategy) (rate : Q)
    (allAltCandles : Btc.AltCandleMap) (altIndexMaps : list (string * list (Z * nat)))
    (st : Btc.Sim) (ts : Z) :
  btcLedgerKept st ->
  btcLedgerKept (Btc.processTimestamp strategy_ rate allAltCandles altIndexMaps st ts).
Proof.
  intro Hkept. unfold Btc.processTimestamp. cbv zeta.
  assert (Hfold : forall entries acc, btcLedgerKept (fst acc) ->
            btcLedgerKept
              (fst (fold_left
                      (Btc.processAlt strategy_ rate allAltCandles altIndexMaps
                         (Btc.calculateAvgRatioTrend allAltCandles ts 7)
                         (Btc.calculateAvgRatioTrend allAltCandles ts 1) ts)
                      entries acc))).
  { induction entries as [|e es IH]; intros acc Hacc; cbn [fold_left].
    - exact Hacc.
    - apply IH. apply btc_processAlt_kept. exact Hacc. }
  match goal with
  | |- context [fold_left ?f allAltCandles ?acc] =>
      specialize (Hfold allAltCandles acc Hkept);
      destruct (fold_left f allAltCandles acc) as [st1 price]
  end.
  cbn [fst] in Hfold.
  match goal with |- context [if ?c then _ else _] => destruct c end; exact Hfold.
Qed.

Lemma btc_processTimestamps_kept (strategy_ : Btc.BtcStrategy) (rate : Q)
    (allAltCandles : Btc.AltCandleMap) (altIndexMaps : list (string * list (Z * nat)))
    (tss : list Z) (st : Btc.Sim) :
  btcLedgerKept st ->
  btcLedgerKept
    (fold_left (Btc.processTimestamp strategy_ rate allAltCandles altIndexMaps) tss st).
Proof.
  revert st. induction tss as [|t tss IH]; intros st Hst; cbn [fold_left].
  - exact Hst.
  - apply IH. apply btc_processTimestamp_kept. exact Hst.
Qed.

Lemma btc_forceClose_cash (strategy_ : Btc.BtcStrategy) (rate : Q)
    (allAltCandles : Btc.AltCandleMap) (lastTimestamp : Z)
    (positions : list Btc.BtcPosition) (led : Btc.Ledger) :
  0 <= Btc.led_availableBtc led ->
  let r := Btc.forceClose strategy_ rate allAltCandles lastTimestamp positions led in
  0 <= Btc.led_availableBtc (snd r)
  /\ (List.length (fst r) + List.length (Btc.led_completedTrades (snd r))
      = List.length positions + List.length (Btc.led_completedTrades led))%nat.
Proof.
  revert led. cbv zeta. induction positions as [|pos rest IH]; intros led Hcash.
  - cbn [Btc.forceClose fst snd List.length]. split; [exact Hcash|reflexivity].
  - cbn [Btc.forceClose].
    assert (Hskip : let r := (let '(kept, led1) :=
                                Btc.forceClose strategy_ rate allAltCandles lastTimestamp
                                  rest led in
                              (pos :: kept, led1)) in
                    0 <= Btc.led_availableBtc (snd r)
                    /\ (List.length (fst r) + List.length (Btc.led_completedTrades (snd r))
                        = List.length (pos :: rest)
                          + List.length (Btc.led_completedTrades led))%nat).
    { cbv zeta. destruct (IH led Hcash) as [H1 H2].
      destruct (Btc.forceClose strategy_ rate allAltCandles lastTimestamp rest led)
        as [kept led1].
      cbn [fst snd List.length] in *. split; [exact H1|lia]. }
    cbv zeta in Hskip.
    destruct (negb (Btc.isOpen pos)); [exact Hskip|].
    destruct (JsMap.get String.eqb allAltCandles (Btc.pos_altSymbol pos)) as [[|c0 cs]|];
      try exact Hskip.
    cbv zeta.
    match goal with
    | |- context [Btc.forceClose _ _ _ _ rest ?l] => destruct (IH l) as [H1 H2]
    end.
    { cbn [Btc.led_availableBtc]. unfold Btc.getCloseBtcReturn.
      match goal with |- context [Btc.calculateBtcReturn ?a ?b ?c ?d ?e] =>
        pose proof (calculateBtcReturn_nonneg a b c d e) end. lra. }
    split; [exact H1|]. rewrite H2. cbn [Btc.led_completedTrades List.length].
    rewrite length_app. cbn [List.length]. lia.
Qed.

(** X14.  The books of the BTC engine.  After any number of timestamps the
    free BTC is not negative, every position of the ledger is open and has
    BTC allocated to it, no alt has two positions, the ledger holds at most
    three positions, and every position opened so far is in the ledger or
    among the completed trades.  The run then ends with a final BTC balance
    that is not negative, whatever the strategy and the candles. *)
Theorem btc_books_are_kept (strategy_ : Btc.BtcStrategy) (rate : Q)
    (allAltCandles : Btc.AltCandleMap) (altIndexMaps : list (string * list (Z * nat)))
    (tss : list Z) :
  let st :=
    fold_left (Btc.processTimestamp strategy_ rate allAltCandles altIndexMaps)
      tss Btc.initialSim in
  let b := Btc.runBtcBacktestOn allAltCandles strategy_ in
  0 <= Btc.availableBtc st
  /\ Forall (fun p => Btc.isOpen p = true /\ 0 < Btc.btcAllocated p) (Btc.openPositions st)
  /\ NoDup (map Btc.pos_altSymbol (Btc.openPositions st))
  /\ (List.length (Btc.openPositions st) <= 3)%nat
  /\ Btc.positionCounter st
     = (List.length (Btc.openPositions st) + List.length (Btc.completedTrades st))%nat
  /\ 0 <= Btc.finalBtc b
  /\ - Btc.STARTING_BTC <= Btc.btcProfit b.
Proof.
  cbv zeta.
  assert (Hinit : btcLedgerKept Btc.initialSim).
  { unfold btcLedgerKept, btcBooksKept, Btc.initialSim, Btc.STARTING_BTC.
    cbn [Btc.availableBtc Btc.openPositions Btc.completedTrades Btc.positionCounter
         map List.length].
    split; [lra|]. split; [constructor|]. split; [constructor|].
    split; [unfold Btc.MAX_CONCURRENT_POSITIONS; lia|reflexivity]. }
  destruct (btc_processTimestamps_kept strategy_ rate allAltCandles altIndexMaps tss _
              Hinit) as (H1 & H2 & H3 & H4 & H5).
  split; [exact H1|]. split; [exact H2|]. split; [exact H3|].
  split; [exact H4|]. split; [exact H5|].
  assert (Hfinal : 0 <= Btc.availableBtc (Btc.finalSim strategy_ allAltCandles)).
  { unfold Btc.finalSim. cbv zeta.
    match goal with
    | |- context [Btc.forceClose ?s ?r ?m ?l ?ps ?led] =>
        pose proof (btc_forceClose_cash s r m l ps led) as Hfc;
        destruct (Btc.forceClose s r m l ps led) as [open1 led1]
    end.
    cbn [fst snd Btc.availableBtc Btc.led_availableBtc] in *. apply Hfc.
    apply (btc_processTimestamps_kept strategy_ _ allAltCandles _ _ _ Hinit). }
  assert (Hres : 0 <= Btc.finalBtc (Btc.runBtcBacktestOn allAltCandles strategy_)
                 /\ Btc.btcProfit (Btc.runBtcBacktestOn allAltCandles strategy_)
                    == Btc.finalBtc (Btc.runBtcBacktestOn allAltCandles strategy_)
                       - Btc.STARTING_BTC).
  { unfold Btc.runBtcBacktestOn.
    assert (Hempty : 0 <= Btc.finalBtc (Btc.emptyResult (Btc.name strategy_))
                     /\ Btc.btcProfit (Btc.emptyResult (Btc.name strategy_))
                        == Btc.finalBtc (Btc.emptyResult (Btc.name strategy_))
                           - Btc.STARTING_BTC).
    { unfold Btc.emptyResult, Btc.STARTING_BTC. cbn [Btc.finalBtc Btc.btcProfit].
      split; lra. }
    destruct allAltCandles as [|e es]; [exact Hempty|].
    destruct (Btc.timelineOf (e :: es)); [exact Hempty|].
    unfold Btc.resultOf. cbn [Btc.finalBtc Btc.btcProfit].
    split; [exact Hfinal|reflexivity]. }
  destruct Hres as [Hb Hp]. split; [exact Hb|]. rewrite Hp. lra.
Qed.

(** ** The searches of the BTC engine on sorted arrays *)

Lemma sorted_nth_mono (keys : list Z) :
  StronglySorted Z.le keys ->
  forall i j, (i <= j < List.length keys)%nat -> (nth i keys 0 <= nth j keys 0)%Z.
Proof.
  induction 1 as [|k ks Hs IH Hall]; intros i j Hij.
  - cbn [List.length] in Hij. lia.
  - destruct j as [|j]; [assert (i = 0%nat) by lia; subst; cbn; lia|].
    destruct i as [|i]; cbn [nth List.length] in *.
    + rewrite Forall_forall in Hall. apply Hall. apply nth_In. lia.
    + apply IH. lia.
Qed.

Lemma keyAtOf_mono (keys : list Z) :
  StronglySorted Z.le keys ->
  forall i j, (0 <= i <= j)%Z -> (j < Z.of_nat (List.length keys))%Z ->
              (Btc.keyAtOf keys i <= Btc.keyAtOf keys j)%Z.
Proof.
  intros Hs i j Hij Hj. unfold Btc.keyAtOf. apply sorted_nth_mono; [exact Hs|]. lia.
Qed.

Section Searches.
Variable keyAt : Z -> Z.
Variable len : Z.
Variable target : Z.
Hypothesis mono : forall i j, (0 <= i <= j)%Z -> (j < len)%Z -> (keyAt i <= keyAt j)%Z.

Lemma lowerBound_spec (fuel : nat) (lo hi : Z) :
  (hi - lo < Z.of_nat fuel)%Z -> (0 <= lo <= hi)%Z -> (hi < len)%Z ->
  (forall j, 0 <= j < lo -> keyAt j < target)%Z ->
  (hi < len - 1 -> target <= keyAt hi)%Z ->
  let r := Btc.lowerBound keyAt target fuel lo hi in
  (lo <= r <= hi)%Z
  /\ (forall j, 0 <= j < r -> keyAt j < target)%Z
  /\ (r < len - 1 -> forall j, r <= j < len -> target <= keyAt j)%Z.
Proof.
  revert lo hi. induction fuel as [|fuel IH]; intros lo hi Hfuel Hlo Hhi HA HC; cbv zeta.
  - lia.
  - cbn [Btc.lowerBound]. destruct (Z.ltb_spec lo hi) as [Hlt|Hge].
    + pose proof (shiftr1_bounds lo hi Hlt) as Hmid. cbv zeta.
      destruct (Z.ltb_spec (keyAt (Z.shiftr (lo + hi) 1)) target) as [Hk|Hk].
      * destruct (IH (Z.shiftr (lo + hi) 1 + 1)%Z hi) as (H1 & H2 & H3);
          [lia|lia|lia| |exact HC|].
        -- intros j Hj.
           assert (keyAt j <= keyAt (Z.shiftr (lo + hi) 1))%Z by (apply mono; lia). lia.
        -- split; [lia|]. split; assumption.
      * destruct (IH lo (Z.shiftr (lo + hi) 1)) as (H1 & H2 & H3);
          [lia|lia|lia|exact HA|intros _; exact Hk|].
        split; [lia|]. split; assumption.
    + assert (lo = hi) by lia. subst hi. split; [lia|]. split; [exact HA|].
      intros Hr j Hj. specialize (HC Hr).
      assert (keyAt lo <= keyAt j)%Z by (apply mono; lia). lia.
Qed.

Lemma lastAtOrBefore_spec (fuel : nat) (lo hi bestIdx : Z) :
  (hi - lo + 1 < Z.of_nat fuel)%Z -> (0 <= lo)%Z -> (hi < len)%Z -> (lo <= hi + 1)%Z ->
  (forall j, 0 <= j < lo -> keyAt j <= target)%Z ->
  (forall j, hi < j < len -> target < keyAt j)%Z ->
  bestIdx = (lo - 1)%Z ->
  let r := Btc.lastAtOrBefore keyAt target fuel lo hi bestIdx in
  (-1 <= r < len)%Z
  /\ (forall j, 0 <= j <= r -> keyAt j <= target)%Z
  /\ (forall j, r < j < len -> target < keyAt j)%Z.
Proof.
  revert lo hi bestIdx.
  induction fuel as [|fuel IH]; intros lo hi bestIdx Hfuel Hlo Hhi Hle HA HB Hbest;
    cbv zeta.
  - lia.
  - cbn [Btc.lastAtOrBefore]. destruct (Z.leb_spec lo hi) as [Hin|Hout].
    + assert (Hmid : (lo <= Z.shiftr (lo + hi) 1 <= hi)%Z).
      { destruct (Z.eq_dec lo hi) as [->|Hne].
        - rewrite Z.shiftr_div_pow2 by lia. change (2 ^ 1)%Z with 2%Z.
          replace (hi + hi)%Z with (hi * 2)%Z by lia. rewrite Z.div_mul by lia. lia.
        - pose proof (shiftr1_bounds lo hi ltac:(lia)). lia. }
      cbv zeta.
      destruct (Z.leb_spec (keyAt (Z.shiftr (lo + hi) 1)) target) as [Hk|Hk].
      * apply IH; try lia; [|exact HB].
        intros j Hj.
        assert (keyAt j <= keyAt (Z.shiftr (lo + hi) 1))%Z by (apply mono; lia). lia.
      * apply IH; try lia; [exact HA|].
        intros j Hj. destruct (Z.le_gt_cases j hi) as [Hjh|Hjh]; [|apply HB; lia].
        assert (keyAt (Z.shiftr (lo + hi) 1) <= keyAt j)%Z by (apply mono; lia). lia.
    + subst bestIdx. split; [lia|]. split.
      * intros j Hj. apply HA. lia.
      * intros j Hj. apply HB. lia.
Qed.
End Searches.

(** X15.  On an array sorted in ascending order [binarySearchClosest]
    answers [-1] for the empty array and otherwise the index of an element
    closest to the target: no element of the array is nearer.
    [findClosestCandleIndex] answers the same index over the timestamps of
    the candles. *)
Theorem closest_index_is_nearest (keys : list Z) (target : Z)
    (Hsorted : StronglySorted Z.le keys) :
  match keys with
  | [] => Btc.binarySearchClosest keys target = (-1)%Z
  | _ =>
      exists i,
        Btc.binarySearchClosest keys target = Z.of_nat i
        /\ (i < List.length keys)%nat
        /\ (forall j, (j < List.length keys)%nat ->
              (Z.abs (nth i keys 0 - target) <= Z.abs (nth j keys 0 - target))%Z)
        /\ (forall candles, map Btc.timestamp candles = keys ->
              Btc.findClosestCandleIndex candles target = Z.of_nat i)
  end.
Proof.
  destruct keys as [|k0 ks] eqn:Ekeys; [reflexivity|]. rewrite <- Ekeys in *.
  assert (Hlen : (0 < Z.of_nat (List.length keys))%Z) by (rewrite Ekeys; cbn; lia).
  set (len := Z.of_nat (List.length keys)) in *.
  destruct (lowerBound_spec (Btc.keyAtOf keys) len target
              (fun i j Hij Hj => keyAtOf_mono keys Hsorted i j Hij Hj)
              (List.length keys) 0%Z (len - 1)%Z) as (H1 & H2 & H3);
    [unfold len; lia|lia|lia|intros j Hj; lia|intro; lia|].
  set (lo := Btc.lowerBound (Btc.keyAtOf keys) target (List.length keys) 0%Z (len - 1)%Z)
    in *.
  assert (Hunfold : Btc.closestIndex keys target
            = if (lo =? 0)%Z then 0%Z
              else if (lo >=? len)%Z then (len - 1)%Z
              else if (Z.abs (Btc.keyAtOf keys (lo - 1) - target)
                       <=? Z.abs (Btc.keyAtOf keys lo - target))%Z
                   then (lo - 1)%Z else lo).
  { unfold Btc.closestIndex. rewrite Ekeys at 1. reflexivity. }
  assert (Hres : exists i, Btc.closestIndex keys target = Z.of_nat i
                   /\ (i < List.length keys)%nat
                   /\ (forall j, (j < List.length keys)%nat ->
                         (Z.abs (nth i keys 0 - target)
                          <= Z.abs (nth j keys 0 - target))%Z)).
  { rewrite Hunfold.
    assert (Hkey : forall j, (j < List.length keys)%nat ->
               nth j keys 0%Z = Btc.keyAtOf keys (Z.of_nat j)).
    { intros j _. unfold Btc.keyAtOf. rewrite Nat2Z.id. reflexivity. }
    assert (Hmono := fun i j Hij Hj => keyAtOf_mono keys Hsorted i j Hij Hj).
    fold len in Hmono.
    destruct (Z.eqb_spec lo 0) as [E0|E0].
    - exists 0%nat. split; [reflexivity|]. split; [unfold len in Hlen; lia|].
      intros j Hj. rewrite !Hkey by (unfold len in *; lia).
      destruct (Z.eq_dec len 1) as [E1|E1].
      + assert (j = 0%nat) by (unfold len in E1; lia). subst j. lia.
      + assert (Hall := H3 ltac:(lia)).
        pose proof (Hall 0%Z ltac:(lia)). pose proof (Hall (Z.of_nat j) ltac:(unfold len; lia)).
        pose proof (Hmono 0%Z (Z.of_nat j) ltac:(lia) ltac:(unfold len; lia)).
        change (Z.of_nat 0) with 0%Z. lia.
    - destruct (Z.geb_spec lo len) as [E1|E1]; [lia|].
      assert (Hprev : (Btc.keyAtOf keys (lo - 1) < target)%Z) by (apply H2; lia).
      assert (Hbelow : forall j, (0 <= j < lo)%Z ->
                 (Btc.keyAtOf keys j <= Btc.keyAtOf keys (lo - 1))%Z).
      { intros j Hj. apply Hmono; lia. }
      assert (Habove : forall j, (lo <= j < len)%Z ->
                 (Z.abs (Btc.keyAtOf keys lo - target)
                  <= Z.abs (Btc.keyAtOf keys j - target))%Z).
      { intros j Hj. destruct (Z.eq_dec lo (len - 1)) as [El|El].
        - assert (j = lo) by lia. subst j. lia.
        - pose proof (H3 ltac:(lia) lo ltac:(lia)).
          pose proof (Hmono lo j ltac:(lia) ltac:(lia)). lia. }
      destruct (Z.leb_spec (Z.abs (Btc.keyAtOf keys (lo - 1) - target))
                  (Z.abs (Btc.keyAtOf keys lo - target))) as [Ed|Ed].
      + exists (Z.to_nat (lo - 1)). split; [lia|]. split; [unfold len in *; lia|].
        intros j Hj. rewrite !Hkey by (unfold len in *; lia).
        rewrite Z2Nat.id by lia.
        destruct (Z.lt_ge_cases (Z.of_nat j) lo) as [Hjl|Hjl].
        * pose proof (Hbelow (Z.of_nat j) ltac:(lia)).
          pose proof (H2 (Z.of_nat j) ltac:(lia)). lia.
        * pose proof (Habove (Z.of_nat j) ltac:(unfold len; lia)). lia.
      + exists (Z.to_nat lo). split; [lia|]. split; [unfold len in *; lia|].
        intros j Hj. rewrite !Hkey by (unfold len in *; lia).
        rewrite Z2Nat.id by lia.
        destruct (Z.lt_ge_cases (Z.of_nat j) lo) as [Hjl|Hjl].
        * pose proof (Hbelow (Z.of_nat j) ltac:(lia)).
          pose proof (H2 (Z.of_nat j) ltac:(lia)). lia.
        * apply Habove. unfold len. lia. }
  destruct Hres as (i & Hi & Hlt & Hnear). exists i.
  split; [exact Hi|]. split; [exact Hlt|]. split; [exact Hnear|].
  intros candles Hc. unfold Btc.findClosestCandleIndex. rewrite Hc. exact Hi.
Qed.

Lemma closest_index_is_nearest_witness :
  exists i,
    Btc.binarySearchClosest [10; 20; 30]%Z 24%Z = Z.of_nat i
    /\ (i < 3)%nat
    /\ (forall j, (j < 3)%nat ->
          (Z.abs (nth i [10; 20; 30] 0 - 24) <= Z.abs (nth j [10; 20; 30] 0 - 24))%Z)
    /\ (forall candles, map Btc.timestamp candles = [10; 20; 30]%Z ->
          Btc.findClosestCandleIndex candles 24%Z = Z.of_nat i).
Proof.
  apply (closest_index_is_nearest [10; 20; 30]%Z 24%Z).
  repeat constructor; lia.
Defined.

(** X16.  On candles sorted by timestamp [findRatioAtTimestamp] answers the
    close of the last candle that is not after the timestamp asked for; when
    every candle is after it, the close of the first candle; and zero when
    there is no candle at all. *)
Theorem ratio_at_timestamp_is_last_close_before (candles : list Btc.AltBtcCandle)
    (ts : Z) (Hsorted : StronglySorted Z.le (map Btc.timestamp candles)) :
  match candles with
  | [] => Btc.findRatioAtTimestamp candles ts = 0
  | c0 :: _ =>
      ((ts < Btc.timestamp c0)%Z
       /\ Forall (fun c => (ts < Btc.timestamp c)%Z) candles
       /\ Btc.findRatioAtTimestamp candles ts = Btc.close c0)
      \/ (exists i c,
            nth_error candles i = Some c
            /\ (Btc.timestamp c <= ts)%Z
            /\ (forall j c', nth_error candles j = Some c' ->
                  (i < j)%nat -> (ts < Btc.timestamp c')%Z)
            /\ Btc.findRatioAtTimestamp candles ts = Btc.close c)
  end.
Proof.
  destruct candles as [|c0 cs] eqn:Ec; [reflexivity|]. rewrite <- Ec in *.
  set (keys := map Btc.timestamp candles) in *.
  set (len := Z.of_nat (List.length candles)).
  assert (Hlk : List.length keys = List.length candles) by (apply length_map).
  assert (Hlen : (0 < len)%Z) by (unfold len; rewrite Ec; cbn; lia).
  assert (Hmono : forall i j, (0 <= i <= j)%Z -> (j < len)%Z ->
            (Btc.keyAtOf keys i <= Btc.keyAtOf keys j)%Z).
  { intros i j Hij Hj. apply keyAtOf_mono; [exact Hsorted|exact Hij|].
    rewrite Hlk. exact Hj. }
  destruct (lastAtOrBefore_spec (Btc.keyAtOf keys) len ts Hmono
              (S (List.length candles)) 0%Z (len - 1)%Z (-1)%Z) as (H1 & H2 & H3);
    [unfold len; lia|lia|lia|lia|intros j Hj; lia|intros j Hj; lia|reflexivity|].
  set (best := Btc.lastAtOrBefore (Btc.keyAtOf keys) ts (S (List.length candles))
                 0%Z (len - 1)%Z (-1)%Z) in *.
  assert (Hunfold : Btc.findRatioAtTimestamp candles ts
            = if (best <? 0)%Z then Btc.close c0
              else Btc.close (nth (Z.to_nat best) candles c0)).
  { unfold Btc.findRatioAtTimestamp. rewrite Ec at 1. reflexivity. }
  assert (Hkey : forall j c, nth_error candles j = Some c ->
            Btc.keyAtOf keys (Z.of_nat j) = Btc.timestamp c).
  { intros j c Hj. unfold Btc.keyAtOf, keys. rewrite Nat2Z.id.
    rewrite (nth_indep _ 0%Z (Btc.timestamp c)).
    - rewrite map_nth. f_equal. apply nth_error_nth. exact Hj.
    - rewrite length_map. apply nth_error_Some. congruence. }
  rewrite Hunfold. destruct (Z.ltb_spec best 0) as [Hneg|Hpos].
  - left.
    assert (Hall : forall j c, nth_error candles j = Some c -> (ts < Btc.timestamp c)%Z).
    { intros j c Hj. rewrite <- (Hkey j c Hj). apply H3.
      assert (j < List.length candles)%nat by (apply nth_error_Some; congruence).
      unfold len. lia. }
    split; [|split; [|reflexivity]].
    + apply (Hall 0%nat). rewrite Ec. reflexivity.
    + apply Forall_forall. intros c Hc. apply In_nth_error in Hc.
      destruct Hc as [j Hj]. apply (Hall j c Hj).
  - right.
    assert (Hin : (Z.to_nat best < List.length candles)%nat) by (unfold len in H1; lia).
    destruct (nth_error candles (Z.to_nat best)) as [c|] eqn:Enth;
      [|apply nth_error_None in Enth; lia].
    exists (Z.to_nat best), c. split; [exact Enth|]. split; [|split].
    + rewrite <- (Hkey _ _ Enth). apply H2. lia.
    + intros j c' Hj Hlt. rewrite <- (Hkey j c' Hj). apply H3.
      assert (j < List.length candles)%nat by (apply nth_error_Some; congruence).
      unfold len. lia.
    + f_equal. apply nth_error_nth. exact Enth.
Qed.

Lemma ratio_at_timestamp_is_last_close_before_witness :
  ((25 < 10)%Z
   /\ Forall (fun c => (25 < Btc.timestamp c)%Z) risingCandles
   /\ Btc.findRatioAtTimestamp risingCandles 25 = 1)
  \/ (exists i c,
        nth_error risingCandles i = Some c
        /\ (Btc.timestamp c <= 25)%Z
        /\ (forall j c', nth_error risingCandles j = Some c' ->
              (i < j)%nat -> (25 < Btc.timestamp c')%Z)
        /\ Btc.findRatioAtTimestamp risingCandles 25 = Btc.close c).
Proof.
  apply (ratio_at_timestamp_is_last_close_before risingCandles 25%Z).
  cbn. repeat constructor; lia.
Defined.

(** ** The synthetic ALT/BTC candles *)

Section SortByKey.
Context {A : Type} (key : A -> Z).

Lemma sortInsert_by_key_sorted (x : A) (l : list A) :
  StronglySorted (fun a b => (key a <= key b)%Z) l ->
  StronglySorted (fun a b => (key a <= key b)%Z)
    (sortInsert (fun a b => Z.compare (key a) (key b)) x l).
Proof.
  induction 1 as [|y rest Hs IH Hall]; cbn [sortInsert].
  - constructor; constructor.
  - destruct (Z.compare_spec (key x) (key y)) as [Heq|Hlt|Hgt].
    + constructor; [constructor; assumption|].
      constructor; [lia|]. eapply Forall_impl; [|exact Hall].
      intros a Ha. cbv beta in *. lia.
    + constructor; [constructor; assumption|].
      constructor; [lia|]. eapply Forall_impl; [|exact Hall].
      intros a Ha. cbv beta in *. lia.
    + constructor; [exact IH|]. apply Forall_forall. intros a Ha.
      apply sortInsert_in in Ha. destruct Ha as [->|Ha]; [lia|].
      rewrite Forall_forall in Hall. apply Hall. exact Ha.
Qed.

Lemma jsSort_by_key_sorted (l : list A) :
  StronglySorted (fun a b => (key a <= key b)%Z)
    (jsSort (fun a b => Z.compare (key a) (key b)) l).
Proof.
  unfold jsSort. induction l as [|x l IH]; cbn [fold_right].
  - constructor.
  - apply sortInsert_by_key_sorted. exact IH.
Qed.

Lemma sorted_prefix_of_combine {B : Type} (l : list A) (l' : list B) :
  StronglySorted (fun a b => (key a <= key b)%Z) l ->
  StronglySorted Z.le (map (fun ab => key (fst ab)) (combine l l')).
Proof.
  intro Hs. revert l'. induction Hs as [|x l Hs IH Hall]; intro l'.
  - constructor.
  - destruct l' as [|y l']; cbn [combine map]; [constructor|].
    constructor; [apply IH|]. apply Forall_forall. intros k Hk.
    apply in_map_iff in Hk. destruct Hk as ([a b] & <- & Hin).
    apply in_combine_l in Hin. rewrite Forall_forall in Hall. cbn [fst].
    apply Hall. exact Hin.
Qed.
End SortByKey.

Lemma btcMap_get (l : list Candle) (m : list (Z * Candle)) (ts : Z) (c : Candle) :
  JsMap.get Z.eqb (fold_left (fun m c => JsMap.set Z.eqb m (raw_timestamp c) c) l m) ts
  = Some c ->
  (In c l /\ raw_timestamp c = ts) \/ JsMap.get Z.eqb m ts = Some c.
Proof.
  revert m. induction l as [|x l IH]; intro m; cbn [fold_left]; intro H.
  - right. exact H.
  - apply IH in H. destruct H as [[Hin Hts]|H].
    + left. split; [right; exact Hin|exact Hts].
    + rewrite JsMap_get_set in H. destruct (Z.eqb_spec (raw_timestamp x) ts) as [E|E].
      * inversion H; subst. left. split; [left; reflexivity|reflexivity].
      * right. exact H.
Qed.

Lemma attachFunding_keeps (fundingRates : list Btc.FundingRate) (c : Btc.AltBtcCandle) :
  Btc.timestamp (Btc.attachFunding fundingRates c) = Btc.timestamp c
  /\ Btc.altSymbol (Btc.attachFunding fundingRates c) = Btc.altSymbol c
  /\ forall alt btc, quotientOf alt btc c ->
                     quotientOf alt btc (Btc.attachFunding fundingRates c).
Proof.
  unfold Btc.attachFunding. cbv zeta.
  match goal with |- context [if ?b then _ else _] => destruct b end;
    [|split; [reflexivity|split; [reflexivity|intros alt btc H; exact H]]].
  match goal with |- context [nth_error ?l ?i] => destruct (nth_error l i) end;
    split; try reflexivity; split; try reflexivity; intros alt btc H; exact H.
Qed.

(** X17.  What [buildAltBtcCandles] answers, when it answers an array: the
    candles come in ascending order of timestamp and carry the symbol asked
    for, and each is the quotient of an alt candle by a BTC candle of the
    same timestamp whose four prices are not zero. *)
Theorem ratio_candles_are_sorted_quotients
    (loadCandles : string -> string -> option (list Candle))
    (loadFundingRates : string -> option (list Btc.FundingRate))
    (calculateIndicators : list Candle -> list CandleWithIndicators)
    (sym tf : string) (result : list Btc.AltBtcCandle)
    (Hbuilt : Btc.buildAltBtcCandles loadCandles loadFundingRates calculateIndicators
                sym tf = Some result) :
  StronglySorted Z.le (map Btc.timestamp result)
  /\ Forall (fun c =>
               Btc.altSymbol c = sym
               /\ exists alt btc,
                    In alt (candlesOf loadCandles sym tf)
                    /\ In btc (candlesOf loadCandles "BTCUSDT" tf)
                    /\ quotientOf alt btc c)
            result.
Proof.
  unfold Btc.buildAltBtcCandles in Hbuilt. unfold candlesOf.
  destruct (loadCandles "BTCUSDT" tf) as [[|b0 bs]|]; try discriminate.
  destruct (loadCandles sym tf) as [[|a0 as_]|]; try discriminate.
  cbv zeta in Hbuilt.
  set (btcMap := fold_left (fun m c => JsMap.set Z.eqb m (raw_timestamp c) c)
                   (b0 :: bs) []) in *.
  match type of Hbuilt with
  | context [flat_map ?f (a0 :: as_)] => set (rows := flat_map f (a0 :: as_)) in *
  end.
  assert (Hrows : forall r, In r rows ->
            exists alt btc, In alt (a0 :: as_) /\ In btc (b0 :: bs)
              /\ r = Btc.ratioRowOf alt btc
              /\ raw_timestamp btc = raw_timestamp alt
              /\ ~ raw_open btc == 0 /\ ~ raw_close btc == 0
              /\ ~ raw_high btc == 0 /\ ~ raw_low btc == 0).
  { intros r Hr. unfold rows in Hr. apply in_flat_map in Hr.
    destruct Hr as (alt & Halt & Hr).
    destruct (JsMap.get Z.eqb btcMap (raw_timestamp alt)) as [btc|] eqn:Eget; [|destruct Hr].
    apply btcMap_get in Eget. destruct Eget as [[Hbtc Hts]|Hnone]; [|discriminate].
    destruct (Qeq_bool (raw_open btc) 0) eqn:E1; [destruct Hr|].
    destruct (Qeq_bool (raw_close btc) 0) eqn:E2; [destruct Hr|].
    destruct (Qeq_bool (raw_high btc) 0) eqn:E3; [destruct Hr|].
    destruct (Qeq_bool (raw_low btc) 0) eqn:E4; [destruct Hr|].
    cbn [orb] in Hr. destruct Hr as [Hr|[]].
    exists alt, btc. split; [exact Halt|]. split; [exact Hbtc|].
    split; [symmetry; exact Hr|]. split; [exact Hts|].
    repeat split; intro H0; apply Qeq_bool_iff in H0; congruence. }
  clearbody rows. destruct rows as [|r0 rs]; [discriminate|].
  cbv iota in Hbuilt. set (rows := r0 :: rs) in *. clearbody rows. clear r0 rs.
  set (sorted := jsSort (fun a b => Z.compare (Btc.rr_timestamp a) (Btc.rr_timestamp b))
                   rows) in *.
  match type of Hbuilt with
  | context [combine sorted ?l] => set (snaps := l) in *
  end.
  match type of Hbuilt with
  | context [map ?f (combine sorted snaps)] =>
      set (mk := f) in *
  end.
  set (plain := map mk (combine sorted snaps)) in *.
  assert (Hplain_sorted : StronglySorted Z.le (map Btc.timestamp plain)).
  { unfold plain, mk. rewrite map_map. cbn [Btc.timestamp].
    apply (sorted_prefix_of_combine Btc.rr_timestamp).
    apply jsSort_by_key_sorted. }
  assert (Hplain_rows : Forall (fun c =>
             Btc.altSymbol c = sym
             /\ exists alt btc, In alt (a0 :: as_) /\ In btc (b0 :: bs)
                  /\ quotientOf alt btc c) plain).
  { apply Forall_forall. intros c Hc. unfold plain in Hc. apply in_map_iff in Hc.
    destruct Hc as ([r s] & <- & Hin). apply in_combine_l in Hin.
    apply jsSort_in in Hin. destruct (Hrows r Hin) as (alt & btc & Ha & Hb & -> & Hts & Hz).
    split; [reflexivity|]. exists alt, btc. split; [exact Ha|]. split; [exact Hb|].
    unfold quotientOf, mk. cbn. destruct Hz as (Z1 & Z2 & Z3 & Z4).
    repeat split; try reflexivity; try assumption. }
  assert (Hres : result = plain
                 \/ exists frs, result = map (Btc.attachFunding frs) plain).
  { destruct (loadFundingRates sym) as [[|f0 fs]|].
    - left. congruence.
    - right. exists (f0 :: fs). congruence.
    - left. congruence. }
  destruct Hres as [->|(frs & ->)]; [split; assumption|].
  split.
  - rewrite map_map.
    rewrite (map_ext _ Btc.timestamp); [exact Hplain_sorted|].
    intro c. apply attachFunding_keeps.
  - apply Forall_forall. intros c Hc. apply in_map_iff in Hc.
    destruct Hc as (c0 & <- & Hin). rewrite Forall_forall in Hplain_rows.
    destruct (Hplain_rows c0 Hin) as (Hsym & alt & btc & Ha & Hb & Hq).
    destruct (attachFunding_keeps frs c0) as (_ & Hs & Hkeep).
    split; [congruence|]. exists alt, btc. split; [exact Ha|]. split; [exact Hb|].
    apply Hkeep. exact Hq.
Qed.

Lemma ratio_candles_are_sorted_quotients_witness :
  StronglySorted Z.le (map Btc.timestamp offsetRatioCandles)
  /\ Forall (fun c =>
               Btc.altSymbol c = "ETHUSDT"%string
               /\ exists alt btc,
                    In alt (candlesOf Runtime.offsetFeed "ETHUSDT" "1h")
                    /\ In btc (candlesOf Runtime.offsetFeed "BTCUSDT" "1h")
                    /\ quotientOf alt btc c)
            offsetRatioCandles.
Proof.
  apply (ratio_candles_are_sorted_quotients Runtime.offsetFeed Runtime.noFunding
           Runtime.calculateIndicators "ETHUSDT" "1h" offsetRatioCandles).
  vm_compute. reflexivity.
Defined.

Lemma JsMap_set_fresh {V : Type} (m : list (string * V)) (k : string) (v : V) :
  ~ In k (JsMap.keys m) -> JsMap.set String.eqb m k v = m ++ [(k, v)].
Proof.
  unfold JsMap.keys. induction m as [|[k0 v0] m IH]; cbn [JsMap.set map fst app]; intro Hk.
  - reflexivity.
  - destruct (String.eqb_spec k0 k) as [E|E].
    + exfalso. apply Hk. left. exact E.
    + rewrite IH; [reflexivity|]. intro Hin. apply Hk. right. exact Hin.
Qed.

Lemma JsMap_get_In {V : Type} (m : list (string * V)) (k : string) (v : V) :
  JsMap.get String.eqb m k = Some v -> In (k, v) m.
Proof.
  induction m as [|[k0 v0] m IH]; cbn [JsMap.get]; intro H; [discriminate|].
  destruct (String.eqb_spec k0 k) as [E|E].
  - inversion H; subst. left. reflexivity.
  - right. apply IH. exact H.
Qed.

Lemma altEntry_keys (build : string -> option (list Btc.AltBtcCandle))
    (syms : list string) :
  JsMap.keys (flat_map (altEntry build) syms) = filter (hasRatioCandles build) syms.
Proof.
  unfold JsMap.keys. induction syms as [|s syms IH]; cbn [flat_map filter]; [reflexivity|].
  rewrite map_app, IH. unfold altEntry, hasRatioCandles.
  destruct (build s) as [[|c0 cs]|]; reflexivity.
Qed.

Lemma buildAll_fold (build : string -> option (list Btc.AltBtcCandle))
    (syms : list string) (m : Btc.AltCandleMap) :
  NoDup syms -> (forall s, In s syms -> ~ In s (JsMap.keys m)) ->
  fold_left
    (fun result sym =>
       match build sym with
       | Some (c0 :: cs) => JsMap.set String.eqb result sym (c0 :: cs)
       | _ => result
       end)
    syms m
  = m ++ flat_map (altEntry build) syms.
Proof.
  intro Hnd. revert m. induction Hnd as [|s syms Hs Hnd IH]; intros m Hfresh;
    cbn [fold_left flat_map].
  - rewrite app_nil_r. reflexivity.
  - assert (Hrest : forall m' : Btc.AltCandleMap, (forall k, In k (JsMap.keys m') -> In k (JsMap.keys m) \/ k = s) ->
                      forall s', In s' syms -> ~ In s' (JsMap.keys m')).
    { intros m' Hm' s' Hs' Hin. destruct (Hm' s' Hin) as [H|H].
      - apply (Hfresh s'); [right; exact Hs'|exact H].
      - subst s'. apply Hs. exact Hs'. }
    unfold altEntry at 1. destruct (build s) as [[|c0 cs]|].
    + cbn [app]. apply IH. apply Hrest. intros k Hk. left. exact Hk.
    + rewrite IH.
      * rewrite JsMap_set_fresh by (apply Hfresh; left; reflexivity).
        rewrite <- app_assoc. reflexivity.
      * apply Hrest. intros k Hk.
        rewrite JsMap_set_fresh in Hk by (apply Hfresh; left; reflexivity).
        unfold JsMap.keys in Hk. rewrite map_app in Hk. apply in_app_or in Hk.
        destruct Hk as [Hk|[Hk|[]]]; [left; exact Hk|right; symmetry; exact Hk].
    + cbn [app]. apply IH. apply Hrest. intros k Hk. left. exact Hk.
Qed.

Lemma ALT_SYMBOLS_NoDup : NoDup Btc.ALT_SYMBOLS.
Proof.
  unfold Btc.ALT_SYMBOLS.
  repeat (constructor; [cbn [In]; intuition discriminate|]). constructor.
Qed.

(** X18.  [buildAllAltBtcCandles] keeps, in the order of [ALT_SYMBOLS], the
    symbols for which [buildAltBtcCandles] answers a non-empty array, each
    once and each with that array; a symbol without candles has no entry. *)
Theorem all_alt_candles_are_the_built_ones
    (loadCandles : string -> string -> option (list Candle))
    (loadFundingRates : string -> option (list Btc.FundingRate))
    (calculateIndicators : list Candle -> list CandleWithIndicators)
    (tf : string) :
  let build sym :=
    Btc.buildAltBtcCandles loadCandles loadFundingRates calculateIndicators sym tf in
  let all := Btc.buildAllAltBtcCandles loadCandles loadFundingRates calculateIndicators tf in
  JsMap.keys all = filter (hasRatioCandles build) Btc.ALT_SYMBOLS
  /\ NoDup (JsMap.keys all)
  /\ forall sym candles,
       JsMap.get String.eqb all sym = Some candles
       <-> In sym Btc.ALT_SYMBOLS /\ candles <> [] /\ build sym = Some candles.
Proof.
  cbv zeta.
  set (build := fun sym =>
         Btc.buildAltBtcCandles loadCandles loadFundingRates calculateIndicators sym tf).
  assert (Hall : Btc.buildAllAltBtcCandles loadCandles loadFundingRates
                   calculateIndicators tf
                 = flat_map (altEntry build) Btc.ALT_SYMBOLS).
  { unfold Btc.buildAllAltBtcCandles.
    apply (buildAll_fold build Btc.ALT_SYMBOLS []); [exact ALT_SYMBOLS_NoDup|].
    intros s _ []. }
  rewrite Hall.
  assert (Hnd : NoDup (JsMap.keys (flat_map (altEntry build) Btc.ALT_SYMBOLS))).
  { rewrite altEntry_keys. apply NoDup_filter. exact ALT_SYMBOLS_NoDup. }
  split; [apply altEntry_keys|]. split; [exact Hnd|].
  intros sym candles. split.
  - intro Hget. apply JsMap_get_In in Hget. apply in_flat_map in Hget.
    destruct Hget as (s & Hs & Hin). unfold altEntry in Hin.
    destruct (build s) as [[|c0 cs]|] eqn:Eb; [destruct Hin| |destruct Hin].
    destruct Hin as [Hin|[]]. inversion Hin; subst.
    split; [exact Hs|]. split; [discriminate|exact Eb].
  - intros (Hs & Hne & Hb).
    apply (tally_get_of_In String.eqb string_eqb_spec); [exact Hnd|].
    apply in_flat_map. exists sym. split; [exact Hs|].
    unfold altEntry. rewrite Hb. destruct candles as [|c0 cs]; [contradiction Hne; reflexivity|].
    left. reflexivity.
Qed.

(** ** The per-alt table of the BTC result *)

Lemma groupByAlt_is_tally (l : list Btc.BtcTrade) (m : list (string * list Btc.BtcTrade)) :
  fold_left groupByAlt l m
  = fold_left
      (tallyStep String.eqb (fun t => Btc.pos_altSymbol (Btc.trade_base t))
         (fun e t => e ++ [t]) [])
      l m.
Proof.
  revert m. induction l as [|t l IH]; intro m; cbn [fold_left]; [reflexivity|].
  rewrite IH. f_equal. unfold groupByAlt, tallyStep. cbv zeta.
  destruct (JsMap.get String.eqb m (Btc.pos_altSymbol (Btc.trade_base t))); reflexivity.
Qed.

Lemma fold_snoc_is_app {A : Type} (l e : list A) :
  fold_left (fun e t => e ++ [t]) l e = e ++ l.
Proof.
  revert e. induction l as [|x l IH]; intro e; cbn [fold_left].
  - rewrite app_nil_r. reflexivity.
  - rewrite IH, <- app_assoc. reflexivity.
Qed.

Lemma sortInsert_descending {A : Type} (key : A -> Q) (x : A) (l : list A) :
  StronglySorted (fun a b => key b <= key a) l ->
  StronglySorted (fun a b => key b <= key a)
    (sortInsert (fun a b => Qcompare (key b) (key a)) x l).
Proof.
  induction 1 as [|y rest Hs IH Hall]; cbn [sortInsert].
  - constructor; constructor.
  - destruct (Qcompare (key y) (key x)) eqn:E.
    + apply Qeq_alt in E. constructor; [constructor; assumption|].
      constructor; [lra|]. eapply Forall_impl; [|exact Hall].
      intros a Ha. cbv beta in *. lra.
    + apply Qlt_alt in E. constructor; [constructor; assumption|].
      constructor; [lra|]. eapply Forall_impl; [|exact Hall].
      intros a Ha. cbv beta in *. lra.
    + apply Qgt_alt in E. constructor; [exact IH|]. apply Forall_forall. intros a Ha.
      apply sortInsert_in in Ha. destruct Ha as [->|Ha]; [lra|].
      rewrite Forall_forall in Hall. apply Hall. exact Ha.
Qed.

(** X19.  The per-alt table of the BTC result has one row for each alt that
    has a trade and no other row; a row counts the trades of its alt, adds up
    their BTC P&L and gives the share of winners among them; the rows come
    in descending order of P&L. *)
Theorem alt_breakdown_tallies_and_ranks (trades_ : list Btc.BtcTrade) :
  let rows := Btc.buildAltBreakdown trades_ in
  StronglySorted (fun a b => Btc.ab_btcPnl b <= Btc.ab_btcPnl a) rows
  /\ NoDup (map Btc.ab_symbol rows)
  /\ (forall s, In s (map Btc.ab_symbol rows)
                <-> exists t, In t trades_ /\ Btc.pos_altSymbol (Btc.trade_base t) = s)
  /\ Forall (fun row =>
               let mine := tradesOfAlt (Btc.ab_symbol row) trades_ in
               Btc.ab_trades row = List.length mine
               /\ Btc.ab_btcPnl row = sumOf Btc.btcPnl mine
               /\ 0 <= Btc.ab_winRate row /\ Btc.ab_winRate row <= 100
               /\ Btc.ab_winRate row
                  = Usd.ratioPercent
                      (List.length (filter (fun t => Qgtb (Btc.btcPnl t) 0) mine))
                      (List.length mine))
            rows.
Proof.
  cbv zeta. unfold Btc.buildAltBreakdown. cbv zeta.
  change (fold_left _ trades_ (@nil (string * list Btc.BtcTrade)))
    with (fold_left groupByAlt trades_ []).
  rewrite groupByAlt_is_tally.
  set (grouped := fold_left
                    (tallyStep String.eqb
                       (fun t => Btc.pos_altSymbol (Btc.trade_base t))
                       (fun e t => e ++ [t]) []) trades_ []).
  assert (Hnd : NoDup (JsMap.keys grouped)).
  { apply tally_fold_NoDup; [exact string_eqb_spec|constructor]. }
  match goal with |- context [map ?f grouped] => set (row := f) end.
  assert (Hsym : forall kv, Btc.ab_symbol (row kv) = fst kv) by reflexivity.
  split; [|split; [|split]].
  - unfold jsSort. induction (map row grouped) as [|r rs IH]; cbn [fold_right].
    + constructor.
    + apply (sortInsert_descending Btc.ab_btcPnl). exact IH.
  - apply jsSort_NoDup_map. rewrite map_map.
    rewrite (map_ext _ fst) by exact Hsym. exact Hnd.
  - intro s. split.
    + intro Hin. apply in_map_iff in Hin. destruct Hin as (r & Hr & Hin).
      apply jsSort_in in Hin. apply in_map_iff in Hin. destruct Hin as (kv & Hkv & Hin).
      assert (Hkey : In s (JsMap.keys grouped)).
      { rewrite <- Hr, <- Hkv, Hsym. apply in_map. exact Hin. }
      apply (tally_fold_keys String.eqb _ _ _ string_eqb_spec) in Hkey.
      destruct Hkey as [[]|H]. exact H.
    + intro H.
      assert (Hkey : In s (JsMap.keys grouped)).
      { apply (tally_fold_keys String.eqb _ _ _ string_eqb_spec). right. exact H. }
      apply in_map_iff in Hkey. destruct Hkey as (kv & Hk & Hin).
      apply in_map_iff. exists (row kv). split; [rewrite Hsym; exact Hk|].
      apply jsSort_in. apply in_map. exact Hin.
  - apply Forall_forall. intros r Hr. apply jsSort_in in Hr. apply in_map_iff in Hr.
    destruct Hr as ([k v] & <- & Hin).
    apply (tally_get_of_In String.eqb string_eqb_spec) in Hin; [|exact Hnd].
    unfold grouped in Hin. rewrite (tally_fold_get String.eqb _ _ _ string_eqb_spec) in Hin.
    fold (tradesOfAlt k trades_) in Hin. cbn [JsMap.get] in Hin.
    assert (Hv : v = tradesOfAlt k trades_ /\ v <> []).
    { destruct (tradesOfAlt k trades_) as [|y ys]; [discriminate|].
      rewrite fold_snoc_is_app in Hin. cbn [app] in Hin.
      split; [congruence|]. intro Hnil. rewrite Hnil in Hin. discriminate. }
    destruct Hv as [Hv Hne]. unfold row.
    cbn [Btc.ab_symbol Btc.ab_trades Btc.ab_btcPnl Btc.ab_winRate fst snd].
    rewrite <- Hv. split; [reflexivity|]. split; [reflexivity|].
    change (if (0 <? List.length v)%nat
            then inject_Z (Z.of_nat (List.length (filter (fun t => Qgtb (Btc.btcPnl t) 0) v)))
                 / inject_Z (Z.of_nat (List.length v)) * 100
            else 0)
      with (Usd.ratioPercent (List.length (filter (fun t => Qgtb (Btc.btcPnl t) 0) v))
              (List.length v)).
    pose proof (percent_of_part _ _
                  (filter_length_le (fun t => Qgtb (Btc.btcPnl t) 0) v)) as [H0 H1].
    split; [exact H0|]. split; [exact H1|reflexivity].
Qed.

(** ** The BTC equity curve *)

Lemma calculateTotalEquity_ge (allAltCandles : Btc.AltCandleMap) (ts : Z)
    (positions : list Btc.BtcPosition) (available : Q) :
  Forall funded positions ->
  available <= Btc.calculateTotalEquity available positions allAltCandles ts.
Proof.
  intro Hall. unfold Btc.calculateTotalEquity.
  assert (Hgen : forall start, available <= start ->
            available <= fold_left
              (fun total pos =>
                 if negb (Btc.isOpen pos) then total
                 else
                   match JsMap.get String.eqb allAltCandles (Btc.pos_altSymbol pos) with
                   | None => total + Btc.btcAllocated pos
                   | Some [] => total + Btc.btcAllocated pos
                   | Some altCandles =>
                       let currentRatio := Btc.findRatioAtTimestamp altCandles ts in
                       if (Qle_bool currentRatio 0 || Qle_bool (Btc.entryRatio pos) 0)%bool
                       then total + Btc.btcAllocated pos
                       else
                         let ratioChange := currentRatio / Btc.entryRatio pos in
                         if Qle_bool (Btc.leverage pos) 1
                         then total + Btc.btcAllocated pos * ratioChange
                         else
                           let mtm :=
                             Btc.btcAllocated pos
                             * (1 + Btc.leverage pos * (ratioChange - 1)) in
                           total + Qmax mtm 0
                   end)
              positions start).
  { induction Hall as [|pos rest [_ Hpos] _ IH]; intros start Hstart; cbn [fold_left].
    - exact Hstart.
    - apply IH. destruct (negb (Btc.isOpen pos)); [exact Hstart|].
      destruct (JsMap.get String.eqb allAltCandles (Btc.pos_altSymbol pos))
        as [[|c0 cs]|]; try lra.
      cbv zeta.
      set (ratio := Btc.findRatioAtTimestamp (c0 :: cs) ts).
      destruct (Qle_bool ratio 0) eqn:E1; cbn [orb]; [lra|].
      destruct (Qle_bool (Btc.entryRatio pos) 0) eqn:E2; [lra|].
      apply Qle_bool_gt in E1. apply Qle_bool_gt in E2.
      destruct (Qle_bool (Btc.leverage pos) 1).
      + assert (0 < ratio / Btc.entryRatio pos).
        { apply Qlt_shift_div_l; [exact E2|lra]. }
        nra.
      + pose proof (Q.le_max_r
                      (Btc.btcAllocated pos
                       * (1 + Btc.leverage pos * (ratio / Btc.entryRatio pos - 1))) 0).
        lra. }
  apply Hgen. apply Qle_refl.
Qed.

Lemma btc_processAlts_curve (strategy_ : Btc.BtcStrategy) (rate : Q)
    (allAltCandles : Btc.AltCandleMap) (altIndexMaps : list (string * list (Z * nat)))
    (avg7d avg1d : Q) (ts : Z) (entries : list (string * list Btc.AltBtcCandle))
    (acc : Btc.Sim * Q) :
  let r := fold_left
             (Btc.processAlt strategy_ rate allAltCandles altIndexMaps avg7d avg1d ts)
             entries acc in
  Btc.sim_equityCurve (fst r) = Btc.sim_equityCurve (fst acc)
  /\ Btc.candelCounter (fst r) = Btc.candelCounter (fst acc).
Proof.
  cbv zeta. revert acc. induction entries as [|e es IH]; intro acc; cbn [fold_left].
  - split; reflexivity.
  - destruct (IH (Btc.processAlt strategy_ rate allAltCandles altIndexMaps avg7d avg1d ts
                    acc e)) as [H1 H2].
    rewrite H1, H2. clear IH H1 H2.
    unfold Btc.processAlt. destruct acc as [st price]. destruct e as [sym altCandles].
    cbn [fst].
    destruct (JsMap.get String.eqb altIndexMaps sym) as [indexMap|]; [|split; reflexivity].
    destruct (JsMap.get Z.eqb indexMap ts) as [candleIdx|]; [|split; reflexivity].
    destruct (nth_error altCandles candleIdx) as [currentCandle|]; [|split; reflexivity].
    cbv zeta.
    destruct (Btc.checkExits _ _ _ _ _ _ _ _ _ _ _) as [open1 led1].
    destruct (Btc.checkEntry _ _ _ _ _ _ _ _ _ _ _) as [[open2 available2] counter2].
    split; reflexivity.
Qed.

Lemma btc_processTimestamps_curve (strategy_ : Btc.BtcStrategy) (rate : Q)
    (allAltCandles : Btc.AltCandleMap) (altIndexMaps : list (string * list (Z * nat)))
    (all : list Z) (tss : list Z) (st : Btc.Sim) :
  (forall t, In t tss -> In t all) ->
  btcLedgerKept st -> Forall (soundPoint all) (Btc.sim_equityCurve st) ->
  Forall (soundPoint all)
    (Btc.sim_equityCurve
       (fold_left (Btc.processTimestamp strategy_ rate allAltCandles altIndexMaps)
          tss st)).
Proof.
  revert st. induction tss as [|t tss IH]; intros st Hsub Hkept Hcurve; cbn [fold_left].
  - exact Hcurve.
  - apply IH.
    + intros t' Ht'. apply Hsub. right. exact Ht'.
    + apply btc_processTimestamp_kept. exact Hkept.
    + pose proof (btc_processTimestamp_kept strategy_ rate allAltCandles altIndexMaps st t
                    Hkept) as Hkept1.
      unfold Btc.processTimestamp in *. cbv zeta in *.
      match goal with
      | |- context [fold_left ?f allAltCandles ?acc] =>
          pose proof (btc_processAlts_curve strategy_ rate allAltCandles altIndexMaps
                        (Btc.calculateAvgRatioTrend allAltCandles t 7)
                        (Btc.calculateAvgRatioTrend allAltCandles t 1) t allAltCandles acc)
            as Hsame;
          destruct (fold_left f allAltCandles acc) as [st1 price]
      end.
      cbv zeta in Hsame. cbn [fst Btc.sim_equityCurve] in Hsame.
      destruct Hsame as [Hsame _].
      destruct (Nat.eqb (Btc.candelCounter st1 mod Btc.EQUITY_RECORD_INTERVAL) 0);
        cbn [andb]; [|rewrite Hsame; exact Hcurve].
      destruct (Qgtb price 0) eqn:Eprice; [|rewrite Hsame; exact Hcurve].
      cbn [Btc.sim_equityCurve]. rewrite Hsame. apply Forall_app. split; [exact Hcurve|].
      constructor; [|constructor].
      destruct Hkept1 as (Hcash & Hfunded & _).
      cbn [andb Btc.availableBtc Btc.openPositions] in Hcash, Hfunded.
      pose proof (calculateTotalEquity_ge allAltCandles t (Btc.openPositions st1)
                    (Btc.availableBtc st1) Hfunded) as Hge.
      apply Qgtb_gt in Eprice.
      unfold soundPoint. cbn [Btc.btcEquity Btc.usdtEquity Btc.ep_timestamp].
      split; [lra|]. split; [|apply Hsub; left; reflexivity].
      apply Qmult_le_0_compat; lra.
Qed.

(** X20.  Every point of the BTC equity curve is taken at a timestamp of the
    timeline and is worth no less than nothing, in BTC and in USDT; the BTC
    value of the open positions, marked to market, never pulls the total
    below the free BTC. *)
Theorem btc_equity_curve_is_never_negative (strategy_ : Btc.BtcStrategy)
    (allAltCandles : Btc.AltCandleMap) (ts : Z) (st : Btc.Sim) :
  let b := Btc.runBtcBacktestOn allAltCandles strategy_ in
  Forall (soundPoint (Btc.timelineOf allAltCandles)) (Btc.equityCurve b)
  /\ (Forall funded (Btc.openPositions st) ->
      Btc.availableBtc st
      <= Btc.calculateTotalEquity (Btc.availableBtc st) (Btc.openPositions st)
           allAltCandles ts).
Proof.
  cbv zeta. split; [|apply calculateTotalEquity_ge].
  unfold Btc.runBtcBacktestOn.
  destruct allAltCandles as [|e es]; [constructor|].
  destruct (Btc.timelineOf (e :: es)) as [|t0 tl] eqn:Etl; [constructor|].
  rewrite <- Etl. unfold Btc.resultOf. cbn [Btc.equityCurve].
  unfold Btc.finalSim. cbv zeta.
  destruct (Btc.forceClose _ _ _ _ _ _) as [open1 led1]. cbn [Btc.sim_equityCurve].
  apply btc_processTimestamps_curve.
  - intros t Ht. exact Ht.
  - unfold btcLedgerKept, btcBooksKept, Btc.initialSim, Btc.STARTING_BTC.
    cbn [Btc.availableBtc Btc.openPositions Btc.completedTrades Btc.positionCounter
         map List.length].
    split; [lra|]. split; [constructor|]. split; [constructor|].
    split; [unfold Btc.MAX_CONCURRENT_POSITIONS; lia|reflexivity].
  - constructor.
Qed.

(** ** The batch runners *)

Lemma runBacktest_header (Math_sqrt : Q -> Q) (utcMonthKey : Z -> string)
    (localeCompare : string -> string -> comparison)
    (loadCandles : string -> string -> option (list Candle))
    (calculateIndicators : list Candle -> list CandleWithIndicators)
    (w : World) (cfg : BacktestConfig) :
  let r := Usd.runBacktest Math_sqrt utcMonthKey localeCompare loadCandles
             calculateIndicators w cfg in
  strategyName r = name (strategy cfg) /\ res_leverage r = cfg_leverage cfg
  /\ res_startingCapital r = startingCapital cfg.
Proof.
  cbv zeta. unfold Usd.runBacktest.
  destruct (Usd.simulate loadCandles calculateIndicators w cfg) as [done curve].
  repeat split.
Qed.

Lemma runBtcBacktest_name (loadCandles : string -> string -> option (list Candle))
    (loadFundingRates : string -> option (list Btc.FundingRate))
    (calculateIndicators : list Candle -> list CandleWithIndicators)
    (s : Btc.BtcStrategy) (tf : string) :
  Btc.strategyName (Btc.runBtcBacktest loadCandles loadFundingRates calculateIndicators s tf)
  = Btc.name s
  /\ Btc.startingBtc
       (Btc.runBtcBacktest loadCandles loadFundingRates calculateIndicators s tf)
     = Btc.STARTING_BTC.
Proof.
  unfold Btc.runBtcBacktest, Btc.runBtcBacktestOn.
  destruct (Btc.buildAllAltBtcCandles _ _ _ tf) as [|e es]; [split; reflexivity|].
  destruct (Btc.timelineOf (e :: es)); split; reflexivity.
Qed.

(** X21.  A batch answers one result for each pair of a strategy and a
    leverage, strategy by strategy and, within a strategy, in the order of
    the leverages (3 and 5 unless given); each result names its strategy and
    its leverage and starts from a capital of 500.  The BTC batch answers one
    result per strategy, in order, each starting from [STARTING_BTC]. *)
Theorem batch_results_follow_the_strategies
    (Math_sqrt : Q -> Q) (utcMonthKey : Z -> string)
    (localeCompare : string -> string -> comparison)
    (loadCandles : string -> string -> option (list Candle))
    (loadFundingRates : string -> option (list Btc.FundingRate))
    (calculateIndicators : list Candle -> list CandleWithIndicators)
    (worldAt : nat -> World)
    (symbols_ : list string) (strategies : list Strategy) (tf : string)
    (leverages : option (list Q)) (btcStrategies : list Btc.BtcStrategy) :
  let results :=
    Batch.runAllBacktests Math_sqrt utcMonthKey localeCompare loadCandles
      calculateIndicators worldAt symbols_ strategies tf leverages in
  let btcResults :=
    Batch.runAllBtcBacktests loadCandles loadFundingRates calculateIndicators
      btcStrategies tf in
  map (fun r => (strategyName r, res_leverage r)) results
  = flat_map (fun s => map (fun l => (name s, l)) (Batch.leveragesOr leverages)) strategies
  /\ Forall (fun r => res_startingCapital r = 500) results
  /\ map Btc.strategyName btcResults = map Btc.name btcStrategies
  /\ Forall (fun b => Btc.startingBtc b = Btc.STARTING_BTC) btcResults.
Proof.
  cbv zeta. unfold Batch.runAllBacktests, Batch.runAllBtcBacktests.
  set (run := fun n strategy_ leverage_ =>
         Usd.runBacktest Math_sqrt utcMonthKey localeCompare loadCandles
           calculateIndicators (worldAt n)
           (Batch.configOf symbols_ tf strategy_ leverage_)).
  assert (Hinner : forall s ls acc,
            map (fun r => (strategyName r, res_leverage r))
              (fold_left (fun results1 leverage_ =>
                            results1 ++ [run (List.length results1) s leverage_]) ls acc)
            = map (fun r => (strategyName r, res_leverage r)) acc
              ++ map (fun l => (name s, l)) ls
            /\ (Forall (fun r => res_startingCapital r = 500) acc ->
                Forall (fun r => res_startingCapital r = 500)
                  (fold_left (fun results1 leverage_ =>
                                results1 ++ [run (List.length results1) s leverage_])
                     ls acc))).
  { intros s ls. induction ls as [|l ls IH]; intro acc; cbn [fold_left map].
    - rewrite app_nil_r. split; [reflexivity|intro H; exact H].
    - destruct (IH (acc ++ [run (List.length acc) s l])) as [H1 H2].
      destruct (runBacktest_header Math_sqrt utcMonthKey localeCompare loadCandles
                  calculateIndicators (worldAt (List.length acc))
                  (Batch.configOf symbols_ tf s l)) as (Hn & Hl & Hc).
      split.
      + rewrite H1, map_app, <- app_assoc. cbn [map app]. unfold run.
        rewrite Hn, Hl. reflexivity.
      + intro Hacc. apply H2. apply Forall_app. split; [exact Hacc|].
        constructor; [exact Hc|constructor]. }
  assert (Houter : forall ss acc,
            map (fun r => (strategyName r, res_leverage r))
              (fold_left (fun results strategy_ =>
                 fold_left (fun results1 leverage_ =>
                              results1 ++ [run (List.length results1) strategy_ leverage_])
                   (Batch.leveragesOr leverages) results) ss acc)
            = map (fun r => (strategyName r, res_leverage r)) acc
              ++ flat_map (fun s => map (fun l => (name s, l))
                                      (Batch.leveragesOr leverages)) ss
            /\ (Forall (fun r => res_startingCapital r = 500) acc ->
                Forall (fun r => res_startingCapital r = 500)
                  (fold_left (fun results strategy_ =>
                     fold_left (fun results1 leverage_ =>
                                  results1
                                  ++ [run (List.length results1) strategy_ leverage_])
                       (Batch.leveragesOr leverages) results) ss acc))).
  { induction ss as [|s ss IH]; intro acc; cbn [fold_left flat_map].
    - rewrite app_nil_r. split; [reflexivity|intro H; exact H].
    - destruct (Hinner s (Batch.leveragesOr leverages) acc) as [H1 H2].
      match goal with |- context [fold_left _ ss ?a] => destruct (IH a) as [H3 H4] end.
      split.
      + rewrite H3, H1, <- app_assoc. reflexivity.
      + intro Hacc. apply H4. apply H2. exact Hacc. }
  destruct (Houter strategies []) as [H1 H2].
  split; [exact H1|]. split; [apply H2; constructor|]. split.
  - rewrite map_map. apply map_ext. intro s. apply runBtcBacktest_name.
  - apply Forall_forall. intros b Hb. apply in_map_iff in Hb.
    destruct Hb as (s & <- & _). apply runBtcBacktest_name.
Qed.

(** ** The BTC strategies inside the exit cascade *)

Lemma exitOnly_exitsBy (name_ : string) (leverage_ : Q)
    (rule : Btc.BtcPosition -> list Btc.AltBtcCandle -> nat -> Q ->
            option Btc.BtcExitSignal) :
  Exits.exitsBy rule (exitOnly name_ leverage_ rule).
Proof.
  intros position altCandles currentIndex avgRatioTrend signal H.
  unfold exitOnly. cbn [Btc.shouldExit]. rewrite H. reflexivity.
Qed.

(** What is known when the cascade reaches the strategy. *)
Lemma exitAction_reaches_strategy (s : Btc.BtcStrategy) (avg7d avg1d : Q)
    (altCandles : list Btc.AltBtcCandle) (candleIdx : nat) (ts : Z) (ratio : Q)
    (pos : Btc.BtcPosition) :
  (exists why, Btc.exitAction s avg7d avg1d altCandles candleIdx ts ratio pos
               = Btc.FullClose why
               /\ In why ["stop_loss"; "btc_dominance_drop"; "tp2"; "max_hold_timeout"]%string)
  \/ Btc.exitAction s avg7d avg1d altCandles candleIdx ts ratio pos
     = Btc.SellPart (Btc.btcAllocated pos * Btc.TP1_SELL_FRACTION) true
  \/ (Btc.entryRatio pos * (85 # 100) < ratio
      /\ (ts - Btc.entryTime pos < 14 * 86400000)%Z
      /\ Btc.exitAction s avg7d avg1d altCandles candleIdx ts ratio pos
         = let exitSignal := Btc.shouldExit s pos altCandles candleIdx avg7d in
           if Btc.exit exitSignal then
             let fraction :=
               if (Qgtb (Btc.sellFraction exitSignal) 0
                   && Qle_bool (Btc.sellFraction exitSignal) 1)%bool
               then Btc.sellFraction exitSignal else 1 in
             if Qgeb fraction 1 then Btc.FullClose (Btc.exit_reason exitSignal)
             else Btc.SellPart (Btc.btcAllocated pos * fraction) false
           else Btc.Hold).
Proof.
  unfold Btc.exitAction.
  destruct (Btc.stopLossRule pos ratio) eqn:Estop.
  { left. eexists. split; [reflexivity|cbn; auto]. }
  destruct (Qgtb avg1d Btc.DOMINANCE_TREND_THRESHOLD).
  { left. eexists. split; [reflexivity|cbn; auto]. }
  destruct (negb (Btc.tp1Hit pos) && Qgeb ratio (Btc.entryRatio pos * (1 + Btc.TP1_PCT)))%bool.
  { right. left. reflexivity. }
  destruct (Btc.tp1Hit pos && Qgeb ratio (Btc.entryRatio pos * (1 + Btc.TP2_PCT)))%bool.
  { left. eexists. split; [reflexivity|cbn; auto]. }
  destruct (Z.geb_spec (ts - Btc.entryTime pos) Btc.MAX_HOLD_MS) as [Ehold|Ehold].
  { left. eexists. split; [reflexivity|cbn; auto]. }
  right. right. split; [|split; [|reflexivity]].
  - unfold Btc.stopLossRule, Btc.STOP_LOSS_PCT in Estop. apply Qle_bool_gt in Estop. lra.
  - unfold Btc.MAX_HOLD_MS in Ehold. lia.
Qed.

(** X22.  The engine's own rules shadow two exits of each BTC strategy.
    With the exit rule of strategy H the cascade never closes a position for
    the strategy's stop loss or for its 21-day limit, and with the exit rule
    of strategy I never for its 14-day limit: the engine's stop loss at 85
    percent of the entry and its 14-day limit come first. *)
Theorem strategy_stop_and_time_exits_are_shadowed
    (toFixed : Q -> nat -> string) (h i : Btc.BtcStrategy) (avg7d avg1d : Q)
    (altCandles : list Btc.AltBtcCandle) (candleIdx : nat) (ts : Z) (ratio : Q)
    (pos : Btc.BtcPosition)
    (Hh : Exits.exitsBy (Exits.accumulationShouldExit toFixed) h)
    (Hi : Exits.exitsBy (Exits.rotationShouldExit toFixed) i)
    (Hcall : Exits.engineCall altCandles candleIdx ts ratio) :
  (forall why days,
      Btc.exitAction h avg7d avg1d altCandles candleIdx ts ratio pos = Btc.FullClose why ->
      why <> "Stop loss hit"%string
      /\ why <> ("Max hold time reached (" ++ days ++ " days)")%string)
  /\ (forall why days,
        Btc.exitAction i avg7d avg1d altCandles candleIdx ts ratio pos = Btc.FullClose why ->
        why <> ("Max hold time reached (" ++ days ++ " days)")%string).
Proof.
  destruct Hcall as (current & Hnth & Hclose & Hts).
  split.
  - intros why days Hact.
    destruct (exitAction_reaches_strategy h avg7d avg1d altCandles candleIdx ts ratio pos)
      as [(why' & Hw & Hin)|[Hsell|(Hstop & Hhold & Hstrat)]].
    + rewrite Hw in Hact. inversion Hact; subst why'.
      cbn [In] in Hin. destruct Hin as [<-|[<-|[<-|[<-|[]]]]];
        split; cbn [String.append]; discriminate.
    + rewrite Hsell in Hact. discriminate.
    + rewrite Hstrat in Hact. clear Hstrat. cbv zeta in Hact.
      assert (Hsig : exists signal,
                 Exits.accumulationShouldExit toFixed pos altCandles candleIdx avg7d
                 = Some signal
                 /\ (Btc.exit signal = true ->
                     Btc.exit_reason signal <> "Stop loss hit"%string
                     /\ Btc.exit_reason signal
                        <> ("Max hold time reached (" ++ days ++ " days)")%string)).
      { unfold Exits.accumulationShouldExit. rewrite Hnth. cbv zeta.
        rewrite Hclose, Hts.
        destruct (Qgtb avg7d 3).
        { eexists. split; [reflexivity|]. intros _. cbn [Btc.exit_reason String.append].
          split; discriminate. }
        destruct (Z.geb_spec (ts - Btc.entryTime pos) (21 * 86400000)) as [E|E]; [lia|].
        destruct (Qle_bool ratio (Btc.entryRatio pos * (85 # 100))) eqn:E2.
        { apply Qle_bool_iff in E2. lra. }
        destruct (negb (Btc.tp1Hit pos)
                  && Qgeb ratio (Btc.entryRatio pos * (120 # 100)))%bool.
        { eexists. split; [reflexivity|]. intros _. cbn [Btc.exit_reason String.append].
          split; discriminate. }
        destruct (Btc.tp1Hit pos && Qgeb ratio (Btc.entryRatio pos * (140 # 100)))%bool.
        { eexists. split; [reflexivity|]. intros _. cbn [Btc.exit_reason String.append].
          split; discriminate. }
        destruct (rsi (Btc.indicators current)) as [r|].
        - destruct (Qgeb r 70 && Qgtb ratio (Btc.entryRatio pos))%bool.
          + eexists. split; [reflexivity|]. intros _.
            cbn [Btc.exit_reason String.append]. split; discriminate.
          + eexists. split; [reflexivity|]. cbn. discriminate.
        - eexists. split; [reflexivity|]. cbn. discriminate. }
      destruct Hsig as (signal & Hrule & Hreason). rewrite (Hh _ _ _ _ _ Hrule) in Hact.
      destruct (Btc.exit signal); [|discriminate].
      match type of Hact with
      | (if ?b then _ else _) = _ => destruct b; [|discriminate]
      end.
      inversion Hact; subst why. apply Hreason. reflexivity.
  - intros why days Hact.
    destruct (exitAction_reaches_strategy i avg7d avg1d altCandles candleIdx ts ratio pos)
      as [(why' & Hw & Hin)|[Hsell|(Hstop & Hhold & Hstrat)]].
    + rewrite Hw in Hact. inversion Hact; subst why'.
      cbn [In] in Hin. destruct Hin as [<-|[<-|[<-|[<-|[]]]]];
        cbn [String.append]; discriminate.
    + rewrite Hsell in Hact. discriminate.
    + rewrite Hstrat in Hact. clear Hstrat. cbv zeta in Hact.
      assert (Hsig : exists signal,
                 Exits.rotationShouldExit toFixed pos altCandles candleIdx avg7d
                 = Some signal
                 /\ (Btc.exit signal = true ->
                     Btc.exit_reason signal
                     <> ("Max hold time reached (" ++ days ++ " days)")%string)).
      { unfold Exits.rotationShouldExit. rewrite Hnth. cbv zeta.
        rewrite Hclose, Hts.
        destruct (Qgtb avg7d (25 # 10)).
        { eexists. split; [reflexivity|]. intros _. cbn [Btc.exit_reason String.append].
          discriminate. }
        destruct (Z.geb_spec (ts - Btc.entryTime pos) (14 * 86400000)) as [E|E]; [lia|].
        destruct (Qle_bool ratio (Btc.entryRatio pos * (90 # 100))).
        { eexists. split; [reflexivity|]. intros _. cbn [Btc.exit_reason String.append].
          discriminate. }
        destruct (negb (Btc.tp1Hit pos)
                  && Qgeb ratio (Btc.entryRatio pos * (115 # 100)))%bool.
        { eexists. split; [reflexivity|]. intros _. cbn [Btc.exit_reason String.append].
          discriminate. }
        destruct (Btc.tp1Hit pos && Qgeb ratio (Btc.entryRatio pos * (130 # 100)))%bool.
        { eexists. split; [reflexivity|]. intros _. cbn [Btc.exit_reason String.append].
          discriminate. }
        destruct (rsi (Btc.indicators current)) as [r|].
        - destruct (Qgeb r 75 && Qgtb ratio (Btc.entryRatio pos))%bool.
          + eexists. split; [reflexivity|]. intros _.
            cbn [Btc.exit_reason String.append]. discriminate.
          + eexists. split; [reflexivity|]. cbn. discriminate.
        - eexists. split; [reflexivity|]. cbn. discriminate. }
      destruct Hsig as (signal & Hrule & Hreason). rewrite (Hi _ _ _ _ _ Hrule) in Hact.
      destruct (Btc.exit signal); [|discriminate].
      match type of Hact with
      | (if ?b then _ else _) = _ => destruct b; [|discriminate]
      end.
      inversion Hact; subst why. apply Hreason. reflexivity.
Qed.

Lemma strategy_stop_and_time_exits_are_shadowed_witness :
  (forall why days,
      Btc.exitAction
        (exitOnly "BTC Accumulation (Spot)" 1 (Exits.accumulationShouldExit noDigits))
        0 0 [ratioCandle 0 1] 0 0 1 unitPosition = Btc.FullClose why ->
      why <> "Stop loss hit"%string
      /\ why <> ("Max hold time reached (" ++ days ++ " days)")%string)
  /\ (forall why days,
        Btc.exitAction
          (exitOnly "Futures ALT/BTC Rotation (2x)" 2 (Exits.rotationShouldExit noDigits))
          0 0 [ratioCandle 0 1] 0 0 1 unitPosition = Btc.FullClose why ->
        why <> ("Max hold time reached (" ++ days ++ " days)")%string).
Proof.
  apply (strategy_stop_and_time_exits_are_shadowed noDigits
           (exitOnly "BTC Accumulation (Spot)" 1 (Exits.accumulationShouldExit noDigits))
           (exitOnly "Futures ALT/BTC Rotation (2x)" 2
              (Exits.rotationShouldExit noDigits))
           0 0 [ratioCandle 0 1] 0%nat 0%Z 1 unitPosition).
  - apply exitOnly_exitsBy.
  - apply exitOnly_exitsBy.
  - exists (ratioCandle 0 1). repeat split.
Defined.



(** X24.  The first take-profit of the strategies does not count as hit.
    When the ratio is above a strategy's own first target (20 percent for H,
    15 percent for I) but below the engine's 30 percent, clear of either
    threshold by more than rounding, and nothing else fires, the cascade
    sells half of the position for the strategy and leaves [tp1Hit] unset;
    asked again with the same readings it sells half of what is left. *)
Theorem strategy_take_profit_sells_half_again
    (toFixed : Q -> nat -> string) (h i : Btc.BtcStrategy) (avg7d avg1d : Q)
    (altCandles : list Btc.AltBtcCandle) (candleIdx : nat) (ts : Z) (ratio : Q)
    (pos : Btc.BtcPosition)
    (Hh : Exits.exitsBy (Exits.accumulationShouldExit toFixed) h)
    (Hi : Exits.exitsBy (Exits.rotationShouldExit toFixed) i)
    (Hcall : Exits.engineCall altCandles candleIdx ts ratio)
    (Hentry : 0 < Btc.entryRatio pos)
    (Hfresh : Btc.tp1Hit pos = false)
    (Hcalm1 : avg1d <= 2) (Hcalm7 : avg7d <= 25 # 10)
    (Hyoung : (ts - Btc.entryTime pos < 14 * 86400000)%Z)
    (Hclear : safelyBelow ratio (Btc.entryRatio pos * (130 # 100))) :
  let half := Btc.btcAllocated pos * (1 # 2) in
  let rest := Btc.afterSale pos half false in
  (safelyAbove ratio (Btc.entryRatio pos * (120 # 100)) ->
   Btc.exitAction h avg7d avg1d altCandles candleIdx ts ratio pos
   = Btc.SellPart half false
   /\ Btc.exitAction h avg7d avg1d altCandles candleIdx ts ratio rest
      = Btc.SellPart (Btc.btcAllocated rest * (1 # 2)) false)
  /\ (safelyAbove ratio (Btc.entryRatio pos * (115 # 100)) ->
      Btc.exitAction i avg7d avg1d altCandles candleIdx ts ratio pos
      = Btc.SellPart half false
      /\ Btc.exitAction i avg7d avg1d altCandles candleIdx ts ratio rest
         = Btc.SellPart (Btc.btcAllocated rest * (1 # 2)) false)
  /\ Btc.tp1Hit rest = false
  /\ Btc.btcAllocated rest == Btc.btcAllocated pos * (1 # 2).
Proof.
  cbv zeta. destruct Hcall as (current & Hnth & Hclose & Hts).
  assert (Hbelow : ratio < Btc.entryRatio pos * (130 # 100)).
  { unfold safelyBelow, roundingBand in Hclear. lra. }
  assert (Hover : forall target : Q,
            safelyAbove ratio (Btc.entryRatio pos * target) -> 0 <= target ->
            Btc.entryRatio pos * target <= ratio).
  { intros target Habove Htarget. unfold safelyAbove, roundingBand in Habove.
    assert (0 <= Btc.entryRatio pos * target) by nra. lra. }
  assert (Hengine : forall s p,
            Btc.entryRatio p = Btc.entryRatio pos -> Btc.tp1Hit p = false ->
            Btc.entryTime p = Btc.entryTime pos ->
            Btc.entryRatio pos * (115 # 100) <= ratio ->
            Btc.shouldExit s p altCandles candleIdx avg7d
            = Btc.mkBtcExitSignal true (1 # 2) (Btc.exit_reason
                (Btc.shouldExit s p altCandles candleIdx avg7d)) ->
            Btc.exitAction s avg7d avg1d altCandles candleIdx ts ratio p
            = Btc.SellPart (Btc.btcAllocated p * (1 # 2)) false).
  { intros s p He Ht Hy Hup Hsig. unfold Btc.exitAction.
    assert (E1 : Btc.stopLossRule p ratio = false).
    { unfold Btc.stopLossRule, Btc.STOP_LOSS_PCT. rewrite He. apply Qle_bool_gt. lra. }
    assert (E2 : Qgtb avg1d Btc.DOMINANCE_TREND_THRESHOLD = false).
    { unfold Btc.DOMINANCE_TREND_THRESHOLD. apply Qgtb_le. exact Hcalm1. }
    assert (E3 : Qgeb ratio (Btc.entryRatio p * (1 + Btc.TP1_PCT)) = false).
    { unfold Qgeb, Btc.TP1_PCT. rewrite He. apply Qle_bool_gt. lra. }
    rewrite E1, E2, E3, Ht, Hy. cbn [negb andb].
    destruct (Z.geb_spec (ts - Btc.entryTime pos) Btc.MAX_HOLD_MS) as [E|E];
      [unfold Btc.MAX_HOLD_MS in E; lia|].
    cbv zeta. rewrite Hsig. reflexivity. }
  assert (Hacc : forall p,
            Btc.entryRatio p = Btc.entryRatio pos -> Btc.tp1Hit p = false ->
            Btc.entryTime p = Btc.entryTime pos ->
            Btc.entryRatio pos * (120 # 100) <= ratio ->
            Exits.accumulationShouldExit toFixed p altCandles candleIdx avg7d
            = Some (Btc.mkBtcExitSignal true (1 # 2) "TP1 hit: +20%")).
  { intros p He Ht Hy Hup. unfold Exits.accumulationShouldExit.
    rewrite Hnth. cbv zeta. rewrite Hclose, Hts, He, Ht, Hy.
    assert (E0 : Qgtb avg7d 3 = false) by (apply Qgtb_le; lra).
    rewrite E0.
    destruct (Z.geb_spec (ts - Btc.entryTime pos) (21 * 86400000)) as [E|E]; [lia|].
    assert (E1 : Qle_bool ratio (Btc.entryRatio pos * (85 # 100)) = false)
      by (apply Qle_bool_gt; lra).
    assert (E2 : Qgeb ratio (Btc.entryRatio pos * (120 # 100)) = true)
      by (unfold Qgeb; apply Qle_bool_iff; exact Hup).
    rewrite E1, E2. reflexivity. }
  assert (Hrot : forall p,
            Btc.entryRatio p = Btc.entryRatio pos -> Btc.tp1Hit p = false ->
            Btc.entryTime p = Btc.entryTime pos ->
            Btc.entryRatio pos * (115 # 100) <= ratio ->
            Exits.rotationShouldExit toFixed p altCandles candleIdx avg7d
            = Some (Btc.mkBtcExitSignal true (1 # 2)
                      "TP1 hit: +15% ratio (30% effective)")).
  { intros p He Ht Hy Hup. unfold Exits.rotationShouldExit.
    rewrite Hnth. cbv zeta. rewrite Hclose, Hts, He, Ht, Hy.
    assert (E0 : Qgtb avg7d (25 # 10) = false) by (apply Qgtb_le; lra).
    rewrite E0.
    destruct (Z.geb_spec (ts - Btc.entryTime pos) (14 * 86400000)) as [E|E]; [lia|].
    assert (E1 : Qle_bool ratio (Btc.entryRatio pos * (90 # 100)) = false)
      by (apply Qle_bool_gt; lra).
    assert (E2 : Qgeb ratio (Btc.entryRatio pos * (115 # 100)) = true)
      by (unfold Qgeb; apply Qle_bool_iff; exact Hup).
    rewrite E1, E2. reflexivity. }
  split; [|split; [|split]].
  - intro Hup. apply Hover in Hup; [|lra]. split.
    + apply Hengine; try reflexivity; [exact Hfresh|lra|].
      rewrite (Hh _ _ _ _ _ (Hacc pos eq_refl Hfresh eq_refl Hup)). reflexivity.
    + apply Hengine; try reflexivity; [exact Hfresh|lra|].
      rewrite (Hh _ _ _ _ _ (Hacc (Btc.afterSale pos (Btc.btcAllocated pos * (1 # 2)) false)
                                eq_refl Hfresh eq_refl Hup)). reflexivity.
  - intro Hup. apply Hover in Hup; [|lra]. split.
    + apply Hengine; try reflexivity; [exact Hfresh|exact Hup|].
      rewrite (Hi _ _ _ _ _ (Hrot pos eq_refl Hfresh eq_refl Hup)). reflexivity.
    + apply Hengine; try reflexivity; [exact Hfresh|exact Hup|].
      rewrite (Hi _ _ _ _ _ (Hrot (Btc.afterSale pos (Btc.btcAllocated pos * (1 # 2)) false)
                                eq_refl Hfresh eq_refl Hup)). reflexivity.
  - exact Hfresh.
  - unfold Btc.afterSale. cbn [Btc.btcAllocated]. ring.
Qed.

Lemma strategy_take_profit_sells_half_again_witness :
  (safelyAbove (125 # 100) (Btc.entryRatio unitPosition * (120 # 100)) ->
   Btc.exitAction
     (exitOnly "BTC Accumulation (Spot)" 1 (Exits.accumulationShouldExit noDigits))
     0 0 [ratioCandle 0 (125 # 100)] 0 0 (125 # 100) unitPosition
   = Btc.SellPart (Btc.btcAllocated unitPosition * (1 # 2)) false
   /\ Btc.exitAction
        (exitOnly "BTC Accumulation (Spot)" 1 (Exits.accumulationShouldExit noDigits))
        0 0 [ratioCandle 0 (125 # 100)] 0 0 (125 # 100) halfSold
      = Btc.SellPart (Btc.btcAllocated halfSold * (1 # 2)) false)
  /\ (safelyAbove (125 # 100) (Btc.entryRatio unitPosition * (115 # 100)) ->
      Btc.exitAction
        (exitOnly "Futures ALT/BTC Rotation (2x)" 2 (Exits.rotationShouldExit noDigits))
        0 0 [ratioCandle 0 (125 # 100)] 0 0 (125 # 100) unitPosition
      = Btc.SellPart (Btc.btcAllocated unitPosition * (1 # 2)) false
      /\ Btc.exitAction
           (exitOnly "Futures ALT/BTC Rotation (2x)" 2 (Exits.rotationShouldExit noDigits))
           0 0 [ratioCandle 0 (125 # 100)] 0 0 (125 # 100) halfSold
         = Btc.SellPart (Btc.btcAllocated halfSold * (1 # 2)) false)
  /\ Btc.tp1Hit halfSold = false
  /\ Btc.btcAllocated halfSold == Btc.btcAllocated unitPosition * (1 # 2).
Proof.
  apply (strategy_take_profit_sells_half_again noDigits
           (exitOnly "BTC Accumulation (Spot)" 1 (Exits.accumulationShouldExit noDigits))
           (exitOnly "Futures ALT/BTC Rotation (2x)" 2
              (Exits.rotationShouldExit noDigits))
           0 0 [ratioCandle 0 (125 # 100)] 0%nat 0%Z (125 # 100) unitPosition).
  - apply exitOnly_exitsBy.
  - apply exitOnly_exitsBy.
  - exists (ratioCandle 0 (125 # 100)). repeat split.
  - reflexivity.
  - reflexivity.
  - apply Qle_bool_iff. vm_compute. reflexivity.
  - apply Qle_bool_iff. vm_compute. reflexivity.
  - reflexivity.
  - unfold safelyBelow. apply Qle_bool_iff. vm_compute. reflexivity.
Defined.

(** ** The indicator helpers *)

Lemma setAt_length {A : Type} (l : list A) (i : nat) (v : A) :
  List.length (Indicator.setAt l i v) = List.length l.
Proof.
  revert i. induction l as [|x l IH]; intro i; [reflexivity|].
  destruct i; cbn [Indicator.setAt List.length]; [reflexivity|]. rewrite IH. reflexivity.
Qed.

Lemma setAt_same {A : Type} (l : list A) (i : nat) (v : A) :
  (i < List.length l)%nat -> nth_error (Indicator.setAt l i v) i = Some v.
Proof.
  revert i. induction l as [|x l IH]; intros i Hi; cbn [List.length] in Hi; [lia|].
  destruct i; cbn [Indicator.setAt nth_error]; [reflexivity|]. apply IH. lia.
Qed.

Lemma setAt_other {A : Type} (l : list A) (i j : nat) (v : A) :
  i <> j -> nth_error (Indicator.setAt l i v) j = nth_error l j.
Proof.
  revert i j. induction l as [|x l IH]; intros i j Hij; [reflexivity|].
  destruct i, j; cbn [Indicator.setAt nth_error]; try reflexivity; [lia|].
  apply IH. lia.
Qed.

Lemma nans_length (n : nat) : List.length (Indicator.nans n) = n.
Proof. apply repeat_length. Qed.

Lemma nans_nth (n i : nat) : (i < n)%nat -> nth_error (Indicator.nans n) i = Some None.
Proof.
  intro Hi. unfold Indicator.nans. revert i Hi.
  induction n as [|n IH]; intros i Hi; [lia|].
  destruct i; cbn [repeat nth_error]; [reflexivity|]. apply IH. lia.
Qed.

Lemma nans_unfilled (n from : nat) (P : nat -> Q -> Prop) :
  filledUpTo from from P (Indicator.nans n).
Proof.
  intros i Hi. rewrite nans_length in Hi.
  destruct (i <? from)%nat; apply nans_nth; exact Hi.
Qed.

Lemma fill_next (from k : nat) (P : nat -> Q -> Prop) (l : list (option Q)) (v : Q) :
  filledUpTo from k P l -> (from <= k)%nat -> (k < List.length l)%nat -> P k v ->
  filledUpTo from (S k) P (Indicator.setAt l k (Some v)).
Proof.
  intros Hl Hfrom Hk Hv i Hi. rewrite setAt_length in Hi. specialize (Hl i Hi).
  destruct (Nat.eq_dec k i) as [->|Hne].
  - replace (i <? from)%nat with false by (symmetry; apply Nat.ltb_ge; lia).
    replace (i <? S i)%nat with true by (symmetry; apply Nat.ltb_lt; lia).
    exists v. split; [apply setAt_same; exact Hi|exact Hv].
  - rewrite setAt_other by exact Hne.
    destruct (Nat.ltb_spec i from); [exact Hl|].
    destruct (Nat.ltb_spec i k), (Nat.ltb_spec i (S k)); try lia; exact Hl.
Qed.

Lemma fill_done (from : nat) (P : nat -> Q -> Prop) (l : list (option Q)) :
  filledUpTo from (List.length l) P l -> filledFrom from P l.
Proof.
  intros Hl i Hi. specialize (Hl i Hi).
  destruct (i <? from)%nat; [exact Hl|].
  replace (i <? List.length l)%nat with true in Hl by (symmetry; apply Nat.ltb_lt; lia).
  exact Hl.
Qed.

Lemma filledUpTo_get (from k : nat) (P : nat -> Q -> Prop) (l : list (option Q)) (i : nat) :
  filledUpTo from k P l -> (from <= i < k)%nat -> (i < List.length l)%nat ->
  exists v, nth i l None = Some v /\ P i v.
Proof.
  intros Hl Hi Hlen. specialize (Hl i Hlen).
  replace (i <? from)%nat with false in Hl by (symmetry; apply Nat.ltb_ge; lia).
  replace (i <? k)%nat with true in Hl by (symmetry; apply Nat.ltb_lt; lia).
  destruct Hl as (v & Hv & HP). exists v. split; [|exact HP].
  apply nth_error_nth with (d := None) in Hv. exact Hv.
Qed.

Lemma sumFirst_is_window (data : list Q) (period : nat) :
  Indicator.sumFirst data period = windowSum data 0 period.
Proof. reflexivity. Qed.

Lemma windowSum_slide (data : list Q) (first count : nat) :
  windowSum data (S first) count
  == windowSum data first count + (nth (first + count) data 0 - nth first data 0).
Proof.
  unfold windowSum.
  assert (H1 : sumOf (fun i => nth i data 0) (seq first (S count))
               == nth first data 0 + sumOf (fun i => nth i data 0) (seq (S first) count)).
  { cbn [seq]. apply (sumOf_cons (fun i => nth i data 0) first (seq (S first) count)). }
  assert (H2 : sumOf (fun i => nth i data 0) (seq first (S count))
               == sumOf (fun i => nth i data 0) (seq first count)
                  + nth (first + count) data 0).
  { rewrite seq_S.
    apply (sumOf_snoc (fun i => nth i data 0) (seq first count) (first + count)%nat). }
  lra.
Qed.

Lemma ofNat_pos (n : nat) : (0 < n)%nat -> 0 < Indicator.ofNat n.
Proof.
  intro H. unfold Indicator.ofNat. change 0 with (inject_Z 0). rewrite <- Zlt_Qlt. lia.
Qed.

(** The running sum of [sma] in the exact arithmetic of the model: every
    filled entry is the mean of the [period] values that end there.  The
    code keeps the same running sum in doubles, where the rounding error of
    [sum += data[i] - data[i - period]] stays in every later entry; of the
    code only the shape of the array and its first mean, which is summed
    directly, are stated below. *)
Lemma sma_window_means (data : list Q) (period : nat) (Hperiod : (0 < period)%nat) :
  List.length (Indicator.sma data period) = List.length data
  /\ ((List.length data < period)%nat ->
      Indicator.sma data period = Indicator.nans (List.length data))
  /\ ((period <= List.length data)%nat ->
      filledFrom (period - 1)
        (fun i v => v == windowSum data (i + 1 - period) period / Indicator.ofNat period)
        (Indicator.sma data period)).
Proof.
  unfold Indicator.sma. cbv zeta.
  destruct (Nat.ltb_spec (List.length data) period) as [Hshort|Hlong].
  { split; [apply nans_length|]. split; [reflexivity|lia]. }
  destruct period as [|p]; [lia|]. set (period := S p) in *.
  set (n := List.length data) in *.
  set (P := fun (i : nat) (v : Q) =>
              v == windowSum data (i + 1 - period) period / Indicator.ofNat period).
  set (step := fun (acc : Q * list (option Q)) (i : nat) =>
                 (fst acc + (nth i data 0 - nth (i - period) data 0),
                  Indicator.setAt (snd acc) i
                    (Some ((fst acc + (nth i data 0 - nth (i - period) data 0))
                           / Indicator.ofNat period)))).
  assert (Hloop : forall m k acc,
            (period <= k)%nat -> (k + m <= n)%nat ->
            List.length (snd acc) = n ->
            filledUpTo (period - 1) k P (snd acc) ->
            fst acc == windowSum data (k - period) period ->
            List.length (snd (fold_left step (seq k m) acc)) = n
            /\ filledUpTo (period - 1) (k + m) P (snd (fold_left step (seq k m) acc))).
  { induction m as [|m IH]; intros k acc Hk Hkm Hlen Hfill Hsum; cbn [seq fold_left].
    - rewrite Nat.add_0_r. split; assumption.
    - replace (k + S m)%nat with (S k + m)%nat by lia.
      assert (Hnew : fst acc + (nth k data 0 - nth (k - period) data 0)
                     == windowSum data (S k - period) period).
      { replace (S k - period)%nat with (S (k - period)) by lia.
        rewrite windowSum_slide, Hsum.
        replace (k - period + period)%nat with k by lia. reflexivity. }
      apply IH; try lia.
      + cbn [step snd]. rewrite setAt_length. exact Hlen.
      + cbn [step snd]. apply fill_next; try assumption; try lia.
        unfold P. replace (k + 1 - period)%nat with (S k - period)%nat by lia.
        rewrite Hnew. reflexivity.
      + cbn [step fst]. exact Hnew. }
  destruct (Hloop (n - period)%nat period
              (Indicator.sumFirst data period,
               Indicator.setAt (Indicator.nans n) (period - 1)
                 (Some (Indicator.sumFirst data period / Indicator.ofNat period))))
    as [Hlen Hfill]; try lia.
  - cbn [snd]. rewrite setAt_length. apply nans_length.
  - cbn [snd]. replace period with (S (period - 1)) at 2 by lia.
    apply fill_next.
    + apply nans_unfilled.
    + lia.
    + rewrite nans_length. lia.
    + unfold P. replace (period - 1 + 1 - period)%nat with 0%nat by lia. reflexivity.
  - cbn [fst]. rewrite Nat.sub_diag. reflexivity.
  - split; [exact Hlen|]. split; [lia|]. intros _.
    apply fill_done. rewrite Hlen.
    replace (period + (n - period))%nat with n in Hfill by lia. exact Hfill.
Qed.

(** X25.  [sma] answers an array as long as the data.  With fewer values
    than the period nothing is filled.  Otherwise, with a positive period,
    the first [period - 1] entries are [NaN], every later entry is a number,
    and the entry at [period - 1] is the mean of the first [period]
    values. *)
Theorem sma_starts_at_the_first_mean (data : list Q) (period : nat)
    (Hperiod : (0 < period)%nat) :
  List.length (Indicator.sma data period) = List.length data
  /\ ((List.length data < period)%nat ->
      Indicator.sma data period = Indicator.nans (List.length data))
  /\ ((period <= List.length data)%nat ->
      filledFrom (period - 1) (fun _ _ => True) (Indicator.sma data period)
      /\ exists v : Q,
           nth_error (Indicator.sma data period) (period - 1) = Some (Some v)
           /\ v == windowSum data 0 period / Indicator.ofNat period).
Proof.
  destruct (sma_window_means data period Hperiod) as (Hlen & Hshort & Hlong).
  split; [exact Hlen|]. split; [exact Hshort|].
  intro Hfit. specialize (Hlong Hfit). split.
  - intros i Hi. specialize (Hlong i Hi).
    destruct (i <? period - 1)%nat; [exact Hlong|].
    destruct Hlong as (v & Hv & _). exists v. split; [exact Hv|exact I].
  - assert (Hi : (period - 1 < List.length (Indicator.sma data period))%nat)
      by (rewrite Hlen; lia).
    specialize (Hlong (period - 1)%nat Hi).
    replace (period - 1 <? period - 1)%nat with false in Hlong
      by (symmetry; apply Nat.ltb_irrefl).
    destruct Hlong as (v & Hv & Hmean). exists v. split; [exact Hv|].
    replace (period - 1 + 1 - period)%nat with 0%nat in Hmean by lia. exact Hmean.
Qed.

Lemma sma_starts_at_the_first_mean_witness :
  List.length (Indicator.sma [1; 2; 3; 4] 2) = List.length [1; 2; 3; 4]
  /\ ((List.length [1; 2; 3; 4] < 2)%nat ->
      Indicator.sma [1; 2; 3; 4] 2 = Indicator.nans (List.length [1; 2; 3; 4]))
  /\ ((2 <= List.length [1; 2; 3; 4])%nat ->
      filledFrom (2 - 1) (fun _ _ => True) (Indicator.sma [1; 2; 3; 4] 2)
      /\ exists v : Q,
           nth_error (Indicator.sma [1; 2; 3; 4] 2) (2 - 1) = Some (Some v)
           /\ v == windowSum [1; 2; 3; 4] 0 2 / Indicator.ofNat 2).
Proof.
  apply (sma_starts_at_the_first_mean [1; 2; 3; 4] 2). lia.
Defined.

Lemma sumOf_between {A : Type} (f : A -> Q) (lo hi : Q) (l : list A) :
  Forall (fun x => lo <= f x /\ f x <= hi) l ->
  Indicator.ofNat (List.length l) * lo <= sumOf f l
  /\ sumOf f l <= Indicator.ofNat (List.length l) * hi.
Proof.
  induction 1 as [|x l [Hlo Hhi] _ IH].
  - change (sumOf f []) with 0.
    change (Indicator.ofNat (List.length (@nil A))) with 0. split; lra.
  - rewrite sumOf_cons. cbn [List.length].
    assert (Hs : Indicator.ofNat (S (List.length l)) == Indicator.ofNat (List.length l) + 1).
    { unfold Indicator.ofNat. rewrite Nat2Z.inj_succ, <- Z.add_1_r, inject_Z_plus.
      reflexivity. }
    rewrite Hs. destruct IH as [IH1 IH2]. split; nra.
Qed.

Lemma data_between (data : list Q) (lo hi : Q) (i : nat) :
  Forall (fun x => lo <= x /\ x <= hi) data -> (i < List.length data)%nat ->
  lo <= nth i data 0 /\ nth i data 0 <= hi.
Proof.
  intros Hall Hi. rewrite Forall_forall in Hall. apply Hall. apply nth_In. exact Hi.
Qed.

Lemma mean_between (data : list Q) (lo hi : Q) (first count : nat) :
  Forall (fun x => lo <= x /\ x <= hi) data ->
  (0 < count)%nat -> (first + count <= List.length data)%nat ->
  lo <= windowSum data first count / Indicator.ofNat count
  /\ windowSum data first count / Indicator.ofNat count <= hi.
Proof.
  intros Hall Hcount Hfit. unfold windowSum.
  destruct (sumOf_between (fun i => nth i data 0) lo hi (seq first count)) as [H1 H2].
  { apply Forall_forall. intros i Hi. apply in_seq in Hi.
    apply data_between; [exact Hall|lia]. }
  rewrite length_seq in H1, H2. pose proof (ofNat_pos count Hcount) as Hpos.
  split.
  - apply Qle_shift_div_l; [exact Hpos|]. lra.
  - apply Qle_shift_div_r; [exact Hpos|]. lra.
Qed.

Lemma ema_multiplier (period : nat) :
  (0 < period)%nat ->
  0 < 2 / (Indicator.ofNat period + 1) /\ 2 / (Indicator.ofNat period + 1) <= 1.
Proof.
  intro Hp.
  assert (H1 : 1 <= Indicator.ofNat period).
  { unfold Indicator.ofNat. change 1 with (inject_Z 1). rewrite <- Zle_Qle. lia. }
  split.
  - apply Qlt_shift_div_l; lra.
  - apply Qle_shift_div_r; lra.
Qed.

(** X26.  [ema] answers an array as long as the data, filled from the index
    [period - 1] on when the period is positive and the data long enough, and
    every filled entry lies between two bounds whenever all the data do. *)
Theorem ema_stays_within_the_data (data : list Q) (period : nat) (lo hi : Q)
    (Hperiod : (0 < period)%nat)
    (Hrange : Forall (fun x => lo <= x /\ x <= hi) data) :
  List.length (Indicator.ema data period) = List.length data
  /\ ((List.length data < period)%nat ->
      Indicator.ema data period = Indicator.nans (List.length data))
  /\ ((period <= List.length data)%nat ->
      filledFrom (period - 1) (fun _ v => lo <= v /\ v <= hi)
        (Indicator.ema data period)).
Proof.
  unfold Indicator.ema. cbv zeta.
  destruct (Nat.ltb_spec (List.length data) period) as [Hshort|Hlong].
  { split; [apply nans_length|]. split; [reflexivity|lia]. }
  destruct period as [|p]; [lia|]. set (period := S p) in *.
  set (n := List.length data) in *.
  set (mult := 2 / (Indicator.ofNat period + 1)).
  destruct (ema_multiplier period Hperiod) as [Hm0 Hm1]. fold mult in Hm0, Hm1.
  set (P := fun (_ : nat) (v : Q) => lo <= v /\ v <= hi).
  set (step := fun (res : list (option Q)) (i : nat) =>
                 Indicator.setAt res i
                   match nth (i - 1) res None with
                   | Some prev => Some (nth i data 0 * mult + prev * (1 - mult))
                   | None => None
                   end).
  assert (Hloop : forall m k res,
            (period <= k)%nat -> (k + m <= n)%nat ->
            List.length res = n -> filledUpTo (period - 1) k P res ->
            List.length (fold_left step (seq k m) res) = n
            /\ filledUpTo (period - 1) (k + m) P (fold_left step (seq k m) res)).
  { induction m as [|m IH]; intros k res Hk Hkm Hlen Hfill; cbn [seq fold_left].
    - rewrite Nat.add_0_r. split; assumption.
    - replace (k + S m)%nat with (S k + m)%nat by lia.
      destruct (filledUpTo_get (period - 1) k P res (k - 1) Hfill) as (prev & Hprev & Hin);
        try lia.
      apply IH; try lia.
      + unfold step. rewrite setAt_length. exact Hlen.
      + unfold step. rewrite Hprev. apply fill_next; try assumption; try lia.
        destruct (data_between data lo hi k Hrange) as [Hd0 Hd1]; [fold n; lia|].
        destruct Hin as [Hp0 Hp1]. unfold P. split; nra. }
  destruct (Hloop (n - period)%nat period
              (Indicator.setAt (Indicator.nans n) (period - 1)
                 (Some (Indicator.sumFirst data period / Indicator.ofNat period))))
    as [Hlen Hfill]; try lia.
  - rewrite setAt_length. apply nans_length.
  - replace period with (S (period - 1)) at 2 by lia.
    apply fill_next.
    + apply nans_unfilled.
    + lia.
    + rewrite nans_length. lia.
    + unfold P. rewrite sumFirst_is_window. apply mean_between; [exact Hrange|lia|].
      fold n. lia.
  - split; [exact Hlen|]. split; [lia|]. intros _.
    apply fill_done. rewrite Hlen.
    replace (period + (n - period))%nat with n in Hfill by lia. exact Hfill.
Qed.

Lemma ema_stays_within_the_data_witness :
  List.length (Indicator.ema [1; 2; 3; 4] 2) = List.length [1; 2; 3; 4]
  /\ ((List.length [1; 2; 3; 4] < 2)%nat ->
      Indicator.ema [1; 2; 3; 4] 2 = Indicator.nans (List.length [1; 2; 3; 4]))
  /\ ((2 <= List.length [1; 2; 3; 4])%nat ->
      filledFrom (2 - 1) (fun _ v => 1 <= v /\ v <= 4) (Indicator.ema [1; 2; 3; 4] 2)).
Proof.
  apply (ema_stays_within_the_data [1; 2; 3; 4] 2 1 4).
  - lia.
  - repeat constructor; cbn; discriminate.
Defined.

Lemma sumOf_nonneg {A : Type} (f : A -> Q) (l : list A) :
  (forall x, 0 <= f x) -> 0 <= sumOf f l.
Proof.
  intro Hf. induction l as [|x l IH].
  - apply Qle_refl.
  - rewrite sumOf_cons. pose proof (Hf x). lra.
Qed.

Lemma nth_nonneg (l : list Q) (i : nat) : Forall (fun x => 0 <= x) l -> 0 <= nth i l 0.
Proof.
  intro Hall. destruct (Nat.lt_ge_cases i (List.length l)) as [Hi|Hi].
  - rewrite Forall_forall in Hall. apply Hall. apply nth_In. exact Hi.
  - rewrite nth_overflow by exact Hi. apply Qle_refl.
Qed.

Lemma computeRsi_range (ag al : Q) :
  0 <= ag -> 0 <= al ->
  0 <= Indicator.computeRsi ag al /\ Indicator.computeRsi ag al <= 100.
Proof.
  intros Hg Hl. unfold Indicator.computeRsi.
  destruct (Qeq_bool al 0) eqn:E; [split; lra|]. cbv zeta.
  assert (Hpos : 0 < al).
  { destruct (Qlt_le_dec 0 al) as [H|H]; [exact H|].
    assert (al == 0) by lra. apply Qeq_bool_iff in H0. congruence. }
  assert (Hrs : 0 <= ag / al) by (apply Qle_shift_div_l; lra).
  assert (H1 : 0 < 100 / (1 + ag / al)) by (apply Qlt_shift_div_l; lra).
  assert (H2 : 100 / (1 + ag / al) <= 100) by (apply Qle_shift_div_r; nra).
  split; lra.
Qed.

Lemma wilder_nonneg (avg x : Q) (period : nat) :
  (0 < period)%nat -> 0 <= avg -> 0 <= x ->
  0 <= (avg * (Indicator.ofNat period - 1) + x) / Indicator.ofNat period.
Proof.
  intros Hp Havg Hx.
  assert (H1 : 1 <= Indicator.ofNat period).
  { unfold Indicator.ofNat. change 1 with (inject_Z 1). rewrite <- Zle_Qle. lia. }
  apply Qle_shift_div_l; [lra|]. nra.
Qed.

Lemma mean_nonneg (sum : Q) (period : nat) :
  (0 < period)%nat -> 0 <= sum -> 0 <= sum / Indicator.ofNat period.
Proof.
  intros Hp Hs. pose proof (ofNat_pos period Hp). apply Qle_shift_div_l; lra.
Qed.

(** X27.  [rsi] answers an array as long as the closes.  With a positive
    period and more closes than the period, the first [period] entries are
    [NaN] and every later entry is a number between 0 and 100; with fewer
    closes nothing is filled. *)
Theorem rsi_is_a_percentage (closes : list Q) (period : nat)
    (Hperiod : (0 < period)%nat) :
  List.length (Indicator.rsi closes period) = List.length closes
  /\ ((List.length closes < period + 1)%nat ->
      Indicator.rsi closes period = Indicator.nans (List.length closes))
  /\ ((period + 1 <= List.length closes)%nat ->
      filledFrom period (fun _ v => 0 <= v /\ v <= 100) (Indicator.rsi closes period)).
Proof.
  unfold Indicator.rsi. cbv zeta.
  destruct (Nat.ltb_spec (List.length closes) (period + 1)) as [Hshort|Hlong].
  { split; [apply nans_length|]. split; [reflexivity|lia]. }
  destruct period as [|p]; [lia|]. set (period := S p) in *.
  set (n := List.length closes) in *.
  set (diffs := map (fun i => nth i closes 0 - nth (i - 1) closes 0) (seq 1 (n - 1))).
  set (gains := map (fun diff => if Qgtb diff 0 then diff else 0) diffs).
  set (losses := map (fun diff => if Qltb diff 0 then - diff else 0) diffs).
  assert (Hgains : Forall (fun x => 0 <= x) gains).
  { apply Forall_forall. intros x Hx. apply in_map_iff in Hx.
    destruct Hx as (d & <- & _). destruct (Qgtb d 0) eqn:E; [|apply Qle_refl].
    apply Qgtb_gt in E. lra. }
  assert (Hlosses : Forall (fun x => 0 <= x) losses).
  { apply Forall_forall. intros x Hx. apply in_map_iff in Hx.
    destruct Hx as (d & <- & _). destruct (Qltb d 0) eqn:E; [|apply Qle_refl].
    apply Qltb_lt in E. lra. }
  assert (HlenG : List.length gains = (n - 1)%nat).
  { unfold gains, diffs. rewrite !length_map, length_seq. reflexivity. }
  rewrite HlenG.
  set (P := fun (_ : nat) (v : Q) => 0 <= v /\ v <= 100).
  set (step := fun (st : Indicator.Smoothing) (i : nat) =>
         Indicator.mkSmoothing
           ((Indicator.avgGain st * (Indicator.ofNat period - 1) + nth i gains 0)
            / Indicator.ofNat period)
           ((Indicator.avgLoss st * (Indicator.ofNat period - 1) + nth i losses 0)
            / Indicator.ofNat period)
           (Indicator.setAt (Indicator.filled st) (i + 1)
              (Some (Indicator.computeRsi
                       ((Indicator.avgGain st * (Indicator.ofNat period - 1)
                         + nth i gains 0) / Indicator.ofNat period)
                       ((Indicator.avgLoss st * (Indicator.ofNat period - 1)
                         + nth i losses 0) / Indicator.ofNat period))))).
  assert (Hloop : forall m k st,
            (period <= k)%nat -> (k + m <= n - 1)%nat ->
            List.length (Indicator.filled st) = n ->
            filledUpTo period (S k) P (Indicator.filled st) ->
            0 <= Indicator.avgGain st -> 0 <= Indicator.avgLoss st ->
            List.length (Indicator.filled (fold_left step (seq k m) st)) = n
            /\ filledUpTo period (S (k + m)) P
                 (Indicator.filled (fold_left step (seq k m) st))).
  { induction m as [|m IH]; intros k st Hk Hkm Hlen Hfill Hg Hl; cbn [seq fold_left].
    - rewrite Nat.add_0_r. split; assumption.
    - replace (k + S m)%nat with (S k + m)%nat by lia.
      pose proof (wilder_nonneg (Indicator.avgGain st) (nth k gains 0) period Hperiod Hg
                    (nth_nonneg gains k Hgains)) as Hg1.
      pose proof (wilder_nonneg (Indicator.avgLoss st) (nth k losses 0) period Hperiod Hl
                    (nth_nonneg losses k Hlosses)) as Hl1.
      apply IH; try lia.
      + cbn [step Indicator.filled]. rewrite setAt_length. exact Hlen.
      + cbn [step Indicator.filled]. replace (k + 1)%nat with (S k) by lia.
        apply fill_next; try assumption; try lia.
        apply computeRsi_range; assumption.
      + exact Hg1.
      + exact Hl1. }
  assert (Hg0 : 0 <= Indicator.sumFirst gains period / Indicator.ofNat period).
  { apply mean_nonneg; [exact Hperiod|]. rewrite sumFirst_is_window.
    apply sumOf_nonneg. intro i. apply nth_nonneg. exact Hgains. }
  assert (Hl0 : 0 <= Indicator.sumFirst losses period / Indicator.ofNat period).
  { apply mean_nonneg; [exact Hperiod|]. rewrite sumFirst_is_window.
    apply sumOf_nonneg. intro i. apply nth_nonneg. exact Hlosses. }
  destruct (Hloop (n - 1 - period)%nat period
              (Indicator.mkSmoothing
                 (Indicator.sumFirst gains period / Indicator.ofNat period)
                 (Indicator.sumFirst losses period / Indicator.ofNat period)
                 (Indicator.setAt (Indicator.nans n) period
                    (Some (Indicator.computeRsi
                             (Indicator.sumFirst gains period / Indicator.ofNat period)
                             (Indicator.sumFirst losses period
                              / Indicator.ofNat period))))))
    as [Hlen Hfill]; try lia; cbn [Indicator.filled Indicator.avgGain Indicator.avgLoss].
  - rewrite setAt_length. apply nans_length.
  - apply fill_next.
    + apply nans_unfilled.
    + lia.
    + rewrite nans_length. lia.
    + apply computeRsi_range; assumption.
  - exact Hg0.
  - exact Hl0.
  - split; [exact Hlen|]. split; [lia|]. intros _.
    apply fill_done. rewrite Hlen.
    replace (S (period + (n - 1 - period)))%nat with n in Hfill by lia. exact Hfill.
Qed.

Lemma rsi_is_a_percentage_witness :
  List.length (Indicator.rsi [1; 2; 1; 3] 2) = List.length [1; 2; 1; 3]
  /\ ((List.length [1; 2; 1; 3] < 2 + 1)%nat ->
      Indicator.rsi [1; 2; 1; 3] 2 = Indicator.nans (List.length [1; 2; 1; 3]))
  /\ ((2 + 1 <= List.length [1; 2; 1; 3])%nat ->
      filledFrom 2 (fun _ v => 0 <= v /\ v <= 100) (Indicator.rsi [1; 2; 1; 3] 2)).
Proof.
  apply (rsi_is_a_percentage [1; 2; 1; 3] 2). lia.
Defined.

Lemma trueRange_nonneg (candles : list Candle) (i : nat) :
  (0 < i)%nat -> 0 <= Indicator.trueRange candles i.
Proof.
  intro Hi. destruct i as [|j]; [lia|]. unfold Indicator.trueRange. cbv zeta.
  match goal with |- 0 <= Qmax ?a (Qabs ?b) =>
    pose proof (Q.le_max_r a (Qabs b)); pose proof (Qabs_nonneg b) end.
  lra.
Qed.

(** X28.  [atr] answers an array as long as the candles.  With a positive
    period and more candles than the period, the first [period] entries are
    [NaN] and every later entry is a number that is not negative, whatever
    the candles look like; with fewer candles nothing is filled. *)
Theorem atr_is_never_negative (candles : list Candle) (period : nat)
    (Hperiod : (0 < period)%nat) :
  List.length (Indicator.atr candles period) = List.length candles
  /\ ((List.length candles < period + 1)%nat ->
      Indicator.atr candles period = Indicator.nans (List.length candles))
  /\ ((period + 1 <= List.length candles)%nat ->
      filledFrom period (fun _ v => 0 <= v) (Indicator.atr candles period)).
Proof.
  unfold Indicator.atr. cbv zeta.
  destruct (Nat.ltb_spec (List.length candles) (period + 1)) as [Hshort|Hlong].
  { split; [apply nans_length|]. split; [reflexivity|lia]. }
  destruct period as [|p]; [lia|]. set (period := S p) in *.
  set (n := List.length candles) in *.
  set (P := fun (_ : nat) (v : Q) => 0 <= v).
  set (step := fun (acc : Q * list (option Q)) (i : nat) =>
         ((fst acc * (Indicator.ofNat period - 1) + Indicator.trueRange candles i)
          / Indicator.ofNat period,
          Indicator.setAt (snd acc) i
            (Some ((fst acc * (Indicator.ofNat period - 1)
                    + Indicator.trueRange candles i) / Indicator.ofNat period)))).
  assert (Hloop : forall m k acc,
            (period < k)%nat -> (k + m <= n)%nat ->
            List.length (snd acc) = n -> filledUpTo period k P (snd acc) ->
            0 <= fst acc ->
            List.length (snd (fold_left step (seq k m) acc)) = n
            /\ filledUpTo period (k + m) P (snd (fold_left step (seq k m) acc))).
  { induction m as [|m IH]; intros k acc Hk Hkm Hlen Hfill Hval; cbn [seq fold_left].
    - rewrite Nat.add_0_r. split; assumption.
    - replace (k + S m)%nat with (S k + m)%nat by lia.
      pose proof (wilder_nonneg (fst acc) (Indicator.trueRange candles k) period Hperiod
                    Hval (trueRange_nonneg candles k ltac:(lia))) as Hnew.
      apply IH; try lia.
      + cbn [step snd]. rewrite setAt_length. exact Hlen.
      + cbn [step snd]. apply fill_next; try assumption; lia.
      + exact Hnew. }
  assert (H0 : 0 <= fold_left (fun sum i => sum + Indicator.trueRange candles i)
                      (seq 1 period) 0 / Indicator.ofNat period).
  { apply mean_nonneg; [exact Hperiod|].
    change (fold_left (fun sum i => sum + Indicator.trueRange candles i) (seq 1 period) 0)
      with (sumOf (Indicator.trueRange candles) (seq 1 period)).
    assert (Hsum : forall l, Forall (fun i => (0 < i)%nat) l ->
              0 <= sumOf (Indicator.trueRange candles) l).
    { induction 1 as [|i l Hi _ IH]; [apply Qle_refl|].
      rewrite sumOf_cons. pose proof (trueRange_nonneg candles i Hi). lra. }
    apply Hsum. apply Forall_forall. intros i Hi. apply in_seq in Hi. lia. }
  destruct (Hloop (n - (period + 1))%nat (period + 1)%nat
              (fold_left (fun sum i => sum + Indicator.trueRange candles i)
                 (seq 1 period) 0 / Indicator.ofNat period,
               Indicator.setAt (Indicator.nans n) period
                 (Some (fold_left (fun sum i => sum + Indicator.trueRange candles i)
                          (seq 1 period) 0 / Indicator.ofNat period))))
    as [Hlen Hfill]; try lia; cbn [fst snd].
  - rewrite setAt_length. apply nans_length.
  - replace (period + 1)%nat with (S period) by lia. apply fill_next.
    + apply nans_unfilled.
    + lia.
    + rewrite nans_length. lia.
    + exact H0.
  - exact H0.
  - split; [exact Hlen|]. split; [lia|]. intros _.
    apply fill_done. rewrite Hlen.
    replace (period + 1 + (n - (period + 1)))%nat with n in Hfill by lia. exact Hfill.
Qed.

Lemma atr_is_never_negative_witness :
  List.length (Indicator.atr fourCandles 2) = List.length fourCandles
  /\ ((List.length fourCandles < 2 + 1)%nat ->
      Indicator.atr fourCandles 2 = Indicator.nans (List.length fourCandles))
  /\ ((2 + 1 <= List.length fourCandles)%nat ->
      filledFrom 2 (fun _ v => 0 <= v) (Indicator.atr fourCandles 2)).
Proof.
  apply (atr_is_never_negative fourCandles 2). lia.
Defined.

(** ** The clock of the BTC engine *)

Lemma btc_checkExits_timed (strategy_ : Btc.BtcStrategy) (rate avg7d avg1d : Q)
    (sym : string) (altCandles : list Btc.AltBtcCandle) (candleIdx : nat) (ts : Z)
    (ratio : Q) (positions : list Btc.BtcPosition) (led : Btc.Ledger) :
  enteredBy ts positions (Btc.led_completedTrades led) ->
  let r := Btc.checkExits strategy_ rate avg7d avg1d sym altCandles candleIdx ts ratio
             positions led in
  enteredBy ts (fst r) (Btc.led_completedTrades (snd r)).
Proof.
  intros [Hopen Hdone]. cbv zeta. revert led Hdone.
  induction Hopen as [|pos rest Hpos _ IH]; intros led Hdone.
  - split; [constructor|exact Hdone].
  - cbn [Btc.checkExits].
    assert (Hskip : forall led0 pos', (Btc.entryTime pos' <= ts)%Z ->
              Forall timed (Btc.led_completedTrades led0) ->
              let r := (let '(kept, led2) :=
                          Btc.checkExits strategy_ rate avg7d avg1d sym altCandles
                            candleIdx ts ratio rest led0 in
                        (pos' :: kept, led2)) in
              enteredBy ts (fst r) (Btc.led_completedTrades (snd r))).
    { intros led0 pos' Hp Hd. cbv zeta. destruct (IH led0 Hd) as [H1 H2].
      destruct (Btc.checkExits strategy_ rate avg7d avg1d sym altCandles candleIdx ts
                  ratio rest led0) as [kept led2].
      cbn [fst snd] in *. split; [constructor; assumption|exact H2]. }
    destruct (String.eqb (Btc.pos_altSymbol pos) sym && Btc.isOpen pos)%bool.
    + destruct (Btc.exitAction strategy_ avg7d avg1d altCandles candleIdx ts ratio pos)
        as [why|sold mark|].
      * apply IH. cbn [Btc.led_completedTrades]. apply Forall_app.
        split; [exact Hdone|]. constructor; [|constructor].
        unfold timed, Btc.closePosition. cbn. split; [reflexivity|lia].
      * apply Hskip; [exact Hpos|exact Hdone].
      * apply Hskip; [exact Hpos|exact Hdone].
    + apply Hskip; [exact Hpos|exact Hdone].
Qed.

Lemma btc_processAlt_timed (strategy_ : Btc.BtcStrategy) (rate : Q)
    (allAltCandles : Btc.AltCandleMap) (altIndexMaps : list (string * list (Z * nat)))
    (avg7d avg1d : Q) (ts : Z) (acc : Btc.Sim * Q)
    (entry : string * list Btc.AltBtcCandle) :
  enteredBy ts (Btc.openPositions (fst acc)) (Btc.completedTrades (fst acc)) ->
  enteredBy ts
    (Btc.openPositions
       (fst (Btc.processAlt strategy_ rate allAltCandles altIndexMaps avg7d avg1d ts
               acc entry)))
    (Btc.completedTrades
       (fst (Btc.processAlt strategy_ rate allAltCandles altIndexMaps avg7d avg1d ts
               acc entry))).
Proof.
  intro Hin. unfold Btc.processAlt.
  destruct acc as [st price]. destruct entry as [sym altCandles]. cbn [fst] in *.
  destruct (JsMap.get String.eqb altIndexMaps sym) as [indexMap|]; [|exact Hin].
  destruct (JsMap.get Z.eqb indexMap ts) as [candleIdx|]; [|exact Hin].
  destruct (nth_error altCandles candleIdx) as [currentCandle|]; [|exact Hin].
  pose proof (btc_checkExits_timed strategy_ rate avg7d avg1d sym altCandles candleIdx ts
                (Btc.close currentCandle) (Btc.openPositions st)
                (Btc.mkLedger (Btc.availableBtc st) (Btc.completedTrades st)
                   (Btc.partialSales st)) Hin) as Hex.
  cbv zeta in Hex.
  destruct (Btc.checkExits _ _ _ _ _ _ _ _ _ _ _) as [open1 led1].
  cbn [fst snd] in Hex. destruct Hex as [Hopen1 Hdone1].
  unfold Btc.checkEntry. cbv zeta.
  repeat match goal with
         | |- context [if ?c then _ else _] => destruct c
         end; cbn [fst Btc.openPositions Btc.completedTrades];
    (split; [|exact Hdone1]);
    first [exact Hopen1
          |apply Forall_app; split; [exact Hopen1|];
           constructor; [cbn [Btc.entryTime]; lia|constructor]].
Qed.

Lemma btc_processTimestamp_timed (strategy_ : Btc.BtcStrategy) (rate : Q)
    (allAltCandles : Btc.AltCandleMap) (altIndexMaps : list (string * list (Z * nat)))
    (st : Btc.Sim) (before ts : Z) :
  (before <= ts)%Z ->
  enteredBy before (Btc.openPositions st) (Btc.completedTrades st) ->
  enteredBy ts
    (Btc.openPositions
       (Btc.processTimestamp strategy_ rate allAltCandles altIndexMaps st ts))
    (Btc.completedTrades
       (Btc.processTimestamp strategy_ rate allAltCandles altIndexMaps st ts)).
Proof.
  intros Hle [Hopen Hdone].
  assert (Hnow : enteredBy ts (Btc.openPositions st) (Btc.completedTrades st)).
  { split; [|exact Hdone]. eapply Forall_impl; [|exact Hopen].
    intros p Hp. cbv beta in Hp. lia. }
  unfold Btc.processTimestamp. cbv zeta.
  assert (Hfold : forall entries acc,
            enteredBy ts (Btc.openPositions (fst acc)) (Btc.completedTrades (fst acc)) ->
            enteredBy ts
              (Btc.openPositions
                 (fst (fold_left
                         (Btc.processAlt strategy_ rate allAltCandles altIndexMaps
                            (Btc.calculateAvgRatioTrend allAltCandles ts 7)
                            (Btc.calculateAvgRatioTrend allAltCandles ts 1) ts)
                         entries acc)))
              (Btc.completedTrades
                 (fst (fold_left
                         (Btc.processAlt strategy_ rate allAltCandles altIndexMaps
                            (Btc.calculateAvgRatioTrend allAltCandles ts 7)
                            (Btc.calculateAvgRatioTrend allAltCandles ts 1) ts)
                         entries acc)))).
  { induction entries as [|e es IH]; intros acc Hacc; cbn [fold_left].
    - exact Hacc.
    - apply IH. apply btc_processAlt_timed. exact Hacc. }
  match goal with
  | |- context [fold_left ?f allAltCandles ?acc] =>
      specialize (Hfold allAltCandles acc Hnow);
      destruct (fold_left f allAltCandles acc) as [st1 price]
  end.
  cbn [fst] in Hfold.
  match goal with |- context [if ?c then _ else _] => destruct c end; exact Hfold.
Qed.

Lemma last_cons_default {A : Type} (l : list A) (x d : A) :
  List.last (x :: l) d = List.last l x.
Proof.
  revert x d. induction l as [|y l IH]; intros x d; [reflexivity|].
  change (List.last (x :: y :: l) d) with (List.last (y :: l) d).
  rewrite (IH y d), (IH y x). reflexivity.
Qed.

Lemma btc_processTimestamps_timed (strategy_ : Btc.BtcStrategy) (rate : Q)
    (allAltCandles : Btc.AltCandleMap) (altIndexMaps : list (string * list (Z * nat)))
    (tss : list Z) (before : Z) (st : Btc.Sim) :
  StronglySorted Z.le (before :: tss) ->
  enteredBy before (Btc.openPositions st) (Btc.completedTrades st) ->
  enteredBy (List.last tss before)
    (Btc.openPositions
       (fold_left (Btc.processTimestamp strategy_ rate allAltCandles altIndexMaps) tss st))
    (Btc.completedTrades
       (fold_left (Btc.processTimestamp strategy_ rate allAltCandles altIndexMaps) tss st)).
Proof.
  revert before st. induction tss as [|t tss IH]; intros before st Hsorted Hst.
  - exact Hst.
  - cbn [fold_left].
    inversion Hsorted as [|? ? Hrest Hall]; subst.
    inversion Hall as [|? ? Hle _]; subst.
    rewrite last_cons_default.
    apply IH; [exact Hrest|].
    apply (btc_processTimestamp_timed _ _ _ _ _ before); assumption.
Qed.

Lemma btc_forceClose_timed (strategy_ : Btc.BtcStrategy) (rate : Q)
    (allAltCandles : Btc.AltCandleMap) (lastTimestamp : Z)
    (positions : list Btc.BtcPosition) (led : Btc.Ledger) :
  enteredBy lastTimestamp positions (Btc.led_completedTrades led) ->
  Forall timed
    (Btc.led_completedTrades
       (snd (Btc.forceClose strategy_ rate allAltCandles lastTimestamp positions led))).
Proof.
  intros [Hopen Hdone]. revert led Hdone.
  induction Hopen as [|pos rest Hpos _ IH]; intros led Hdone.
  - exact Hdone.
  - cbn [Btc.forceClose]. cbv zeta.
    assert (Hskip : Forall timed
              (Btc.led_completedTrades
                 (snd (let '(kept, led1) :=
                         Btc.forceClose strategy_ rate allAltCandles lastTimestamp rest led in
                       (pos :: kept, led1))))).
    { specialize (IH led Hdone).
      destruct (Btc.forceClose strategy_ rate allAltCandles lastTimestamp rest led)
        as [kept led1]. exact IH. }
    destruct (negb (Btc.isOpen pos)); [exact Hskip|].
    destruct (JsMap.get String.eqb allAltCandles (Btc.pos_altSymbol pos)) as [[|c0 cs]|];
      try exact Hskip.
    apply IH. cbn [Btc.led_completedTrades]. apply Forall_app.
    split; [exact Hdone|]. constructor; [|constructor].
    unfold timed, Btc.closePosition. cbn. split; [reflexivity|lia].
Qed.

(** X29.  No BTC trade ends before it starts.  Every trade of a BTC result
    has a duration that is its exit time less its entry time, and that
    duration is not negative: positions are entered at the timestamp in
    hand, closed at a timestamp of the ascending timeline that is not
    earlier, and what is left is closed at the last timestamp. *)
Theorem btc_trades_do_not_end_before_they_start (strategy_ : Btc.BtcStrategy)
    (allAltCandles : Btc.AltCandleMap) :
  Forall (fun t =>
            Btc.duration t = (Btc.exitTime t - Btc.entryTime (Btc.trade_base t))%Z
            /\ (0 <= Btc.duration t)%Z)
    (Btc.trades (Btc.runBtcBacktestOn allAltCandles strategy_)).
Proof.
  unfold Btc.runBtcBacktestOn.
  destruct allAltCandles as [|e es]; [constructor|].
  destruct (Btc.timelineOf (e :: es)) as [|t0 tl] eqn:Etl; [constructor|].
  unfold Btc.resultOf. cbn [Btc.trades]. unfold Btc.finalSim. cbv zeta. rewrite Etl.
  assert (Hsorted : StronglySorted Z.le (t0 :: t0 :: tl)).
  { assert (Hs : StronglySorted Z.lt (t0 :: tl)).
    { rewrite <- Etl. unfold Btc.timelineOf. apply sortNumeric_strict.
      apply (collect_outer Btc.timestamp (e :: es) []). constructor. }
    assert (Hle : StronglySorted Z.le (t0 :: tl)).
    { clear - Hs. induction Hs as [|x l Hs IH Hall]; constructor; [exact IH|].
      eapply Forall_impl; [|exact Hall]. intros a Ha. cbv beta in Ha. lia. }
    constructor; [exact Hle|]. constructor; [lia|].
    inversion Hle; assumption. }
  pose proof (btc_processTimestamps_timed strategy_ (Btc.commissionRateOf strategy_)
                (e :: es) (Btc.buildIndexMaps (e :: es)) (t0 :: tl) t0 Btc.initialSim
                Hsorted) as Hloop.
  match goal with
  | |- context [Btc.forceClose ?s ?r ?m ?l ?ps ?led] =>
      pose proof (btc_forceClose_timed s r m l ps led) as Hfc;
      destruct (Btc.forceClose s r m l ps led) as [open1 led1]
  end.
  cbn [snd Btc.completedTrades] in *. apply Hfc.
  rewrite (last_cons_default tl t0 0%Z), <- (last_cons_default tl t0 t0).
  apply Hloop. split; constructor.
Qed.

(** ** The clock of the USD engine *)

Lemma buildIndexMaps_get (symbolDataMap : Usd.SymbolDataMap) (sym : string)
    (candles : list CandleWithIndicators) :
  NoDup (JsMap.keys symbolDataMap) -> In (sym, candles) symbolDataMap ->
  JsMap.get String.eqb (Usd.buildIndexMaps symbolDataMap) sym
  = Some (Usd.buildIndexMap candles).
Proof.
  intros Hnd Hin. unfold Usd.buildIndexMaps.
  assert (Hfold : forall (l : Usd.SymbolDataMap) (m : Usd.IndexMaps),
            NoDup (JsMap.keys l) ->
            (forall k, In k (JsMap.keys l) -> ~ In k (JsMap.keys m)) ->
            fold_left (fun m entry =>
                         JsMap.set String.eqb m (fst entry) (Usd.buildIndexMap (snd entry)))
              l m
            = m ++ map (fun e => (fst e, Usd.buildIndexMap (snd e))) l).
  { induction l as [|e l IH]; intros m Hl Hfresh; cbn [fold_left map].
    - rewrite app_nil_r. reflexivity.
    - unfold JsMap.keys in Hl. cbn [map] in Hl.
      inversion Hl as [|? ? Hnotin Hl']; subst.
      rewrite JsMap_set_fresh by (apply Hfresh; left; reflexivity).
      rewrite IH.
      + rewrite <- app_assoc. reflexivity.
      + exact Hl'.
      + intros k Hk Hkm. unfold JsMap.keys in Hkm. rewrite map_app in Hkm.
        apply in_app_or in Hkm. destruct Hkm as [Hkm|[Hkm|[]]].
        * apply (Hfresh k); [right; exact Hk|exact Hkm].
        * cbn [fst] in Hkm. subst k. apply Hnotin. exact Hk. }
  rewrite Hfold; [|exact Hnd|intros k _ []]. cbn [app].
  apply (tally_get_of_In String.eqb string_eqb_spec).
  - unfold JsMap.keys. rewrite map_map. cbn [fst]. exact Hnd.
  - apply in_map_iff. exists (sym, candles). split; [reflexivity|exact Hin].
Qed.

Lemma checkExit_timed (cfg : BacktestConfig)
    (candles : list CandleWithIndicators) (candleIdx : nat)
    (multiTfData : option MultiTimeframeData) (candle : CandleWithIndicators)
    (p : Position) :
  match Usd.checkExit cfg candles candleIdx multiTfData candle p with
  | Usd.Closed t =>
      exitTime t = timestamp candle
      /\ duration t = (exitTime t - entryTime (trade_base t))%Z
      /\ entryTime (trade_base t) = entryTime p
  | Usd.StillOpen p' => entryTime p' = entryTime p /\ symbol p' = symbol p
  end.
Proof.
  unfold Usd.checkExit, Usd.stopLossRule.
  destruct (isLong (side p) && Qle_bool (low candle) (stopLoss p)); [repeat split|].
  destruct (isShort (side p) && Qgeb (high candle) (stopLoss p)); [repeat split|].
  cbn [Usd.unlessClosed].
  assert (Htrail : forall q, entryTime (Usd.trailingStopRule candle q) = entryTime q).
  { intro q. unfold Usd.trailingStopRule.
    destruct (atr (indicators candle)) as [a|]; [|reflexivity].
    destruct (Qgtb a 0); [|reflexivity].
    destruct (side q).
    - destruct (Qgeb _ a); [|reflexivity].
      match goal with |- context [if ?b then _ else _] => destruct b end; reflexivity.
    - destruct (Qgeb _ a); [|reflexivity].
      match goal with |- context [if ?b then _ else _] => destruct b end; reflexivity. }
  assert (Hrest : forall p2, entryTime p2 = entryTime p -> symbol p2 = symbol p ->
            match
              Usd.unlessClosed (Usd.takeProfit2Rule cfg candle p2) (fun p3 =>
              Usd.unlessClosed
                (Usd.strategyExitRule cfg candles candleIdx multiTfData candle p3)
                (fun p4 => Usd.StillOpen (Usd.trailingStopRule candle p4)))
            with
            | Usd.Closed t =>
                exitTime t = timestamp candle
                /\ duration t = (exitTime t - entryTime (trade_base t))%Z
                /\ entryTime (trade_base t) = entryTime p
            | Usd.StillOpen p' => entryTime p' = entryTime p /\ symbol p' = symbol p
            end).
  { intros p2 He Hy. unfold Usd.takeProfit2Rule.
    assert (Hlast : match
                      Usd.unlessClosed
                        (Usd.strategyExitRule cfg candles candleIdx multiTfData candle p2)
                        (fun p4 => Usd.StillOpen (Usd.trailingStopRule candle p4))
                    with
                    | Usd.Closed t =>
                        exitTime t = timestamp candle
                        /\ duration t = (exitTime t - entryTime (trade_base t))%Z
                        /\ entryTime (trade_base t) = entryTime p
                    | Usd.StillOpen p' => entryTime p' = entryTime p /\ symbol p' = symbol p
                    end).
    { unfold Usd.strategyExitRule. cbv zeta.
      destruct (exit (shouldExit (strategy cfg) p2 candles candleIdx multiTfData));
        cbn [Usd.unlessClosed]; [repeat split; exact He|].
      rewrite Htrail. destruct (trailingStopRule_status candle p2) as [_ H2].
      split; congruence. }
    destruct (tp1Hit p2); [|exact Hlast].
    destruct (takeProfit2 p2) as [tp2|]; [|exact Hlast].
    cbv zeta. match goal with |- context [if ?b then _ else _] => destruct b end;
      [repeat split; exact He|exact Hlast]. }
  unfold Usd.takeProfit1Rule.
  destruct (negb (tp1Hit p)); [|cbn [Usd.unlessClosed]; apply Hrest; reflexivity].
  cbv zeta. match goal with |- context [if ?b then _ else _] => destruct b end;
    [|cbn [Usd.unlessClosed]; apply Hrest; reflexivity].
  match goal with |- context [match takeProfit2 ?q with _ => _ end] =>
    destruct (takeProfit2 q) end.
  - cbn [Usd.unlessClosed]. apply Hrest; reflexivity.
  - repeat split.
Qed.

Lemma checkExits_timed (symbolDataMap : Usd.SymbolDataMap) (cfg : BacktestConfig)
    (sym : string) (candles : list CandleWithIndicators) (candleIdx : nat)
    (multiTfData : option MultiTimeframeData) (candle : CandleWithIndicators)
    (positions : list Position) (done : list Trade) :
  Forall (enteredAtCandle symbolDataMap (timestamp candle)) positions ->
  Forall usdTimed done ->
  let r := Usd.checkExits cfg sym candles candleIdx multiTfData candle positions done in
  Forall (enteredAtCandle symbolDataMap (timestamp candle)) (fst r)
  /\ Forall usdTimed (snd r).
Proof.
  intros Hopen Hdone. cbv zeta. unfold Usd.checkExits.
  induction Hopen as [|p ps Hp Hps IH]; cbn [fold_right].
  - split; [constructor|exact Hdone].
  - destruct (fold_right _ _ ps) as [kept done1] eqn:E. cbn [fst snd] in IH.
    destruct IH as (Hkept & Hdone1).
    destruct (negb (String.eqb (symbol p) sym)).
    + cbn [fst snd]. split; [constructor; assumption|assumption].
    + pose proof (checkExit_timed cfg candles candleIdx multiTfData candle p) as Hk.
      destruct (Usd.checkExit cfg candles candleIdx multiTfData candle p) as [t|p'].
      * cbn [fst snd]. split; [exact Hkept|].
        apply Forall_app. split; [exact Hdone1|]. constructor; [|constructor].
        destruct Hk as (Hx & Hd & He). destruct Hp as [Hp _].
        split; [exact Hd|]. rewrite Hd, Hx, He. lia.
      * cbn [fst snd]. split; [|exact Hdone1].
        constructor; [|exact Hkept]. destruct Hk as [He Hy]. destruct Hp as [Hp1 Hp2].
        split; [rewrite He; exact Hp1|]. rewrite He, Hy. exact Hp2.
Qed.

Lemma openSignals_entered (cfg : BacktestConfig) (sym : string)
    (candle : CandleWithIndicators) (equity_ : Q)
    (signals : list (EntrySignal * Side)) (positions : list Position) (counter : nat) :
  exists opened,
    fst (Usd.openSignals cfg sym candle equity_ signals (positions, counter))
    = positions ++ opened
    /\ Forall (fun p => entryTime p = timestamp candle /\ symbol p = sym) opened.
Proof.
  revert positions counter.
  induction signals as [|[signal side_] rest IH]; intros positions counter.
  - exists []. cbn [Usd.openSignals fst]. rewrite app_nil_r.
    split; [reflexivity|constructor].
  - cbn [Usd.openSignals].
    destruct (Z.of_nat (List.length positions) >=? maxConcurrentPositions cfg)%Z.
    { exists []. cbn [fst]. rewrite app_nil_r. split; [reflexivity|constructor]. }
    cbv zeta.
    destruct (Qeq_bool _ 0); [apply IH|].
    match goal with |- context [if Qle_bool ?x 0 then _ else _] =>
      destruct (Qle_bool x 0); [apply IH|] end.
    unfold Usd.nextPositionId.
    match goal with |- context [positions ++ [?q]] => set (newPos := q) end.
    destruct (IH (positions ++ [newPos]) (S counter)) as (opened & Heq & Hall).
    exists (newPos :: opened). split.
    + rewrite Heq, <- app_assoc. reflexivity.
    + constructor; [split; reflexivity|exact Hall].
Qed.

Lemma processSymbol_timed (symbolDataMap : Usd.SymbolDataMap) (cfg : BacktestConfig)
    (multiTfBySymbol : Usd.MultiTfBySymbol) (ts : Z)
    (st : Usd.Sim) (entry : string * list CandleWithIndicators) :
  NoDup (JsMap.keys symbolDataMap) -> In entry symbolDataMap ->
  Forall (enteredAtCandle symbolDataMap ts) (Usd.openPositions st) ->
  Forall usdTimed (Usd.completedTrades st) ->
  Forall (enteredAtCandle symbolDataMap ts)
    (Usd.openPositions
       (Usd.processSymbol cfg (Usd.buildIndexMaps symbolDataMap) multiTfBySymbol ts
          st entry))
  /\ Forall usdTimed
       (Usd.completedTrades
          (Usd.processSymbol cfg (Usd.buildIndexMaps symbolDataMap) multiTfBySymbol ts
             st entry)).
Proof.
  intros Hnd Hin Hopen Hdone. unfold Usd.processSymbol. destruct entry as [sym candles].
  rewrite (buildIndexMaps_get symbolDataMap sym candles Hnd Hin).
  pose proof (indexFold_lookup timestamp candles ts) as Hlook.
  change (snd (fold_left (indexStep timestamp) candles (0%nat, [])))
    with (Usd.buildIndexMap candles) in Hlook.
  destruct (JsMap.get Z.eqb (Usd.buildIndexMap candles) ts) as [candleIdx|];
    [|split; assumption].
  destruct Hlook as (c & Hc & Hts & _). rewrite Hc. subst ts.
  pose proof (checkExits_timed symbolDataMap cfg sym candles candleIdx
                (JsMap.get String.eqb multiTfBySymbol sym) c
                (Usd.openPositions st) (Usd.completedTrades st) Hopen Hdone) as Hex.
  cbv zeta in Hex.
  destruct (Usd.checkExits cfg sym candles candleIdx
              (JsMap.get String.eqb multiTfBySymbol sym) c
              (Usd.openPositions st) (Usd.completedTrades st)) as [open1 done1].
  cbn [fst snd] in Hex. destruct Hex as (Hopen1 & Hdone1).
  unfold Usd.checkEntries. cbn [fst].
  destruct (Z.of_nat (List.length open1) <? maxConcurrentPositions cfg)%Z;
    [|split; assumption].
  match goal with |- context [Usd.openSignals cfg sym c ?e ?sigs _] =>
    destruct (openSignals_entered cfg sym c e sigs open1 (Usd.sim_counter st))
      as (opened & Heq & Hall);
    destruct (Usd.openSignals cfg sym c e sigs (open1, Usd.sim_counter st))
      as [open2 counter2]
  end.
  cbn [fst] in Heq. subst open2. cbn [Usd.openPositions Usd.completedTrades].
  split; [|exact Hdone1]. apply Forall_app. split; [exact Hopen1|].
  eapply Forall_impl; [|exact Hall]. intros p [He Hy]. split; [lia|].
  rewrite He, Hy. unfold candleTimes.
  rewrite (tally_get_of_In String.eqb string_eqb_spec symbolDataMap sym candles Hnd Hin).
  apply in_map. apply nth_error_In in Hc. exact Hc.
Qed.

Lemma processTimestamp_timed (symbolDataMap : Usd.SymbolDataMap) (cfg : BacktestConfig)
    (multiTfBySymbol : Usd.MultiTfBySymbol) (lastTs before ts : Z) (st : Usd.Sim) :
  NoDup (JsMap.keys symbolDataMap) -> (before <= ts)%Z ->
  Forall (enteredAtCandle symbolDataMap before) (Usd.openPositions st) ->
  Forall usdTimed (Usd.completedTrades st) ->
  Forall (enteredAtCandle symbolDataMap ts)
    (Usd.openPositions
       (Usd.processTimestamp cfg symbolDataMap (Usd.buildIndexMaps symbolDataMap)
          multiTfBySymbol lastTs st ts))
  /\ Forall usdTimed
       (Usd.completedTrades
          (Usd.processTimestamp cfg symbolDataMap (Usd.buildIndexMaps symbolDataMap)
             multiTfBySymbol lastTs st ts)).
Proof.
  intros Hnd Hle Hopen Hdone.
  assert (Hnow : Forall (enteredAtCandle symbolDataMap ts) (Usd.openPositions st)).
  { eapply Forall_impl; [|exact Hopen]. intros p [H1 H2]. split; [lia|exact H2]. }
  unfold Usd.processTimestamp.
  assert (H1 : forall entries st0,
             (forall e, In e entries -> In e symbolDataMap) ->
             Forall (enteredAtCandle symbolDataMap ts) (Usd.openPositions st0) ->
             Forall usdTimed (Usd.completedTrades st0) ->
             Forall (enteredAtCandle symbolDataMap ts)
               (Usd.openPositions
                  (fold_left (Usd.processSymbol cfg (Usd.buildIndexMaps symbolDataMap)
                                multiTfBySymbol ts) entries st0))
             /\ Forall usdTimed
                  (Usd.completedTrades
                     (fold_left (Usd.processSymbol cfg (Usd.buildIndexMaps symbolDataMap)
                                   multiTfBySymbol ts) entries st0))).
  { induction entries as [|e es IH]; intros st0 Hsub Ho Hd; cbn [fold_left].
    - split; assumption.
    - destruct (processSymbol_timed symbolDataMap cfg multiTfBySymbol ts st0 e Hnd
                  (Hsub e (or_introl eq_refl)) Ho Hd) as [Ho1 Hd1].
      apply IH; [|exact Ho1|exact Hd1].
      intros e' He'. apply Hsub. right. exact He'. }
  destruct (H1 symbolDataMap st (fun e He => He) Hnow Hdone) as [Ho Hd]. cbv zeta.
  match goal with |- context [if ?b then _ else _] => destruct b end;
    cbn [Usd.openPositions Usd.completedTrades]; split; assumption.
Qed.

Lemma processTimestamps_timed (symbolDataMap : Usd.SymbolDataMap) (cfg : BacktestConfig)
    (multiTfBySymbol : Usd.MultiTfBySymbol) (lastTs : Z) (tss : list Z) (before : Z)
    (st : Usd.Sim) :
  NoDup (JsMap.keys symbolDataMap) -> StronglySorted Z.le (before :: tss) ->
  Forall (enteredAtCandle symbolDataMap before) (Usd.openPositions st) ->
  Forall usdTimed (Usd.completedTrades st) ->
  Forall (enteredAtCandle symbolDataMap (List.last tss before))
    (Usd.openPositions
       (fold_left (Usd.processTimestamp cfg symbolDataMap
                     (Usd.buildIndexMaps symbolDataMap) multiTfBySymbol lastTs) tss st))
  /\ Forall usdTimed
       (Usd.completedTrades
          (fold_left (Usd.processTimestamp cfg symbolDataMap
                        (Usd.buildIndexMaps symbolDataMap) multiTfBySymbol lastTs) tss st)).
Proof.
  intro Hnd. revert before st.
  induction tss as [|t tss IH]; intros before st Hsorted Hopen Hdone.
  - split; assumption.
  - cbn [fold_left].
    inversion Hsorted as [|? ? Hrest Hall]; subst.
    inversion Hall as [|? ? Hle _]; subst.
    rewrite last_cons_default.
    destruct (processTimestamp_timed symbolDataMap cfg multiTfBySymbol lastTs before t st
                Hnd Hle Hopen Hdone) as [Ho Hd].
    apply IH; assumption.
Qed.

Lemma last_is_greatest (l : list Z) (x d : Z) :
  StronglySorted Z.le l -> In x l -> (x <= List.last l d)%Z.
Proof.
  intros Hs. revert x d. induction Hs as [|y l Hs IH Hall]; intros x d Hin; [destruct Hin|].
  rewrite last_cons_default. destruct Hin as [->|Hin].
  - destruct l as [|z l]; [cbn; lia|].
    rewrite Forall_forall in Hall.
    assert (z <= List.last (z :: l) x)%Z by (apply IH; left; reflexivity).
    assert (x <= z)%Z by (apply Hall; left; reflexivity).
    rewrite last_cons_default in *. lia.
  - destruct l as [|z l]; [destruct Hin|].
    rewrite <- (last_cons_default (z :: l) y y).
    rewrite !last_cons_default. rewrite <- (last_cons_default l z y).
    apply IH. exact Hin.
Qed.

Lemma forceClose_timed (cfg : BacktestConfig) (symbolDataMap : Usd.SymbolDataMap)
    (now : Z) (positions : list Position) (done : list Trade) :
  ascendingData symbolDataMap ->
  Forall (enteredAtCandle symbolDataMap now) positions -> Forall usdTimed done ->
  Forall usdTimed (Usd.forceClose cfg symbolDataMap positions done).
Proof.
  intros Hasc Hopen. revert done. unfold Usd.forceClose.
  induction Hopen as [|p ps Hp Hps IH]; intros done Hdone; cbn [fold_left].
  - exact Hdone.
  - apply IH. destruct Hp as [_ Hin]. unfold candleTimes in Hin.
    destruct (JsMap.get String.eqb symbolDataMap (symbol p)) as [candles|] eqn:Eget;
      [|exact Hdone].
    destruct candles as [|c0 cs]; [exact Hdone|].
    apply Forall_app. split; [exact Hdone|]. constructor; [|constructor].
    unfold usdTimed, Usd.closePosition. cbv zeta.
    cbn [duration exitTime trade_base entryTime Usd.withCommissionClosed].
    split; [reflexivity|].
    assert (Hsorted : StronglySorted Z.le (map timestamp (c0 :: cs))).
    { unfold ascendingData in Hasc. rewrite Forall_forall in Hasc.
      apply (Hasc (symbol p, c0 :: cs)). apply JsMap_get_In. exact Eget. }
    pose proof (last_is_greatest (map timestamp (c0 :: cs)) (entryTime p) (timestamp c0)
                  Hsorted Hin) as Hlast.
    assert (Hmap : List.last (map timestamp (c0 :: cs)) (timestamp c0)
                   = timestamp (List.last (c0 :: cs) c0)).
    { clear. generalize c0 at 2 4. induction (c0 :: cs) as [|x l IHl]; intro d.
      - reflexivity.
      - cbn [map]. destruct l as [|y l]; [reflexivity|].
        change (List.last (x :: y :: l) d) with (List.last (y :: l) d).
        change (List.last (timestamp x :: map timestamp (y :: l)) (timestamp d))
          with (List.last (map timestamp (y :: l)) (timestamp d)).
        apply IHl. }
    rewrite Hmap in Hlast. lia.
Qed.

(** X30.  No USD trade ends before it starts, on data in ascending order.
    When the candles of every loaded symbol come in ascending order of
    timestamp, every trade of a run has a duration that is its exit time
    less its entry time and is not negative: a position is entered at the
    timestamp of its candle, closed inside the loop at a later timestamp of
    the timeline, or closed at the end at the last candle of its symbol. *)
Theorem usd_trades_do_not_end_before_they_start
    (Math_sqrt : Q -> Q) (utcMonthKey : Z -> string)
    (localeCompare : string -> string -> comparison)
    (loadCandles : string -> string -> option (list Candle))
    (calculateIndicators : list Candle -> list CandleWithIndicators)
    (w : World) (cfg : BacktestConfig)
    (Hascending : ascendingData (fst (Usd.loadData loadCandles calculateIndicators cfg))) :
  Forall (fun t =>
            duration t = (exitTime t - entryTime (trade_base t))%Z
            /\ (0 <= duration t)%Z)
    (trades (Usd.runBacktest Math_sqrt utcMonthKey localeCompare loadCandles
               calculateIndicators w cfg)).
Proof.
  assert (Htrades : trades (Usd.runBacktest Math_sqrt utcMonthKey localeCompare loadCandles
                              calculateIndicators w cfg)
                    = Usd.forceClose cfg
                        (fst (Usd.loadData loadCandles calculateIndicators cfg))
                        (Usd.openPositions
                           (Usd.mainLoop loadCandles calculateIndicators w cfg))
                        (Usd.completedTrades
                           (Usd.mainLoop loadCandles calculateIndicators w cfg))).
  { unfold Usd.runBacktest, Usd.simulate. cbv zeta.
    match goal with |- context [if ?b then _ else _] => destruct b end; reflexivity. }
  rewrite Htrades. clear Htrades.
  pose proof (loadData_NoDup loadCandles calculateIndicators cfg) as Hnd.
  unfold Usd.mainLoop.
  destruct (Usd.loadData loadCandles calculateIndicators cfg) as [dm mt].
  cbn [fst] in *.
  set (tss := sortNumeric (Usd.collectTimestamps dm)).
  assert (Hs : StronglySorted Z.le tss).
  { assert (Hlt : StronglySorted Z.lt tss).
    { unfold tss, Usd.collectTimestamps. apply sortNumeric_strict.
      apply (collect_outer timestamp dm []). constructor. }
    clear - Hlt. induction Hlt as [|x l Hs IH Hall]; constructor; [exact IH|].
    eapply Forall_impl; [|exact Hall]. intros a Ha. cbv beta in Ha. lia. }
  destruct tss as [|t0 tl] eqn:Etss.
  - cbn [fold_left Usd.openPositions Usd.completedTrades Usd.forceClose]. constructor.
  - assert (Hs2 : StronglySorted Z.le (t0 :: t0 :: tl)).
    { constructor; [exact Hs|]. constructor; [lia|]. inversion Hs; assumption. }
    destruct (processTimestamps_timed dm cfg mt (List.last (t0 :: tl) 0%Z) (t0 :: tl) t0
                (Usd.mkSim (startingCapital cfg) [] [] [] 0%nat 0%nat) Hnd Hs2)
      as [Hopen Hdone]; [constructor|constructor|].
    apply (forceClose_timed cfg dm (List.last (t0 :: tl) t0)); assumption.
Qed.

Lemma usd_trades_do_not_end_before_they_start_witness :
  Forall (fun t =>
            duration t = (exitTime t - entryTime (trade_base t))%Z
            /\ (0 <= duration t)%Z)
    (trades (Usd.runBacktest Runtime.Math_sqrt Runtime.utcMonthKey Runtime.localeCompare
               Runtime.scenarioAFeed Runtime.calculateIndicators Runtime.world0
               Runtime.scenarioA)).
Proof.
  apply (usd_trades_do_not_end_before_they_start Runtime.Math_sqrt Runtime.utcMonthKey
           Runtime.localeCompare Runtime.scenarioAFeed Runtime.calculateIndicators
           Runtime.world0 Runtime.scenarioA).
  unfold ascendingData.
  match goal with
  | |- Forall ?P ?l => let l' := eval vm_compute in l in change (Forall P l')
  end.
  repeat (constructor; cbn [map snd timestamp]); lia.
Defined.
